(* ===== verification/_CoqProject ===== *)
-Q . S2P
Prelude.v
Mem.v
HeapSpec.v
Paging.v
Utils.v
Checksum.v
Net.v
UdpQueue.v
NetProofs.v
Socket.v
SocketProofs.v
Sched.v
SchedProofs.v
Image.v
Fork.v
SchedReach.v
Elf.v
Tty.v
TtyProofs.v
Disk.v
Fat16.v
Fat16Proofs.v
FatNames.v
Vfs.v
VfsProofs.v
ElfVfs.v
Frames.v
Syscall.v
SyscallProofs.v
Ports.v
Rtc.v
Cpu.v
CpuProofs.v
Pci.v
PciProofs.v
E1k.v
E1kCard.v
E1kProofs.v
E1kInit.v
E1kDemo.v
E1kUdp.v
LibcDiv.v
LibcString.v
LibcSort.v
LibcNum.v
Serial.v
Diagnostics.v
Cpuid.v
LibcFmt.v
LibcHeap.v
LibcStream.v
LibcStreamProofs.v
LibcMisc.v
Programs.v
