(* ===== verification/Prelude.v ===== *)
(** * mboot: a verification of the kernel's core

    mboot is a hobby operating system for the i386 in C: a boot loader (stage1,
    assembly) starts a kernel (stage2) that sets up memory and devices, runs
    programs as tasks in ring 0 with their own page directories, and gives them
    files, terminals and UDP networking through descriptors.

    ** Parts and files

    Each file models the C file or files named, with the same function names
    where possible; data that C keeps in structures are records, and the
    functions are state-passing functions in the monad [M] defined below.

    - [Prelude]: machine integers ([u8], [u16], [u32], [i32]), the monad [M]
      (return, halt of the machine, exhausted fuel), byte memory [ram].
    - [Mem]: stage2/mem.c, the E820 map and the kernel heap: [kmalloc], [kfree],
      splitting, coalescing, the bump region. [HeapSpec]: the class [KernelHeap],
      what the heap promises to its clients, with stage2/mem.c as an instance.
    - [Paging]: stage2/paging.c: page directories and tables in byte memory, with
      the MMU's page walk [translate] as the reference.
    - [Utils]: stage2/utils.c and inc/utils.h.
    - [Checksum], [Net], [UdpQueue], [NetProofs]: stage2/net/ (Ethernet, ARP, IPv4,
      ICMP, UDP); the adapter is the class [Nic].
    - [Socket], [SocketProofs]: stage2/net/socket.c and net.c.
    - [Sched], [SchedProofs]: stage2/scheduler.c: tasks, the run ring, blocking and
      waking, process creation, exec and fork; the descriptor layer is the class
      [FdBackend]. [Image]: what building a program image leaves in a new address
      space. [Fork]: the child that fork creates. [SchedReach]: sequences of
      operations, with the three ways tasks are created on a real heap.
    - [Elf]: stage2/elf.c, the program loader, over the class [FileStore]; [ElfVfs]:
      the descriptor layer over FAT16 as its instance.
    - [Tty], [TtyProofs]: stage2/dev/tty.c, vga.c, keyboard.c.
    - [Disk]: stage2/dev/disk.c over a drive given by its ports; [BlockDev] is what
      the file system is verified against.
    - [Fat16], [Fat16Proofs], [FatNames]: stage2/fat16.c.
    - [Vfs], [VfsProofs]: stage2/vfs.c, joining sockets, terminals, the file system
      and devices behind descriptors; an instance of [FdBackend]. [Frames]: which
      operations of the layer leave descriptors and references alone.
    - [Syscall], [SyscallProofs]: the system calls of stage2/cpu/interrupts/idt.c,
      over the scheduler, the loader, the descriptors and the sockets.
    - [Ports]: stage2/io.c; the class [Ports] is what lies behind the port
      instructions, and each driver states what it relies on of its device.
    - [Cpu], [CpuProofs]: stage2/cpu/pic, pit, gdt.c, the interrupt table, the
      dispatcher of hardware interrupts and the interrupt part of loader.c.
    - [Rtc]: stage2/dev/rtc.c. [Pci], [PciProofs]: stage2/dev/pci.c.
    - [E1k]: stage2/dev/e1k.c, the network card driver; [E1kCard]: the card's rings as
      a step relation; [E1kProofs], [E1kInit], [E1kDemo]: sending, receiving,
      initialisation, a simulated card. [E1kUdp]: the driver as the adapter [Nic] of
      the network stack.
    - [Serial]: stage2/dev/serial.c, the log; [Diagnostics]: the exception report of
      stage2/cpu/interrupts/isr.c; [Cpuid]: stage2/cpu/cpuid.c.
    - [LibcString], [LibcNum], [LibcFmt], [LibcHeap], [LibcSort], [LibcDiv],
      [LibcStream], [LibcStreamProofs], [LibcMisc]: the C library of the user
      programs, user/src/libc.c: strings, numbers as text, formatted printing, the
      bump heap, [qsort], 64-bit division, the system-call wrappers and streams over
      the class [Sys], time, [setjmp]. [Programs]: user/src/init.c and getty.c.

    ** Theorems

    - Memory: allocations are disjoint and leave other blocks alone, frees merge
      neighbours, the heap invariant holds in every reachable state; mapping
      changes one page, a cloned address space shares no writable page with its
      parent.
    - Network: what is sent is what is received, through every check of the
      receive path; ARP; malformed packets change nothing; the datagram ring is a
      FIFO; the Internet checksum; sockets as byte streams with reference counts.
    - Tasks: round-robin order and fairness, exact wake-ups, waiting for a task,
      the invariant of the run ring and of the heap from boot on, under any
      operations, creation of tasks included; the image of a program, built from the
      segment array that the loader fills, holds the bytes of its ELF file, page by
      page, and zeros; a forked child has its own copy of every page of its parent.
    - Terminals: the screen always shows the active terminal and no store leaves its
      array, keyboard included; reading is line editing.
    - Files: names round-trip through the directory, opening finds the file,
      reads return the bytes of the cluster chain, a disk read always returns.
    - Descriptors: in the descriptor layer every descriptor is well typed and the
      reference counts are exact, also across fork and exit (paths whose handles
      collide with sockets apart); after any sequence of system calls no descriptor
      of any task dangles: counts are at least the number of descriptors, and can be
      larger, as the leaks show; socket() leaves nothing behind when it fails.
    - Interrupts and devices: the boot sequence routes the exceptions, the system
      call and the lines of the timer, keyboard and card, and leaves every other gate
      absent; an interrupt runs its handler once and is acknowledged; enumeration
      finds the functions on the bus; the card driver sends each frame once and whole,
      delivers in order the buffers that end a packet without errors and keeps its
      ring invariant, and a datagram crosses the stack and the card; log lines and
      the text of /dev/cpuinfo are complete.
    - The C library: [qsort] sorts, [vsnprintf] writes exactly the text its format
      and arguments mean and stays in its buffer, integers survive printing and
      reading, [memmove] is right under overlap, the division helpers divide;
      streams refine a byte stream with pushback and [fprintf] sends its text (when
      the text or its directives are short enough for the buffer);
      [longjmp] returns from [setjmp]; init starts a getty on every terminal.
    - Some theorems state defects of the code: a datagram longer than its slot, a
      wait ended by an unrelated wake-up, handles shared by UDP terminals and
      sockets, an allocation size that wraps.

    ** Bounds and fuel

    Loops over linked structures and retry loops take fuel and answer [NoFuel]
    when it is exhausted; the theorems give enough fuel from the size of the
    structure (blocks of the heap, tasks of the ring, clusters of a file, polls
    of a timeout) and conclude that the result is [Ret] or, for a heap that is
    exhausted, [Halted]. A call that blocks takes a schedule, the list of what
    other tasks and interrupts do while it sleeps.

    ** Not modelled

    The boot sector and the assembly stubs (entry, interrupt and context-switch
    code): addresses of stubs are parameters. Floating point: the mathematical
    functions, [strtod], the printers of doubles (parameters of [LibcFmt]) and the
    arithmetic of the serial log's [%f] (the class [FloatEval]). Hardware is stated
    as classes of what data sheets promise ([Ports] and its subclasses, [Mmio],
    [E1000]), with simulated devices as instances. The kernel under the C library is
    the class [Sys], not the dispatcher of [Syscall], whose user memory goes through
    page tables. The test programs and the vendored Lua interpreter are left out.
    Text that goes to the log is left out of the other components.
    Memory attributes, caches and the interleaving of interrupts
    inside a function are not represented; interrupts act between operations. *)
From stdpp Require Export base gmap list strings sorting.
From Stdlib Require Export ZArith Lia.
Open Scope Z_scope.

(** * Machine integers *)

Definition u8 (x : Z) : Z := x mod 256.
Definition u16 (x : Z) : Z := x mod 65536.
Definition u32 (x : Z) : Z := x mod 4294967296.
Definition u64 (x : Z) : Z := x mod 18446744073709551616.

(** Reinterpretation of a 32-bit pattern as a C [int]. *)
Definition i32 (x : Z) : Z :=
  let y := u32 x in if y <? 2147483648 then y else y - 4294967296.

(** Reinterpretation of an 8-bit pattern as a (signed) C [char]. *)
Definition i8 (x : Z) : Z :=
  let y := u8 x in if y <? 128 then y else y - 256.

Abbreviation in_u8 x := (0 <= x < 256).
Abbreviation in_u16 x := (0 <= x < 65536).
Abbreviation in_u32 x := (0 <= x < 4294967296).

Create HintDb mboot.

Lemma u8_small x : in_u8 x -> u8 x = x.
Proof. intros; unfold u8; apply Z.mod_small; lia. Qed.
Lemma u16_small x : in_u16 x -> u16 x = x.
Proof. intros; unfold u16; apply Z.mod_small; lia. Qed.
Lemma u32_small x : in_u32 x -> u32 x = x.
Proof. intros; unfold u32; apply Z.mod_small; lia. Qed.
Lemma u8_range x : in_u8 (u8 x).
Proof. unfold u8; apply Z.mod_pos_bound; lia. Qed.
Lemma u16_range x : in_u16 (u16 x).
Proof. unfold u16; apply Z.mod_pos_bound; lia. Qed.
Lemma u32_range x : in_u32 (u32 x).
Proof. unfold u32; apply Z.mod_pos_bound; lia. Qed.
#[export] Hint Resolve u8_range u16_range u32_range : mboot.

(** [usimp] removes the wrap-around of every 32-bit sum whose bounds are in
    the context; [usimp in H] does the same in a hypothesis. *)
Ltac usimp :=
  repeat match goal with |- context [u32 ?x] => rewrite (u32_small x) by lia end.
Tactic Notation "usimp" "in" hyp(H) :=
  repeat match type of H with context [u32 ?x] => rewrite (u32_small x) in H by lia end.

(** Linear arithmetic with division and modulo by constants. *)
Ltac zlia := Z.div_mod_to_equations; lia.

(** Case analysis on the integer comparisons the C code branches on. *)
Ltac case_z :=
  match goal with
  | |- context [?a =? ?b] => destruct (Z.eqb_spec a b)
  | |- context [?a <? ?b] => destruct (Z.ltb_spec a b)
  | |- context [?a <=? ?b] => destruct (Z.leb_spec a b)
  end.

(** Bits below a power of two cleared: [x & ~(2^k - 1)] on a 32-bit word. *)
Lemma land_clear_low a k :
  0 <= k <= 32 -> in_u32 a ->
  Z.land a (4294967296 - 2 ^ k) = a / 2 ^ k * 2 ^ k.
Proof.
  intros Hk Ha.
  assert (E : 4294967296 - 2 ^ k = Z.shiftl (Z.ones (32 - k)) k).
  { rewrite Z.shiftl_mul_pow2, Z.ones_equiv by lia.
    replace 4294967296 with (2 ^ (32 - k) * 2 ^ k)
      by (rewrite <- Z.pow_add_r by lia; replace (32 - k + k) with 32 by lia; reflexivity).
    unfold Z.pred; ring. }
  assert (E2 : Z.land a (Z.shiftl (Z.ones (32 - k)) k)
               = Z.shiftl (Z.land (Z.shiftr a k) (Z.ones (32 - k))) k).
  { apply Z.bits_inj'; intros n Hn.
    rewrite Z.land_spec, !Z.shiftl_spec by lia.
    destruct (Z.ltb_spec n k).
    - rewrite !(Z.testbit_neg_r _ (n - k)) by lia. apply andb_false_r.
    - rewrite Z.land_spec, Z.shiftr_spec by lia. do 2 f_equal; lia. }
  rewrite E, E2, Z.land_ones, Z.shiftl_mul_pow2, Z.shiftr_div_pow2 by lia.
  f_equal. apply Z.mod_small. split.
  - apply Z.div_pos; [lia | apply Z.pow_pos_nonneg; lia].
  - apply Z.div_lt_upper_bound; [apply Z.pow_pos_nonneg; lia|].
    rewrite <- Z.pow_add_r by lia. replace (k + (32 - k)) with 32 by lia. lia.
Qed.

(** Bits below and at or above position [k] do not meet. *)
Lemma land_disjoint a b k : 0 <= k -> a mod 2 ^ k = 0 -> 0 <= b < 2 ^ k -> Z.land a b = 0.
Proof.
  intros Hk Ha Hb. apply Z.bits_inj'; intros n Hn. rewrite Z.land_spec, Z.bits_0.
  destruct (Z.ltb_spec n k).
  - rewrite <- (Z.mod_pow2_bits_low a k n), Ha, Z.bits_0 by lia. reflexivity.
  - destruct (Z.eq_dec b 0) as [->|]; [by rewrite Z.bits_0, andb_false_r|].
    rewrite (Z.bits_above_log2 b n), andb_false_r; [reflexivity|lia|].
    apply Z.log2_lt_pow2; [lia|]. eapply Z.lt_le_trans; [apply Hb|].
    apply Z.pow_le_mono_r; lia.
Qed.

(** A disjunction of bit patterns that do not overlap is a sum. *)
Lemma lor_add_disjoint a b k :
  0 <= k -> a mod 2 ^ k = 0 -> 0 <= b < 2 ^ k -> Z.lor a b = a + b.
Proof.
  intros Hk Ha Hb. pose proof (land_disjoint a b k Hk Ha Hb) as Hd.
  rewrite <- Z.lxor_lor, <- Z.add_nocarry_lxor by exact Hd. reflexivity.
Qed.

(** A page-aligned address with flags in its low twelve bits. *)
Lemma flags_of_entry a f k :
  a mod 4096 = 0 -> 0 <= f < 4096 -> 0 <= k < 4096 -> Z.land (a + f) k = Z.land f k.
Proof.
  intros Ha Hf Hk. rewrite <- (lor_add_disjoint a f 12) by (change (2 ^ 12) with 4096; lia).
  rewrite Z.land_lor_distr_l, (land_disjoint a k 12) by (change (2 ^ 12) with 4096; lia). apply Z.lor_0_l.
Qed.

Lemma frame_of_entry a f :
  in_u32 a -> a mod 4096 = 0 -> 0 <= f < 4096 -> Z.land (a + f) 4294963200 = a.
Proof.
  intros Hi Ha Hf. pose proof (Z.div_mod a 4096 ltac:(lia)).
  assert (in_u32 (a + f)).
  { split; [lia|]. assert (a / 4096 < 1048576) by (apply Z.div_lt_upper_bound; lia). lia. }
  change 4294963200 with (4294967296 - 2 ^ 12). rewrite land_clear_low by lia.
  change (2 ^ 12) with 4096.
  replace (a + f) with (f + a / 4096 * 4096) by lia.
  rewrite Z.div_add, Z.div_small by lia. lia.
Qed.

(** * Computations that thread a state and may halt the machine

    [HALT()] stops the CPU ([Halted]); pointer-chasing loops take their fuel
    as an explicit argument and answer [NoFuel] when it is exhausted. *)

Inductive res (S A : Type) : Type :=
| Ret (a : A) (s : S)
| Halted (s : S)
| NoFuel.
Arguments Ret {S A} a s.
Arguments Halted {S A} s.
Arguments NoFuel {S A}.

Definition M (S A : Type) : Type := S -> res S A.

#[export] Instance M_ret S : MRet (M S) := fun A a s => Ret a s.
#[export] Instance M_bind S : MBind (M S) := fun A B f c s =>
  match c s with
  | Ret a s' => f a s'
  | Halted s' => Halted s'
  | NoFuel => NoFuel
  end.

Definition gets {S A} (f : S -> A) : M S A := fun s => Ret (f s) s.
Definition modify {S} (f : S -> S) : M S unit := fun s => Ret tt (f s).
Definition halt {S A} : M S A := fun s => Halted s.
Definition out_of_fuel {S A} : M S A := fun _ => NoFuel.

Lemma bind_ret {S A B} (f : A -> M S B) (c : M S A) s a s' :
  c s = Ret a s' -> (c ≫= f) s = f a s'.
Proof. intros E. unfold mbind, M_bind. by rewrite E. Qed.

Lemma bind_halted {S A B} (f : A -> M S B) (c : M S A) s s' :
  c s = Halted s' -> (c ≫= f) s = Halted s'.
Proof. intros E. unfold mbind, M_bind. by rewrite E. Qed.

Lemma bind_inv {S A B} (f : A -> M S B) (c : M S A) s b s2 :
  (c ≫= f) s = Ret b s2 -> exists a s1, c s = Ret a s1 /\ f a s1 = Ret b s2.
Proof.
  unfold mbind, M_bind. destruct (c s) as [a s1| |] eqn:E; intros H; try discriminate.
  eauto.
Qed.

(** A computation on a part of the state, run on the whole. *)
Definition zoom {S T A} (get : T -> S) (put : S -> T -> T) (c : M S A) : M T A :=
  fun t => match c (get t) with
           | Ret a s => Ret a (put s t)
           | Halted s => Halted (put s t)
           | NoFuel => NoFuel
           end.

(** [for (i = 0; i < n; i++) body(i)]. *)
Fixpoint for_loop {S} (n : nat) (i : Z) (body : Z -> M S unit) : M S unit :=
  match n with
  | O => mret tt
  | S n' => body i ;; for_loop n' (i + 1) body
  end.

(** [ends r Q]: the computation did not run out of fuel, and when it returned
    (rather than halting the machine) its result satisfies [Q]. *)
Definition ends {S A} (r : res S A) (Q : A -> S -> Prop) : Prop :=
  match r with Ret a s => Q a s | Halted _ => True | NoFuel => False end.

Lemma ends_mono {S A} (r : res S A) (P Q : A -> S -> Prop) :
  ends r P -> (forall a s, P a s -> Q a s) -> ends r Q.
Proof. destruct r; simpl; auto. Qed.

Lemma ends_bind {S A B} (c : M S A) (k : A -> M S B) s (Q : B -> S -> Prop) :
  ends (c s) (fun a s' => ends (k a s') Q) -> ends ((c ≫= k) s) Q.
Proof. unfold mbind, M_bind. destruct (c s); simpl; auto. Qed.

Lemma ends_ret {S A} (a : A) (s : S) (Q : A -> S -> Prop) :
  Q a s -> ends ((mret a : M S A) s) Q.
Proof. done. Qed.

(** A sequence that returns is two runs that return. *)
Lemma bind_Ret {S A B} (c : M S A) (k : A -> M S B) s b s2 :
  (c ≫= k) s = Ret b s2 -> exists a s1, c s = Ret a s1 /\ k a s1 = Ret b s2.
Proof. unfold mbind, M_bind. destruct (c s) as [a s1| |]; [|done|done]. by exists a, s1. Qed.

(** Sequencing with a postcondition of the first part. *)
Lemma ends_seq {S A B} (c : M S A) (k : A -> M S B) s (P : A -> S -> Prop) (Q : B -> S -> Prop) :
  ends (c s) P -> (forall a s', P a s' -> ends (k a s') Q) -> ends ((c ≫= k) s) Q.
Proof. intros H1 H2. apply ends_bind. by eapply ends_mono. Qed.

Lemma ends_for {S} (I : Z -> S -> Prop) (body : Z -> M S unit) n : forall i s,
  (forall j s, i <= j < i + Z.of_nat n -> I j s -> ends (body j s) (fun _ s' => I (j + 1) s')) ->
  I i s -> ends (for_loop n i body s) (fun _ s' => I (i + Z.of_nat n) s').
Proof.
  induction n as [|n IH]; intros i s Hb Hi; cbn [for_loop].
  - apply ends_ret. by rewrite Z.add_0_r.
  - eapply ends_seq; [apply Hb; [lia|done]|]. intros [] s' Hs'.
    eapply ends_mono; [apply IH; [intros j s1 Hj; apply Hb; lia|exact Hs']|].
    intros [] s1 H1. by replace (i + Z.of_nat (Datatypes.S n)) with (i + 1 + Z.of_nat n) by lia.
Qed.

(** [runs c s Q]: the computation returns, with a result and a state in [Q]. *)
Definition runs {S A} (c : M S A) (s : S) (Q : A -> S -> Prop) : Prop := exists a s', c s = Ret a s' /\ Q a s'.

Lemma runs_bind {S A B} (c : M S A) (f : A -> M S B) s Q : runs c s (fun a s' => runs (f a) s' Q) -> runs (c ≫= f) s Q.
Proof. intros (a & s' & E & R). unfold runs. by rewrite (bind_ret _ _ _ _ _ E). Qed.
Lemma runs_ret {S A} (a : A) (s : S) (Q : A -> S -> Prop) : Q a s -> runs (mret a : M S A) s Q.
Proof. intros HQ. by exists a, s. Qed.
Lemma runs_mono {S A} (c : M S A) s (Q R : A -> S -> Prop) : runs c s Q -> (forall a s', Q a s' -> R a s') -> runs c s R.
Proof. intros (a & s' & E & HQ) Hm. exists a, s'. auto. Qed.
Lemma runs_gets {S A} (f : S -> A) s (Q : A -> S -> Prop) : Q (f s) s -> runs (gets f) s Q.
Proof. intros HQ. by exists (f s), s. Qed.
Lemma runs_modify {S} (f : S -> S) s (Q : unit -> S -> Prop) : Q tt (f s) -> runs (modify f) s Q.
Proof. intros HQ. by exists tt, (f s). Qed.

(** * Byte-addressed memory

    Addresses are 32-bit numbers; a byte never written reads as 0, and every
    theorem quantifies over the memory. *)

Abbreviation ram := (gmap Z Z).

Definition ld8 (m : ram) (a : Z) : Z := default 0 (m !! a).
Definition st8 (a v : Z) (m : ram) : ram := <[a := u8 v]> m.

Definition ld32 (m : ram) (a : Z) : Z :=
  ld8 m a + 256 * ld8 m (a + 1) + 65536 * ld8 m (a + 2) + 16777216 * ld8 m (a + 3).
Definition st32 (a v : Z) (m : ram) : ram :=
  st8 (a + 3) (Z.shiftr v 24) (st8 (a + 2) (Z.shiftr v 16)
    (st8 (a + 1) (Z.shiftr v 8) (st8 a v m))).

(** Every byte of a memory is a byte. *)
Definition ram_ok (m : ram) : Prop := forall a, in_u8 (ld8 m a).

(** Memories that read the same; coarser than equality of the maps, because
    an unwritten byte and a written 0 cannot be told apart. *)
#[export] Instance ram_equiv : Equiv ram := fun m m' => forall a, ld8 m a = ld8 m' a.
#[export] Instance ram_equivalence : Equivalence (≡@{ram}).
Proof.
  split.
  - intros m a; reflexivity.
  - intros m m' H a; symmetry; apply H.
  - intros m1 m2 m3 H H' a; etransitivity; [apply H|apply H'].
Qed.

Lemma ld8_st8 m a v b : ld8 (st8 a v m) b = if b =? a then u8 v else ld8 m b.
Proof.
  unfold ld8, st8. case_z; subst.
  - by rewrite lookup_insert_eq.
  - by rewrite lookup_insert_ne.
Qed.

#[export] Instance st8_proper a v : Proper ((≡@{ram}) ==> (≡)) (st8 a v).
Proof. intros m m' H b. rewrite !ld8_st8. case_z; [done|apply H]. Qed.
#[export] Instance ld8_proper : Proper ((≡@{ram}) ==> (=) ==> (=)) ld8.
Proof. intros m m' H a b ->. apply H. Qed.
#[export] Instance st32_proper a v : Proper ((≡@{ram}) ==> (≡)) (st32 a v).
Proof. intros m m' H. unfold st32. do 4 f_equiv. exact H. Qed.
#[export] Instance ld32_proper : Proper ((≡@{ram}) ==> (=) ==> (=)) ld32.
Proof. intros m m' H a b ->. unfold ld32. by rewrite !H. Qed.

Lemma ram_ok_st8 m a v : ram_ok m -> ram_ok (st8 a v m).
Proof.
  intros H b. rewrite ld8_st8. case_z; [apply u8_range|apply H].
Qed.
Lemma ram_ok_st32 m a v : ram_ok m -> ram_ok (st32 a v m).
Proof. intros; unfold st32; auto using ram_ok_st8. Qed.
#[export] Hint Resolve ram_ok_st8 ram_ok_st32 : mboot.

Lemma ld8_st32_other m a v b : b < a \/ a + 4 <= b -> ld8 (st32 a v m) b = ld8 m b.
Proof. intros. unfold st32. rewrite !ld8_st8. repeat case_z; lia. Qed.

Lemma ld32_st32_other m a v b :
  b + 4 <= a \/ a + 4 <= b -> ld32 (st32 a v m) b = ld32 m b.
Proof. intros. unfold ld32. rewrite !ld8_st32_other by lia. reflexivity. Qed.

Lemma ld32_st32_eq m a v : in_u32 v -> ld32 (st32 a v m) a = v.
Proof.
  intros Hv. unfold ld32, st32. rewrite !ld8_st8.
  repeat case_z; try lia. unfold u8.
  rewrite !Z.shiftr_div_pow2 by lia. change (2 ^ 8) with 256.
  change (2 ^ 16) with (256 * 256). change (2 ^ 24) with (256 * 256 * 256).
  rewrite <- !Z.div_div by lia.
  pose proof (Z.div_mod v 256). pose proof (Z.div_mod (v / 256) 256).
  pose proof (Z.div_mod (v / 256 / 256) 256).
  assert (0 <= v / 256 / 256 / 256 < 256).
  { rewrite !Z.div_div by lia. split; [apply Z.div_pos; lia|].
    apply Z.div_lt_upper_bound; lia. }
  rewrite (Z.mod_small (v / 256 / 256 / 256)) by lia. lia.
Qed.

Lemma ld32_range m a : ram_ok m -> in_u32 (ld32 m a).
Proof.
  intros H. unfold ld32.
  pose proof (H a); pose proof (H (a + 1)); pose proof (H (a + 2)); pose proof (H (a + 3)).
  lia.
Qed.

Lemma ld32_ext m m' a :
  (forall b, a <= b < a + 4 -> ld8 m b = ld8 m' b) -> ld32 m a = ld32 m' a.
Proof. intros H. unfold ld32. by rewrite !H by lia. Qed.

Lemma ld32_shift m m' a a' :
  (forall k, 0 <= k < 4 -> ld8 m (a + k) = ld8 m' (a' + k)) -> ld32 m a = ld32 m' a'.
Proof.
  intros H. pose proof (H 0 ltac:(lia)) as H0. rewrite !Z.add_0_r in H0. unfold ld32.
  rewrite H0, (H 1), (H 2), (H 3) by lia. done.
Qed.

(** [memset] and [memcpy] of stage2/mem.c work byte by byte, upwards. *)
Fixpoint set_bytes (n : nat) (a c : Z) (m : ram) : ram :=
  match n with
  | O => m
  | S n' => set_bytes n' (a + 1) c (st8 a c m)
  end.

Fixpoint copy_bytes (n : nat) (dst src : Z) (m : ram) : ram :=
  match n with
  | O => m
  | S n' => copy_bytes n' (dst + 1) (src + 1) (st8 dst (ld8 m src) m)
  end.

Lemma ld8_set_bytes n : forall a c m b,
  ld8 (set_bytes n a c m) b =
  if (a <=? b) && (b <? a + Z.of_nat n) then u8 c else ld8 m b.
Proof.
  induction n as [|n IH]; intros a c m b; simpl set_bytes.
  - repeat case_z; simpl; try lia; reflexivity.
  - rewrite IH, ld8_st8. repeat case_z; simpl; try lia; reflexivity.
Qed.

Lemma ram_ok_set_bytes n : forall a c m, ram_ok m -> ram_ok (set_bytes n a c m).
Proof. induction n; simpl; intros; auto with mboot. Qed.

Lemma ram_ok_copy_bytes n : forall d s m, ram_ok m -> ram_ok (copy_bytes n d s m).
Proof. induction n; simpl; intros; auto with mboot. Qed.
#[export] Hint Resolve ram_ok_set_bytes ram_ok_copy_bytes : mboot.

(** Copying between ranges that do not overlap (upwards). *)
Lemma ld8_copy_bytes n : forall dst src m b,
  ram_ok m ->
  dst + Z.of_nat n <= src \/ src + Z.of_nat n <= dst ->
  ld8 (copy_bytes n dst src m) b =
  if (dst <=? b) && (b <? dst + Z.of_nat n) then ld8 m (src + (b - dst)) else ld8 m b.
Proof.
  induction n as [|n IH]; intros dst src m b Hok Hd; simpl copy_bytes.
  - repeat case_z; simpl; try lia; reflexivity.
  - rewrite IH by (auto with mboot; lia). rewrite !ld8_st8.
    destruct (Z.eqb_spec b dst) as [->|].
    + repeat case_z; simpl; try lia. rewrite u8_small by apply Hok. f_equal; lia.
    + repeat case_z; simpl; try lia; try reflexivity. f_equal; lia.
Qed.

(** [for (j = i; j < i + n; j++) a[j] = f(j)] on an array of 32-bit words. *)
Fixpoint fill_words (n : nat) (i a : Z) (f : Z -> Z) (m : ram) : ram :=
  match n with
  | O => m
  | S n' => fill_words n' (i + 1) a f (st32 (a + 4 * i) (f i) m)
  end.

Lemma ram_ok_fill_words n : forall i a f m, ram_ok m -> ram_ok (fill_words n i a f m).
Proof. induction n; simpl; intros; auto with mboot. Qed.
#[export] Hint Resolve ram_ok_fill_words : mboot.

Lemma ld8_fill_words_other n : forall i a f m x,
  x < a + 4 * i \/ a + 4 * (i + Z.of_nat n) <= x -> ld8 (fill_words n i a f m) x = ld8 m x.
Proof.
  induction n as [|n IH]; intros i a f m x Hx; simpl fill_words; [done|].
  rewrite IH by lia. apply ld8_st32_other. lia.
Qed.

Lemma ld32_fill_words n : forall i a f m j,
  i <= j < i + Z.of_nat n -> in_u32 (f j) -> ld32 (fill_words n i a f m) (a + 4 * j) = f j.
Proof.
  induction n as [|n IH]; intros i a f m j Hj Hf; simpl fill_words; [lia|].
  destruct (Z.eq_dec j i) as [->|]; [|apply IH; lia || done].
  rewrite (ld32_ext _ (st32 (a + 4 * i) (f i) m)).
  - by apply ld32_st32_eq.
  - intros b Hb. apply ld8_fill_words_other. lia.
Qed.

(** The bytes of a range, as a list, and a list of bytes stored at an address. *)
Fixpoint read_bytes_at (n : nat) (a : Z) (m : ram) : list Z :=
  match n with
  | O => []
  | S n' => ld8 m a :: read_bytes_at n' (a + 1) m
  end.

Fixpoint write_bytes (a : Z) (bs : list Z) (m : ram) : ram :=
  match bs with
  | [] => m
  | b :: bs' => write_bytes (a + 1) bs' (st8 a b m)
  end.

Lemma length_read_bytes_at n : forall a m, length (read_bytes_at n a m) = n.
Proof. induction n; simpl; intros; auto. Qed.

Lemma read_bytes_ext n : forall m m' a,
  (forall x, a <= x < a + Z.of_nat n -> ld8 m x = ld8 m' x) ->
  read_bytes_at n a m = read_bytes_at n a m'.
Proof.
  induction n as [|n IH]; intros m m' a Hx; simpl; [done|]. f_equal; [apply Hx; lia|].
  apply IH. intros x Hx'. apply Hx. lia.
Qed.
Lemma read_bytes_split n k : forall a m,
  read_bytes_at (n + k) a m = read_bytes_at n a m ++ read_bytes_at k (a + Z.of_nat n) m.
Proof.
  induction n as [|n IH]; intros a m; simpl.
  - by rewrite Z.add_0_r.
  - rewrite IH. do 3 f_equal. lia.
Qed.
Lemma read_bytes_shift n : forall a a' m m',
  (forall k, 0 <= k < Z.of_nat n -> ld8 m (a + k) = ld8 m' (a' + k)) ->
  read_bytes_at n a m = read_bytes_at n a' m'.
Proof.
  induction n as [|n IH]; intros a a' m m' H; cbn [read_bytes_at]; [done|]. f_equal.
  - specialize (H 0 ltac:(lia)). by rewrite !Z.add_0_r in H.
  - apply IH. intros k Hk. rewrite <- !Z.add_assoc. apply H. lia.
Qed.

Lemma ld8_write_bytes_other bs : forall a m b,
  b < a \/ a + Z.of_nat (length bs) <= b -> ld8 (write_bytes a bs m) b = ld8 m b.
Proof.
  induction bs as [|x bs IH]; simpl; intros a m b H; [reflexivity|].
  rewrite IH by lia. rewrite ld8_st8. case_z; lia.
Qed.

Lemma read_write_bytes bs : forall a m,
  Forall (fun b => in_u8 b) bs -> read_bytes_at (length bs) a (write_bytes a bs m) = bs.
Proof.
  induction bs as [|x bs IH]; simpl; intros a m H; [reflexivity|].
  inversion H; subst. rewrite IH by done. f_equal.
  rewrite ld8_write_bytes_other, ld8_st8, Z.eqb_refl by lia. by apply u8_small.
Qed.

Lemma ram_ok_write_bytes bs : forall a m, ram_ok m -> ram_ok (write_bytes a bs m).
Proof. induction bs; simpl; intros; auto with mboot. Qed.
#[export] Hint Resolve ram_ok_write_bytes : mboot.

(** * Relations on pairs of list elements, used for disjoint memory regions *)

Lemma ForallOrdPairs_perm {A} (R : A -> A -> Prop) (l l' : list A) :
  (forall x y, R x y -> R y x) -> l ≡ₚ l' -> ForallOrdPairs R l -> ForallOrdPairs R l'.
Proof.
  intros Hsym Hp. induction Hp as [|x l l' Hp IH|x y l|l1 l2 l3 Hp1 IH1 Hp2 IH2]; intros H.
  - constructor.
  - inversion H; subst. constructor; [|by apply IH]. by rewrite <- Hp.
  - inversion H as [|? ? H1 H2]; subst. inversion H2 as [|? ? H3 H4]; subst.
    inversion H1; subst. repeat constructor; auto.
  - auto.
Qed.

Lemma ForallOrdPairs_app {A} (R : A -> A -> Prop) (l l' : list A) :
  ForallOrdPairs R (l ++ l') <->
  ForallOrdPairs R l /\ ForallOrdPairs R l' /\ (forall x y, x ∈ l -> y ∈ l' -> R x y).
Proof.
  induction l as [|a l IH]; simpl.
  - split; [|tauto]. intros H. split; [constructor|]. split; [done|]. set_solver.
  - split.
    + inversion 1 as [|? ? H1 H2]; subst. apply IH in H2 as (H2 & H3 & H4).
      apply Forall_app in H1 as [H1 H1']. rewrite Forall_forall in H1'.
      split; [by constructor|]. split; [done|].
      intros x y Hx Hy. apply elem_of_cons in Hx as [->|Hx]; auto.
    + intros (H1 & H2 & H3). inversion H1; subst. constructor.
      * apply Forall_app. split; [done|]. apply Forall_forall. intros y Hy.
        apply H3; [set_solver|done].
      * apply IH. split; [done|]. split; [done|]. intros; apply H3; set_solver.
Qed.
