(* ===== verification/Mem.v ===== *)
(** Kernel heap of stage2/mem.c (with inc/mem.h): the choice of the E820
    region, the bump allocator, the address-ordered free list that lives
    inside the managed memory, splitting and coalescing.

    The allocator works on the byte-addressed memory of [Prelude]: a block
    header is the 12 bytes of [block_header_t] on i386 ([size] at offset 0,
    [free] at 4, [next] at 8), and the free list is followed through the
    [next] words in memory. *)
From S2P Require Import Prelude.

(** * E820 memory map *)

Record e820_entry_t := mkE820 {
  base : Z;      (* uint64_t *)
  length_ : Z;   (* uint64_t *)
  type_ : Z      (* uint32_t *)
}.

(** The BIOS table is an array in low memory; [count] says how many entries
    stage1 stored. *)
Abbreviation e820_table := (Z -> e820_entry_t).

Definition align_up_uintptr (x align : Z) : Z :=
  Z.land (u32 (x + u32 (align - 1))) (u32 (Z.lnot (u32 (align - 1)))).

(** The two intervals tested by the inner loop of [check_overlaps]. *)
Definition entries_overlap (a b : e820_entry_t) : bool :=
  (base a <? u64 (base b + length_ b)) && (base b <? u64 (base a + length_ a)).

(** Inner loop: the entries [j, j+1, ...] that overlap entry [i]. *)
Fixpoint overlaps_from (n : nat) (i j : Z) (entries : e820_table) : list (Z * Z) :=
  match n with
  | O => []
  | S n' =>
      (if entries_overlap (entries i) (entries j) then [(i, j)] else [])
        ++ overlaps_from n' i (j + 1) entries
  end.

(** The pairs [check_overlaps] warns about, in the order of its warnings; the
    number it reports is their count. *)
Fixpoint check_overlaps_loop (n : nat) (i : Z) (entries : e820_table) : list (Z * Z) :=
  match n with
  | O => []
  | S n' => overlaps_from n' i (i + 1) entries ++ check_overlaps_loop n' (i + 1) entries
  end.

Definition check_overlaps (count : nat) (entries : e820_table) : list (Z * Z) :=
  check_overlaps_loop count 0 entries.

Fixpoint total_from (n : nat) (i total : Z) (entries : e820_table) : Z :=
  match n with
  | O => total
  | S n' =>
      let total' := if type_ (entries i) =? 1 then u64 (total + length_ (entries i)) else total in
      total_from n' (i + 1) total' entries
  end.

Definition calculate_total_size (count : nat) (entries : e820_table) : Z :=
  total_from count 0 0 entries.

Fixpoint biggest_from (n : nat) (i biggest_index : Z) (entries : e820_table) : Z :=
  match n with
  | O => biggest_index
  | S n' =>
      let b := if (type_ (entries i) =? 1)
                    && (length_ (entries biggest_index) <? length_ (entries i))
               then i else biggest_index in
      biggest_from n' (i + 1) b entries
  end.

(** * Heap state *)

Record heap := mkHeap {
  free_ram : Z;
  free_ram_end : Z;
  bump_next : Z;
  free_list_head : Z;
  hram : ram
}.

Definition set_ram (m : ram) (h : heap) : heap :=
  mkHeap (free_ram h) (free_ram_end h) (bump_next h) (free_list_head h) m.
Definition set_bump (b : Z) (h : heap) : heap :=
  mkHeap (free_ram h) (free_ram_end h) b (free_list_head h) (hram h).
Definition set_head (p : Z) (h : heap) : heap :=
  mkHeap (free_ram h) (free_ram_end h) (bump_next h) p (hram h).

Definition init_alloc (count : nat) (entries : e820_table) (h : heap) : heap :=
  let biggest_index := biggest_from count 0 0 entries in
  let e := entries biggest_index in
  let fr := u32 (base e) in
  mkHeap fr (u32 (u64 (base e + length_ e))) fr (free_list_head h) (hram h).

(** * Block headers in memory *)

Definition sizeof_block_header_t : Z := 12.

Definition hdr_size (m : ram) (b : Z) : Z := ld32 m b.
Definition hdr_free (m : ram) (b : Z) : bool := negb (ld8 m (b + 4) =? 0).
Definition hdr_next (m : ram) (b : Z) : Z := ld32 m (b + 8).

Definition st_size (b v : Z) (m : ram) : ram := st32 b v m.
Definition st_free (b : Z) (v : bool) (m : ram) : ram := st8 (b + 4) (if v then 1 else 0) m.
Definition st_next (b v : Z) (m : ram) : ram := st32 (b + 8) v m.

Definition memset (buf c n : Z) (m : ram) : ram := set_bytes (Z.to_nat n) buf c m.
Definition memcpy (dst src n : Z) (m : ram) : ram := copy_bytes (Z.to_nat n) dst src m.

(** * Allocator operations *)

(** [prev->next = p], or the list head when there is no [prev]. *)
Definition link (prev p : Z) (h : heap) : heap :=
  if prev =? 0 then set_head p h else set_ram (st_next prev p (hram h)) h.

Fixpoint find_loop (fuel : nat) (size prev cur : Z) : M heap Z := fun h =>
  match fuel with
  | O => NoFuel
  | S f =>
      if cur =? 0 then Ret 0 h
      else if hdr_free (hram h) cur && (size <=? hdr_size (hram h) cur) then
        let h1 := link prev (hdr_next (hram h) cur) h in
        Ret cur (set_ram (st_free cur false (st_next cur 0 (hram h1))) h1)
      else find_loop f size cur (hdr_next (hram h) cur) h
  end.

Definition find_free_block_and_remove (fuel : nat) (size : Z) : M heap Z := fun h =>
  find_loop fuel size 0 (free_list_head h) h.

(** The walk [while (cur && cur < target) { prev = cur; cur = cur->next; }]
    that [try_split_block] and [kfree] use on the address-ordered list. *)
Fixpoint walk_to (fuel : nat) (target prev cur : Z) : M heap (Z * Z) := fun h =>
  match fuel with
  | O => NoFuel
  | S f =>
      if negb (cur =? 0) && (cur <? target)
      then walk_to f target cur (hdr_next (hram h) cur) h
      else Ret (prev, cur) h
  end.

Definition try_split_block (fuel : nat) (block want_size : Z) : M heap unit := fun h =>
  let hdr_size_ := sizeof_block_header_t in
  if hdr_size (hram h) block <=? u32 (want_size + hdr_size_ + 16) then Ret tt h
  else
    let payload_addr := u32 (block + hdr_size_) in
    let new_hdr := u32 (payload_addr + want_size) in
    let m1 := st_size new_hdr (u32 (hdr_size (hram h) block - want_size - hdr_size_)) (hram h) in
    let m2 := st_next new_hdr 0 (st_free new_hdr true m1) in
    let h1 := set_ram (st_size block want_size m2) h in
    ('(prev, cur) ← walk_to fuel new_hdr 0 (free_list_head h1);
     modify (fun h2 => link prev new_hdr (set_ram (st_next new_hdr cur (hram h2)) h2))) h1.

Definition kmalloc (fuel : nat) (bytes : Z) : M heap Z := fun h =>
  if bytes =? 0 then Ret 0 h
  else
    let want_size := align_up_uintptr bytes 8 in
    let h0 := if bump_next h =? 0 then set_bump (free_ram h) h else h in
    (found ← find_free_block_and_remove fuel want_size;
     if negb (found =? 0) then
       try_split_block fuel found want_size ;;
       let payload := u32 (found + sizeof_block_header_t) in
       modify (fun h2 => set_ram (memset payload 0 want_size (hram h2)) h2) ;;
       mret payload
     else fun h1 =>
       let hdr_addr := align_up_uintptr (bump_next h1) 8 in
       let payload_addr := u32 (hdr_addr + sizeof_block_header_t) in
       let new_bump := u32 (payload_addr + want_size) in
       if free_ram_end h1 <? new_bump then Halted h1
       else
         let m1 := st_next hdr_addr 0 (st_free hdr_addr false
                     (st_size hdr_addr want_size (hram h1))) in
         Ret payload_addr
           (set_ram (memset payload_addr 0 want_size m1) (set_bump new_bump h1))) h0.

Definition try_coalesce_adjacent (a b : Z) (h : heap) : bool * heap :=
  let m := hram h in
  let a_end := u32 (a + sizeof_block_header_t + hdr_size m a) in
  if a_end =? b then
    let m1 := st_size a (u32 (hdr_size m a + sizeof_block_header_t + hdr_size m b)) m in
    (true, set_ram (st_next a (hdr_next m1 b) m1) h)
  else (false, h).

(** [block = scan_prev] when the block before it in the list touches it. *)
Definition join_previous (scan_prev block : Z) : M heap Z := fun h =>
  if negb (scan_prev =? 0) then
    let '(joined, h') := try_coalesce_adjacent scan_prev block h in
    Ret (if joined then scan_prev else block) h'
  else Ret block h.

(** The final [if (block->next) try_coalesce_adjacent(block, block->next)]. *)
Definition join_next (block : Z) (h : heap) : heap :=
  let nxt := hdr_next (hram h) block in
  if negb (nxt =? 0) then snd (try_coalesce_adjacent block nxt h) else h.

Definition kfree (fuel : nat) (loc : Z) : M heap unit := fun h =>
  if loc =? 0 then Ret tt h
  else
    let block := u32 (loc - sizeof_block_header_t) in
    if (block <? free_ram h) || (free_ram_end h <=? block) then Ret tt h
    else
      let h0 := set_ram (st_next block 0 (st_free block true (hram h))) h in
      ('(prev, cur) ← walk_to fuel block 0 (free_list_head h0);
       modify (fun h1 => link prev block (set_ram (st_next block cur (hram h1)) h1)) ;;
       block' ← (if negb (prev =? 0) then
                   head ← gets free_list_head;
                   '(scan_prev, _) ← walk_to fuel block 0 head;
                   join_previous scan_prev block
                 else mret block);
       modify (join_next block')) h0.

(** * Concrete runs *)

Definition demo_heap : heap := mkHeap 4096 65536 4096 0 ∅.

Definition run {S A} (c : M S A) (s : S) : option (A * S) :=
  match c s with Ret a s' => Some (a, s') | _ => None end.

(** Two bump allocations, both freed in address order, then a reuse. *)
Example demo_run :
  match run (a ← kmalloc 8 100; b ← kmalloc 8 20; kfree 8 a ;; kfree 8 b ;;
             c ← kmalloc 8 10; mret (a, b, c)) demo_heap with
  | Some ((a, b, c), h) => (a, b, c, free_list_head h, bump_next h)
  | None => (0, 0, 0, 0, 0)
  end = (4108, 4228, 4108, 4124, 4252).
Proof. vm_compute. reflexivity. Qed.

(** * Blocks, the free list in memory and the heap invariant *)

(** A block is its header address with the size stored in the header; it
    occupies the header and the payload. *)
Abbreviation blk := (Z * Z)%type.
Definition bend (b : blk) : Z := b.1 + sizeof_block_header_t + b.2.
Definition disj (a b : blk) : Prop := bend a <= b.1 \/ bend b <= a.1.

Definition same_on (m m' : ram) (lo hi : Z) : Prop :=
  forall x, lo <= x < hi -> ld8 m x = ld8 m' x.

(** The list segment from [p] to [q] that visits the free blocks [fl]. *)
Fixpoint lseg (m : ram) (p : Z) (fl : list blk) (q : Z) : Prop :=
  match fl with
  | [] => p = q
  | b :: fl' =>
      p = b.1 /\ 0 < b.1 /\ hdr_size m b.1 = b.2 /\ hdr_free m b.1 = true
      /\ lseg m (hdr_next m b.1) fl' q
  end.

(** Free blocks are in address order and do not overlap. *)
Definition before (a b : blk) : Prop := bend a <= b.1.

(** No two free blocks touch: touching neighbours have been joined. *)
Definition apart (a b : blk) : Prop := bend a < b.1.
Definition coalesced (fl : list blk) : Prop := StronglySorted apart fl.

Record heap_ok (h : heap) (al fl : list blk) : Prop := {
  ok_ram : ram_ok (hram h);
  ok_lo : 4096 <= free_ram h <= bump_next h;
  ok_hi : bump_next h <= free_ram_end h < 4294967296;
  ok_list : lseg (hram h) (free_list_head h) fl 0;
  ok_sorted : StronglySorted before fl;
  ok_alloc : Forall (fun b => hdr_size (hram h) b.1 = b.2) al;
  ok_disj : ForallOrdPairs disj (al ++ fl);
  ok_in : Forall (fun b => free_ram h <= b.1 /\ 0 <= b.2 /\ bend b <= bump_next h) (al ++ fl)
}.

Definition last_addr (l : list blk) : Z :=
  match last l with Some b => b.1 | None => 0 end.

Lemma last_addr_snoc l b : last_addr (l ++ [b]) = b.1.
Proof. unfold last_addr. by rewrite last_snoc. Qed.

Lemma disj_sym a b : disj a b -> disj b a.
Proof. unfold disj; tauto. Qed.

(** ** Header fields and frames *)

Ltac hdr_unfold :=
  unfold hdr_size, hdr_free, hdr_next, st_size, st_free, st_next, sizeof_block_header_t in *.

Lemma same_on_refl m lo hi : same_on m m lo hi.
Proof. by intros x _. Qed.

Lemma same_on_trans m1 m2 m3 lo hi :
  same_on m1 m2 lo hi -> same_on m2 m3 lo hi -> same_on m1 m3 lo hi.
Proof. intros H1 H2 x Hx. rewrite H1 by lia. by apply H2. Qed.

Lemma same_on_sub m m' lo hi lo' hi' :
  same_on m m' lo hi -> lo <= lo' -> hi' <= hi -> same_on m m' lo' hi'.
Proof. intros H ? ? x Hx. apply H; lia. Qed.

Lemma same_hdr m m' b :
  same_on m m' b (b + 12) ->
  hdr_size m b = hdr_size m' b /\ hdr_free m b = hdr_free m' b /\ hdr_next m b = hdr_next m' b.
Proof.
  intros H. hdr_unfold. split; [|split].
  - apply ld32_ext. intros x Hx. apply H; lia.
  - by rewrite H by lia.
  - apply ld32_ext. intros x Hx. apply H; lia.
Qed.

Lemma same_on_st_next m b v lo hi :
  b + 12 <= lo \/ hi <= b + 8 -> same_on m (st_next b v m) lo hi.
Proof. intros H x Hx. hdr_unfold. rewrite ld8_st32_other by lia. reflexivity. Qed.
Lemma same_on_st_size m b v lo hi :
  b + 4 <= lo \/ hi <= b -> same_on m (st_size b v m) lo hi.
Proof. intros H x Hx. hdr_unfold. rewrite ld8_st32_other by lia. reflexivity. Qed.
Lemma same_on_st_free m b v lo hi :
  b + 5 <= lo \/ hi <= b + 4 -> same_on m (st_free b v m) lo hi.
Proof. intros H x Hx. hdr_unfold. rewrite ld8_st8. case_z; [lia|done]. Qed.
Lemma same_on_memset m b c n lo hi :
  b + n <= lo \/ hi <= b -> same_on m (memset b c n m) lo hi.
Proof.
  intros H x Hx. unfold memset. rewrite ld8_set_bytes.
  repeat case_z; simpl; try reflexivity; lia.
Qed.
#[export] Hint Resolve same_on_refl same_on_st_next same_on_st_size same_on_st_free
  same_on_memset : mboot.

Lemma ram_ok_st_next m b v : ram_ok m -> ram_ok (st_next b v m).
Proof. unfold st_next; auto with mboot. Qed.
Lemma ram_ok_st_size m b v : ram_ok m -> ram_ok (st_size b v m).
Proof. unfold st_size; auto with mboot. Qed.
Lemma ram_ok_st_free m b v : ram_ok m -> ram_ok (st_free b v m).
Proof. unfold st_free; auto with mboot. Qed.
Lemma ram_ok_memset m b c n : ram_ok m -> ram_ok (memset b c n m).
Proof. unfold memset; auto with mboot. Qed.
#[export] Hint Resolve ram_ok_st_next ram_ok_st_size ram_ok_st_free ram_ok_memset : mboot.

(** Reading one field of a header after another field, or the same, was
    written at the same address. *)
Lemma hdr_next_st_next m b v : in_u32 v -> hdr_next (st_next b v m) b = v.
Proof. intros. hdr_unfold. by apply ld32_st32_eq. Qed.
Lemma hdr_size_st_size m b v : in_u32 v -> hdr_size (st_size b v m) b = v.
Proof. intros. hdr_unfold. by apply ld32_st32_eq. Qed.
Lemma hdr_free_st_free m b v : hdr_free (st_free b v m) b = v.
Proof. hdr_unfold. rewrite ld8_st8, Z.eqb_refl. by destruct v. Qed.
Lemma hdr_size_st_next m b v : hdr_size (st_next b v m) b = hdr_size m b.
Proof. hdr_unfold. apply ld32_st32_other; lia. Qed.
Lemma hdr_size_st_free m b v : hdr_size (st_free b v m) b = hdr_size m b.
Proof. hdr_unfold. apply ld32_ext. intros x Hx. rewrite ld8_st8. case_z; lia. Qed.
Lemma hdr_free_st_next m b v : hdr_free (st_next b v m) b = hdr_free m b.
Proof. hdr_unfold. rewrite ld8_st32_other by lia. done. Qed.
Lemma hdr_free_st_size m b v : hdr_free (st_size b v m) b = hdr_free m b.
Proof. hdr_unfold. rewrite ld8_st32_other by lia. done. Qed.
Lemma hdr_next_st_size m b v : hdr_next (st_size b v m) b = hdr_next m b.
Proof. hdr_unfold. apply ld32_st32_other; lia. Qed.
Lemma hdr_next_st_free m b v : hdr_next (st_free b v m) b = hdr_next m b.
Proof. hdr_unfold. apply ld32_ext. intros x Hx. rewrite ld8_st8. case_z; lia. Qed.
Create Rewrite HintDb hdr.
#[export] Hint Rewrite hdr_size_st_next hdr_size_st_free hdr_free_st_next hdr_free_st_size
  hdr_next_st_size hdr_next_st_free hdr_free_st_free : hdr.

(** ** List segments *)

Lemma lseg_app m l1 : forall p l2 q,
  lseg m p (l1 ++ l2) q <-> exists r, lseg m p l1 r /\ lseg m r l2 q.
Proof.
  induction l1 as [|b l1 IH]; intros p l2 q; simpl.
  - split; [intros H; eauto | intros (r & -> & H); exact H].
  - rewrite IH. split.
    + intros (? & ? & ? & ? & r & ? & ?). exists r. tauto.
    + intros (r & (? & ? & ? & ? & ?) & ?). repeat (split; [assumption|]). eauto.
Qed.

Lemma lseg_frame m m' l : forall p q,
  lseg m p l q -> Forall (fun b => same_on m m' b.1 (b.1 + 12)) l -> lseg m' p l q.
Proof.
  induction l as [|b l IH]; intros p q; simpl; [done|].
  intros (? & ? & Hs & Hf & Hl) HF. inversion HF as [|? ? Hb Hr]; subst.
  destruct (same_hdr _ _ _ Hb) as (E1 & E2 & E3).
  rewrite <- E1, <- E2, <- E3. auto 6.
Qed.

(** The head of a list that ends in NULL is its first block's address. *)
Lemma lseg_head m p b l q : lseg m p (b :: l) q -> p = b.1.
Proof. simpl; tauto. Qed.

(** Redirecting the last [next] of a segment. *)
Lemma lseg_relink m p l b q q' :
  lseg m p (l ++ [b]) q -> in_u32 q' ->
  Forall (fun x => x.1 + 12 <= b.1 \/ b.1 + 12 <= x.1) l ->
  lseg (st_next b.1 q' m) p (l ++ [b]) q'.
Proof.
  intros H Hq Hd. apply lseg_app in H as (r & H1 & H2). apply lseg_app. exists r. split.
  - eapply lseg_frame; [exact H1|]. eapply Forall_impl; [exact Hd|].
    intros x Hx; simpl in *. apply same_on_st_next. lia.
  - simpl in *. autorewrite with hdr. rewrite hdr_next_st_next by done. tauto.
Qed.

(** ** The loops of the allocator *)

(** A free block that is too small for the request. *)
Definition too_small (size : Z) (b : blk) : Prop := b.2 < size.

(** First fit: the block taken, with the blocks before and after it. *)
Inductive first_fit (size : Z) : list blk -> list blk -> blk -> list blk -> Prop :=
| first_fit_split l1 b l2 :
    Forall (too_small size) l1 -> size <= b.2 -> first_fit size (l1 ++ b :: l2) l1 b l2.

(** [link] then clear [next] and [free] of the block that was found. *)
Definition unlink (prev cur : Z) (h : heap) : heap :=
  let h1 := link prev (hdr_next (hram h) cur) h in
  set_ram (st_free cur false (st_next cur 0 (hram h1))) h1.

Lemma find_loop_spec size h fl : forall fuel pre cur,
  lseg (hram h) cur fl 0 -> (length fl < fuel)%nat ->
  (Forall (too_small size) fl /\ find_loop fuel size (last_addr pre) cur h = Ret 0 h)
  \/ exists l1 b l2, first_fit size fl l1 b l2
     /\ find_loop fuel size (last_addr pre) cur h
        = Ret b.1 (unlink (last_addr (pre ++ l1)) b.1 h).
Proof.
  induction fl as [|b fl IH]; intros fuel pre cur Hl Hf;
    (destruct fuel as [|fuel]; [simpl in Hf; lia|]); simpl in Hl |- *.
  - subst cur. left. rewrite Z.eqb_refl. split; [constructor|done].
  - destruct Hl as (-> & Hpos & Hs & Hfree & Hl). rewrite Hfree, Hs.
    case_z; [lia|]. simpl. case_z.
    + right. exists [], b, fl. split; [by apply (first_fit_split size [])|].
      by rewrite app_nil_r.
    + simpl in Hf. destruct (IH fuel (pre ++ [b]) _ Hl) as [(HF & E)|(l1 & c & l2 & Hc & E)];
        [lia| |]; rewrite last_addr_snoc in E.
      * left. split; [constructor; [unfold too_small; lia|done]|done].
      * right. exists (b :: l1), c, l2. inversion Hc; subst. split.
        -- apply (first_fit_split size (b :: l1)); [|done].
           constructor; [unfold too_small; lia|done].
        -- rewrite E. by rewrite <- app_assoc.
Qed.

(** The walk stops at the first free block at or above the target. *)
Lemma walk_to_spec target h fl : forall fuel pre cur,
  lseg (hram h) cur fl 0 -> StronglySorted before fl -> Forall (fun b => 0 <= b.2) fl ->
  (length fl < fuel)%nat ->
  exists l1 l2 r, fl = l1 ++ l2
    /\ Forall (fun b => b.1 < target) l1 /\ Forall (fun b => target <= b.1) l2
    /\ lseg (hram h) cur l1 r /\ lseg (hram h) r l2 0
    /\ walk_to fuel target (last_addr pre) cur h = Ret (last_addr (pre ++ l1), r) h.
Proof.
  induction fl as [|b fl IH]; intros fuel pre cur Hl Hs Hp Hf;
    (destruct fuel as [|fuel]; [simpl in Hf; lia|]); simpl in Hl |- *.
  - subst cur. exists [], [], 0. rewrite (app_nil_r pre). repeat split; auto.
  - destruct Hl as (-> & Hpos & Hsz & Hfree & Hl).
    inversion Hs as [|? ? Hs' Hb]; subst. inversion Hp as [|? ? Hb2 Hp']; subst.
    simpl in Hf. case_z; [lia|]. simpl. case_z.
    + destruct (IH fuel (pre ++ [b]) _ Hl Hs' Hp') as (l1 & l2 & r & -> & H1 & H2 & H3 & H4 & E);
        [lia|]. rewrite last_addr_snoc in E.
      exists (b :: l1), l2, r. simpl. rewrite E, <- app_assoc. repeat split; auto.
    + exists [], (b :: fl), b.1. rewrite app_nil_r. simpl. repeat split; auto.
      constructor; [lia|]. eapply Forall_impl; [exact Hb|]. intros x Hx.
      unfold before, bend, sizeof_block_header_t in Hx. simpl in *. lia.
Qed.

(** ** Relinking the free list *)

Lemma free_ram_link prev p h : free_ram (link prev p h) = free_ram h.
Proof. unfold link. by case_z. Qed.
Lemma free_ram_end_link prev p h : free_ram_end (link prev p h) = free_ram_end h.
Proof. unfold link. by case_z. Qed.
Lemma bump_next_link prev p h : bump_next (link prev p h) = bump_next h.
Proof. unfold link. by case_z. Qed.
Create Rewrite HintDb heap.
#[export] Hint Rewrite free_ram_link free_ram_end_link bump_next_link : heap.

(** [link] after the blocks [pre] changes at most the [next] word of the last
    of them, and makes the list go on at [p]. *)
Lemma link_spec h pre r p :
  lseg (hram h) (free_list_head h) pre r -> ram_ok (hram h) -> in_u32 p ->
  StronglySorted before pre -> Forall (fun b => 0 <= b.2) pre ->
  let h' := link (last_addr pre) p h in
  lseg (hram h') (free_list_head h') pre p /\ ram_ok (hram h')
  /\ (forall lo hi, Forall (fun b => b.1 + 12 <= lo \/ hi <= b.1) pre ->
        same_on (hram h) (hram h') lo hi).
Proof.
  intros Hl Hok Hp Hs Hn. destruct pre as [|b pre _] using rev_ind.
  - unfold link; simpl. split; [reflexivity|split; [exact Hok|intros; apply same_on_refl]].
  - rewrite last_addr_snoc. pose proof Hl as Hl'.
    apply lseg_app in Hl' as (q & _ & (_ & Hb & _)).
    unfold link. case_z; [lia|]. simpl.
    apply Forall_app in Hn as [Hn Hnb]. inversion Hnb; subst.
    split; [|split].
    + eapply lseg_relink; [exact Hl|done|]. 
      apply StronglySorted_app in Hs as (Hs & _ & _).
      apply Forall_forall. intros x Hx. left.
      specialize (Hs x b Hx ltac:(set_solver)).
      rewrite Forall_forall in Hn. specialize (Hn x Hx).
      unfold before, bend, sizeof_block_header_t in Hs. simpl in Hn. lia.
    + auto with mboot.
    + intros lo hi HF. apply Forall_app in HF as [_ HF]. inversion HF; subst.
      apply same_on_st_next. lia.
Qed.

(** ** Taking a block off the free list *)

(** Everything the blocks [l] occupy reads the same in both memories. *)
Definition kept (l : list blk) (m m' : ram) : Prop :=
  Forall (fun b => same_on m m' b.1 (bend b)) l.

Lemma kept_trans l m1 m2 m3 : kept l m1 m2 -> kept l m2 m3 -> kept l m1 m3.
Proof.
  unfold kept. rewrite !Forall_forall. intros H1 H2 b Hb.
  eapply same_on_trans; [apply H1|apply H2]; done.
Qed.

Lemma kept_sizes l m m' :
  kept l m m' -> Forall (fun b => 0 <= b.2) l ->
  Forall (fun b => hdr_size m b.1 = b.2) l -> Forall (fun b => hdr_size m' b.1 = b.2) l.
Proof.
  unfold kept. rewrite !Forall_forall. intros H1 H2 H3 b Hb.
  rewrite <- (H3 b Hb). symmetry. apply same_hdr.
  eapply same_on_sub; [apply (H1 b Hb)|lia|].
  specialize (H2 b Hb). simpl in H2. unfold bend, sizeof_block_header_t. lia.
Qed.

Lemma ok_sizes h al fl : heap_ok h al fl -> Forall (fun b => 0 <= b.2) (al ++ fl).
Proof. intros H. eapply Forall_impl; [apply (ok_in _ _ _ H)|]. simpl; tauto. Qed.

Ltac blk := unfold apart, before, disj, bend, sizeof_block_header_t in *; simpl in *; lia.

(** Pointwise use of a [Forall] hypothesis. *)
Ltac at_elem H x Hx :=
  let E := fresh "E" in pose proof (proj1 (Forall_forall _ _) H x Hx) as E; simpl in E.

Lemma disj_alloc_free h al fl x y : heap_ok h al fl -> x ∈ al -> y ∈ fl -> disj x y.
Proof. intros H. apply (ForallOrdPairs_app disj al fl), (ok_disj _ _ _ H). Qed.

(** The free list, cut at one of its blocks. *)
Lemma free_cut h al l1 b l2 :
  heap_ok h al (l1 ++ b :: l2) ->
  0 < b.1 /\ hdr_size (hram h) b.1 = b.2 /\ 0 <= b.2
  /\ lseg (hram h) (free_list_head h) l1 b.1 /\ lseg (hram h) (hdr_next (hram h) b.1) l2 0
  /\ (forall x, x ∈ l1 -> before x b /\ 0 <= x.2) /\ (forall y, y ∈ l2 -> before b y /\ 0 <= y.2)
  /\ (forall x y, x ∈ l1 -> y ∈ l2 -> before x y)
  /\ StronglySorted before l1 /\ StronglySorted before l2.
Proof.
  intros H. pose proof (ok_sizes _ _ _ H) as Hn. rewrite Forall_forall in Hn.
  pose proof (ok_list _ _ _ H) as Hl. apply lseg_app in Hl as (r & Hl1 & (-> & ? & ? & ? & Hl2)).
  pose proof (ok_sorted _ _ _ H) as Hs.
  apply StronglySorted_app in Hs as (Hs1 & Hs2 & Hs3).
  inversion Hs3 as [|? ? Hs4 Hs5]; subst. rewrite Forall_forall in Hs5.
  split; [done|]. split; [done|]. split; [apply Hn; set_solver|].
  split; [done|]. split; [done|]. split; [|split; [|split; [|done]]].
  - intros x Hx. split; [apply Hs1; set_solver | apply Hn; set_solver].
  - intros y Hy. split; [auto | apply Hn; set_solver].
  - intros x y Hx Hy. apply Hs1; set_solver.
Qed.

Lemma unlink_spec h al l1 b l2 :
  heap_ok h al (l1 ++ b :: l2) ->
  let h' := unlink (last_addr l1) b.1 h in
  heap_ok h' (b :: al) (l1 ++ l2) /\ kept al (hram h) (hram h')
  /\ free_ram h' = free_ram h /\ free_ram_end h' = free_ram_end h
  /\ bump_next h' = bump_next h.
Proof.
  intros H. destruct (free_cut _ _ _ _ _ H) as (Hb & Hsz & Hb2 & Hl1 & Hl2 & H1 & H2 & H12 & S1 & S2).
  set (nx := hdr_next (hram h) b.1) in *.
  pose proof (ok_ram _ _ _ H) as Rm.
  destruct (link_spec h l1 b.1 nx) as (L1 & Rok & Fr); auto.
  { by apply ld32_range. }
  { apply Forall_forall. intros x Hx. by apply H1. }
  cbv zeta. unfold unlink. fold nx. set (h1 := link (last_addr l1) nx h) in *.
  set (m' := st_free b.1 false (st_next b.1 0 (hram h1))).
  assert (Fb : forall lo hi, b.1 + 12 <= lo \/ hi <= b.1 -> same_on (hram h1) m' lo hi).
  { intros lo hi Hd. eapply same_on_trans; [apply same_on_st_next|apply same_on_st_free]; lia. }
  assert (K : kept al (hram h) m').
  { apply Forall_forall. intros x Hx.
    assert (Hxb : disj x b) by (eapply disj_alloc_free; [exact H|done|set_solver]).
    pose proof (ok_sizes _ _ _ H) as Hn. rewrite Forall_forall in Hn.
    assert (0 <= x.2) by (apply Hn; set_solver).
    eapply same_on_trans; [apply Fr|apply Fb; blk].
    apply Forall_forall. intros y Hy. destruct (H1 y Hy).
    assert (disj x y) by (eapply disj_alloc_free; [exact H|done|set_solver]). blk. }
  split; [|split; [exact K|simpl; unfold h1; autorewrite with heap; done]].
  assert (P : al ++ l1 ++ b :: l2 ≡ₚ (b :: al) ++ l1 ++ l2).
  { simpl. rewrite <- Permutation_middle, app_assoc, <- Permutation_middle, <- app_assoc. done. }
  split; simpl; unfold h1; autorewrite with heap; fold h1.
  - unfold m'; auto with mboot.
  - apply (ok_lo _ _ _ H).
  - apply (ok_hi _ _ _ H).
  - apply lseg_app. exists nx. split.
    + eapply lseg_frame; [exact L1|]. apply Forall_forall. intros x Hx.
      destruct (H1 x Hx). apply Fb. blk.
    + eapply lseg_frame; [exact Hl2|]. apply Forall_forall. intros y Hy.
      destruct (H2 y Hy). eapply same_on_trans; [apply Fr|apply Fb; blk].
      apply Forall_forall. intros x Hx. destruct (H1 x Hx). specialize (H12 x y Hx Hy). blk.
  - apply StronglySorted_app. auto.
  - constructor.
    + unfold m'. autorewrite with hdr. rewrite <- Hsz. symmetry. apply same_hdr, Fr.
      apply Forall_forall. intros x Hx. destruct (H1 x Hx). blk.
    + eapply kept_sizes; [exact K| |apply (ok_alloc _ _ _ H)].
      pose proof (ok_sizes _ _ _ H) as Hn. by apply Forall_app in Hn as [? _].
  - exact (ForallOrdPairs_perm disj _ _ disj_sym P (ok_disj _ _ _ H)).
  - change (b :: al ++ l1 ++ l2) with ((b :: al) ++ l1 ++ l2). rewrite <- P. apply (ok_in _ _ _ H).
Qed.

(** ** Alignment *)

Lemma align_up_spec x k :
  0 <= k < 32 -> 0 <= x -> x + 2 ^ k <= 4294967296 ->
  let r := align_up_uintptr x (2 ^ k) in x <= r < x + 2 ^ k /\ r mod 2 ^ k = 0.
Proof.
  intros Hk Hx Hb. cbv zeta. unfold align_up_uintptr.
  assert (Hp : 0 < 2 ^ k) by (apply Z.pow_pos_nonneg; lia).
  assert (Hp32 : 2 ^ k < 4294967296).
  { change 4294967296 with (2 ^ 32). apply Z.pow_lt_mono_r; lia. }
  rewrite (u32_small (2 ^ k - 1)), (u32_small (x + (2 ^ k - 1))) by lia.
  replace (u32 (Z.lnot (2 ^ k - 1))) with (4294967296 - 2 ^ k).
  2: { unfold u32, Z.lnot. replace (Z.pred (- (2 ^ k - 1))) with (4294967296 - 2 ^ k + (-1) * 4294967296) by lia.
       rewrite Z.mod_add, Z.mod_small by lia. reflexivity. }
  rewrite land_clear_low by lia. split; [|apply Z.mod_mul; lia].
  pose proof (Z.div_mod (x + (2 ^ k - 1)) (2 ^ k)). pose proof (Z.mod_pos_bound (x + (2 ^ k - 1)) (2 ^ k)).
  nia.
Qed.

Lemma align_up_8 x :
  0 <= x -> x + 8 <= 4294967296 ->
  x <= align_up_uintptr x 8 < x + 8 /\ align_up_uintptr x 8 mod 8 = 0.
Proof. intros. apply (align_up_spec x 3); lia. Qed.

(** ** Splitting an allocated block *)

Definition untouched_by (b : blk) (fl : list blk) : Prop :=
  Forall (fun y => bend b < y.1 \/ bend y < b.1) fl.

(** The stores of [try_split_block] before it walks the free list: header of
    the remainder, then the new size of the block itself. *)
Definition carve (h : heap) (block want_size : Z) : heap :=
  let n := u32 (u32 (block + 12) + want_size) in
  set_ram (st_size block want_size (st_next n 0 (st_free n true
    (st_size n (u32 (hdr_size (hram h) block - want_size - 12)) (hram h))))) h.

Lemma carve_frame h block want lo hi :
  let n := u32 (u32 (block + 12) + want) in
  (n + 12 <= lo \/ hi <= n) -> (block + 4 <= lo \/ hi <= block) ->
  same_on (hram h) (hram (carve h block want)) lo hi.
Proof.
  cbv zeta. intros Hn Hb. unfold carve; simpl.
  eapply same_on_trans; [|apply same_on_st_size; lia].
  eapply same_on_trans; [|apply same_on_st_next; lia].
  eapply same_on_trans; [|apply same_on_st_free; lia].
  apply same_on_st_size; lia.
Qed.

Lemma lseg_u32 m p l : lseg m p l 0 -> ram_ok m -> Forall (fun b => b.1 < 4294967296) l -> in_u32 p.
Proof.
  destruct l as [|b l]; simpl; [intros ->; lia|].
  intros (-> & ? & _) _ HF. inversion HF; subst. lia.
Qed.

Lemma ok_below_4g h al fl : heap_ok h al fl -> Forall (fun b => b.1 < 4294967296) (al ++ fl).
Proof.
  intros H. pose proof (ok_hi _ _ _ H). eapply Forall_impl; [apply (ok_in _ _ _ H)|].
  intros b Hb. blk.
Qed.

(** The remainder of a split block. *)
Definition remainder (b : blk) (want : Z) : blk := (b.1 + 12 + want, b.2 - want - 12).

Lemma disj_alloc_head h b al fl x :
  heap_ok h (b :: al) fl -> x ∈ al ++ fl -> disj b x /\ 0 <= x.2.
Proof.
  intros H Hx. split.
  - pose proof (ok_disj _ _ _ H) as D. inversion D as [|? ? HF _]; subst.
    rewrite Forall_forall in HF. auto.
  - pose proof (ok_sizes _ _ _ H) as Hn. rewrite Forall_forall in Hn. apply Hn. set_solver.
Qed.

(** Splitting cuts an allocated block in two; the second part carries a
    free header but is not in the list yet. *)
Lemma carve_ok h al b fl want :
  heap_ok h (b :: al) fl -> 0 <= want -> want + 28 < b.2 ->
  let h1 := carve h b.1 want in let n := remainder b want in
  heap_ok h1 (n :: (b.1, want) :: al) fl /\ kept al (hram h) (hram h1)
  /\ hdr_free (hram h1) n.1 = true.
Proof.
  intros H Hw Hs. cbv zeta.
  pose proof (ok_alloc _ _ _ H) as Ha. inversion Ha as [|? ? Hsz Ha']; subst.
  pose proof (ok_in _ _ _ H) as Hin. inversion Hin as [|? ? (Hb1 & Hb2 & Hb3) Hin']; subst.
  pose proof (ok_lo _ _ _ H) as Hlo. pose proof (ok_hi _ _ _ H) as Hhi.
  assert (Hbig : bend b < 4294967296) by lia. unfold bend, sizeof_block_header_t in Hbig.
  assert (En : u32 (u32 (b.1 + 12) + want) = (remainder b want).1) by (simpl; usimp; lia).
  pose proof (carve_frame h b.1 want) as Fr. cbv zeta in Fr. rewrite En in Fr. simpl in Fr.
  assert (Fx : forall x, x ∈ al ++ fl -> same_on (hram h) (hram (carve h b.1 want)) x.1 (bend x)).
  { intros x Hx. destruct (disj_alloc_head _ _ _ _ _ H Hx). apply Fr; blk. }
  assert (K : kept al (hram h) (hram (carve h b.1 want))).
  { apply Forall_forall. intros x Hx. apply Fx. set_solver. }
  split; [|split; [exact K|]].
  2: { unfold carve. rewrite En, Hsz. simpl. set (n := b.1 + 12 + want).
       transitivity (hdr_free (st_next n 0 (st_free n true (st_size n (u32 (b.2 - want - 12)) (hram h)))) n).
       - symmetry. apply same_hdr, same_on_st_size. lia.
       - by autorewrite with hdr. }
  split; simpl.
  - unfold carve; simpl. pose proof (ok_ram _ _ _ H). auto with mboot.
  - lia.
  - lia.
  - eapply lseg_frame; [apply (ok_list _ _ _ H)|]. apply Forall_forall. intros x Hx.
    eapply same_on_sub; [apply (Fx x); set_solver|lia|].
    destruct (disj_alloc_head _ _ _ _ x H); [set_solver|]. blk.
  - apply (ok_sorted _ _ _ H).
  - repeat constructor; simpl.
    + unfold carve. rewrite En, Hsz. simpl. set (n := b.1 + 12 + want).
      transitivity (hdr_size (st_next n 0 (st_free n true (st_size n (u32 (b.2 - want - 12)) (hram h)))) n).
      * symmetry. apply same_hdr, same_on_st_size. lia.
      * autorewrite with hdr. usimp. apply hdr_size_st_size. lia.
    + unfold carve; simpl. apply hdr_size_st_size. lia.
    + eapply kept_sizes; [exact K| |exact Ha'].
      pose proof (ok_sizes _ _ _ H) as Hn. inversion Hn as [|? ? ? Hn']; subst.
      by apply Forall_app in Hn' as [? _].
  - pose proof (ok_disj _ _ _ H) as D. inversion D as [|? ? HF D']; subst.
    constructor; [apply Forall_cons; split; [blk|] | constructor; [|exact D']];
      (eapply Forall_impl; [exact HF|]; intros x Hx; blk).
  - apply Forall_cons; split; [blk|]. apply Forall_cons; split; [blk|exact Hin'].
Qed.

(** ** Putting a block on the free list *)

Definition insert_after (prev n cur : Z) (h : heap) : heap :=
  link prev n (set_ram (st_next n cur (hram h)) h).

(** An allocated block whose header says free, inserted at the place the walk
    finds, joins the list at its address. *)
Lemma insert_spec h al n fl fuel :
  heap_ok h (n :: al) fl -> hdr_free (hram h) n.1 = true -> (length fl < fuel)%nat ->
  exists l1 l2 cur, fl = l1 ++ l2
    /\ walk_to fuel n.1 0 (free_list_head h) h = Ret (last_addr l1, cur) h
    /\ (let h' := insert_after (last_addr l1) n.1 cur h in
        heap_ok h' al (l1 ++ n :: l2) /\ kept al (hram h) (hram h')
        /\ free_ram h' = free_ram h /\ free_ram_end h' = free_ram_end h
        /\ bump_next h' = bump_next h).
Proof.
  intros H Hfree Hf. pose proof (ok_ram _ _ _ H) as Rm.
  pose proof (ok_lo _ _ _ H) as Hlo. pose proof (ok_hi _ _ _ H) as Hhi.
  pose proof (ok_in _ _ _ H) as Hin. inversion Hin as [|? ? (Hn1 & Hn2 & Hn3) Hin']; subst.
  pose proof (ok_sizes _ _ _ H) as Hsz. simpl in Hsz. inversion Hsz as [|? ? _ Hsz']; subst.
  apply Forall_app in Hsz' as [Hsa Hsf].
  destruct (walk_to_spec n.1 h fl fuel [] (free_list_head h)) as
    (l1 & l2 & cur & -> & B1 & B2 & L1 & L2 & E);
    [apply (ok_list _ _ _ H)|apply (ok_sorted _ _ _ H)|done|done|].
  exists l1, l2, cur. split; [done|]. split; [exact E|]. cbv zeta.
  pose proof (ok_sorted _ _ _ H) as S. apply StronglySorted_app in S as (S12 & S1 & S2).
  rewrite Forall_forall in B1, B2, Hsa, Hsf.
  assert (D : forall x, x ∈ al ++ l1 ++ l2 -> disj n x) by
    (intros x Hx; by apply (disj_alloc_head _ _ _ _ x H)).
  assert (D1 : forall x, x ∈ l1 -> before x n /\ 0 <= x.2).
  { intros x Hx. pose proof (D x ltac:(set_solver)). specialize (B1 x Hx). simpl in B1.
    assert (0 <= x.2) by (apply Hsf; set_solver). blk. }
  assert (D2 : forall y, y ∈ l2 -> before n y /\ 0 <= y.2).
  { intros y Hy. pose proof (D y ltac:(set_solver)). specialize (B2 y Hy). simpl in B2.
    assert (0 <= y.2) by (apply Hsf; set_solver). blk. }
  assert (Hcur : in_u32 cur).
  { eapply lseg_u32; [exact L2|exact Rm|]. pose proof (ok_below_4g _ _ _ H) as HB.
    inversion HB as [|? ? _ HB']; subst. rewrite !Forall_app in HB'. tauto. }
  set (h1 := set_ram (st_next n.1 cur (hram h)) h).
  assert (F1 : forall lo hi, n.1 + 12 <= lo \/ hi <= n.1 -> same_on (hram h) (hram h1) lo hi).
  { intros lo hi Hd. apply same_on_st_next. lia. }
  destruct (link_spec h1 l1 cur n.1) as (L1' & Rok & Fr).
  { eapply lseg_frame; [exact L1|]. apply Forall_forall. intros x Hx.
    destruct (D1 x Hx). apply F1. blk. }
  { unfold h1; simpl; auto with mboot. }
  { pose proof (ok_below_4g _ _ _ H) as HB. inversion HB; subst. lia. }
  { done. }
  { apply Forall_forall. intros x Hx. by apply D1. }
  unfold insert_after. fold h1. set (h2 := link (last_addr l1) n.1 h1) in *.
  assert (F2 : forall lo hi, n.1 + 12 <= lo \/ hi <= n.1 ->
             Forall (fun b => b.1 + 12 <= lo \/ hi <= b.1) l1 -> same_on (hram h) (hram h2) lo hi).
  { intros lo hi Hd HF. eapply same_on_trans; [by apply F1|by apply Fr]. }
  assert (K : kept al (hram h) (hram h2)).
  { apply Forall_forall. intros x Hx. pose proof (D x ltac:(set_solver)). specialize (Hsa x Hx).
    simpl in Hsa. apply F2; [blk|]. apply Forall_forall. intros y Hy. destruct (D1 y Hy).
    assert (disj x y) by (eapply (disj_alloc_free h (n :: al)); [exact H|set_solver|set_solver]).
    blk. }
  split; [|split; [exact K|unfold h2; autorewrite with heap; done]].
  assert (P : n :: al ++ l1 ++ l2 ≡ₚ al ++ l1 ++ n :: l2).
  { rewrite app_assoc, Permutation_middle, <- app_assoc. done. }
  split; unfold h2; autorewrite with heap; fold h2; auto.
  - apply lseg_app. exists n.1. split; [done|]. simpl.
    assert (HFn : Forall (fun b : blk => b.1 + 12 <= n.1 \/ n.1 + 12 <= b.1) l1).
    { apply Forall_forall. intros x Hx. destruct (D1 x Hx). blk. }
    destruct (same_hdr (hram h1) (hram h2) n.1) as (E1 & E2 & E3); [by apply Fr|].
    rewrite <- E1, <- E2, <- E3. unfold h1; simpl. autorewrite with hdr.
    rewrite hdr_next_st_next by done.
    split; [done|]. split; [lia|]. split; [apply (Forall_inv (ok_alloc _ _ _ H))|]. split; [done|].
    eapply lseg_frame; [exact L2|]. apply Forall_forall. intros y Hy. destruct (D2 y Hy).
    apply F2; [blk|]. apply Forall_forall. intros x Hx. destruct (D1 x Hx).
    specialize (S12 x y Hx Hy). blk.
  - apply StronglySorted_app. split; [|split; [done|]].
    + intros x y Hx [->|Hy]%elem_of_cons; [by apply D1|by apply S12].
    + constructor; [done|]. apply Forall_forall. intros y Hy. by apply D2.
  - eapply kept_sizes; [exact K|by apply Forall_forall|]. apply (Forall_inv_tail (ok_alloc _ _ _ H)).
  - exact (ForallOrdPairs_perm disj _ _ disj_sym P (ok_disj _ _ _ H)).
  - rewrite <- P. apply Hin.
Qed.

Lemma coalesced_insert l1 n l2 :
  coalesced (l1 ++ l2) -> Forall (fun b => 0 <= b.2) (n :: l1 ++ l2) ->
  StronglySorted before (l1 ++ n :: l2) -> untouched_by n (l1 ++ l2) ->
  coalesced (l1 ++ n :: l2).
Proof.
  unfold coalesced, untouched_by. intros C Hn S U.
  apply StronglySorted_app in C as (C12 & C1 & C2).
  apply StronglySorted_app in S as (S12 & S1 & S2). inversion S2 as [|? ? _ S2']; subst.
  inversion Hn as [|? ? Hnn Hns]; subst.
  rewrite Forall_forall in Hns. rewrite Forall_forall in U. rewrite Forall_forall in S2'.
  apply StronglySorted_app. split; [|split; [done|]].
  - intros x y Hx [->|Hy]%elem_of_cons; [|by apply C12].
    pose proof (U x ltac:(set_solver)). pose proof (S12 x n Hx ltac:(set_solver)).
    pose proof (Hns x ltac:(set_solver)). blk.
  - constructor; [done|]. apply Forall_forall. intros y Hy.
    pose proof (U y ltac:(set_solver)). pose proof (S2' y Hy). pose proof (Hns y ltac:(set_solver)). blk.
Qed.

(** ** [try_split_block] *)

Lemma try_split_unfold fuel block want h :
  u32 (want + sizeof_block_header_t + 16) < hdr_size (hram h) block ->
  try_split_block fuel block want h =
  match walk_to fuel (u32 (u32 (block + 12) + want)) 0 (free_list_head h) (carve h block want) with
  | Ret (prev, cur) h1 =>
      Ret tt (insert_after prev (u32 (u32 (block + 12) + want)) cur h1)
  | Halted h1 => Halted h1
  | NoFuel => NoFuel
  end.
Proof.
  intros Hb. unfold try_split_block. case_z; [lia|].
  unfold mbind, M_bind. change (free_list_head _) with (free_list_head h).
  fold (carve h block want). by destruct (walk_to _ _ _ _ _) as [[prev cur] h1| |].
Qed.

Lemma split_spec h al b fl fuel want :
  heap_ok h (b :: al) fl -> coalesced fl -> untouched_by b fl -> 0 <= want <= b.2 ->
  (length fl < fuel)%nat ->
  exists h' sz fl', try_split_block fuel b.1 want h = Ret tt h'
    /\ want <= sz <= b.2 /\ heap_ok h' ((b.1, sz) :: al) fl' /\ coalesced fl'
    /\ kept al (hram h) (hram h') /\ (length fl' <= S (length fl))%nat
    /\ free_ram h' = free_ram h /\ free_ram_end h' = free_ram_end h
    /\ bump_next h' = bump_next h.
Proof.
  intros H C U Hw Hf.
  pose proof (Forall_inv (ok_alloc _ _ _ H)) as Hsz. simpl in Hsz.
  pose proof (Forall_inv (ok_in _ _ _ H)) as Hb. simpl in Hb.
  pose proof (ok_lo _ _ _ H) as Hlo. pose proof (ok_hi _ _ _ H) as Hhi.
  destruct (Z.leb_spec b.2 (want + 28)) as [Hle|Hgt].
  { exists h, b.2, fl. rewrite <- surjective_pairing. unfold try_split_block. rewrite Hsz.
    unfold sizeof_block_header_t. rewrite u32_small by blk. case_z; [|lia].
    repeat (split; [done || lia|]). split; [|auto with lia].
    apply Forall_forall. intros; apply same_on_refl. }
  rewrite try_split_unfold by (rewrite Hsz; unfold sizeof_block_header_t; rewrite u32_small by blk; lia).
  assert (En : u32 (u32 (b.1 + 12) + want) = (remainder b want).1)
    by (simpl; unfold bend, sizeof_block_header_t in Hb; usimp; lia).
  rewrite En. destruct (carve_ok h al b fl want H) as (H1 & K1 & Fn); [lia|lia|].
  destruct (insert_spec _ _ _ _ fuel H1 Fn Hf) as (l1 & l2 & cur & -> & E & H2 & K2 & R1 & R2 & R3).
  change (free_list_head (carve h b.1 want)) with (free_list_head h) in E. rewrite E.
  eexists _, want, _. split; [reflexivity|]. split; [lia|]. split; [exact H2|].
  split; [|split; [|split]].
  - apply coalesced_insert; [done| |apply (ok_sorted _ _ _ H2)|].
    + pose proof (ok_sizes _ _ _ H2) as Hn. rewrite Permutation_middle.
      by apply Forall_app in Hn as [_ Hn].
    + eapply Forall_impl; [exact U|]. intros y Hy. blk.
  - eapply kept_trans; [exact K1|]. by inversion K2.
  - rewrite !length_app. simpl. lia.
  - rewrite R1, R2, R3. done.
Qed.

(** ** The bump allocation *)

Definition bump_block (h : heap) (want : Z) : heap :=
  let a := align_up_uintptr (bump_next h) 8 in
  set_ram (memset (a + 12) 0 want (st_next a 0 (st_free a false (st_size a want (hram h)))))
    (set_bump (a + 12 + want) h).

Lemma bump_spec h al fl want :
  heap_ok h al fl -> 0 <= want -> bump_next h + 8 <= 4294967296 ->
  let a := align_up_uintptr (bump_next h) 8 in
  a + 12 + want <= free_ram_end h ->
  let h' := bump_block h want in
  heap_ok h' ((a, want) :: al) fl /\ kept al (hram h) (hram h')
  /\ (forall x, a + 12 <= x < a + 12 + want -> ld8 (hram h') x = 0).
Proof.
  intros H Hw Hb a Ha. cbv zeta.
  pose proof (ok_lo _ _ _ H) as Hlo. pose proof (ok_hi _ _ _ H) as Hhi.
  destruct (align_up_8 (bump_next h)) as [Hal _]; [lia|lia|]. fold a in Hal.
  assert (Fr : forall lo hi, hi <= bump_next h -> same_on (hram h) (hram (bump_block h want)) lo hi).
  { intros lo hi Hh. unfold bump_block; fold a; simpl.
    eapply same_on_trans; [|apply same_on_memset; lia].
    eapply same_on_trans; [|apply same_on_st_next; lia].
    eapply same_on_trans; [|apply same_on_st_free; lia].
    apply same_on_st_size; lia. }
  pose proof (ok_in _ _ _ H) as Hin.
  assert (K : kept (al ++ fl) (hram h) (hram (bump_block h want))).
  { eapply Forall_impl; [exact Hin|]. intros x Hx. apply Fr. simpl in Hx; lia. }
  split; [|split].
  - split; simpl; fold a; try lia.
    + pose proof (ok_ram _ _ _ H). auto 6 with mboot.
    + eapply lseg_frame; [apply (ok_list _ _ _ H)|]. apply Forall_app in Hin as [_ Hin].
      eapply Forall_impl; [exact Hin|]. intros x Hx. simpl in Hx. apply Fr. blk.
    + apply (ok_sorted _ _ _ H).
    + constructor.
      * unfold bump_block; fold a; simpl.
        transitivity (hdr_size (st_next a 0 (st_free a false (st_size a want (hram h)))) a).
        -- symmetry. apply same_hdr, same_on_memset. lia.
        -- autorewrite with hdr. apply hdr_size_st_size. lia.
      * apply Forall_app in K as [K _]. eapply kept_sizes; [exact K| |apply (ok_alloc _ _ _ H)].
        pose proof (ok_sizes _ _ _ H) as Hn. by apply Forall_app in Hn as [? _].
    + constructor; [|apply (ok_disj _ _ _ H)]. eapply Forall_impl; [exact Hin|].
      intros x Hx. simpl in Hx. blk.
    + apply Forall_cons. split; [blk|]. eapply Forall_impl; [exact Hin|].
      intros x Hx. simpl in Hx |- *. lia.
  - by apply Forall_app in K as [K _].
  - intros x Hx. unfold bump_block; fold a; simpl. unfold memset. rewrite ld8_set_bytes.
    repeat case_z; simpl; try lia; reflexivity.
Qed.

(** ** Writing the payload of an allocated block *)

Lemma heap_ok_perm h al al' fl : heap_ok h al fl -> al ≡ₚ al' -> heap_ok h al' fl.
Proof.
  intros H P. split; try apply H.
  - rewrite <- P. apply H.
  - eapply ForallOrdPairs_perm; [apply disj_sym| |apply H]. by rewrite P.
  - rewrite <- P. apply H.
Qed.

(** The owner of a block may write its payload: the heap and the contents of
    every other block stay as they are. *)
Lemma payload_write_ok h al fl b m' :
  heap_ok h al fl -> b ∈ al -> ram_ok m' ->
  (forall x, ~ (b.1 + 12 <= x < bend b) -> ld8 (hram h) x = ld8 m' x) ->
  heap_ok (set_ram m' h) al fl
  /\ (forall x, x ∈ al -> x <> b -> same_on (hram h) m' x.1 (bend x)).
Proof.
  intros H Hb Rm Hx. apply elem_of_Permutation in Hb as [al' P].
  pose proof (heap_ok_perm _ _ _ _ H P) as H'.
  assert (Fx : forall x, x ∈ al' ++ fl -> same_on (hram h) m' x.1 (bend x)).
  { intros x Hin y Hy. apply Hx. destruct (disj_alloc_head _ _ _ _ x H' Hin). blk. }
  assert (Fb : same_on (hram h) m' b.1 (b.1 + 12)) by (intros y Hy; apply Hx; lia).
  split.
  - eapply heap_ok_perm; [|symmetry; exact P].
    split; simpl; try apply H'; try done.
    + eapply lseg_frame; [apply H'|]. apply Forall_forall. intros x Hin.
      destruct (disj_alloc_head _ _ _ _ x H'); [set_solver|].
      eapply same_on_sub; [apply (Fx x); set_solver|lia|blk].
    + pose proof (ok_alloc _ _ _ H') as Ha. inversion Ha as [|? ? Hb Ha']; subst. constructor.
      * rewrite <- Hb. symmetry. by apply same_hdr.
      * eapply kept_sizes; [|  |exact Ha'].
        -- apply Forall_forall. intros x Hin. apply Fx. set_solver.
        -- pose proof (ok_sizes _ _ _ H') as Hn. inversion Hn as [|? ? _ Hn']; subst.
           by apply Forall_app in Hn' as [? _].
  - intros x Hin Hne. apply Fx. rewrite P in Hin. set_solver.
Qed.

(** ** [kmalloc] *)

Lemma u32_sum2 a b : in_u32 (a + b) -> in_u32 a -> u32 (u32 a + b) = a + b.
Proof. intros. usimp. done. Qed.

(** Outcome of the free-list path. *)
Lemma kmalloc_reuse h al l1 b l2 fuel want :
  heap_ok h al (l1 ++ b :: l2) -> coalesced (l1 ++ b :: l2) -> 0 <= want <= b.2 ->
  (length (l1 ++ b :: l2) < fuel)%nat ->
  exists h1 h' sz fl',
    try_split_block fuel b.1 want (unlink (last_addr l1) b.1 h) = Ret tt h1
    /\ h' = set_ram (memset (u32 (b.1 + 12)) 0 want (hram h1)) h1
    /\ u32 (b.1 + 12) = b.1 + 12
    /\ want <= sz /\ heap_ok h' ((b.1, sz) :: al) fl' /\ coalesced fl'
    /\ kept al (hram h) (hram h') /\ (length fl' <= length (l1 ++ b :: l2))%nat
    /\ (forall x, b.1 + 12 <= x < b.1 + 12 + want -> ld8 (hram h') x = 0)
    /\ free_ram h' = free_ram h /\ free_ram_end h' = free_ram_end h
    /\ bump_next h' = bump_next h.
Proof.
  intros H C Hw Hf. destruct (unlink_spec _ _ _ _ _ H) as (H1 & K1 & R1 & R2 & R3).
  assert (HU : coalesced (l1 ++ l2) /\ untouched_by b (l1 ++ l2)).
  { unfold coalesced, untouched_by in *. apply StronglySorted_app in C as (C12 & C1 & C2).
    inversion C2 as [|? ? C3 C4]; subst. split.
    - apply StronglySorted_app. split; [|done]. intros; apply C12; set_solver.
    - apply Forall_app. split; [|eapply Forall_impl; [exact C4|]; intros y Hy; blk].
      apply Forall_forall. intros x Hx. pose proof (C12 x b Hx ltac:(set_solver)). blk. }
  destruct HU as [C' U]. rewrite length_app in Hf. simpl in Hf.
  destruct (split_spec _ _ _ _ fuel want H1 C' U Hw) as
    (h1 & sz & fl' & E & Hsz & H2 & C2 & K2 & Hlen & S1 & S2 & S3);
    [rewrite length_app; lia|].
  pose proof (Forall_inv (ok_in _ _ _ H2)) as Hb. simpl in Hb.
  pose proof (ok_lo _ _ _ H2) as Hlo. pose proof (ok_hi _ _ _ H2) as Hhi.
  assert (Ea : u32 (b.1 + 12) = b.1 + 12) by (usimp; blk || (apply u32_small; blk)).
  rewrite Ea.
  destruct (payload_write_ok h1 _ _ (b.1, sz) (memset (b.1 + 12) 0 want (hram h1)) H2) as (H3 & K3).
  { set_solver. }
  { pose proof (ok_ram _ _ _ H2). auto with mboot. }
  { intros x Hx. unfold memset. rewrite ld8_set_bytes. 
    repeat case_z; simpl; try reflexivity. exfalso; blk. }
  exists h1, (set_ram (memset (b.1 + 12) 0 want (hram h1)) h1), sz, fl'.
  split; [exact E|]. do 2 (split; [done|]). split; [lia|]. split; [exact H3|]. split; [done|].
  split; [|split; [|split]].
  - eapply kept_trans; [exact K1|]. eapply kept_trans; [exact K2|].
    apply Forall_forall. intros x Hx. apply K3; [set_solver|]. intros ->.
    pose proof (ok_disj _ _ _ H2) as D. inversion D as [|? ? HF _]; subst.
    rewrite Forall_forall in HF. specialize (HF (b.1, sz) ltac:(set_solver)). blk.
  - revert Hlen. rewrite !length_app. simpl. lia.
  - intros x Hx. simpl. unfold memset. rewrite ld8_set_bytes. repeat case_z; simpl; try lia; reflexivity.
  - simpl. rewrite S1, S2, S3. done.
Qed.

(** What a successful request gives its caller. *)
Record allocated (h : heap) (al fl : list blk) (bytes p : Z) (h' : heap) : Prop := {
  got_block : exists sz fl', bytes <= sz /\ heap_ok h' ((p - 12, sz) :: al) fl'
                /\ coalesced fl' /\ (length fl' <= length fl)%nat;
  got_kept : kept al (hram h) (hram h');
  got_zero : forall x, p <= x < p + bytes -> ld8 (hram h') x = 0;
  got_region : free_ram h' = free_ram h /\ free_ram_end h' = free_ram_end h;
  got_bump : bump_next h <= bump_next h' <= bump_next h + bytes + 28
}.

Lemma kmalloc_cases h al fl fuel bytes :
  heap_ok h al fl -> coalesced fl -> 0 < bytes ->
  bump_next h + bytes + 28 <= 4294967296 -> (length fl < fuel)%nat ->
  (exists p h', kmalloc fuel bytes h = Ret p h' /\ allocated h al fl bytes p h')
  \/ (kmalloc fuel bytes h = Halted h
      /\ Forall (too_small (align_up_uintptr bytes 8)) fl
      /\ free_ram_end h < align_up_uintptr (bump_next h) 8 + 12 + align_up_uintptr bytes 8).
Proof.
  intros H C Hby Hb Hf. pose proof (ok_lo _ _ _ H) as Hlo. pose proof (ok_hi _ _ _ H) as Hhi.
  destruct (align_up_8 bytes) as [Hw _]; [lia|lia|].
  destruct (align_up_8 (bump_next h)) as [Ha _]; [lia|lia|].
  unfold kmalloc. case_z; [lia|]. set (want := align_up_uintptr bytes 8) in *.
  set (a := align_up_uintptr (bump_next h) 8) in *.
  case_z; [lia|]. unfold mbind, M_bind. unfold find_free_block_and_remove.
  destruct (find_loop_spec want h fl fuel [] (free_list_head h) (ok_list _ _ _ H) Hf)
    as [(HF & E)|(l1 & b & l2 & Hfit & E)]; change (last_addr []) with 0 in E; rewrite E.
  - simpl. fold a. unfold sizeof_block_header_t. rewrite u32_sum2 by lia. usimp.
    case_z; [right; auto|]. left. do 2 eexists. split; [reflexivity|].
    destruct (bump_spec h al fl want H) as (H1 & K1 & Z1); fold a; [lia|lia|lia|].
    unfold bump_block in H1, K1, Z1; cbv zeta in H1, K1, Z1; fold a in H1, K1, Z1; simpl in H1, K1, Z1.
    split; simpl; auto; try lia.
    + exists want, fl. replace (a + 12 - 12) with a by lia. auto with lia.
    + intros x Hx. apply Z1. lia.
  - inversion Hfit as [? ? ? HF Hfb]; subst.
    destruct (kmalloc_reuse h al l1 b l2 fuel want H C) as
      (h1 & h' & sz & fl' & E1 & -> & Ea & Hsz & H1 & C1 & K1 & Hlen & Z1 & R1 & R2 & R3); [lia|done|].
    destruct (free_cut _ _ _ _ _ H) as (Hb0 & _). case_z; [lia|]. simpl.
    rewrite E1.
    unfold sizeof_block_header_t. left. do 2 eexists. split; [reflexivity|].
    rewrite Ea in *. split; simpl in *; auto; try lia.
    + exists sz, fl'. replace (b.1 + 12 - 12) with b.1 by lia. auto with lia.
    + intros x Hx. apply Z1. lia.
Qed.

(** ** Coalescing *)

Definition join (a b : blk) : blk := (a.1, a.2 + 12 + b.2).

Lemma coalesce_spec h al l1 a b l2 :
  heap_ok h al (l1 ++ a :: b :: l2) ->
  if bend a =? b.1 then
    exists h', try_coalesce_adjacent a.1 b.1 h = (true, h')
      /\ heap_ok h' al (l1 ++ join a b :: l2) /\ kept al (hram h) (hram h')
      /\ free_ram h' = free_ram h /\ free_ram_end h' = free_ram_end h /\ bump_next h' = bump_next h
  else try_coalesce_adjacent a.1 b.1 h = (false, h).
Proof.
  intros H. destruct (free_cut _ _ _ _ _ H) as (Ha & Hsa & Ha2 & L1 & L2 & B1 & B2 & B12 & S1 & S2).
  pose proof (ok_lo _ _ _ H) as Hlo. pose proof (ok_hi _ _ _ H) as Hhi.
  pose proof (ok_in _ _ _ H) as Hin. pose proof Hin as Hin0. rewrite Forall_forall in Hin.
  pose proof (Hin a ltac:(set_solver)) as Ia. pose proof (Hin b ltac:(set_solver)) as Ib.
  unfold try_coalesce_adjacent. rewrite Hsa.
  assert (Ee : u32 (a.1 + sizeof_block_header_t + a.2) = bend a) by (apply u32_small; blk).
  rewrite Ee. destruct (Z.eqb_spec (bend a) b.1) as [Et|Et]; [|done].
  simpl in L2. destruct L2 as (En & Hb & Hsb & Hfb & L2). rewrite Hsb.
  assert (Hj : in_u32 (a.2 + 12 + b.2)) by blk.
  assert (Es : u32 (a.2 + sizeof_block_header_t + b.2) = a.2 + 12 + b.2) by (apply u32_small; blk).
  rewrite Es. set (m1 := st_size a.1 _ (hram h)). eexists. split; [reflexivity|].
  assert (En2 : hdr_next m1 b.1 = hdr_next (hram h) b.1).
  { symmetry. apply same_hdr, same_on_st_size. blk. }
  pose proof (ok_ram _ _ _ H) as Rm.
  rewrite En2. set (q := hdr_next (hram h) b.1) in *.
  assert (Hq : in_u32 q) by (by apply ld32_range).
  set (m' := st_next a.1 q m1).
  assert (Fr : forall lo hi, a.1 + 12 <= lo \/ hi <= a.1 -> same_on (hram h) m' lo hi).
  { intros lo hi Hd. eapply same_on_trans; [apply same_on_st_size|apply same_on_st_next]; lia. }
  assert (K : kept al (hram h) m').
  { apply Forall_forall. intros x Hx. pose proof (Hin x ltac:(set_solver)).
    assert (disj x a) by (eapply disj_alloc_free; [exact H|done|set_solver]). apply Fr. blk. }
  split; [|split; [exact K|done]].
  assert (J : bend (join a b) = bend b) by blk.
  split; simpl; auto.
  - unfold m', m1; auto with mboot.
  - apply lseg_app. exists a.1. split.
    { eapply lseg_frame; [exact L1|]. apply Forall_forall. intros x Hx. destruct (B1 x Hx).
      apply Fr. blk. }
    simpl. unfold m', m1. autorewrite with hdr. rewrite hdr_next_st_next by done.
    rewrite hdr_size_st_size by lia.
    pose proof (ok_list _ _ _ H) as Hl. apply lseg_app in Hl as (? & _ & (_ & _ & _ & Hfa & _)).
    repeat (split; [done|]). fold m1. fold m'.
    eapply lseg_frame; [exact L2|]. apply Forall_forall. intros y Hy.
    destruct (B2 y ltac:(set_solver)). apply Fr. blk.
  - apply StronglySorted_app. split; [|split; [done|]].
    + intros x y Hx [->|Hy]%elem_of_cons; [destruct (B1 x Hx); blk|]. apply B12; set_solver.
    + inversion S2 as [|? ? S3 S4]; subst. constructor; [done|].
      eapply Forall_impl; [exact S4|]. intros y Hy. unfold before in *. lia.
  - eapply kept_sizes; [exact K| |apply (ok_alloc _ _ _ H)].
    pose proof (ok_sizes _ _ _ H) as Hn. by apply Forall_app in Hn as [? _].
  - pose proof (ok_disj _ _ _ H) as D. rewrite app_assoc in D |- *.
    apply ForallOrdPairs_app in D as (D1 & D2 & D3). apply ForallOrdPairs_app.
    inversion D2 as [|? ? D4 D5]; subst. inversion D5 as [|? ? D6 D7]; subst.
    inversion D4 as [|? ? _ D8]; subst. split; [done|]. split.
    + constructor; [|done]. rewrite Forall_forall in D6, D8 |- *. intros y Hy.
      specialize (D6 y Hy). specialize (D8 y Hy). pose proof (Hin y ltac:(set_solver)). blk.
    + intros x y Hx [->|Hy]%elem_of_cons; [|apply D3; set_solver].
      pose proof (D3 x a Hx ltac:(set_solver)). pose proof (D3 x b Hx ltac:(set_solver)).
      pose proof (Hin x ltac:(set_solver)). blk.
  - rewrite app_assoc in Hin0 |- *. apply Forall_app in Hin0 as [I1 I2].
    apply Forall_app. split; [done|]. inversion I2 as [|? ? _ I3]; subst. inversion I3; subst.
    constructor; [|done]. blk.
Qed.

(** Reference description of [kfree]: the block goes to its place in address
    order and is joined with a neighbour it touches, on either side. *)
Definition merge_next (x : blk) (l : list blk) : list blk :=
  match l with
  | [] => [x]
  | y :: l' => if bend x =? y.1 then join x y :: l' else x :: l
  end.

Fixpoint free_into (x : blk) (l : list blk) : list blk :=
  match l with
  | [] => [x]
  | p :: l' =>
      if p.1 <? x.1 then
        if bend p =? x.1 then merge_next (join p x) l' else p :: free_into x l'
      else merge_next x l
  end.

Lemma join_next_spec h al l1 x l2 :
  heap_ok h al (l1 ++ x :: l2) ->
  let h' := join_next x.1 h in
  heap_ok h' al (l1 ++ merge_next x l2) /\ kept al (hram h) (hram h')
  /\ free_ram h' = free_ram h /\ free_ram_end h' = free_ram_end h /\ bump_next h' = bump_next h.
Proof.
  intros H. cbv zeta. unfold join_next.
  destruct (free_cut _ _ _ _ _ H) as (_ & _ & _ & _ & L2 & _).
  assert (R : kept al (hram h) (hram h)) by (apply Forall_forall; intros; apply same_on_refl).
  destruct l2 as [|y l2]; simpl in L2.
  - rewrite L2. simpl. auto.
  - destruct L2 as (-> & Hy & _). case_z; [lia|]. simpl merge_next.
    pose proof (coalesce_spec _ _ _ _ _ _ H) as Hc. destruct (bend x =? y.1).
    + destruct Hc as (h' & E & ?). simpl. rewrite E. done.
    + simpl. rewrite Hc. simpl. auto.
Qed.

(** Where a block is in an address-ordered list is determined by its address. *)
Lemma split_unique (l1 l2 k1 k2 : list blk) t :
  l1 ++ l2 = k1 ++ k2 ->
  Forall (fun b => b.1 < t) l1 -> Forall (fun b => t <= b.1) l2 ->
  Forall (fun b => b.1 < t) k1 -> Forall (fun b => t <= b.1) k2 -> l1 = k1.
Proof.
  revert k1. induction l1 as [|x l1 IH]; intros [|y k1] E A1 A2 B1 B2; simpl in *.
  - done.
  - subst l2. inversion A2; inversion B1; subst; lia.
  - subst k2. inversion A1; inversion B2; subst; lia.
  - injection E as -> E. inversion A1; inversion B1; subst. f_equal. eauto.
Qed.

Lemma free_into_app l1 x l :
  Forall (fun p => p.1 < x.1 /\ bend p <> x.1) l1 -> free_into x (l1 ++ l) = l1 ++ free_into x l.
Proof.
  induction l1 as [|p l1 IH]; [done|]. inversion 1 as [|? ? [Hp Ht] HF]; subst. simpl.
  destruct (Z.ltb_spec p.1 x.1); [|lia]. destruct (Z.eqb_spec (bend p) x.1); [lia|]. by rewrite IH.
Qed.

Lemma free_into_here x l : Forall (fun p => x.1 <= p.1) l -> free_into x l = merge_next x l.
Proof. destruct l as [|y l]; [done|]. inversion 1; subst. simpl. destruct (Z.ltb_spec y.1 x.1); [lia|done]. Qed.

Lemma merge_next_addr (Q : Z -> Prop) x l :
  Q x.1 -> Forall (fun y => Q y.1) l -> Forall (fun y => Q y.1) (merge_next x l).
Proof.
  intros Hx Hl. destruct l as [|y l]; simpl; [by constructor|].
  inversion Hl; subst. case_z; by repeat constructor.
Qed.

Lemma free_into_addr (Q : Z -> Prop) x l :
  Q x.1 -> Forall (fun y => Q y.1) l -> Forall (fun y => Q y.1) (free_into x l).
Proof.
  intros Hx. induction l as [|p l IH]; intros Hl; [by repeat constructor|].
  inversion Hl as [|? ? Hp Hl']; subst. cbn [free_into].
  destruct (p.1 <? x.1); [destruct (bend p =? x.1)|].
  - by apply (merge_next_addr Q).
  - constructor; auto.
  - by apply (merge_next_addr Q).
Qed.

Lemma merge_next_coalesced x l :
  coalesced l -> Forall (fun y => before x y /\ 0 <= y.2) l -> coalesced (merge_next x l).
Proof.
  unfold coalesced. intros C B. destruct l as [|y l]; simpl; [by repeat constructor|].
  inversion C as [|? ? C1 C2]; subst. inversion B as [|? ? [B1 B1'] B2]; subst. case_z.
  - constructor; [done|]. eapply Forall_impl; [exact C2|]. intros z Hz. blk.
  - constructor; [done|]. constructor; [blk|]. eapply Forall_impl; [exact C2|]. intros z Hz. blk.
Qed.

(** Freeing keeps the list coalesced. *)
Lemma free_into_coalesced x l :
  coalesced l -> 0 <= x.2 -> Forall (fun y => disj x y /\ 0 <= y.2) l -> coalesced (free_into x l).
Proof.
  unfold coalesced. intros C Hx. induction l as [|p l IH]; intros D; [by repeat constructor|].
  inversion C as [|? ? C1 C2]; subst. inversion D as [|? ? [D1 D1'] D2]; subst. cbn [free_into].
  destruct (Z.ltb_spec p.1 x.1).
  - case_z.
    + apply merge_next_coalesced; [done|]. apply Forall_forall. intros y Hy.
      rewrite Forall_forall in C2, D2. specialize (C2 y Hy). destruct (D2 y Hy). blk.
    + constructor; [by apply IH|]. apply (free_into_addr (fun a => bend p < a)); [blk|done].
  - apply merge_next_coalesced; [done|]. constructor; [blk|].
    apply Forall_forall. intros y Hy. rewrite Forall_forall in C2, D2.
    specialize (C2 y Hy). destruct (D2 y Hy). blk.
Qed.

Lemma length_free_into x l : (length (free_into x l) <= S (length l))%nat.
Proof.
  assert (Hm : forall x l, (length (merge_next x l) <= S (length l))%nat).
  { intros y [|z l']; simpl; [lia|]. case_z; simpl; lia. }
  induction l as [|p l IH]; [simpl; lia|]. cbn [free_into].
  pose proof (Hm (join p x) l). pose proof (Hm x (p :: l)).
  destruct (p.1 <? x.1); [destruct (bend p =? x.1)|]; simpl length in *; lia.
Qed.

(** ** [kfree] *)

Lemma walk_to_found h al l1 n l2 fuel :
  heap_ok h al (l1 ++ n :: l2) -> (length (l1 ++ n :: l2) < fuel)%nat ->
  exists r, walk_to fuel n.1 0 (free_list_head h) h = Ret (last_addr l1, r) h.
Proof.
  intros H Hf. destruct (free_cut _ _ _ _ _ H) as (_ & _ & Hn & _ & _ & B1 & B2 & _).
  destruct (walk_to_spec n.1 h (l1 ++ n :: l2) fuel [] (free_list_head h)) as
    (k1 & k2 & r & Ek & A1 & A2 & _ & _ & E); [apply H|apply H| |done|].
  { pose proof (ok_sizes _ _ _ H) as Hs. by apply Forall_app in Hs as [_ ?]. }
  exists r. change (last_addr []) with 0 in E. rewrite E. simpl. do 2 f_equal. f_equal. symmetry.
  eapply split_unique; [exact Ek| | |exact A1|exact A2].
  - apply Forall_forall. intros x Hx. destruct (B1 x Hx). blk.
  - constructor; [lia|]. apply Forall_forall. intros y Hy. destruct (B2 y Hy). blk.
Qed.

(** The two joins of [kfree], after the block was linked in. *)
Lemma kfree_joins h al l1 n l2 fuel :
  heap_ok h al (l1 ++ n :: l2) -> coalesced (l1 ++ l2) -> (length (l1 ++ n :: l2) < fuel)%nat ->
  exists h',
    (block' ← (if negb (last_addr l1 =? 0) then
                 head ← gets free_list_head;
                 '(scan_prev, _) ← walk_to fuel n.1 0 head;
                 join_previous scan_prev n.1
               else mret n.1);
     modify (join_next block')) h = Ret tt h'
    /\ heap_ok h' al (free_into n (l1 ++ l2)) /\ kept al (hram h) (hram h')
    /\ free_ram h' = free_ram h /\ free_ram_end h' = free_ram_end h /\ bump_next h' = bump_next h.
Proof.
  intros H C Hf. destruct (walk_to_found _ _ _ _ _ _ H Hf) as (r & W).
  destruct (free_cut _ _ _ _ _ H) as (Hn & _ & Hn2 & _ & _ & B1 & B2 & _).
  assert (A2 : Forall (fun p : blk => n.1 <= p.1) l2).
  { apply Forall_forall. intros y Hy. destruct (B2 y Hy). blk. }
  destruct l1 as [|p l0 _] using rev_ind.
  - simpl. unfold mbind, M_bind, mret, M_ret, modify.
    destruct (join_next_spec h al [] n l2 H) as (H1 & K1 & R). eexists. split; [reflexivity|].
    rewrite free_into_here by done. auto.
  - rewrite <- app_assoc in H, C |- *. simpl in H, C |- *. rewrite last_addr_snoc in W |- *.
    pose proof H as Hp. destruct (free_cut _ _ _ _ _ Hp) as (Hp0 & _ & _ & _ & _ & P1 & P2 & _).
    pose proof (coalesce_spec _ _ _ _ _ _ H) as Hc. case_z; [lia|]. simpl.
    assert (A0 : Forall (fun q : blk => q.1 < n.1 /\ bend q <> n.1) l0).
    { apply Forall_forall. intros x Hx. destruct (P1 x Hx). destruct (P2 n ltac:(set_solver)).
      destruct (B1 p ltac:(set_solver)). blk. }
    unfold mbind, M_bind, gets, modify. rewrite W. unfold join_previous. case_z; [lia|]. simpl.
    rewrite free_into_app by done. simpl. destruct (B1 p ltac:(set_solver)).
    destruct (Z.ltb_spec p.1 n.1); [|blk]. destruct (Z.eqb_spec (bend p) n.1).
    + destruct Hc as (h1 & -> & Hj & K1 & R1 & R2 & R3). simpl.
      destruct (join_next_spec _ _ _ _ _ Hj) as (Hk & K2 & R4 & R5 & R6).
      eexists. split; [reflexivity|]. split; [done|].
      split; [by eapply kept_trans|]. simpl in R4, R5, R6. rewrite R4, R5, R6. done.
    + rewrite Hc. simpl. change (p :: n :: l2) with ([p] ++ n :: l2) in H. rewrite app_assoc in H.
      destruct (join_next_spec _ _ _ _ _ H) as (Hk & K2 & R). eexists. split; [reflexivity|].
      rewrite free_into_here by done. rewrite <- app_assoc in Hk. auto.
Qed.

(** The first two stores of [kfree], into the header of the block. *)
Definition mark_free (block : Z) (h : heap) : heap :=
  set_ram (st_next block 0 (st_free block true (hram h))) h.

Lemma mark_free_ok h al b fl :
  heap_ok h (b :: al) fl ->
  let h0 := mark_free b.1 h in
  heap_ok h0 (b :: al) fl /\ kept al (hram h) (hram h0) /\ hdr_free (hram h0) b.1 = true.
Proof.
  intros H. cbv zeta. unfold mark_free.
  assert (Fr : forall lo hi, b.1 + 12 <= lo \/ hi <= b.1 ->
             same_on (hram h) (st_next b.1 0 (st_free b.1 true (hram h))) lo hi).
  { intros lo hi Hd. eapply same_on_trans; [apply same_on_st_free|apply same_on_st_next]; lia. }
  pose proof (Forall_inv (ok_in _ _ _ H)) as Hb. simpl in Hb.
  assert (K : kept al (hram h) (st_next b.1 0 (st_free b.1 true (hram h)))).
  { apply Forall_forall. intros x Hx.
    destruct (disj_alloc_head _ _ _ _ x H); [set_solver|]. apply Fr. blk. }
  split; [|split; [exact K|simpl; by autorewrite with hdr]].
  split; simpl; try apply H.
  - pose proof (ok_ram _ _ _ H). auto with mboot.
  - eapply lseg_frame; [apply H|]. apply Forall_forall. intros x Hx.
    destruct (disj_alloc_head _ _ _ _ x H); [set_solver|]. apply Fr. blk.
  - constructor.
    + autorewrite with hdr. apply (Forall_inv (ok_alloc _ _ _ H)).
    + eapply kept_sizes; [exact K| |apply (Forall_inv_tail (ok_alloc _ _ _ H))].
      pose proof (ok_sizes _ _ _ H) as Hn. inversion Hn as [|? ? _ Hn']; subst.
      by apply Forall_app in Hn' as [? _].
Qed.

Lemma kfree_cases h al b fl fuel :
  heap_ok h (b :: al) fl -> coalesced fl -> (S (length fl) < fuel)%nat ->
  exists h', kfree fuel (b.1 + 12) h = Ret tt h' /\ heap_ok h' al (free_into b fl)
    /\ coalesced (free_into b fl) /\ kept al (hram h) (hram h')
    /\ free_ram h' = free_ram h /\ free_ram_end h' = free_ram_end h /\ bump_next h' = bump_next h.
Proof.
  intros H C Hf. pose proof (ok_lo _ _ _ H) as Hlo. pose proof (ok_hi _ _ _ H) as Hhi.
  pose proof (Forall_inv (ok_in _ _ _ H)) as Hb. simpl in Hb.
  assert (Hb4 : b.1 + 12 < 4294967296) by blk.
  unfold kfree, sizeof_block_header_t. case_z; [lia|].
  replace (u32 (b.1 + 12 - 12)) with b.1 by (rewrite u32_small; lia).
  destruct (Z.ltb_spec b.1 (free_ram h)); [lia|].
  destruct (Z.leb_spec (free_ram_end h) b.1); [blk|]. cbn [orb].
  destruct (mark_free_ok h al b fl H) as (Hm & K0 & F0). unfold mark_free in *.
  set (h0 := set_ram _ h) in *.
  destruct (insert_spec _ _ _ _ fuel Hm F0) as (l1 & l2 & cur & -> & W & Hl & K1 & R1 & R2 & R3);
    [lia|].
  destruct (kfree_joins _ _ _ _ _ fuel Hl C) as (h' & E & Hr & K2 & R4 & R5 & R6).
  { revert Hf. rewrite !length_app. simpl. lia. }
  exists h'. split; [|split; [done|split; [|split]]].
  - rewrite (bind_ret _ _ _ _ _ W). exact E.
  - apply free_into_coalesced; [done|lia|]. apply Forall_forall. intros y Hy.
    apply (disj_alloc_head _ _ _ _ y H). set_solver.
  - eapply kept_trans; [exact K0|]. eapply kept_trans; [exact K1|exact K2].
  - rewrite R4, R5, R6, R1, R2, R3. done.
Qed.

(** * Executions of the heap *)

(** States reached from a fresh heap by calls of [kmalloc] and [kfree]; the
    list holds the blocks handed out and not yet returned. A request must not
    wrap the 32-bit address arithmetic (see [kmalloc_wraps]). *)
Inductive heap_reach (h0 : heap) : heap -> list blk -> Prop :=
| reach_init : heap_reach h0 h0 []
| reach_kmalloc h al fuel bytes p h' :
    heap_reach h0 h al -> 0 < bytes -> bump_next h + bytes + 28 <= 4294967296 ->
    kmalloc fuel bytes h = Ret p h' ->
    heap_reach h0 h' ((p - 12, hdr_size (hram h') (p - 12)) :: al)
| reach_kfree h al1 b al2 fuel h' :
    heap_reach h0 h (al1 ++ b :: al2) -> kfree fuel (b.1 + 12) h = Ret tt h' ->
    heap_reach h0 h' (al1 ++ al2).

(** More fuel does not change a loop that ended. *)
Lemma find_loop_fuel fuel : forall size prev cur h r,
  find_loop fuel size prev cur h = r -> r <> NoFuel ->
  forall fuel', (fuel <= fuel')%nat -> find_loop fuel' size prev cur h = r.
Proof.
  induction fuel as [|f IH]; intros size prev cur h r E Hr fuel' Hle; [by subst|].
  destruct fuel' as [|f']; [lia|]. simpl in *. repeat case_match; try done.
  eapply IH; eauto with lia.
Qed.

Lemma walk_to_fuel fuel : forall target prev cur h r,
  walk_to fuel target prev cur h = r -> r <> NoFuel ->
  forall fuel', (fuel <= fuel')%nat -> walk_to fuel' target prev cur h = r.
Proof.
  induction fuel as [|f IH]; intros target prev cur h r E Hr fuel' Hle; [by subst|].
  destruct fuel' as [|f']; [lia|]. simpl in *. case_match; [|done].
  eapply IH; eauto with lia.
Qed.

(** A bind ends with the same result when its first part does. *)
Lemma bind_fuel {S A B} (c c' : M S A) (f f' : A -> M S B) s r :
  (c ≫= f) s = r -> r <> NoFuel ->
  (c s <> NoFuel -> c' s = c s) ->
  (forall a s', f a s' = r -> f' a s' = r) ->
  (c' ≫= f') s = r.
Proof.
  unfold mbind, M_bind. intros E Hr H1 H2. destruct (c s) as [a s'|s'|] eqn:Ec.
  - rewrite H1 by done. by apply H2.
  - by rewrite H1.
  - by subst.
Qed.

Lemma try_split_fuel fuel fuel' block want h r :
  try_split_block fuel block want h = r -> r <> NoFuel -> (fuel <= fuel')%nat ->
  try_split_block fuel' block want h = r.
Proof.
  unfold try_split_block. intros E Hr Hle. case_match; [done|].
  eapply bind_fuel; [exact E|done| |intros [] ? HH; exact HH].
  intros Hn. by eapply walk_to_fuel.
Qed.

Lemma kmalloc_fuel fuel fuel' bytes h r :
  kmalloc fuel bytes h = r -> r <> NoFuel -> (fuel <= fuel')%nat -> kmalloc fuel' bytes h = r.
Proof.
  unfold kmalloc. intros E Hr Hle. case_match; [done|].
  eapply bind_fuel; [exact E|done| |].
  - intros Hn. unfold find_free_block_and_remove in *. by eapply find_loop_fuel.
  - intros found s'. cbv beta. destruct (negb (found =? 0)); [|done]. intros E'.
    eapply bind_fuel; [exact E'|done| |done]. intros Hn. by eapply try_split_fuel.
Qed.

Lemma kfree_fuel fuel fuel' loc h r :
  kfree fuel loc h = r -> r <> NoFuel -> (fuel <= fuel')%nat -> kfree fuel' loc h = r.
Proof.
  unfold kfree. intros E Hr Hle. do 2 (case_match; [done|]).
  eapply bind_fuel; [exact E|done|intros Hn; by eapply walk_to_fuel|].
  intros [prev cur] s' E'. eapply bind_fuel; [exact E'|done|done|].
  intros [] s2 E2. cbv beta in E2 |- *. eapply bind_fuel; [exact E2|done| |done].
  intros Hn. case_match; [|done]. unfold gets, mbind, M_bind in *.
  destruct (walk_to fuel _ _ _ s2) as [[sp c] s3|s3|] eqn:Ew; try done;
    (erewrite (walk_to_fuel fuel); [|exact Ew|done|done]); done.
Qed.

Lemma fresh_heap_ok lo hi m :
  ram_ok m -> 4096 <= lo -> lo <= hi < 4294967296 -> heap_ok (mkHeap lo hi lo 0 m) [] [].
Proof. intros. split; simpl; try lia; try done; constructor. Qed.

Lemma reach_ok h0 h al :
  heap_ok h0 [] [] -> heap_reach h0 h al -> exists fl, heap_ok h al fl /\ coalesced fl.
Proof.
  intros H0. induction 1 as [|h al fuel bytes p h' _ (fl & H & C) Hb Hw E
                            |h al1 b al2 fuel h' _ (fl & H & C) E].
  - exists []. split; [done|constructor].
  - assert (E' := kmalloc_fuel fuel (fuel + S (length fl)) bytes h _ E ltac:(done) ltac:(lia)).
    destruct (kmalloc_cases h al fl (fuel + S (length fl)) bytes H C Hb Hw) as
      [(p' & h'' & E'' & A)|(E'' & _)]; [lia| |congruence].
    rewrite E' in E''. injection E'' as <- <-. destruct A as [(sz & fl' & Hs & H' & C' & _) _ _ _ _].
    exists fl'. split; [|done]. pose proof (Forall_inv (ok_alloc _ _ _ H')) as Hz.
    simpl in Hz. by rewrite Hz.
  - assert (E' := kfree_fuel fuel (fuel + S (S (length fl))) _ h _ E ltac:(done) ltac:(lia)).
    destruct (kfree_cases h (al1 ++ al2) b fl (fuel + S (S (length fl)))) as (h'' & E'' & H' & C' & _);
      [|done|lia|].
    + eapply heap_ok_perm; [exact H|]. by rewrite Permutation_middle.
    + rewrite E' in E''. injection E'' as <-. eauto.
Qed.

(** * Region selection and the overlap report *)

Lemma overlaps_from_spec n : forall i j entries x y,
  (x, y) ∈ overlaps_from n i j entries <->
  x = i /\ j <= y < j + Z.of_nat n /\ entries_overlap (entries i) (entries y) = true.
Proof.
  induction n as [|n IH]; intros i j entries x y; simpl overlaps_from.
  - split; [set_solver|lia].
  - rewrite elem_of_app, IH. destruct (entries_overlap (entries i) (entries j)) eqn:E.
    + rewrite list_elem_of_singleton. split.
      * intros [[= -> ->]|(-> & ? & ?)]; auto with lia.
      * intros (-> & Hy & Ho). destruct (Z.eq_dec y j) as [->|]; [by left|right; auto with lia].
    + split.
      * intros [?|(-> & ? & ?)]; [set_solver|auto with lia].
      * intros (-> & Hy & Ho). right. destruct (Z.eq_dec y j) as [->|]; [congruence|auto with lia].
Qed.

Lemma check_overlaps_loop_spec n : forall i entries x y,
  (x, y) ∈ check_overlaps_loop n i entries <->
  i <= x /\ x < y < i + Z.of_nat n /\ entries_overlap (entries x) (entries y) = true.
Proof.
  induction n as [|n IH]; intros i entries x y; simpl check_overlaps_loop.
  - split; [set_solver|lia].
  - rewrite elem_of_app, IH, overlaps_from_spec. split.
    + intros [(-> & ? & ?)|(? & ? & ?)]; auto with lia.
    + intros (Hx & Hy & Ho). destruct (Z.eq_dec x i) as [->|]; [left|right]; auto with lia.
Qed.

Lemma biggest_from_spec n : forall i b entries,
  let r := biggest_from n i b entries in
  (r = b \/ (i <= r < i + Z.of_nat n /\ type_ (entries r) = 1))
  /\ length_ (entries b) <= length_ (entries r)
  /\ (forall j, i <= j < i + Z.of_nat n -> type_ (entries j) = 1 ->
        length_ (entries j) <= length_ (entries r)).
Proof.
  induction n as [|n IH]; intros i b entries; simpl biggest_from.
  - split; [auto|]. split; [lia|]. intros; lia.
  - destruct ((type_ (entries i) =? 1) && (length_ (entries b) <? length_ (entries i))) eqn:E;
      cbv zeta.
    + destruct (IH (i + 1) i entries) as (H1 & H2 & H3).
      apply andb_true_iff in E as [E1%Z.eqb_eq E2%Z.ltb_lt].
      split; [|split; [lia|]].
      * destruct H1 as [->|H1]; [right; auto with lia|right; lia].
      * intros j Hj Ht. destruct (Z.eq_dec j i) as [->|]; [lia|apply H3; auto with lia].
    + destruct (IH (i + 1) b entries) as (H1 & H2 & H3).
      split; [|split; [lia|]].
      * destruct H1 as [->|H1]; [auto|right; lia].
      * intros j Hj Ht. destruct (Z.eq_dec j i) as [->|]; [|apply H3; auto with lia].
        rewrite Ht in E. simpl in E. apply Z.ltb_ge in E. lia.
Qed.

(** * Properties *)

Lemma demo_heap_ok : heap_ok demo_heap [] [].
Proof. apply fresh_heap_ok; try lia. intros a. vm_compute. by split. Qed.

(** C1: A request of [bytes > 0] that does not wrap the address arithmetic
    either returns a block or halts the machine. A returned block lies inside
    the heap region, is zero-filled, overlaps no block handed out before, and
    leaves the contents of all of them as they were; the machine halts only
    when no free block fits and the region is used up. *)
Theorem kmalloc_correct h al fl fuel bytes :
  heap_ok h al fl -> coalesced fl -> 0 < bytes ->
  bump_next h + bytes + 28 <= 4294967296 -> (length fl < fuel)%nat ->
  (exists p h', kmalloc fuel bytes h = Ret p h'
     /\ free_ram h <= p - 12 /\ p + bytes <= free_ram_end h
     /\ (forall x, p <= x < p + bytes -> ld8 (hram h') x = 0)
     /\ (forall b, b ∈ al -> (bend b <= p - 12 \/ p + bytes <= b.1)
           /\ same_on (hram h) (hram h') b.1 (bend b))
     /\ exists sz fl', bytes <= sz /\ heap_ok h' ((p - 12, sz) :: al) fl' /\ coalesced fl')
  \/ (kmalloc fuel bytes h = Halted h
      /\ Forall (too_small (align_up_uintptr bytes 8)) fl
      /\ free_ram_end h < align_up_uintptr (bump_next h) 8 + 12 + align_up_uintptr bytes 8).
Proof.
  intros H C Hb Hw Hf.
  destruct (kmalloc_cases _ _ _ _ _ H C Hb Hw Hf) as [(p & h' & E & A)|?]; [left|by right].
  destruct A as [(sz & fl' & Hs & H' & C' & _) K Z0 (R1 & R2) _].
  pose proof (Forall_inv (ok_in _ _ _ H')) as Hp. pose proof (ok_hi _ _ _ H').
  exists p, h'. split; [done|]. split; [blk|]. split; [blk|]. split; [done|].
  split; [|eauto]. intros b Hin. unfold kept in K. rewrite Forall_forall in K. split; [|auto].
  destruct (disj_alloc_head _ _ _ _ b H'); [set_solver|]. blk.
Qed.

Lemma kmalloc_correct_witness :
  heap_ok demo_heap [] [] /\
  ((exists p h', kmalloc 1 100 demo_heap = Ret p h'
     /\ free_ram demo_heap <= p - 12 /\ p + 100 <= free_ram_end demo_heap
     /\ (forall x, p <= x < p + 100 -> ld8 (hram h') x = 0)
     /\ (forall b, b ∈ [] -> (bend b <= p - 12 \/ p + 100 <= b.1)
           /\ same_on (hram demo_heap) (hram h') b.1 (bend b))
     /\ exists sz fl', 100 <= sz /\ heap_ok h' ((p - 12, sz) :: []) fl' /\ coalesced fl')
  \/ (kmalloc 1 100 demo_heap = Halted demo_heap
      /\ Forall (too_small (align_up_uintptr 100 8)) []
      /\ free_ram_end demo_heap < align_up_uintptr (bump_next demo_heap) 8 + 12 + align_up_uintptr 100 8)).
Proof.
  split; [apply demo_heap_ok|].
  apply (kmalloc_correct demo_heap [] [] 1 100); [apply demo_heap_ok|constructor|lia|simpl; lia|simpl; lia].
Defined.

(** C2: Freeing a block returned by [kmalloc] always succeeds; the free list
    becomes the reference list [free_into] (address order, joined with both
    neighbours it touches), no two free blocks touch, and every other block
    in use keeps its contents. *)
Theorem kfree_correct h al1 b al2 fl fuel :
  heap_ok h (al1 ++ b :: al2) fl -> coalesced fl -> (S (length fl) < fuel)%nat ->
  exists h', kfree fuel (b.1 + 12) h = Ret tt h'
    /\ heap_ok h' (al1 ++ al2) (free_into b fl) /\ coalesced (free_into b fl)
    /\ (forall x, x ∈ al1 ++ al2 -> same_on (hram h) (hram h') x.1 (bend x)).
Proof.
  intros H C Hf. destruct (kfree_cases h (al1 ++ al2) b fl fuel) as (h' & E & H' & C' & K & _); auto.
  - eapply heap_ok_perm; [exact H|]. by rewrite Permutation_middle.
  - exists h'. unfold kept in K. rewrite Forall_forall in K. auto.
Qed.

(** A heap with one block of 104 bytes in use. *)
Definition demo_heap1 : heap := bump_block demo_heap 104.

Lemma demo_heap1_ok : heap_ok demo_heap1 [(4096, 104)] [].
Proof.
  destruct (bump_spec demo_heap [] [] 104 demo_heap_ok) as [H _]; [lia|simpl; lia| |exact H].
  vm_compute. intros; discriminate.
Qed.

Lemma kfree_correct_witness :
  exists h', kfree 2 (4096 + 12) demo_heap1 = Ret tt h'
    /\ heap_ok h' ([] ++ []) (free_into (4096, 104) []) /\ coalesced (free_into (4096, 104) [])
    /\ (forall x, x ∈ @nil blk ++ [] -> same_on (hram demo_heap1) (hram h') x.1 (bend x)).
Proof.
  apply (kfree_correct demo_heap1 [] (4096, 104) [] [] 2);
    [apply demo_heap1_ok|constructor|simpl; lia].
Defined.

(** C3: In every state reached from a fresh heap by [kmalloc] and [kfree]
    calls, the blocks in use are pairwise disjoint, their headers hold their
    sizes, and the free list in memory is an address-ordered, coalesced list
    of blocks disjoint from all of them. *)
Theorem heap_reach_invariant h0 h al :
  heap_ok h0 [] [] -> heap_reach h0 h al ->
  exists fl, lseg (hram h) (free_list_head h) fl 0 /\ coalesced fl
    /\ ForallOrdPairs disj (al ++ fl)
    /\ Forall (fun b => hdr_size (hram h) b.1 = b.2) al
    /\ Forall (fun b => free_ram h <= b.1 /\ bend b <= bump_next h) (al ++ fl)
    /\ bump_next h <= free_ram_end h.
Proof.
  intros H0 R. destruct (reach_ok _ _ _ H0 R) as (fl & H & C). exists fl.
  split; [apply H|]. split; [done|]. split; [apply H|]. split; [apply H|].
  split; [|apply H]. eapply Forall_impl; [apply (ok_in _ _ _ H)|]. simpl; tauto.
Qed.

Lemma heap_reach_invariant_witness :
  exists h p fl, heap_reach demo_heap h [(p - 12, 104)]
    /\ lseg (hram h) (free_list_head h) fl 0 /\ ForallOrdPairs disj ([(p - 12, 104)] ++ fl).
Proof.
  destruct (kmalloc_cases demo_heap [] [] 1 100 demo_heap_ok) as [(p & h' & E & _)|(E & _)];
    [constructor|lia|simpl; lia|simpl; lia| |vm_compute in E; discriminate].
  assert (R : heap_reach demo_heap h' [(p - 12, hdr_size (hram h') (p - 12))]).
  { eapply (reach_kmalloc demo_heap demo_heap [] 1 100); [constructor|lia|simpl; lia|exact E]. }
  assert (Hz : hdr_size (hram h') (p - 12) = 104).
  { vm_compute in E. injection E as <- <-. vm_compute. reflexivity. }
  rewrite Hz in R.
  destruct (heap_reach_invariant demo_heap h' _ demo_heap_ok R) as (fl & L & _ & D & _).
  exists h', p, fl. auto.
Defined.

(** A block as large as the one just freed is in the list afterwards. *)
Lemma free_into_has x l :
  0 <= x.2 -> Forall (fun y => 0 <= y.2) l -> Exists (fun y => x.2 <= y.2) (free_into x l).
Proof.
  assert (Hm : forall k l', x.2 <= k.2 -> Forall (fun y : blk => 0 <= y.2) l' ->
             Exists (fun y => x.2 <= y.2) (merge_next k l')).
  { intros k [|y l'] Hk Hl; simpl; [by left|]. inversion Hl; subst.
    case_z; left; simpl; lia. }
  intros Hx. induction l as [|p l IH]; intros Hl; [left; lia|].
  inversion Hl as [|? ? Hp Hl']; subst. cbn [free_into].
  destruct (p.1 <? x.1); [destruct (bend p =? x.1)|].
  - apply Hm; [simpl; lia|done].
  - right. auto.
  - apply Hm; [lia|done].
Qed.

(** Memory is recycled: after a block is freed, a request whose rounded
    size fits in it is served without halting, even on an exhausted heap. *)
Theorem kfree_then_kmalloc h al b fl fuel bytes :
  heap_ok h (b :: al) fl -> coalesced fl -> 0 < bytes ->
  align_up_uintptr bytes 8 <= b.2 -> bump_next h + bytes + 28 <= 4294967296 ->
  (S (length fl) < fuel)%nat ->
  exists h1 p h2, kfree fuel (b.1 + 12) h = Ret tt h1 /\ kmalloc fuel bytes h1 = Ret p h2
    /\ exists sz fl', bytes <= sz /\ heap_ok h2 ((p - 12, sz) :: al) fl'.
Proof.
  intros H C Hb Hfit Hw Hf.
  destruct (kfree_cases h al b fl fuel H C Hf) as (h1 & E1 & H1 & C1 & _ & _ & _ & R3).
  pose proof (length_free_into b fl) as Hlen. rewrite <- R3 in Hw.
  destruct (kmalloc_cases h1 al _ fuel bytes H1 C1 Hb Hw) as [(p & h2 & E2 & A)|(_ & HF & _)]; [lia| |].
  - exists h1, p, h2. destruct A as [(sz & fl' & ? & ? & _) _ _ _ _]. eauto 10.
  - exfalso. pose proof (ok_sizes _ _ _ H) as Hn. inversion Hn as [|? ? Hb2 Hn']; subst.
    apply Forall_app in Hn' as [_ Hn'].
    pose proof (free_into_has b fl Hb2 Hn') as Hex. rewrite Exists_exists in Hex.
    destruct Hex as (y & Hy & Hle). rewrite Forall_forall in HF. specialize (HF y Hy).
    unfold too_small in HF. lia.
Qed.

Lemma kfree_then_kmalloc_witness :
  exists h1 p h2, kfree 2 (4096 + 12) demo_heap1 = Ret tt h1 /\ kmalloc 2 50 h1 = Ret p h2
    /\ exists sz fl', 50 <= sz /\ heap_ok h2 ((p - 12, sz) :: []) fl'.
Proof.
  apply (kfree_then_kmalloc demo_heap1 [] (4096, 104) [] 2 50);
    [apply demo_heap1_ok|constructor|lia|vm_compute; intros; discriminate|vm_compute; intros; discriminate|simpl; lia].
Defined.

(** A request served by the bump pointer gets a payload 4 bytes past an
    8-byte boundary, because the header takes 12 bytes. *)
Lemma kmalloc_bump_alignment h al fl fuel bytes :
  heap_ok h al fl -> 0 < bytes -> bump_next h + bytes + 28 <= 4294967296 ->
  (length fl < fuel)%nat -> Forall (too_small (align_up_uintptr bytes 8)) fl ->
  align_up_uintptr (bump_next h) 8 + 12 + align_up_uintptr bytes 8 <= free_ram_end h ->
  let a := align_up_uintptr (bump_next h) 8 in
  kmalloc fuel bytes h = Ret (a + 12) (bump_block h (align_up_uintptr bytes 8))
  /\ (a + 12) mod 8 = 4 /\ bump_next (bump_block h (align_up_uintptr bytes 8)) mod 8 = 4.
Proof.
  intros H Hb Hw Hf HF Hroom. pose proof (ok_lo _ _ _ H) as Hlo. pose proof (ok_hi _ _ _ H) as Hhi.
  destruct (align_up_8 bytes) as [Hwt Hw8]; [lia|lia|].
  destruct (align_up_8 (bump_next h)) as [Ha Ha8]; [lia|lia|]. cbv zeta.
  set (want := align_up_uintptr bytes 8) in *. set (a := align_up_uintptr (bump_next h) 8) in *.
  split.
  - unfold kmalloc. case_z; [lia|]. fold want. case_z; [lia|].
    destruct (find_loop_spec want h fl fuel [] (free_list_head h) (ok_list _ _ _ H) Hf)
      as [(_ & E)|(l1 & b & l2 & Hfit & _)].
    + change (last_addr []) with 0 in E. unfold mbind, M_bind, find_free_block_and_remove. rewrite E.
      simpl. fold a. unfold sizeof_block_header_t. rewrite u32_sum2 by lia. usimp.
      case_z; [lia|]. reflexivity.
    + inversion Hfit; subst. rewrite Forall_app in HF. destruct HF as [_ HF].
      inversion HF; subst. unfold too_small in *. lia.
  - unfold bump_block; fold a; simpl.
    replace (a + 12) with (a + 1 * 8 + 4) by lia.
    replace (a + 1 * 8 + 4 + want) with (a + want + 1 * 8 + 4) by lia.
    assert (E : (a + want) mod 8 = 0) by (rewrite Z.add_mod, Ha8, Hw8 by lia; done).
    rewrite <- (Z.add_mod_idemp_l (a + 1 * 8)), <- (Z.add_mod_idemp_l (a + want + 1 * 8)) by lia.
    rewrite !Z.mod_add by lia. rewrite Ha8, E. done.
Qed.

(** Two blocks allocated one after the other from an empty free list are
    never joined when both are freed: 4 bytes of header padding keep them
    apart, so the free list holds two blocks. *)
Theorem bump_neighbours_not_coalesced h al n1 n2 :
  heap_ok h al [] -> 0 < n1 -> 0 < n2 ->
  bump_next h + n1 + n2 + 64 <= free_ram_end h ->
  exists p1 p2 h1 h2 h3 h4 s1 s2,
    kmalloc 4 n1 h = Ret p1 h1 /\ kmalloc 4 n2 h1 = Ret p2 h2
    /\ kfree 4 p1 h2 = Ret tt h3 /\ kfree 4 p2 h3 = Ret tt h4
    /\ p1 < p2 /\ p1 mod 8 = 4 /\ p2 mod 8 = 4
    /\ heap_ok h4 al [(p1 - 12, s1); (p2 - 12, s2)].
Proof.
  intros H Hn1 Hn2 Hroom. pose proof (ok_lo _ _ _ H) as Hlo. pose proof (ok_hi _ _ _ H) as Hhi.
  destruct (align_up_8 n1) as [W1 _]; [lia|lia|]. destruct (align_up_8 n2) as [W2 _]; [lia|lia|].
  destruct (align_up_8 (bump_next h)) as [A1 A1m]; [lia|lia|].
  destruct (kmalloc_bump_alignment h al [] 4 n1 H) as (E1 & M1 & B1); [lia|lia|simpl; lia|constructor|lia|].
  destruct (bump_spec h al [] (align_up_uintptr n1 8) H) as (H1 & _); [lia|lia|lia|].
  set (w1 := align_up_uintptr n1 8) in *. set (w2 := align_up_uintptr n2 8) in *.
  set (a1 := align_up_uintptr (bump_next h) 8) in *.
  set (h1 := bump_block h w1) in *.
  assert (Eb : bump_next h1 = a1 + 12 + w1) by done.
  assert (Ee : free_ram_end h1 = free_ram_end h) by done.
  destruct (align_up_8 (bump_next h1)) as [A2 A2m]; [lia|lia|].
  destruct (kmalloc_bump_alignment h1 _ [] 4 n2 H1) as (E2 & M2 & B2); [lia|lia|simpl; lia|constructor|fold w2; lia|].
  fold w2 in E2, B2.
  destruct (bump_spec h1 _ [] w2 H1) as (H2 & _); [lia|lia|lia|].
  set (a2 := align_up_uintptr (bump_next h1) 8) in *. set (h2 := bump_block h1 w2) in *.
  assert (H2' : heap_ok h2 ((a1, w1) :: (a2, w2) :: al) []).
  { eapply heap_ok_perm; [exact H2|]. apply Permutation_swap. }
  destruct (kfree_cases _ _ _ _ 4 H2') as (h3 & E3 & H3 & C3 & _); [constructor|simpl; lia|].
  simpl in E3, H3, C3.
  destruct (kfree_cases _ _ _ _ 4 H3 C3) as (h4 & E4 & H4 & _); [simpl; lia|].
  simpl in E4, H4.
  exists (a1 + 12), (a2 + 12), h1, h2, h3, h4, w1, w2.
  do 4 (split; [done|]). split; [lia|]. split; [done|]. split; [done|].
  replace (a1 + 12 - 12) with a1 by lia. replace (a2 + 12 - 12) with a2 by lia.
  destruct (Z.ltb_spec a1 a2); [|lia].
  assert (Hne : bend (a1, w1) <> a2).
  { intros Heq. unfold bend, sizeof_block_header_t in Heq; simpl in Heq. rewrite <- Eb in Heq. rewrite Heq in B1. lia. }
  destruct (Z.eqb_spec (bend (a1, w1)) a2); [done|]. exact H4.
Qed.

Lemma bump_neighbours_not_coalesced_witness :
  exists p1 p2 h1 h2 h3 h4 s1 s2,
    kmalloc 4 100 demo_heap = Ret p1 h1 /\ kmalloc 4 20 h1 = Ret p2 h2
    /\ kfree 4 p1 h2 = Ret tt h3 /\ kfree 4 p2 h3 = Ret tt h4
    /\ p1 < p2 /\ p1 mod 8 = 4 /\ p2 mod 8 = 4
    /\ heap_ok h4 [] [(p1 - 12, s1); (p2 - 12, s2)].
Proof.
  apply (bump_neighbours_not_coalesced demo_heap [] 100 20);
    [apply demo_heap_ok|lia|lia|simpl; lia].
Defined.

(** The out-of-memory test compares a wrapped 32-bit sum: on a heap of
    60 KiB a request of almost 4 GiB succeeds, and the bump pointer ends
    below the start of the heap. *)
Theorem kmalloc_wraps :
  exists h', kmalloc 1 4294963200 demo_heap = Ret 4108 h' /\ bump_next h' = 12
    /\ bump_next h' < free_ram h'.
Proof.
  exists (set_ram (memset 4108 0 4294963200
            (st_next 4096 0 (st_free 4096 false (st_size 4096 4294963200 ∅)))) (set_bump 12 demo_heap)).
  split; [|split; [reflexivity|simpl; lia]].
  unfold kmalloc. change (4294963200 =? 0) with false. cbv iota zeta.
  change (align_up_uintptr 4294963200 8) with 4294963200.
  unfold mbind, M_bind. change (find_free_block_and_remove 1 4294963200
    (if bump_next demo_heap =? 0 then set_bump (free_ram demo_heap) demo_heap else demo_heap))
    with (Ret 0 demo_heap : res heap Z). cbv iota. change (negb (0 =? 0)) with false. cbv iota beta.
  change (align_up_uintptr (bump_next demo_heap) 8) with 4096.
  change (u32 (4096 + sizeof_block_header_t)) with 4108. change (u32 (4108 + 4294963200)) with 12.
  change (free_ram_end demo_heap <? 12) with false. cbv iota. reflexivity.
Qed.

(** [init_alloc] takes the longest usable (type 1) entry of the BIOS map,
    provided entry 0 is usable or shorter than some usable entry; the heap
    then spans that entry, truncated to 32 bits, and starts empty. *)
Theorem init_alloc_region count entries h :
  (0 < count)%nat ->
  (type_ (entries 0) = 1
   \/ exists j, 0 <= j < Z.of_nat count /\ type_ (entries j) = 1
        /\ length_ (entries 0) < length_ (entries j)) ->
  exists b, 0 <= b < Z.of_nat count /\ type_ (entries b) = 1
    /\ (forall j, 0 <= j < Z.of_nat count -> type_ (entries j) = 1 ->
          length_ (entries j) <= length_ (entries b))
    /\ let h' := init_alloc count entries h in
       free_ram h' = u32 (base (entries b)) /\ bump_next h' = free_ram h'
       /\ free_ram_end h' = u32 (u64 (base (entries b) + length_ (entries b))).
Proof.
  intros Hc Hu. destruct (biggest_from_spec count 0 0 entries) as (H1 & H2 & H3).
  exists (biggest_from count 0 0 entries). split; [destruct H1 as [->|]; lia|].
  split; [|auto]. destruct H1 as [E|[_ H1]]; [|done].
  destruct Hu as [Hu|(j & Hj & Ht & Hl)]; [by rewrite E|].
  specialize (H3 j Hj Ht). rewrite E in H3. lia.
Qed.

(** A typical map: low memory, a reserved hole, the main region. *)
Definition demo_map : e820_table := fun i =>
  if i =? 0 then mkE820 0 654336 1
  else if i =? 1 then mkE820 983040 65536 2
  else mkE820 1048576 133038080 1.

Lemma init_alloc_region_witness :
  exists b, 0 <= b < 3 /\ type_ (demo_map b) = 1
    /\ (forall j, 0 <= j < 3 -> type_ (demo_map j) = 1 -> length_ (demo_map j) <= length_ (demo_map b))
    /\ let h' := init_alloc 3 demo_map demo_heap in
       free_ram h' = u32 (base (demo_map b)) /\ bump_next h' = free_ram h'
       /\ free_ram_end h' = u32 (u64 (base (demo_map b) + length_ (demo_map b))).
Proof. apply (init_alloc_region 3 demo_map demo_heap); [lia|left; reflexivity]. Defined.

(** When entry 0 of the map is reserved and longer than every usable
    entry, the heap is placed in the reserved region: the search starts from
    index 0 without looking at its type. *)
Theorem init_alloc_takes_reserved count entries h :
  (forall j, 0 <= j < Z.of_nat count -> type_ (entries j) = 1 ->
     length_ (entries j) <= length_ (entries 0)) ->
  type_ (entries 0) <> 1 ->
  free_ram (init_alloc count entries h) = u32 (base (entries 0)).
Proof.
  intros Hl Ht. destruct (biggest_from_spec count 0 0 entries) as (H1 & H2 & _).
  unfold init_alloc; cbn [free_ram]. destruct H1 as [->|[Hr H1]]; [done|].
  assert (G : forall n i b, (forall j, i <= j < i + Z.of_nat n -> type_ (entries j) = 1 ->
                length_ (entries j) <= length_ (entries b)) -> biggest_from n i b entries = b).
  { induction n as [|n IH]; intros i b Hb; simpl; [done|].
    replace ((type_ (entries i) =? 1) && (length_ (entries b) <? length_ (entries i))) with false.
    - apply IH. intros j Hj. apply Hb. lia.
    - symmetry. apply andb_false_iff. destruct (Z.eqb_spec (type_ (entries i)) 1); [right|by left].
      apply Z.ltb_ge, Hb; [lia|done]. }
  by rewrite G.
Qed.

Lemma init_alloc_takes_reserved_witness :
  free_ram (init_alloc 2 (fun i => if i =? 0 then mkE820 4096 9000 2 else mkE820 1048576 5000 1) demo_heap)
  = u32 4096.
Proof.
  apply (init_alloc_takes_reserved 2
    (fun i => if i =? 0 then mkE820 4096 9000 2 else mkE820 1048576 5000 1) demo_heap).
  - intros j Hj. simpl. case_z; simpl; lia.
  - simpl. lia.
Defined.

(** C37: [check_overlaps] reports exactly the pairs of entries [i < j] whose
    address intervals intersect. *)
Theorem check_overlaps_exact count entries i j :
  (i, j) ∈ check_overlaps count entries <->
  0 <= i /\ i < j < Z.of_nat count
  /\ base (entries i) < u64 (base (entries j) + length_ (entries j))
  /\ base (entries j) < u64 (base (entries i) + length_ (entries i)).
Proof.
  unfold check_overlaps. rewrite check_overlaps_loop_spec. unfold entries_overlap.
  rewrite andb_true_iff, !Z.ltb_lt. simpl. tauto.
Qed.
