(* ===== verification/HeapSpec.v ===== *)
(** What the kernel heap promises to the components that allocate from it.

    [KernelHeap] is the interface the page tables, the scheduler and the ELF
    loader are verified against: operations with the C signatures and the laws
    their callers rely on. [mboot_heap] shows that stage2/mem.c implements it;
    its pointer walks get as much fuel as the heap can hold headers, so the
    operations of the instance are total. *)
From S2P Require Import Prelude Mem.

(** The bytes [lo, hi) lie in the payload of one block in use. *)
Definition owns (al : list blk) (lo hi : Z) : Prop :=
  exists b, b ∈ al /\ b.1 + 12 <= lo /\ hi <= bend b.

Class KernelHeap := {
  malloc : Z -> M heap Z;
  free : Z -> M heap unit;
  heap_inv : heap -> list blk -> Prop;

  inv_perm : forall h al al', heap_inv h al -> al ≡ₚ al' -> heap_inv h al';
  inv_disj : forall h al, heap_inv h al -> ForallOrdPairs disj al;
  inv_bounds : forall h al b, heap_inv h al -> b ∈ al ->
    4096 <= b.1 /\ 0 <= b.2 /\ bend b <= free_ram_end h;
  inv_end : forall h al, heap_inv h al -> free_ram_end h + 1048576 <= 4294967296;
  inv_ram : forall h al, heap_inv h al -> ram_ok (hram h);

  malloc_zero : forall h, malloc 0 h = Ret 0 h;
  malloc_law : forall h al n, heap_inv h al -> 0 < n <= 1000000 ->
    (exists p sz h', malloc n h = Ret p h' /\ n <= sz /\ heap_inv h' ((p - 12, sz) :: al)
       /\ kept al (hram h) (hram h') /\ free_ram_end h' = free_ram_end h
       /\ (forall x, p <= x < p + n -> ld8 (hram h') x = 0))
    \/ malloc n h = Halted h;
  free_law : forall h al1 b al2, heap_inv h (al1 ++ b :: al2) ->
    exists h', free (b.1 + 12) h = Ret tt h' /\ heap_inv h' (al1 ++ al2)
      /\ kept (al1 ++ al2) (hram h) (hram h') /\ free_ram_end h' = free_ram_end h;
  write_law : forall h al lo hi m', heap_inv h al -> owns al lo hi -> ram_ok m' ->
    (forall x, ~ (lo <= x < hi) -> ld8 (hram h) x = ld8 m' x) -> heap_inv (set_ram m' h) al
}.

(** ** Facts that follow from the interface *)

Section Interface.
Context `{KernelHeap}.

Lemma inv_perm_disj h al b1 al' b2 al'' :
  heap_inv h al -> al = b1 :: al' ++ b2 :: al'' -> disj b1 b2.
Proof.
  intros Hi ->. pose proof (inv_disj _ _ Hi) as D. inversion D as [|? ? HF _]; subst.
  rewrite Forall_forall in HF. apply HF. set_solver.
Qed.

(** A new block is disjoint from everything owned before. *)
Lemma fresh_disjoint h al p sz lo hi :
  heap_inv h ((p - 12, sz) :: al) -> owns al lo hi -> 0 <= sz ->
  hi <= p - 12 \/ p + sz <= lo.
Proof.
  intros Hi (b & Hb & Hlo & Hhi) Hs. pose proof (inv_disj _ _ Hi) as D.
  inversion D as [|? ? HF _]; subst. rewrite Forall_forall in HF. specialize (HF b Hb).
  unfold disj, bend, sizeof_block_header_t in *. simpl in HF. lia.
Qed.

Lemma owns_cons al b lo hi : owns al lo hi -> owns (b :: al) lo hi.
Proof. intros (c & Hc & ?). exists c. set_solver. Qed.

Lemma owns_sub al lo hi lo' hi' : owns al lo hi -> lo <= lo' -> hi' <= hi -> owns al lo' hi'.
Proof. intros (c & Hc & ? & ?) ? ?. exists c. split; [done|lia]. Qed.

Lemma owns_bounds h al lo hi : heap_inv h al -> owns al lo hi -> 4108 <= lo /\ hi <= free_ram_end h.
Proof.
  intros Hi (b & Hb & Hlo & Hhi). destruct (inv_bounds _ _ b Hi Hb) as (? & ? & ?). lia.
Qed.

Lemma kept_owned al m m' lo hi : kept al m m' -> owns al lo hi -> same_on m m' lo hi.
Proof.
  intros K (b & Hb & ? & ?). unfold kept in K. rewrite Forall_forall in K.
  eapply same_on_sub; [apply (K b Hb)|lia|lia].
Qed.

Lemma owns_app_l al al' lo hi : owns al lo hi -> owns (al ++ al') lo hi.
Proof. intros (c & Hc & ?). exists c. set_solver. Qed.
Lemma owns_app_r al al' lo hi : owns al' lo hi -> owns (al ++ al') lo hi.
Proof. intros (c & Hc & ?). exists c. set_solver. Qed.

Lemma kept_app al al' m m' : kept (al ++ al') m m' <-> kept al m m' /\ kept al' m m'.
Proof. apply Forall_app. Qed.

(** Memory owned through different blocks is disjoint. *)
Lemma owns_disjoint h ds al lo hi lo' hi' :
  heap_inv h (ds ++ al) -> owns ds lo hi -> owns al lo' hi' -> hi <= lo' \/ hi' <= lo.
Proof.
  intros Hi (b & Hb & H1 & H2) (c & Hc & H3 & H4). pose proof (inv_disj _ _ Hi) as D.
  apply ForallOrdPairs_app in D as (_ & _ & D). specialize (D b c Hb Hc).
  unfold disj, bend, sizeof_block_header_t in *. lia.
Qed.

(** A write into memory owned by [ds] keeps the invariant and every block of
    [al]. *)
Lemma write_owned h ds al lo hi m' :
  heap_inv h (ds ++ al) -> owns ds lo hi -> ram_ok m' ->
  (forall x, ~ (lo <= x < hi) -> ld8 (hram h) x = ld8 m' x) ->
  heap_inv (set_ram m' h) (ds ++ al) /\ kept al (hram h) m'.
Proof.
  intros Hi Ho Rm Hx. split.
  - eapply write_law; [done|apply owns_app_l; done|done|done].
  - apply Forall_forall. intros c Hc x Hxc. apply Hx. intros Hb.
    destruct Ho as (b & Hbd & H1 & H2). pose proof (inv_disj _ _ Hi) as D.
    apply ForallOrdPairs_app in D as (_ & _ & D). specialize (D b c Hbd Hc).
    unfold disj, bend, sizeof_block_header_t in *. lia.
Qed.

End Interface.

(** * The implementation *)

(** No free list is longer than the number of headers below the bump pointer. *)
Definition heap_fuel (h : heap) : nat := Z.to_nat (bump_next h / 12 + 3).

Lemma sorted_length fl : forall lo hi,
  StronglySorted before fl -> Forall (fun b => lo <= b.1 /\ 0 <= b.2 /\ bend b <= hi) fl ->
  lo <= hi -> lo + 12 * Z.of_nat (length fl) <= hi.
Proof.
  induction fl as [|b fl IH]; intros lo hi S F Hlh; simpl length; [lia|].
  inversion S as [|? ? S' B]; subst. inversion F as [|? ? (F1 & F2 & F3) F']; subst.
  assert (lo + 12 <= bend b) by blk.
  specialize (IH (bend b) hi S'). rewrite Nat2Z.inj_succ.
  enough (bend b + 12 * Z.of_nat (length fl) <= hi) by lia. apply IH; [|lia].
  apply Forall_forall. intros y Hy. rewrite Forall_forall in B, F'. specialize (B y Hy).
  specialize (F' y Hy). simpl in F'. unfold before in B. lia.
Qed.

Lemma heap_fuel_enough h al fl : heap_ok h al fl -> (S (length fl) < heap_fuel h)%nat.
Proof.
  intros H. pose proof (ok_lo _ _ _ H). pose proof (ok_in _ _ _ H) as Hin.
  apply Forall_app in Hin as [_ Hin].
  assert (Hl : free_ram h + 12 * Z.of_nat (length fl) <= bump_next h).
  { apply sorted_length; [apply H|exact Hin|lia]. }
  unfold heap_fuel. apply Nat2Z.inj_lt. rewrite Nat2Z.inj_succ.
  assert (Z.of_nat (length fl) <= bump_next h / 12) by (apply Z.div_le_lower_bound; lia).
  rewrite Z2Nat.id by lia. lia.
Qed.

Definition mboot_inv (h : heap) (al : list blk) : Prop :=
  free_ram_end h + 1048576 <= 4294967296 /\ exists fl, heap_ok h al fl /\ coalesced fl.

#[export] Program Instance mboot_heap : KernelHeap := {|
  malloc n := fun h => kmalloc (heap_fuel h) n h;
  free p := fun h => kfree (heap_fuel h) p h;
  heap_inv := mboot_inv
|}.
Next Obligation.
  intros h al al' (He & fl & H & C) P. split; [done|]. exists fl. split; [|done].
  by eapply heap_ok_perm.
Qed.
Next Obligation.
  intros h al (_ & fl & H & _). apply (proj1 (ForallOrdPairs_app disj al fl)), (ok_disj _ _ _ H).
Qed.
Next Obligation.
  intros h al b (_ & fl & H & _) Hb. pose proof (ok_lo _ _ _ H). pose proof (ok_hi _ _ _ H).
  pose proof (ok_in _ _ _ H) as Hin. rewrite Forall_forall in Hin.
  specialize (Hin b ltac:(set_solver)). lia.
Qed.
Next Obligation. intros h al (He & _). exact He. Qed.
Next Obligation. intros h al (_ & fl & H & _). apply H. Qed.
Next Obligation. done. Qed.
Next Obligation.
  intros h al n (He & fl & H & C) Hn. pose proof (ok_hi _ _ _ H).
  pose proof (heap_fuel_enough _ _ _ H).
  destruct (kmalloc_cases h al fl (heap_fuel h) n H C) as [(p & h' & E & A)|(E & _)]; [lia|lia|lia| |].
  - left. destruct A as [(sz & fl' & Hs & H' & C' & _) K Z0 (R1 & R2) _].
    exists p, sz, h'. repeat (split; [done|]). split; [|auto].
    unfold mboot_inv. rewrite R2. eauto.
  - right. done.
Qed.
Next Obligation.
  intros h al1 b al2 (He & fl & H & C). pose proof (heap_fuel_enough _ _ _ H).
  assert (H' : heap_ok h (b :: al1 ++ al2) fl).
  { eapply heap_ok_perm; [exact H|]. by rewrite Permutation_middle. }
  destruct (kfree_cases _ _ _ _ (heap_fuel h) H' C) as (h' & E & H1 & C1 & K & _ & R & _); [lia|].
  exists h'. split; [done|]. split; [|auto]. unfold mboot_inv. rewrite R. eauto.
Qed.
Next Obligation.
  intros h al lo hi m' (He & fl & H & C) (b & Hb & Hlo & Hhi) Rm Hx. split; [done|].
  exists fl. split; [|done]. apply (payload_write_ok h al fl b m' H Hb Rm).
  intros x Hn. apply Hx. lia.
Qed.
