(* ===== verification/Paging.v ===== *)
(** Page directories and page tables of stage2/paging.c.

    Directories and tables are 1024 32-bit words in the kernel's memory, so
    they are read and written in the byte memory of [Prelude]; pages come from
    the heap interface [KernelHeap]. The address translation of the MMU,
    against which the code is judged, is [translate]. *)
From S2P Require Import Prelude Mem HeapSpec.

Definition PAGE_PRESENT : Z := 1.
Definition PAGE_WRITABLE : Z := 2.
Definition PAGE_USER : Z := 4.
Definition PAGE_SIZE_4MB : Z := 128.
Definition PAGE_SIZE : Z := 4096.
Definition PAGE_DIRECTORY_ENTRIES : nat := 1024.
Definition FOUR_MIB : Z := 4194304.

(** [entry & flag] as a C condition. *)
Definition has (entry flag : Z) : bool := negb (Z.land entry flag =? 0).

(** Control registers and the kernel page directory, beside the heap. *)
Record mmu := mkMmu {
  mheap : heap;
  page_directory : Z;
  cr0 : Z;
  cr3 : Z;
  cr4 : Z
}.

Definition put_heap (h : heap) (s : mmu) : mmu :=
  mkMmu h (page_directory s) (cr0 s) (cr3 s) (cr4 s).

Definition write_ram (f : ram -> ram) : M heap unit := modify (fun h => set_ram (f (hram h)) h).

(** ** Address translation of the processor (32-bit paging, 4 MiB pages) *)

Definition pde (m : ram) (pd i : Z) : Z := ld32 m (pd + 4 * i).
Definition frame (entry : Z) : Z := Z.land entry 4294963200.     (* 0xFFFFF000 *)
Definition big_frame (entry : Z) : Z := Z.land entry 4290772992. (* 0xFFC00000 *)
Definition dir_index (v : Z) : Z := Z.shiftr v 22.
Definition table_index (v : Z) : Z := Z.land (Z.shiftr v 12) 1023.

Definition translate (m : ram) (pd v : Z) : option Z :=
  let e := pde m pd (dir_index v) in
  if negb (has e PAGE_PRESENT) then None
  else if has e PAGE_SIZE_4MB then Some (big_frame e + v mod FOUR_MIB)
  else
    let t := ld32 m (frame e + 4 * table_index v) in
    if negb (has t PAGE_PRESENT) then None else Some (frame t + v mod PAGE_SIZE).

(** * The operations of paging.c *)

Section Paging.
Context `{KernelHeap}.

Definition alloc_aligned_page : M heap Z :=
  raw ← malloc (PAGE_SIZE * 2);
  mret (align_up_uintptr raw PAGE_SIZE).

(** The entry the boot loop stores for the [i]-th 4 MiB range. *)
Definition identity_entry (i : Z) : Z :=
  Z.lor (Z.lor (Z.lor (Z.land (u32 (i * FOUR_MIB)) 4290772992) PAGE_PRESENT) PAGE_WRITABLE)
    PAGE_SIZE_4MB.

Definition paging_init : M mmu unit :=
  raw_page_directory ← zoom mheap put_heap (malloc (PAGE_SIZE * 2));
  let pd := align_up_uintptr raw_page_directory PAGE_SIZE in
  zoom mheap put_heap (write_ram (fill_words PAGE_DIRECTORY_ENTRIES 0 pd identity_entry)) ;;
  modify (fun s =>
    mkMmu (mheap s) pd (Z.lor (cr0 s) 2147483648) pd (Z.lor (cr4 s) 16)).

Definition paging_is_enabled (s : mmu) : bool := negb (Z.land (cr0 s) 2147483648 =? 0).
Definition paging_get_directory (s : mmu) : Z := cr3 s.
Definition paging_get_kernel_directory (s : mmu) : Z := page_directory s.
Definition paging_switch (pd : Z) : M mmu unit :=
  modify (fun s => mkMmu (mheap s) (page_directory s) (cr0 s) pd (cr4 s)).

Definition paging_create_directory (kernel_pd : Z) : M heap Z :=
  dir ← alloc_aligned_page;
  write_ram (memcpy dir kernel_pd PAGE_SIZE) ;;
  mret dir.

(** The 4 KiB entries that stand for the 4 MiB page of [entry]. *)
Definition split_entry (entry i : Z) : Z :=
  Z.lor (Z.lor (u32 (big_frame entry + Z.shiftl i 12)) PAGE_PRESENT) PAGE_WRITABLE.

Definition paging_map_page (pd vaddr paddr flags : Z) : M heap unit :=
  let dir_idx := Z.shiftr vaddr 22 in
  let table_idx := Z.land (Z.shiftr vaddr 12) 1023 in
  entry ← gets (fun h => ld32 (hram h) (pd + 4 * dir_idx));
  entry ← (if has entry PAGE_SIZE_4MB then
             table ← alloc_aligned_page;
             write_ram (fill_words 1024 0 table (split_entry entry)) ;;
             let e := Z.lor (Z.lor (frame table) PAGE_PRESENT) PAGE_WRITABLE in
             write_ram (st32 (pd + 4 * dir_idx) e) ;;
             gets (fun h => ld32 (hram h) (pd + 4 * dir_idx))
           else mret entry);
  let table := frame entry in
  write_ram (st32 (table + 4 * table_idx)
               (Z.lor (Z.lor (frame paddr) flags) PAGE_PRESENT)).

(** One page of [paging_clone_directory]. *)
Definition clone_page (new_dir table dir_idx table_idx : Z) : M heap unit :=
  pte ← gets (fun h => ld32 (hram h) (table + 4 * table_idx));
  if negb (has pte PAGE_PRESENT) || negb (has pte PAGE_USER) then mret tt
  else
    let vaddr := Z.lor (Z.shiftl dir_idx 22) (Z.shiftl table_idx 12) in
    new_page ← alloc_aligned_page;
    write_ram (memcpy new_page (frame pte) PAGE_SIZE) ;;
    paging_map_page new_dir vaddr new_page (Z.land pte 4095).

Definition paging_clone_directory (kernel_pd parent_pd : Z) : M heap Z :=
  new_dir ← paging_create_directory kernel_pd;
  for_loop PAGE_DIRECTORY_ENTRIES 0 (fun dir_idx =>
    entry ← gets (fun h => ld32 (hram h) (parent_pd + 4 * dir_idx));
    if negb (has entry PAGE_PRESENT) || has entry PAGE_SIZE_4MB then mret tt
    else for_loop 1024 0 (clone_page new_dir (frame entry) dir_idx)) ;;
  mret new_dir.

Definition paging_free_directory (kernel_pd pd : Z) : M heap unit :=
  if (pd =? 0) || (pd =? kernel_pd) then mret tt
  else for_loop PAGE_DIRECTORY_ENTRIES 0 (fun dir_idx =>
    entry ← gets (fun h => ld32 (hram h) (pd + 4 * dir_idx));
    if negb (has entry PAGE_PRESENT) || has entry PAGE_SIZE_4MB then mret tt
    else
      for_loop 1024 0 (fun table_idx =>
        pte ← gets (fun h => ld32 (hram h) (frame entry + 4 * table_idx));
        if negb (has pte PAGE_PRESENT) || negb (has pte PAGE_USER) then mret tt
        else write_ram (st32 (frame entry + 4 * table_idx) 0)) ;;
      write_ram (fun m => st32 (pd + 4 * dir_idx) (ld32 m (kernel_pd + 4 * dir_idx)) m)).

End Paging.

(** * Entries and indices *)

Lemma frame_eq e : in_u32 e -> frame e = e / 4096 * 4096.
Proof.
  intros He. unfold frame. change 4294963200 with (4294967296 - 2 ^ 12).
  rewrite land_clear_low by lia. reflexivity.
Qed.

Lemma big_frame_eq e : in_u32 e -> big_frame e = e / 4194304 * 4194304.
Proof.
  intros He. unfold big_frame. change 4290772992 with (4294967296 - 2 ^ 22).
  rewrite land_clear_low by lia. reflexivity.
Qed.

Lemma frame_page e : in_u32 e -> frame e mod 4096 = 0 /\ 0 <= frame e <= e.
Proof.
  intros He. rewrite frame_eq by done. split; [apply Z.mod_mul; lia|].
  Z.div_mod_to_equations; lia.
Qed.

Lemma frame_aligned a f : in_u32 a -> a mod 4096 = 0 -> 0 <= f < 4096 -> frame (a + f) = a.
Proof. intros. unfold frame. by apply frame_of_entry. Qed.

Lemma frame_self a : in_u32 a -> a mod 4096 = 0 -> frame a = a.
Proof. intros. rewrite <- (Z.add_0_r a) at 1. apply frame_aligned; lia. Qed.

Lemma dir_index_eq v : dir_index v = v / 4194304.
Proof. unfold dir_index. rewrite Z.shiftr_div_pow2 by lia. reflexivity. Qed.

Lemma table_index_eq v : table_index v = (v / 4096) mod 1024.
Proof.
  unfold table_index. change 1023 with (Z.ones 10). rewrite Z.land_ones by lia.
  rewrite Z.shiftr_div_pow2 by lia. reflexivity.
Qed.

Lemma dir_index_range v : in_u32 v -> 0 <= dir_index v < 1024.
Proof. intros. rewrite dir_index_eq. zlia. Qed.
Lemma table_index_range v : 0 <= table_index v < 1024.
Proof. rewrite table_index_eq. apply Z.mod_pos_bound. lia. Qed.

(** The page of an address is its pair of indices. *)
Lemma same_page v v' :
  dir_index v = dir_index v' -> table_index v = table_index v' -> v / 4096 = v' / 4096.
Proof.
  rewrite !dir_index_eq, !table_index_eq. intros H1 H2.
  change 4194304 with (4096 * 1024) in H1. rewrite <- !Z.div_div in H1 by lia.
  pose proof (Z.div_mod (v / 4096) 1024 ltac:(lia)).
  pose proof (Z.div_mod (v' / 4096) 1024 ltac:(lia)). lia.
Qed.

(** An offset in a 4 MiB page is a page number and an offset in that page. *)
Lemma big_offset v : v mod FOUR_MIB = table_index v * 4096 + v mod PAGE_SIZE.
Proof.
  rewrite table_index_eq. unfold FOUR_MIB, PAGE_SIZE. change 4194304 with (4096 * 1024).
  rewrite Z.rem_mul_r by lia. lia.
Qed.

(** An entry built from a page address and flag bits. *)
Lemma entry_value p flags :
  in_u32 p -> 0 <= flags < 4096 ->
  Z.lor (Z.lor (frame p) flags) PAGE_PRESENT = frame p + Z.lor flags 1
  /\ 0 <= Z.lor flags 1 < 4096.
Proof.
  intros Hp Hf. destruct (frame_page p Hp) as [Ha _].
  assert (Hl : 0 <= Z.lor flags 1 < 4096).
  { split; [apply Z.lor_nonneg; lia|]. change 4096 with (2 ^ 12).
    destruct (Z.eq_dec (Z.lor flags 1) 0) as [->|]; [lia|].
    apply Z.log2_lt_pow2; [pose proof (proj2 (Z.lor_nonneg flags 1)); lia|].
    rewrite Z.log2_lor by lia. apply Z.max_lub_lt; [|simpl; lia].
    destruct (Z.eq_dec flags 0) as [->|]; [simpl; lia|]. apply Z.log2_lt_pow2; lia. }
  split; [|done]. rewrite <- Z.lor_assoc. apply (lor_add_disjoint _ _ 12); [lia|done|done].
Qed.

Lemma has_present_entry p flags :
  in_u32 p -> 0 <= flags < 4096 -> has (frame p + Z.lor flags 1) PAGE_PRESENT = true.
Proof.
  intros Hp Hf. destruct (frame_page p Hp) as [Ha _]. destruct (entry_value p flags Hp Hf) as [_ Hl].
  unfold has, PAGE_PRESENT. rewrite flags_of_entry by (try done; lia).
  rewrite Z.land_lor_distr_l. change (Z.land 1 1) with 1.
  destruct (Z.eqb_spec (Z.lor (Z.land flags 1) 1) 0) as [E|]; [|done].
  apply Z.lor_eq_0_iff in E. lia.
Qed.

(** * Well-formed directories *)

(** Every entry is present; those that are not 4 MiB pages refer to tables in
    memory the kernel owns, each to its own, none to the directory itself. *)
Record dir_ok (al : list blk) (m : ram) (pd : Z) : Prop := {
  dir_align : pd mod 4096 = 0;
  dir_owned : owns al pd (pd + 4096);
  dir_present : forall i, 0 <= i < 1024 -> has (pde m pd i) PAGE_PRESENT = true;
  dir_table : forall i, 0 <= i < 1024 -> has (pde m pd i) PAGE_SIZE_4MB = false ->
    owns al (frame (pde m pd i)) (frame (pde m pd i) + 4096) /\ frame (pde m pd i) <> pd;
  dir_inj : forall i j, 0 <= i < 1024 -> 0 <= j < 1024 -> i <> j ->
    has (pde m pd i) PAGE_SIZE_4MB = false -> has (pde m pd j) PAGE_SIZE_4MB = false ->
    frame (pde m pd i) <> frame (pde m pd j)
}.

(** Two page-aligned pages are the same or disjoint. *)
Lemma pages_apart a b : a mod 4096 = 0 -> b mod 4096 = 0 -> a <> b -> a + 4096 <= b \/ b + 4096 <= a.
Proof. intros. zlia. Qed.

Lemma pde_same m m' pd i :
  0 <= i < 1024 -> same_on m m' pd (pd + 4096) -> pde m' pd i = pde m pd i.
Proof. intros Hi Hs. unfold pde. apply ld32_ext. intros b Hb. symmetry. apply Hs. lia. Qed.

(** A store into a table the directory uses leaves the directory well formed. *)
Lemma dir_ok_same al al' m m' pd :
  dir_ok al m pd -> same_on m m' pd (pd + 4096) -> (forall lo hi, owns al lo hi -> owns al' lo hi) ->
  dir_ok al' m' pd.
Proof.
  intros D Hs Ho. split.
  - apply D.
  - apply Ho, D.
  - intros i Hi. rewrite (pde_same m m') by done. by apply D.
  - intros i Hi. rewrite (pde_same m m') by done. intros Hb.
    destruct (dir_table _ _ _ D i Hi Hb). auto.
  - intros i j Hi Hj Hij. rewrite !(pde_same m m') by done. by apply D.
Qed.

(** The marked application page of [v], if it has one: what the clone copies. *)
Definition user_page (m : ram) (pd v : Z) : option Z :=
  let e := pde m pd (dir_index v) in
  if negb (has e PAGE_PRESENT) || has e PAGE_SIZE_4MB then None
  else
    let pte := ld32 m (frame e + 4 * table_index v) in
    if negb (has pte PAGE_PRESENT) || negb (has pte PAGE_USER) then None else Some pte.

(** The walk of [w] through the tables reads the same entries. *)
Definition same_walk (m m' : ram) (pd w : Z) : Prop :=
  let e := pde m pd (dir_index w) in
  pde m' pd (dir_index w) = e /\
  (has e PAGE_SIZE_4MB = false ->
   ld32 m' (frame e + 4 * table_index w) = ld32 m (frame e + 4 * table_index w)).

Lemma same_walk_results m m' pd w :
  same_walk m m' pd w ->
  translate m' pd w = translate m pd w /\ user_page m' pd w = user_page m pd w.
Proof.
  intros [E1 E2]. unfold translate, user_page. rewrite E1.
  destruct (has (pde m pd (dir_index w)) PAGE_PRESENT); [|done]. cbn [negb orb].
  destruct (has (pde m pd (dir_index w)) PAGE_SIZE_4MB); [done|]. by rewrite E2.
Qed.

Section Translation.
Context (al : list blk) (pd : Z).

Lemma pde_in_u32 m i : ram_ok m -> in_u32 (pde m pd i).
Proof. apply ld32_range. Qed.

(** The entry of [v] in its table, after the store. *)
Lemma translate_pte_hit m v p flags :
  ram_ok m -> dir_ok al m pd -> in_u32 v -> in_u32 p -> 0 <= flags < 4096 ->
  let e := pde m pd (dir_index v) in
  has e PAGE_SIZE_4MB = false ->
  let m' := st32 (frame e + 4 * table_index v) (Z.lor (Z.lor (frame p) flags) PAGE_PRESENT) m in
  same_on m m' pd (pd + 4096) ->
  translate m' pd v = Some (frame p + v mod PAGE_SIZE).
Proof.
  intros Rm D Hv Hp Hf e He m' Hs. pose proof (dir_index_range v Hv) as Hi.
  destruct (entry_value p flags Hp Hf) as [Ev Hl]. destruct (frame_page p Hp) as [Ha Hb].
  unfold translate. rewrite (pde_same m m') by done. fold e.
  assert (Hpr : has e PAGE_PRESENT = true) by apply (dir_present _ _ _ D _ Hi).
  rewrite Hpr, He. simpl.
  assert (E : ld32 m' (frame e + 4 * table_index v) = frame p + Z.lor flags 1).
  { unfold m'. rewrite Ev. apply ld32_st32_eq. zlia. }
  rewrite E, (has_present_entry p flags Hp Hf). simpl. rewrite frame_aligned by (done || lia). done.
Qed.

Lemma user_pte_hit m v p flags :
  ram_ok m -> dir_ok al m pd -> in_u32 v -> in_u32 p -> 0 <= flags < 4096 ->
  let e := pde m pd (dir_index v) in
  has e PAGE_SIZE_4MB = false ->
  let m' := st32 (frame e + 4 * table_index v) (Z.lor (Z.lor (frame p) flags) PAGE_PRESENT) m in
  same_on m m' pd (pd + 4096) ->
  user_page m' pd v = if has flags PAGE_USER then Some (frame p + Z.lor flags 1) else None.
Proof.
  intros Rm D Hv Hp Hf e He m' Hs. pose proof (dir_index_range v Hv) as Hi.
  destruct (entry_value p flags Hp Hf) as [Ev Hl]. destruct (frame_page p Hp) as [Ha Hb].
  unfold user_page. rewrite (pde_same m m') by done. fold e.
  assert (Hpr : has e PAGE_PRESENT = true) by apply (dir_present _ _ _ D _ Hi).
  rewrite Hpr, He. cbn [negb orb].
  assert (E : ld32 m' (frame e + 4 * table_index v) = frame p + Z.lor flags 1).
  { unfold m'. rewrite Ev. apply ld32_st32_eq. zlia. }
  rewrite E, (has_present_entry p flags Hp Hf). cbn [negb orb].
  assert (Eu : has (frame p + Z.lor flags 1) PAGE_USER = has flags PAGE_USER).
  { unfold has, PAGE_USER. rewrite flags_of_entry by first [exact Ha|lia].
    rewrite Z.land_lor_distr_l. change (Z.land 1 4) with 0. by rewrite Z.lor_0_r. }
  rewrite Eu. by destruct (has flags PAGE_USER).
Qed.

Lemma pte_miss m v w x :
  ram_ok m -> dir_ok al m pd -> in_u32 v ->
  let e := pde m pd (dir_index v) in
  has e PAGE_SIZE_4MB = false ->
  let m' := st32 (frame e + 4 * table_index v) x m in
  same_on m m' pd (pd + 4096) ->
  in_u32 w -> w / 4096 <> v / 4096 -> same_walk m m' pd w.
Proof.
  intros Rm D Hv e He m' Hs Hw Hne. pose proof (dir_index_range v Hv) as Hi.
  pose proof (dir_index_range w Hw) as Hj. pose proof (table_index_range v) as Ht.
  pose proof (table_index_range w) as Htw. split; [by apply pde_same|].
  set (f := pde m pd (dir_index w)). intros Hf. unfold m'. apply ld32_st32_other.
  destruct (Z.eq_dec (dir_index w) (dir_index v)) as [Eq|Ne].
  - assert (table_index w <> table_index v) by (intros E; apply Hne; by apply same_page).
    unfold f. rewrite Eq. fold e. lia.
  - pose proof (dir_inj _ _ _ D _ _ Hj Hi Ne Hf He) as Hn. fold e f in Hn.
    destruct (frame_page e (pde_in_u32 m _ Rm)) as [Ha _].
    destruct (frame_page f (pde_in_u32 m _ Rm)) as [Hb _].
    destruct (pages_apart _ _ Ha Hb ltac:(done)); lia.
Qed.

(** Writing one entry of an existing table changes the translation of exactly
    one page. *)
Lemma set_pte m v p flags :
  ram_ok m -> dir_ok al m pd -> in_u32 v -> in_u32 p -> 0 <= flags < 4096 ->
  let e := pde m pd (dir_index v) in
  has e PAGE_SIZE_4MB = false ->
  let m' := st32 (frame e + 4 * table_index v) (Z.lor (Z.lor (frame p) flags) PAGE_PRESENT) m in
  dir_ok al m' pd
  /\ translate m' pd v = Some (frame p + v mod PAGE_SIZE)
  /\ user_page m' pd v = (if has flags PAGE_USER then Some (frame p + Z.lor flags 1) else None)
  /\ (forall w, in_u32 w -> w / 4096 <> v / 4096 -> same_walk m m' pd w).
Proof.
  intros Rm D Hv Hp Hf e He m'.
  pose proof (dir_index_range v Hv) as Hi. pose proof (table_index_range v) as Ht.
  pose proof (pde_in_u32 m (dir_index v) Rm) as He32. fold e in He32.
  destruct (dir_table _ _ _ D _ Hi He) as [_ Hne]. fold e in Hne.
  destruct (frame_page e He32) as [Hal _].
  destruct (pages_apart _ _ Hal (dir_align _ _ _ D) Hne) as [Hap|Hap];
  (assert (Hs : same_on m m' pd (pd + 4096))
     by (intros x Hx; unfold m'; rewrite ld8_st32_other by lia; done));
  (split; [by eapply dir_ok_same|]); (split;
    [by apply translate_pte_hit|split; [by eapply user_pte_hit|intros w Hw Hne'; by apply pte_miss]]).
Qed.

(** ** Splitting a 4 MiB page *)

Lemma split_entry_value e j :
  in_u32 e -> 0 <= j < 1024 ->
  split_entry e j = big_frame e + j * 4096 + 3
  /\ in_u32 (big_frame e + j * 4096) /\ (big_frame e + j * 4096) mod 4096 = 0.
Proof.
  intros He Hj. pose proof (big_frame_eq e He) as Eb.
  assert (Hb : in_u32 (big_frame e + j * 4096)) by (rewrite Eb; zlia).
  assert (Ha : (big_frame e + j * 4096) mod 4096 = 0).
  { rewrite Eb. change 4194304 with (1024 * 4096). rewrite Z.mul_assoc, <- Z.mul_add_distr_r.
    apply Z.mod_mul. lia. }
  split; [|done]. unfold split_entry. rewrite Z.shiftl_mul_pow2 by lia. change (2 ^ 12) with 4096.
  usimp. rewrite <- Z.lor_assoc. apply (lor_add_disjoint _ _ 12); [lia|exact Ha|].
  change (2 ^ 12) with 4096. change (Z.lor PAGE_PRESENT PAGE_WRITABLE) with 3. lia.
Qed.

(** The new table and the directory entry that refers to it. *)
Definition split_ram (m : ram) (t i : Z) : ram :=
  st32 (pd + 4 * i) (Z.lor (Z.lor (frame t) PAGE_PRESENT) PAGE_WRITABLE)
    (fill_words 1024 0 t (split_entry (pde m pd i)) m).

Section Split.
Context (al' : list blk) (m : ram) (t i : Z).
Hypothesis (Rm : ram_ok m) (D : dir_ok al m pd) (Hi : 0 <= i < 1024).
Hypothesis (Hbig : has (pde m pd i) PAGE_SIZE_4MB = true).
Hypothesis (Ht : in_u32 (t + 4095)) (Hta : t mod 4096 = 0) (Hto : owns al' t (t + 4096)).
Hypothesis (Hal : forall lo hi, owns al lo hi -> owns al' lo hi).
Hypothesis (Hfresh : forall lo hi, owns al lo hi -> hi <= t \/ t + 4096 <= lo).

Lemma t_u32 : in_u32 t.
Proof. pose proof Ht. pose proof (Z.div_mod t 4096). zlia. Qed.

Lemma t_pd : t + 4096 <= pd \/ pd + 4096 <= t.
Proof. destruct (Hfresh _ _ (dir_owned _ _ _ D)); lia. Qed.

Lemma split_other x : ~ (t <= x < t + 4096) -> ~ (pd <= x < pd + 4096) ->
  ld8 (split_ram m t i) x = ld8 m x.
Proof. intros. unfold split_ram. rewrite ld8_st32_other, ld8_fill_words_other by lia. done. Qed.

Lemma split_pde_new : pde (split_ram m t i) pd i = t + 3.
Proof.
  unfold pde, split_ram. pose proof t_u32 as Hu.
  destruct (entry_value t 2 Hu ltac:(lia)) as [E _].
  assert (E' : Z.lor (Z.lor (frame t) PAGE_PRESENT) PAGE_WRITABLE = t + 3).
  { rewrite <- Z.lor_assoc, (Z.lor_comm PAGE_PRESENT), Z.lor_assoc.
    change PAGE_WRITABLE with 2. rewrite E. change (Z.lor 2 1) with 3.
    rewrite <- (frame_aligned t 0) at 2 by lia. by rewrite Z.add_0_r. }
  rewrite E'. apply ld32_st32_eq. zlia.
Qed.

Lemma split_pde_old j : 0 <= j < 1024 -> j <> i -> pde (split_ram m t i) pd j = pde m pd j.
Proof.
  intros Hj Hne. unfold pde, split_ram. rewrite ld32_st32_other by lia. apply ld32_ext.
  intros b Hb. pose proof t_pd. apply ld8_fill_words_other. lia.
Qed.

Lemma split_frame_new : frame (pde (split_ram m t i) pd i) = t.
Proof. rewrite split_pde_new. apply frame_aligned; [apply t_u32|done|lia]. Qed.

Lemma split_not_big : has (pde (split_ram m t i) pd i) PAGE_SIZE_4MB = false.
Proof. rewrite split_pde_new. unfold has. rewrite flags_of_entry by (done || (unfold PAGE_SIZE_4MB; lia)). done. Qed.

Lemma split_dir_ok : dir_ok al' (split_ram m t i) pd.
Proof.
  split.
  - apply D.
  - apply Hal, D.
  - intros j Hj. destruct (Z.eq_dec j i) as [->|Hne].
    + rewrite split_pde_new. unfold has.
      by rewrite flags_of_entry by (done || (unfold PAGE_PRESENT; lia)).
    + rewrite split_pde_old by done. by apply D.
  - intros j Hj. destruct (Z.eq_dec j i) as [->|Hne].
    + intros _. rewrite split_frame_new. split; [done|]. pose proof t_pd. lia.
    + rewrite split_pde_old by done. intros Hb. destruct (dir_table _ _ _ D j Hj Hb). auto.
  - assert (Hfar : forall j, 0 <= j < 1024 -> j <> i ->
        has (pde (split_ram m t i) pd j) PAGE_SIZE_4MB = false ->
        frame (pde (split_ram m t i) pd j) <> t).
    { intros j Hj Hne. rewrite split_pde_old by done. intros Hb Ef.
      destruct (dir_table _ _ _ D j Hj Hb) as [Ho _]. apply Hfresh in Ho. lia. }
    intros j k Hj Hk Hjk Hbj Hbk. destruct (Z.eq_dec j i) as [->|Hji].
    { rewrite split_frame_new. intros E. by apply (Hfar k Hk); [|done|symmetry]. }
    destruct (Z.eq_dec k i) as [->|Hki].
    { rewrite split_frame_new. by apply Hfar. }
    rewrite (split_pde_old j), (split_pde_old k) in * by done. by apply (dir_inj _ _ _ D).
Qed.

(** The walk of an address of the split page ends at its slice of it. *)
Lemma split_walk v : dir_index v = i ->
  ld32 (split_ram m t i) (t + 4 * table_index v) = big_frame (pde m pd i) + table_index v * 4096 + 3.
Proof.
  intros Hv. pose proof (table_index_range v) as Hk. pose proof (pde_in_u32 m i Rm) as He.
  destruct (split_entry_value (pde m pd i) (table_index v) He Hk) as (Es & Hb & Ha).
  pose proof t_pd. unfold split_ram. rewrite ld32_st32_other by lia. rewrite <- Es.
  apply ld32_fill_words; [lia|]. rewrite Es. zlia.
Qed.

Lemma split_here v : dir_index v = i ->
  translate (split_ram m t i) pd v = translate m pd v
  /\ user_page (split_ram m t i) pd v = user_page m pd v.
Proof.
  intros Ev. pose proof (table_index_range v) as Hk. unfold translate, user_page. rewrite Ev.
  assert (Hp : has (pde (split_ram m t i) pd i) PAGE_PRESENT = true) by exact (dir_present _ _ _ split_dir_ok i Hi).
  rewrite Hp, split_not_big, split_frame_new, Hbig, (dir_present _ _ _ D i Hi). cbn [negb orb].
  destruct (split_entry_value (pde m pd i) (table_index v) (pde_in_u32 m i Rm) Hk) as (Es & Hb & Ha).
  rewrite (split_walk v Ev). unfold has.
  rewrite !flags_of_entry by first [exact Ha|unfold PAGE_PRESENT, PAGE_USER; lia]. cbn [negb orb Z.land].
  rewrite frame_aligned by first [exact Ha|lia]. rewrite big_offset. split; [|done].
  change (Z.land 3 PAGE_PRESENT =? 0) with false. cbn [negb]. f_equal. lia.
Qed.

Lemma split_there v : in_u32 v -> dir_index v <> i -> same_walk m (split_ram m t i) pd v.
Proof.
  intros Hv Hne. pose proof (dir_index_range v Hv) as Hj. pose proof (table_index_range v).
  split; [by apply split_pde_old|]. intros Hb. destruct (dir_table _ _ _ D _ Hj Hb) as [Ho Hn].
  destruct (frame_page (pde m pd (dir_index v)) (pde_in_u32 m _ Rm)) as [Ha _].
  apply ld32_ext. intros x Hx. apply split_other;
    destruct (pages_apart _ _ Ha (dir_align _ _ _ D) Hn), (Hfresh _ _ Ho); lia.
Qed.

Lemma split_results v : in_u32 v ->
  translate (split_ram m t i) pd v = translate m pd v
  /\ user_page (split_ram m t i) pd v = user_page m pd v.
Proof.
  intros Hv. destruct (Z.eq_dec (dir_index v) i) as [E|Hne]; [by apply split_here|].
  apply same_walk_results. by apply split_there.
Qed.

Lemma split_ok :
  dir_ok al' (split_ram m t i) pd /\ has (pde (split_ram m t i) pd i) PAGE_SIZE_4MB = false
  /\ forall v, in_u32 v -> translate (split_ram m t i) pd v = translate m pd v
       /\ user_page (split_ram m t i) pd v = user_page m pd v.
Proof. split; [exact split_dir_ok|]. split; [exact split_not_big|exact split_results]. Qed.

End Split.

End Translation.

(** Addresses of one page are translated to one page. *)
Lemma translate_offset m pd v w a :
  w / 4096 = v / 4096 -> translate m pd v = Some (a + v mod PAGE_SIZE) ->
  translate m pd w = Some (a + w mod PAGE_SIZE).
Proof.
  intros E. unfold translate. rewrite !big_offset.
  assert (E1 : dir_index w = dir_index v).
  { rewrite !dir_index_eq. change 4194304 with (4096 * 1024). by rewrite <- !Z.div_div, E by lia. }
  assert (E2 : table_index w = table_index v) by (by rewrite !table_index_eq, E).
  rewrite E1, E2. repeat match goal with |- context [if ?c then _ else _] => destruct c end;
    intros T; try discriminate; injection T as T; f_equal; lia.
Qed.

Lemma user_page_page m pd v w : v / 4096 = w / 4096 -> user_page m pd v = user_page m pd w.
Proof.
  intros E. unfold user_page. rewrite !dir_index_eq, !table_index_eq.
  change 4194304 with (4096 * 1024). by rewrite <- !Z.div_div, E by lia.
Qed.

(** * What the operations guarantee, for any heap that meets the interface *)

Lemma ld8_memcpy dst src n m x :
  ram_ok m -> 0 <= n -> dst + n <= src \/ src + n <= dst ->
  ld8 (memcpy dst src n m) x =
  if (dst <=? x) && (x <? dst + n) then ld8 m (src + (x - dst)) else ld8 m x.
Proof.
  intros Rm Hn Hd. unfold memcpy. rewrite ld8_copy_bytes by (done || rewrite Z2Nat.id by lia; lia).
  by rewrite Z2Nat.id.
Qed.

Section PagingLaws.
#[local] Opaque fill_words copy_bytes.
Context `{KernelHeap}.

(** A page-aligned page in a new block [b]. *)
Record new_page (h : heap) (al : list blk) (p : Z) (b : blk) (h' : heap) : Prop := {
  np_inv : heap_inv h' (b :: al);
  np_aligned : p mod 4096 = 0;
  np_owned : owns [b] p (p + 4096);
  np_u32 : in_u32 (p + 4095) /\ 4096 <= p;
  np_kept : kept al (hram h) (hram h');
  np_fresh : forall lo hi, owns al lo hi -> hi <= p \/ p + 4096 <= lo;
  np_zero : forall x, p <= x < p + 4096 -> ld8 (hram h') x = 0
}.

Lemma alloc_page_law h al :
  heap_inv h al -> ends (alloc_aligned_page h) (fun p h' => exists b, new_page h al p b h').
Proof.
  intros Hi. unfold alloc_aligned_page, PAGE_SIZE. eapply ends_seq with
    (P := fun raw h' => exists sz, 8192 <= sz /\ heap_inv h' ((raw - 12, sz) :: al)
       /\ kept al (hram h) (hram h') /\ forall x, raw <= x < raw + 8192 -> ld8 (hram h') x = 0).
  { destruct (malloc_law h al (4096 * 2) Hi ltac:(lia)) as [(q & sz & h' & E & ? & ? & ? & ? & ?)|E];
      rewrite E; simpl; [|done]. exists sz. auto. }
  intros raw h' (sz & Hsz & Hi' & K & Z0). apply ends_ret. exists (raw - 12, sz).
  destruct (inv_bounds _ _ (raw - 12, sz) Hi' ltac:(set_solver)) as (B1 & B2 & B3).
  pose proof (inv_end _ _ Hi'). unfold bend, sizeof_block_header_t in B3. simpl in B1, B3.
  destruct (align_up_spec raw 12 ltac:(lia) ltac:(lia)) as [Ha1 Ha2]; [change (2 ^ 12) with 4096; lia|].
  change (2 ^ 12) with 4096 in *. set (p := align_up_uintptr raw 4096) in *.
  assert (Ho : owns [(raw - 12, sz)] p (p + 4096)).
  { exists (raw - 12, sz). split; [set_solver|]. unfold bend, sizeof_block_header_t. simpl. lia. }
  split; [done|done|done|lia|done| |].
  - intros lo hi Hlo. destruct (owns_disjoint h' [(raw - 12, sz)] al _ _ _ _ Hi' Ho Hlo); lia.
  - intros x Hx. apply Z0. lia.
Qed.

(** Memory kept where a directory and its tables lie keeps the translation. *)
Lemma walk_kept ds m m' pd v :
  dir_ok ds m pd -> kept ds m m' -> in_u32 v -> same_walk m m' pd v.
Proof.
  intros D K Hv. pose proof (dir_index_range v Hv) as Hj. pose proof (table_index_range v).
  split; [apply pde_same; [done|]; eapply kept_owned; [exact K|apply D]|].
  intros Hb. destruct (dir_table _ _ _ D _ Hj Hb) as [Ho _]. apply ld32_ext.
  intros x Hx. symmetry. apply (kept_owned _ _ _ _ _ K Ho). lia.
Qed.

(** ** Mapping one page *)

(** The result of mapping [v] to the page of [p] in a directory whose tables
    are in the blocks [ds], while the blocks [al] belong to others. *)
Record mapped (h : heap) (ds al : list blk) (pd v p flags : Z) (h' : heap) (ds' : list blk) : Prop := {
  mp_inv : heap_inv h' (ds' ++ al);
  mp_dir : dir_ok ds' (hram h') pd;
  mp_kept : kept al (hram h) (hram h');
  mp_here : translate (hram h') pd v = Some (frame p + v mod PAGE_SIZE);
  mp_user : user_page (hram h') pd v =
    if has flags PAGE_USER then Some (frame p + Z.lor flags 1) else None;
  mp_others : forall w, in_u32 w -> w / 4096 <> v / 4096 ->
    translate (hram h') pd w = translate (hram h) pd w
    /\ user_page (hram h') pd w = user_page (hram h) pd w
}.

Lemma write_ram_law h ds al lo hi f (Q : unit -> heap -> Prop) :
  heap_inv h (ds ++ al) -> owns ds lo hi -> ram_ok (f (hram h)) ->
  (forall x, ~ (lo <= x < hi) -> ld8 (hram h) x = ld8 (f (hram h)) x) ->
  (heap_inv (set_ram (f (hram h)) h) (ds ++ al) -> kept al (hram h) (f (hram h)) ->
     Q tt (set_ram (f (hram h)) h)) ->
  ends (write_ram f h) Q.
Proof.
  intros Hi Ho Rm Hx HQ. destruct (write_owned _ _ _ _ _ _ Hi Ho Rm Hx). by apply HQ.
Qed.

(** The store into an existing table. *)
Lemma map_existing h ds al pd v p flags :
  heap_inv h (ds ++ al) -> dir_ok ds (hram h) pd -> in_u32 v -> in_u32 p -> 0 <= flags < 4096 ->
  let e := pde (hram h) pd (dir_index v) in
  has e PAGE_SIZE_4MB = false ->
  ends (write_ram (st32 (frame e + 4 * table_index v)
          (Z.lor (Z.lor (frame p) flags) PAGE_PRESENT)) h)
    (fun _ h' => mapped h ds al pd v p flags h' ds).
Proof.
  intros Hi D Hv Hp Hf e He. pose proof (inv_ram _ _ Hi) as Rm.
  destruct (set_pte ds pd _ v p flags Rm D Hv Hp Hf He) as (D' & T1 & T2 & T3).
  pose proof (table_index_range v). pose proof (dir_index_range v Hv) as Hj.
  destruct (dir_table _ _ _ D _ Hj He) as [Ho _]. fold e in Ho.
  eapply write_ram_law; [done|exact Ho|by apply ram_ok_st32| |].
  - intros x Hx. rewrite ld8_st32_other by lia. done.
  - intros Hi' K. split; [done..|]. intros w Hw Hne. by apply same_walk_results, T3.
Qed.

(** Splitting the 4 MiB page of entry [i] into a new table. *)
Lemma map_split h ds al pd i :
  heap_inv h (ds ++ al) -> dir_ok ds (hram h) pd -> 0 <= i < 1024 ->
  let e := pde (hram h) pd i in
  has e PAGE_SIZE_4MB = true ->
  ends ((table ← alloc_aligned_page;
         write_ram (fill_words 1024 0 table (split_entry e)) ;;
         write_ram (st32 (pd + 4 * i) (Z.lor (Z.lor (frame table) PAGE_PRESENT) PAGE_WRITABLE)) ;;
         gets (fun h => ld32 (hram h) (pd + 4 * i))) h)
    (fun e' h' => exists ds', e' = pde (hram h') pd i /\ has e' PAGE_SIZE_4MB = false
       /\ heap_inv h' (ds' ++ al) /\ dir_ok ds' (hram h') pd /\ kept al (hram h) (hram h')
       /\ forall v, in_u32 v -> translate (hram h') pd v = translate (hram h) pd v
            /\ user_page (hram h') pd v = user_page (hram h) pd v).
Proof.
  intros Hi D Hj e He. eapply ends_seq; [by apply alloc_page_law|]. cbv beta.
  intros t h1 (b & N). apply np_kept in N as K1. apply kept_app in K1 as [Kd Ka].
  assert (Sd : same_on (hram h) (hram h1) pd (pd + 4096)) by (eapply kept_owned; [exact Kd|apply D]).
  assert (D1 : dir_ok ds (hram h1) pd) by (by eapply dir_ok_same).
  assert (Ee : pde (hram h1) pd i = e) by (by apply pde_same).
  pose proof (inv_ram _ _ (np_inv _ _ _ _ _ N)) as R1.
  assert (Hinv : heap_inv h1 ((b :: ds) ++ al)) by apply N.
  pose proof (np_owned _ _ _ _ _ N) as Hto. pose proof (np_u32 _ _ _ _ _ N) as [Htu _].
  assert (Hal : forall lo hi, owns ds lo hi -> owns (b :: ds) lo hi) by (intros; by apply owns_cons).
  assert (Hto' : owns (b :: ds) t (t + 4096)) by (apply (owns_app_l [b] ds); done).
  assert (Hfr : forall lo hi, owns ds lo hi -> hi <= t \/ t + 4096 <= lo).
  { intros lo hi Ho. apply (np_fresh _ _ _ _ _ N). by apply owns_app_l. }
  assert (Hb1 : has (pde (hram h1) pd i) PAGE_SIZE_4MB = true) by (by rewrite Ee).
  destruct (split_ok ds pd (b :: ds) (hram h1) t i) as (D2 & Nb & T2);
    try assumption; [apply N|].
  rewrite <- Ee. apply ends_bind.
  eapply write_ram_law; [exact Hinv|exact Hto'|by apply ram_ok_fill_words| |].
  { intros x Hx. rewrite ld8_fill_words_other by lia. done. }
  intros Hi2 K2. apply ends_bind.
  eapply (write_ram_law (set_ram _ h1)); [exact Hi2|apply Hal, D1|by apply ram_ok_st32, ram_ok_fill_words| |].
  { intros x Hx. rewrite ld8_st32_other by lia. done. }
  intros Hi3 K3. exists (b :: ds). split; [done|]. split; [exact Nb|]. split; [exact Hi3|].
  split; [exact D2|]. split; [by eauto using kept_trans|].
  intros v Hv. cbn. destruct (T2 v Hv) as [T3 T4].
  destruct (same_walk_results _ _ _ _ (walk_kept ds _ _ pd v D Kd Hv)) as [T5 T6].
  split; [by etransitivity|by etransitivity].
Qed.

Lemma map_page_law h ds al pd v p flags :
  heap_inv h (ds ++ al) -> dir_ok ds (hram h) pd -> in_u32 v -> in_u32 p -> 0 <= flags < 4096 ->
  ends (paging_map_page pd v p flags h) (fun _ h' => exists ds', mapped h ds al pd v p flags h' ds').
Proof.
  intros Hi D Hv Hp Hf. pose proof (dir_index_range v Hv) as Hj. unfold paging_map_page.
  fold (dir_index v) (table_index v). apply ends_bind. cbn [gets ends].
  fold (pde (hram h) pd (dir_index v)).
  destruct (has (pde (hram h) pd (dir_index v)) PAGE_SIZE_4MB) eqn:He.
  - eapply ends_seq; [by eapply (map_split h ds al)|]. cbv beta.
    intros e' h1 (ds' & -> & Hb & Hi1 & D1 & K1 & T1). cbv zeta.
    eapply ends_mono; [by apply (map_existing h1 ds' al)|]. cbv beta.
    intros [] h2 Mp. exists ds'. split; try apply Mp.
    + eapply kept_trans; [exact K1|apply Mp].
    + intros w Hw Hne. destruct (mp_others _ _ _ _ _ _ _ _ _ Mp w Hw Hne) as [-> ->]. by apply T1.
  - apply ends_bind, ends_ret. cbv zeta.
    eapply ends_mono; [by apply (map_existing h ds al)|]. cbv beta. intros [] h2 Mp. by exists ds.
Qed.

(** ** A new directory *)

(** Every entry is a present 4 MiB page, as [paging_init] leaves the kernel's. *)
Definition all_big (m : ram) (pd : Z) : Prop :=
  forall i, 0 <= i < 1024 ->
    has (pde m pd i) PAGE_PRESENT = true /\ has (pde m pd i) PAGE_SIZE_4MB = true.

Lemma all_big_dir_ok al m pd :
  all_big m pd -> pd mod 4096 = 0 -> owns al pd (pd + 4096) -> dir_ok al m pd.
Proof.
  intros B Ha Ho. split; [done|done| | |].
  - intros i Hi. by apply B.
  - intros i Hi Hb. destruct (B i Hi). congruence.
  - intros i j Hi Hj _ Hb. destruct (B i Hi). congruence.
Qed.

Lemma translate_big m m' pd pd' v :
  all_big m pd -> in_u32 v -> (forall i, 0 <= i < 1024 -> pde m' pd' i = pde m pd i) ->
  translate m' pd' v = translate m pd v.
Proof.
  intros B Hv E. pose proof (dir_index_range v Hv) as Hi. unfold translate. rewrite E by done.
  destruct (B _ Hi) as [H1 H2]. by rewrite H1, H2.
Qed.

Lemma create_directory_law h al kpd :
  heap_inv h al -> owns al kpd (kpd + 4096) -> all_big (hram h) kpd ->
  ends (paging_create_directory kpd h) (fun dir h' => exists b,
    heap_inv h' (b :: al) /\ dir_ok [b] (hram h') dir /\ kept al (hram h) (hram h')
    /\ all_big (hram h') dir /\ in_u32 (dir + 4095) /\ 4096 <= dir
    /\ forall v, in_u32 v -> translate (hram h') dir v = translate (hram h) kpd v).
Proof.
  intros Hi Hk B. unfold paging_create_directory. eapply ends_seq; [by apply alloc_page_law|].
  intros dir h1 (b & N). pose proof (np_fresh _ _ _ _ _ N _ _ Hk) as Hf.
  pose proof (inv_ram _ _ (np_inv _ _ _ _ _ N)) as R1. apply ends_bind.
  assert (Ec : forall x, ld8 (memcpy dir kpd PAGE_SIZE (hram h1)) x =
     if (dir <=? x) && (x <? dir + 4096) then ld8 (hram h1) (kpd + (x - dir)) else ld8 (hram h1) x).
  { intros x. apply (ld8_memcpy dir kpd 4096); [done|lia|lia]. }
  eapply (write_ram_law h1 [b] al); [apply N|apply N|by apply ram_ok_copy_bytes| |].
  { intros x Hx. rewrite Ec. repeat case_z; simpl; lia || done. }
  intros Hi2 K2. apply ends_ret. exists b.
  assert (Ep : forall i, 0 <= i < 1024 ->
     pde (memcpy dir kpd PAGE_SIZE (hram h1)) dir i = pde (hram h) kpd i).
  { intros i Hi'. apply ld32_shift. intros k Hk'. rewrite Ec.
    destruct (Z.leb_spec dir (dir + 4 * i + k)), (Z.ltb_spec (dir + 4 * i + k) (dir + 4096));
      try lia. cbn [andb].
    rewrite <- (kept_owned _ _ _ _ _ (np_kept _ _ _ _ _ N) Hk) by lia. f_equal. lia. }
  assert (B' : all_big (memcpy dir kpd PAGE_SIZE (hram h1)) dir).
  { intros i Hi'. rewrite Ep by done. by apply B. }
  split; [exact Hi2|]. split; [apply all_big_dir_ok; [done|apply N|apply N]|].
  split; [eapply kept_trans; [apply N|exact K2]|]. split; [done|].
  split; [apply N|]. split; [apply N|].
  intros v Hv. by apply translate_big.
Qed.

(** ** Cloning a directory *)

Lemma page_indices v d t :
  0 <= t < 1024 -> v / 4096 = d * 1024 + t -> dir_index v = d /\ table_index v = t.
Proof.
  intros Ht E. rewrite dir_index_eq, table_index_eq. change 4194304 with (4096 * 1024).
  rewrite <- Z.div_div, E by lia. rewrite Z.add_comm, Z.div_add, Z.mod_add by lia.
  rewrite Z.div_small, Z.mod_small by lia. lia.
Qed.

Lemma vaddr_of_indices d t :
  0 <= d < 1024 -> 0 <= t < 1024 ->
  Z.lor (Z.shiftl d 22) (Z.shiftl t 12) = (d * 1024 + t) * 4096.
Proof.
  intros Hd Ht. rewrite !Z.shiftl_mul_pow2 by lia.
  rewrite (lor_add_disjoint _ _ 22); [|lia|apply Z.mod_mul; lia|]; change (2 ^ 22) with 4194304;
    change (2 ^ 12) with 4096; lia.
Qed.

Section Clone.
Context (al : list blk) (m0 : ram) (kpd parent new_dir : Z).
Hypothesis (R0 : ram_ok m0) (Dp : dir_ok al m0 parent).
Hypothesis Hpages : forall v pte, in_u32 v -> user_page m0 parent v = Some pte ->
  owns al (frame pte) (frame pte + 4096).

(** The pages below page number [n] have been copied. *)
Definition copied (n v : Z) : option Z :=
  if v / 4096 <? n then user_page m0 parent v else None.

Record cloned (n : Z) (h : heap) (ds ps : list blk) : Prop := {
  cl_inv : heap_inv h (ds ++ ps ++ al);
  cl_dir : dir_ok ds (hram h) new_dir;
  cl_kept : kept al m0 (hram h);
  cl_page : forall v pte, in_u32 v -> copied n v = Some pte -> exists np,
    translate (hram h) new_dir v = Some (np + v mod PAGE_SIZE) /\ np mod 4096 = 0
    /\ owns ps np (np + 4096)
    /\ forall k, 0 <= k < 4096 -> ld8 (hram h) (np + k) = ld8 m0 (frame pte + k);
  cl_user : forall v, in_u32 v -> copied n v <> None -> user_page (hram h) new_dir v <> None;
  cl_rest : forall v, in_u32 v -> copied n v = None ->
    translate (hram h) new_dir v = translate m0 kpd v;
  cl_inj : forall v w a b, in_u32 v -> in_u32 w -> v / 4096 <> w / 4096 ->
    copied n v <> None -> copied n w <> None ->
    translate (hram h) new_dir v = Some a -> translate (hram h) new_dir w = Some b ->
    a / 4096 <> b / 4096
}.

(** Page numbers without a marked page are skipped. *)
Lemma cloned_skip n n' h ds ps :
  cloned n h ds ps -> n <= n' ->
  (forall v, in_u32 v -> n <= v / 4096 < n' -> user_page m0 parent v = None) ->
  cloned n' h ds ps.
Proof.
  intros C Hn Hs.
  assert (E : forall v, in_u32 v -> copied n' v = copied n v).
  { intros v Hv. unfold copied. destruct (Z.ltb_spec (v / 4096) n'), (Z.ltb_spec (v / 4096) n);
      try lia; try done. apply Hs; [done|lia]. }
  split; try apply C.
  - intros v pte Hv. rewrite E by done. by apply C.
  - intros v Hv. rewrite E by done. by apply C.
  - intros v Hv. rewrite E by done. by apply C.
  - intros v w a b Hv Hw. rewrite !E by done. by apply C.
Qed.

Lemma copied_next n v :
  copied (n + 1) v = if v / 4096 =? n then user_page m0 parent v else copied n v.
Proof.
  unfold copied. destruct (Z.eqb_spec (v / 4096) n); destruct (Z.ltb_spec (v / 4096) (n + 1)),
    (Z.ltb_spec (v / 4096) n); lia || done.
Qed.

(** The marked page [pte] of page number [n] is copied to [np] and mapped. *)
Section Add.
Context (n pte np flags : Z) (b : blk) (h h1 h3 : heap) (ds ds' ps : list blk).
Hypothesis C : cloned n h ds ps.
Hypothesis Hpte : forall v, in_u32 v -> v / 4096 = n -> user_page m0 parent v = Some pte.
Hypothesis (Hn : in_u32 (n * 4096)) (N : new_page h (ds ++ ps ++ al) np b h1).
Hypothesis Huser : has flags PAGE_USER = true.
Let m2 := memcpy np (frame pte) PAGE_SIZE (hram h1).
Hypothesis K2 : kept (ds ++ ps ++ al) (hram h1) m2.
Hypothesis Mp : mapped (set_ram m2 h1) ds ((b :: ps) ++ al) new_dir (n * 4096) np flags h3 ds'.

Lemma add_page_owned : owns al (frame pte) (frame pte + 4096).
Proof.
  apply (Hpages (n * 4096) pte Hn). apply Hpte; [done|]. apply Z.div_mul. lia.
Qed.

Lemma add_kept : kept (ps ++ al) (hram h) (hram h3).
Proof.
  pose proof (np_kept _ _ _ _ _ N) as K1. pose proof K2 as K2'. apply kept_app in K1, K2'.
  pose proof (mp_kept _ _ _ _ _ _ _ _ _ Mp) as K3. simpl in K3. inversion K3 as [|? ? _ K3']; subst.
  eapply kept_trans; [apply K1|]. eapply kept_trans; [apply K2'|]. exact K3'.
Qed.

Lemma add_contents k : 0 <= k < 4096 -> ld8 (hram h3) (np + k) = ld8 m0 (frame pte + k).
Proof.
  intros Hk. pose proof (mp_kept _ _ _ _ _ _ _ _ _ Mp) as K3. pose proof add_page_owned as Ho.
  assert (Hb : owns ((b :: ps) ++ al) np (np + 4096)).
  { apply (owns_app_l [b] (ps ++ al)). apply N. }
  rewrite <- (kept_owned _ _ _ _ _ K3 Hb) by lia. cbn. unfold m2.
  assert (Hfr : frame pte + 4096 <= np \/ np + 4096 <= frame pte).
  { apply (np_fresh _ _ _ _ _ N). by do 2 apply owns_app_r. }
  rewrite (ld8_memcpy np _ 4096); [|exact (inv_ram _ _ (np_inv _ _ _ _ _ N))|lia|lia].
  destruct (Z.leb_spec np (np + k)), (Z.ltb_spec (np + k) (np + 4096)); try lia. cbn [andb].
  pose proof (np_kept _ _ _ _ _ N) as K1. rewrite !kept_app in K1. destruct K1 as (_ & _ & K1).
  rewrite <- (kept_owned _ _ _ _ _ K1 Ho) by lia.
  rewrite <- (kept_owned _ _ _ _ _ (cl_kept _ _ _ _ C) Ho) by lia. f_equal. lia.
Qed.

Lemma add_walk w : in_u32 w -> w / 4096 <> n ->
  translate (hram h3) new_dir w = translate (hram h) new_dir w
  /\ user_page (hram h3) new_dir w = user_page (hram h) new_dir w.
Proof.
  intros Hw Hne. destruct (mp_others _ _ _ _ _ _ _ _ _ Mp w Hw) as [-> ->]; [rewrite Z.div_mul; lia|].
  pose proof (np_kept _ _ _ _ _ N) as K1. pose proof K2 as K2'. apply kept_app in K1, K2'.
  apply same_walk_results, (walk_kept ds); [apply C| |done].
  eapply kept_trans; [apply K1|apply K2'].
Qed.

Lemma add_others w : in_u32 w -> w / 4096 <> n ->
  translate (hram h3) new_dir w = translate (hram h) new_dir w.
Proof. intros Hw Hne. by apply add_walk. Qed.

Lemma add_here w : in_u32 w -> w / 4096 = n ->
  translate (hram h3) new_dir w = Some (np + w mod PAGE_SIZE).
Proof.
  intros Hw E. pose proof (mp_here _ _ _ _ _ _ _ _ _ Mp) as T.
  pose proof (np_aligned _ _ _ _ _ N). pose proof (np_u32 _ _ _ _ _ N).
  assert (Ef : frame np = np).
  { rewrite <- (Z.add_0_r np) at 1. apply frame_aligned; lia. }
  rewrite Ef in T. unfold PAGE_SIZE in T. rewrite Z.mod_mul, Z.add_0_r in T by lia.
  apply (translate_offset _ _ (n * 4096)); [rewrite Z.div_mul by lia; done|].
  rewrite T. f_equal. unfold PAGE_SIZE. rewrite Z.mod_mul by lia. lia.
Qed.

Lemma copied_here v : in_u32 v -> v / 4096 = n -> copied (n + 1) v = Some pte.
Proof. intros Hv E. rewrite copied_next, E, Z.eqb_refl. by apply Hpte. Qed.

Lemma copied_there v : v / 4096 <> n -> copied (n + 1) v = copied n v.
Proof. intros E. rewrite copied_next. by case_z. Qed.

(** The new page is not a page mapped before. *)
Lemma add_fresh w c : in_u32 w -> w / 4096 <> n -> copied n w <> None ->
  translate (hram h3) new_dir w = Some c -> c / 4096 <> np / 4096.
Proof.
  intros Hw Hne Hc. rewrite add_others by done. destruct (copied n w) as [q|] eqn:Eq; [|done].
  destruct (cl_page _ _ _ _ C w q Hw Eq) as (nq & T & Ha & Ho & _). rewrite T. intros [= <-].
  assert (Hf : nq + 4096 <= np \/ np + 4096 <= nq).
  { apply (np_fresh _ _ _ _ _ N). apply owns_app_r. by apply owns_app_l. }
  pose proof (np_aligned _ _ _ _ _ N). unfold PAGE_SIZE. zlia.
Qed.

Lemma cloned_add : cloned (n + 1) h3 ds' (b :: ps).
Proof.
  pose proof (np_aligned _ _ _ _ _ N) as Ha. split.
  - apply Mp.
  - apply Mp.
  - eapply kept_trans; [apply C|]. pose proof add_kept as K. apply kept_app in K. apply K.
  - intros v q Hv Hq. destruct (Z.eq_dec (v / 4096) n) as [E|Hne].
    + rewrite copied_here in Hq by done. injection Hq as <-. exists np.
      split; [by apply add_here|]. split; [done|].
      split; [apply (owns_app_l [b] ps), N|exact add_contents].
    + rewrite copied_there in Hq by done.
      destruct (cl_page _ _ _ _ C v q Hv Hq) as (nq & T & Hal & Ho & Hk). exists nq.
      rewrite add_others by done. split; [done|]. split; [done|]. split; [by apply owns_cons|].
      intros k Hkk. rewrite <- Hk by done. symmetry.
      apply (kept_owned _ _ _ nq (nq + 4096) add_kept); [by apply owns_app_l|lia].
  - intros v Hv Hq. destruct (Z.eq_dec (v / 4096) n) as [E|Hne].
    + rewrite (user_page_page _ _ v (n * 4096)) by (rewrite Z.div_mul by lia; done).
      rewrite (mp_user _ _ _ _ _ _ _ _ _ Mp), Huser. done.
    + rewrite copied_there in Hq by done. destruct (add_walk v Hv Hne) as [_ ->]. by apply C.
  - intros v Hv Hq. destruct (Z.eq_dec (v / 4096) n) as [E|Hne].
    + by rewrite copied_here in Hq.
    + rewrite copied_there in Hq by done. rewrite add_others by done. by apply C.
  - intros v w a c Hv Hw Hvw Hcv Hcw Tv Tw. pose proof (np_u32 _ _ _ _ _ N) as Hu.
    assert (Hoff : forall z, (np + z mod PAGE_SIZE) / 4096 = np / 4096)
      by (intros; unfold PAGE_SIZE; zlia).
    destruct (Z.eq_dec (v / 4096) n) as [E|Hv'], (Z.eq_dec (w / 4096) n) as [E'|Hw']; [lia| | |].
    + rewrite (add_here v) in Tv by done. injection Tv as <-. rewrite Hoff.
      rewrite copied_there in Hcw by done. intros Hx. by apply (add_fresh w c Hw Hw' Hcw Tw).
    + rewrite (add_here w) in Tw by done. injection Tw as <-. rewrite Hoff.
      rewrite copied_there in Hcv by done. by apply (add_fresh v a).
    + rewrite copied_there in Hcv, Hcw by done. rewrite add_others in Tv, Tw by done.
      by apply (cl_inj _ _ _ _ C v w).
Qed.

End Add.

(** The parent's directory and tables read as before. *)
Lemma parent_entry n h ds ps d :
  cloned n h ds ps -> 0 <= d < 1024 -> ld32 (hram h) (parent + 4 * d) = pde m0 parent d.
Proof.
  intros C Hd. apply (pde_same m0); [done|]. eapply kept_owned; [apply C|apply Dp].
Qed.

Lemma parent_table n h ds ps d t :
  cloned n h ds ps -> 0 <= d < 1024 -> 0 <= t < 1024 ->
  has (pde m0 parent d) PAGE_SIZE_4MB = false ->
  ld32 (hram h) (frame (pde m0 parent d) + 4 * t) = ld32 m0 (frame (pde m0 parent d) + 4 * t).
Proof.
  intros C Hd Ht Hb. destruct (dir_table _ _ _ Dp d Hd Hb) as [Ho _]. apply ld32_ext.
  intros x Hx. symmetry. eapply kept_owned; [apply C|exact Ho|lia].
Qed.

Lemma clone_page_law d t h :
  0 <= d < 1024 -> 0 <= t < 1024 ->
  has (pde m0 parent d) PAGE_PRESENT = true -> has (pde m0 parent d) PAGE_SIZE_4MB = false ->
  (exists ds ps, cloned (d * 1024 + t) h ds ps) ->
  ends (clone_page new_dir (frame (pde m0 parent d)) d t h)
    (fun _ h' => exists ds ps, cloned (d * 1024 + (t + 1)) h' ds ps).
Proof.
  intros Hd Ht Hpr Hb (ds & ps & C). replace (d * 1024 + (t + 1)) with (d * 1024 + t + 1) by lia.
  unfold clone_page. apply ends_bind. cbn [gets ends].
  rewrite (parent_table _ _ _ _ _ _ C Hd Ht Hb).
  set (pte := ld32 m0 (frame (pde m0 parent d) + 4 * t)).
  assert (U : forall v, in_u32 v -> v / 4096 = d * 1024 + t -> user_page m0 parent v =
    if negb (has pte PAGE_PRESENT) || negb (has pte PAGE_USER) then None else Some pte).
  { intros v Hv E. destruct (page_indices v d t Ht E) as [E1 E2].
    unfold user_page. rewrite E1, E2, Hpr, Hb. done. }
  destruct (negb (has pte PAGE_PRESENT) || negb (has pte PAGE_USER)) eqn:Hu.
  { apply ends_ret. exists ds, ps. apply (cloned_skip (d * 1024 + t)); [done|lia|].
    intros v Hv Hr. apply U; [done|lia]. }
  rewrite vaddr_of_indices by done. set (n := d * 1024 + t) in *.
  assert (Hn : in_u32 (n * 4096)) by (unfold n; lia).
  eapply ends_seq; [apply (alloc_page_law h _ (cl_inv _ _ _ _ C))|]. cbv beta.
  intros np h1 (b & N). apply ends_bind.
  assert (Ho : owns al (frame pte) (frame pte + 4096)).
  { apply (Hpages (n * 4096)); [done|]. apply U; [done|]. apply Z.div_mul. lia. }
  assert (Hfr : frame pte + 4096 <= np \/ np + 4096 <= frame pte).
  { apply (np_fresh _ _ _ _ _ N). by do 2 apply owns_app_r. }
  pose proof (inv_ram _ _ (np_inv _ _ _ _ _ N)) as R1.
  eapply (write_ram_law h1 [b] (ds ++ ps ++ al)); [apply N|apply N|by apply ram_ok_copy_bytes| |].
  { intros x Hx. rewrite (ld8_memcpy np _ 4096) by (done || lia). repeat case_z; simpl; lia || done. }
  intros Hi2 K2. pose proof (np_u32 _ _ _ _ _ N).
  eapply ends_mono; [apply (map_page_law _ ds ((b :: ps) ++ al))|].
  - eapply inv_perm; [exact Hi2|]. simpl. by rewrite Permutation_middle.
  - eapply dir_ok_same; [apply C| |done]. apply kept_app in K2 as [K2 _].
    pose proof (np_kept _ _ _ _ _ N) as K1. apply kept_app in K1 as [K1 _].
    eapply kept_owned; [by eapply kept_trans|apply C].
  - done.
  - lia.
  - change 4095 with (Z.ones 12). rewrite Z.land_ones by lia. apply Z.mod_pos_bound. lia.
  - cbv beta. intros [] h3 (ds' & Mp). exists ds', (b :: ps).
    eapply cloned_add; [exact C|exact U|done|exact N| |done|exact Mp].
    apply orb_false_iff in Hu as [_ Hu]. apply negb_false_iff in Hu. rewrite <- Hu. unfold has. do 2 f_equal.
    rewrite <- Z.land_assoc. done.
Qed.

(** Every marked page of the parent has been copied when the loops end. *)
Lemma clone_loops_law h :
  (exists ds ps, cloned 0 h ds ps) ->
  ends (for_loop PAGE_DIRECTORY_ENTRIES 0 (fun dir_idx =>
    entry ← gets (fun h => ld32 (hram h) (parent + 4 * dir_idx));
    if negb (has entry PAGE_PRESENT) || has entry PAGE_SIZE_4MB then mret tt
    else for_loop 1024 0 (clone_page new_dir (frame entry) dir_idx)) h)
    (fun _ h' => exists ds ps, cloned 1048576 h' ds ps).
Proof.
  intros C0. eapply ends_mono; [apply (ends_for (fun d h => exists ds ps, cloned (d * 1024) h ds ps))|].
  - intros d h1 Hd (ds & ps & C). apply ends_bind. cbn [gets ends].
    unfold PAGE_DIRECTORY_ENTRIES in Hd. assert (Hd' : 0 <= d < 1024) by lia.
    rewrite (parent_entry _ _ _ _ _ C Hd').
    destruct (has (pde m0 parent d) PAGE_PRESENT) eqn:Hp, (has (pde m0 parent d) PAGE_SIZE_4MB) eqn:Hb;
      cbn [negb orb].
    2: { eapply ends_mono; [apply (ends_for (fun t h => exists ds ps, cloned (d * 1024 + t) h ds ps))|].
      - intros t h2 Ht Ct. apply clone_page_law; [done|lia|done|done|exact Ct].
      - exists ds, ps. by rewrite Z.add_0_r.
      - cbv beta. intros [] h2 Ct. by replace ((d + 1) * 1024) with (d * 1024 + (0 + Z.of_nat 1024)) by lia. }
    all: apply ends_ret; exists ds, ps; apply (cloned_skip (d * 1024)); [done|lia|];
      intros v Hv Hr; unfold user_page;
      (assert (Ed : dir_index v = d)
         by (rewrite dir_index_eq; change 4194304 with (4096 * 1024); rewrite <- Z.div_div by lia; zlia));
      by rewrite Ed, Hp, Hb.
  - exact C0.
  - cbv beta. intros [] h1 C1. by replace 1048576 with ((0 + Z.of_nat PAGE_DIRECTORY_ENTRIES) * 1024).
Qed.

End Clone.

(** The directory a clone starts from: the kernel's mapping. *)
Lemma cloned_start h al kpd dir b m0 parent :
  heap_inv h (b :: al) -> dir_ok [b] (hram h) dir -> kept al m0 (hram h) ->
  (forall v, in_u32 v -> translate (hram h) dir v = translate m0 kpd v) ->
  cloned al m0 kpd parent dir 0 h [b] [].
Proof.
  intros Hi D K T.
  assert (E : forall v, in_u32 v -> copied m0 parent 0 v = None).
  { intros v Hv. unfold copied. destruct (Z.ltb_spec (v / 4096) 0); [zlia|done]. }
  split; [done|done|done| | |auto|].
  - intros v pte Hv. by rewrite E.
  - intros v Hv. by rewrite E.
  - intros v w a c Hv Hw _. by rewrite E.
Qed.

(** What [paging_clone_directory] leaves behind: the new directory in blocks [ds],
    the copied pages in blocks [ps]. *)
Record clone_result (h : heap) (al : list blk) (kpd parent dir : Z) (h' : heap) (ds ps : list blk) : Prop := {
  cr_inv : heap_inv h' (ds ++ ps ++ al);
  cr_dir : dir_ok ds (hram h') dir;
  cr_kept : kept al (hram h) (hram h');
  cr_page : forall v pte, in_u32 v -> user_page (hram h) parent v = Some pte -> exists np,
    translate (hram h') dir v = Some (np + v mod PAGE_SIZE) /\ np mod 4096 = 0 /\ owns ps np (np + 4096)
    /\ forall k, 0 <= k < 4096 -> ld8 (hram h') (np + k) = ld8 (hram h) (frame pte + k);
  cr_user : forall v, in_u32 v -> user_page (hram h) parent v <> None -> user_page (hram h') dir v <> None;
  cr_rest : forall v, in_u32 v -> user_page (hram h) parent v = None ->
    translate (hram h') dir v = translate (hram h) kpd v;
  cr_inj : forall v w a b, in_u32 v -> in_u32 w -> v / 4096 <> w / 4096 ->
    user_page (hram h) parent v <> None -> user_page (hram h) parent w <> None ->
    translate (hram h') dir v = Some a -> translate (hram h') dir w = Some b -> a / 4096 <> b / 4096
}.

Lemma clone_directory_law h al kpd parent :
  heap_inv h al -> owns al kpd (kpd + 4096) -> all_big (hram h) kpd ->
  dir_ok al (hram h) parent ->
  (forall v pte, in_u32 v -> user_page (hram h) parent v = Some pte ->
     owns al (frame pte) (frame pte + 4096)) ->
  ends (paging_clone_directory kpd parent h) (fun dir h' => exists ds ps, clone_result h al kpd parent dir h' ds ps).
Proof.
  intros Hi Ho B D Hp. unfold paging_clone_directory.
  eapply ends_seq; [by apply create_directory_law|]. cbv beta.
  intros dir h1 (b & Hi1 & D1 & K1 & _ & _ & _ & T1).
  eapply ends_seq; [apply (clone_loops_law al (hram h) kpd parent dir D Hp)|].
  { exists [b], []. by apply cloned_start. }
  cbv beta. intros [] h2 (ds & ps & C). apply ends_ret. exists ds, ps.
  assert (E : forall v, in_u32 v -> copied (hram h) parent 1048576 v = user_page (hram h) parent v).
  { intros v Hv. unfold copied. destruct (Z.ltb_spec (v / 4096) 1048576); [done|zlia]. }
  split; [apply C|apply C|apply C| | | |].
  - intros v pte Hv Hu. rewrite <- E in Hu by done.
    destruct (cl_page _ _ _ _ _ _ _ _ _ C v pte Hv Hu) as (np & ? & ? & ? & ?). by exists np.
  - intros v Hv Hu. rewrite <- E in Hu by done. by apply C.
  - intros v Hv Hu. rewrite <- E in Hu by done. by apply C.
  - intros v w x y Hv Hw Hne. rewrite <- !E by done. by apply (cl_inj _ _ _ _ _ _ _ _ _ C).
Qed.


(** ** Clearing a directory *)

Section Free.
Context (ds al : list blk) (m0 : ram) (kpd pd : Z).
Hypothesis (R0 : ram_ok m0) (D : dir_ok ds m0 pd) (Hk : owns al kpd (kpd + 4096)).

(** Entries below [d] that referred to a table are the kernel's; the others
    are as they were. *)
Definition cleared_pde (d j : Z) : Z :=
  if (j <? d) && negb (has (pde m0 pd j) PAGE_SIZE_4MB) then pde m0 kpd j else pde m0 pd j.

Record cleared (d : Z) (h : heap) : Prop := {
  fr_inv : heap_inv h (ds ++ al);
  fr_kept : kept al m0 (hram h);
  fr_pde : forall j, 0 <= j < 1024 -> pde (hram h) pd j = cleared_pde d j
}.

(** A store into a table keeps the directory. *)
Lemma cleared_table d h e t v :
  cleared d h -> 0 <= e < 1024 -> 0 <= t < 1024 -> has (pde m0 pd e) PAGE_SIZE_4MB = false ->
  cleared d (set_ram (st32 (frame (pde m0 pd e) + 4 * t) v (hram h)) h).
Proof.
  intros C He Ht Hb. destruct (dir_table _ _ _ D e He Hb) as [Ho Hne].
  set (f := frame (pde m0 pd e)) in *. pose proof (inv_ram _ _ (fr_inv _ _ C)) as Rm.
  assert (Hx : forall x, ~ (f <= x < f + 4096) ->
    ld8 (hram h) x = ld8 (st32 (f + 4 * t) v (hram h)) x)
    by (intros x Hx; by rewrite ld8_st32_other by lia).
  destruct (write_owned _ _ _ _ _ _ (fr_inv _ _ C) Ho (ram_ok_st32 _ _ _ Rm) Hx) as [Hi K].
  destruct (frame_page (pde m0 pd e) (ld32_range _ _ R0)) as [Ha _]. fold f in Ha.
  split; [done|by eapply kept_trans; [apply C|]|cbn].
  intros j Hj. rewrite <- (fr_pde _ _ C) by done. apply pde_same; [done|].
  intros x Hxx. apply Hx. destruct (pages_apart _ _ Ha (dir_align _ _ _ D) Hne); lia.
Qed.

(** The kernel's entry is stored over a table's. *)
Lemma cleared_entry d h :
  cleared d h -> 0 <= d < 1024 -> has (pde m0 pd d) PAGE_SIZE_4MB = false ->
  cleared (d + 1) (set_ram (st32 (pd + 4 * d) (ld32 (hram h) (kpd + 4 * d)) (hram h)) h).
Proof.
  intros C Hd Hb. pose proof (inv_ram _ _ (fr_inv _ _ C)) as Rm.
  assert (Ek : ld32 (hram h) (kpd + 4 * d) = pde m0 kpd d).
  { apply (pde_same m0); [done|]. eapply kept_owned; [apply C|exact Hk]. }
  rewrite Ek. set (m' := st32 _ _ _).
  assert (Hx : forall x, ~ (pd <= x < pd + 4096) -> ld8 (hram h) x = ld8 m' x)
    by (intros x Hx; unfold m'; by rewrite ld8_st32_other by lia).
  destruct (write_owned h ds al _ _ m' (fr_inv _ _ C) (dir_owned _ _ _ D)
    (ram_ok_st32 _ _ _ Rm) Hx) as [Hi K].
  split; [done|by eapply kept_trans; [apply C|]|cbn].
  intros j Hj. unfold m', cleared_pde. destruct (Z.eq_dec j d) as [->|Hne].
  - rewrite Hb. destruct (Z.ltb_spec d (d + 1)); [|lia]. apply ld32_st32_eq. by apply ld32_range.
  - unfold pde at 1. rewrite ld32_st32_other by lia. fold (pde (hram h) pd j).
    rewrite (fr_pde _ _ C) by done. unfold cleared_pde.
    destruct (Z.ltb_spec j d), (Z.ltb_spec j (d + 1)); lia || done.
Qed.

Lemma free_directory_law h :
  hram h = m0 -> heap_inv h (ds ++ al) -> pd <> 0 -> pd <> kpd ->
  ends (paging_free_directory kpd pd h) (fun _ h' => cleared 1024 h').
Proof.
  intros Hm Hi Hn0 Hnk. unfold paging_free_directory.
  destruct (Z.eqb_spec pd 0), (Z.eqb_spec pd kpd); [done..|]. cbn [orb].
  eapply ends_mono; [apply (ends_for cleared)|].
  - intros d h1 Hd C. unfold PAGE_DIRECTORY_ENTRIES in Hd. assert (Hd' : 0 <= d < 1024) by lia.
    apply ends_bind. cbn [gets ends]. fold (pde (hram h1) pd d). rewrite (fr_pde _ _ C) by done.
    assert (Ed : cleared_pde d d = pde m0 pd d).
    { unfold cleared_pde. destruct (Z.ltb_spec d d); [lia|done]. }
    rewrite Ed, (dir_present _ _ _ D d Hd'). cbn [negb orb].
    destruct (has (pde m0 pd d) PAGE_SIZE_4MB) eqn:Hb.
    + apply ends_ret. split; try apply C. intros j Hj. rewrite (fr_pde _ _ C) by done.
      unfold cleared_pde. destruct (Z.ltb_spec j d), (Z.ltb_spec j (d + 1)); try lia; try done.
      replace j with d by lia. by rewrite Hb.
    + eapply ends_seq; [apply (ends_for (fun _ => cleared d))|].
      * intros t h2 Ht C2. apply ends_bind. cbn [gets ends].
        set (pte := ld32 _ _). destruct (negb (has pte PAGE_PRESENT) || negb (has pte PAGE_USER)).
        -- by apply ends_ret.
        -- apply (cleared_table d h2 d t 0); [done|done|lia|done].
      * exact C.
      * cbv beta. intros [] h2 C2. exact (cleared_entry d h2 C2 Hd' Hb).
  - split; [done|rewrite Hm; by apply Forall_forall|]. intros j Hj. unfold cleared_pde.
    destruct (Z.ltb_spec j 0); [lia|]. by rewrite Hm.
  - by cbv beta; intros [] h1 C1.
Qed.

End Free.

(** ** The boot mapping *)

Lemma identity_entry_value i :
  0 <= i < 1024 -> identity_entry i = i * FOUR_MIB + 131.
Proof.
  intros Hi. unfold identity_entry, FOUR_MIB. rewrite u32_small by lia.
  fold (big_frame (i * 4194304)). rewrite big_frame_eq, Z.div_mul by lia.
  rewrite <- !Z.lor_assoc. apply (lor_add_disjoint _ _ 22); [lia|apply Z.mod_mul; lia|].
  change (Z.lor PAGE_PRESENT (Z.lor PAGE_WRITABLE PAGE_SIZE_4MB)) with 131. lia.
Qed.

Lemma big_entry_flags i :
  0 <= i < 1024 ->
  has (i * FOUR_MIB + 131) PAGE_PRESENT = true /\ has (i * FOUR_MIB + 131) PAGE_SIZE_4MB = true.
Proof.
  intros Hi. unfold has, FOUR_MIB. change 4194304 with (1024 * 4096). rewrite Z.mul_assoc.
  rewrite !flags_of_entry by (try apply Z.mod_mul; unfold PAGE_PRESENT, PAGE_SIZE_4MB; lia). done.
Qed.

Lemma has_top_bit x : negb (Z.land (Z.lor x 2147483648) 2147483648 =? 0) = true.
Proof.
  rewrite Z.land_lor_distr_l, Z.land_diag. case_z; [|done].
  apply Z.lor_eq_0_iff in e as [_ ?]. lia.
Qed.

Lemma paging_init_eq s : paging_init s =
  match alloc_aligned_page (mheap s) with
  | Ret p h => Ret tt (mkMmu (set_ram (fill_words PAGE_DIRECTORY_ENTRIES 0 p identity_entry (hram h)) h)
      p (Z.lor (cr0 s) 2147483648) p (Z.lor (cr4 s) 16))
  | Halted h => Halted (put_heap h s)
  | NoFuel => NoFuel
  end.
Proof.
  unfold paging_init, alloc_aligned_page, mbind, M_bind, zoom.
  destruct (malloc (PAGE_SIZE * 2) (mheap s)); done.
Qed.

Lemma init_law s al :
  heap_inv (mheap s) al ->
  ends (paging_init s) (fun _ s' => exists b,
    heap_inv (mheap s') (b :: al) /\ owns [b] (page_directory s') (page_directory s' + 4096)
    /\ page_directory s' mod 4096 = 0 /\ all_big (hram (mheap s')) (page_directory s')
    /\ cr3 s' = page_directory s' /\ paging_is_enabled s' = true /\ Z.testbit (cr4 s') 4 = true
    /\ kept al (hram (mheap s)) (hram (mheap s'))
    /\ forall v, in_u32 v -> translate (hram (mheap s')) (cr3 s') v = Some v).
Proof.
  intros Hi. rewrite paging_init_eq. pose proof (alloc_page_law _ _ Hi) as L.
  destruct (alloc_aligned_page (mheap s)) as [p h1|h1|]; [|done|done]. destruct L as (b & N).
  set (m' := fill_words PAGE_DIRECTORY_ENTRIES 0 p identity_entry (hram h1)).
  pose proof (inv_ram _ _ (np_inv _ _ _ _ _ N)) as R1.
  destruct (write_owned h1 [b] al p (p + 4096) m') as [Hi2 K2]; [apply N|apply N| | |].
  { by apply ram_ok_fill_words. }
  { intros x Hx. unfold m', PAGE_DIRECTORY_ENTRIES. by rewrite ld8_fill_words_other by lia. }
  assert (E : forall i, 0 <= i < 1024 -> pde m' p i = i * FOUR_MIB + 131).
  { intros i Hj. rewrite <- identity_entry_value by done. unfold pde, m'.
    apply ld32_fill_words; [unfold PAGE_DIRECTORY_ENTRIES; lia|].
    rewrite identity_entry_value by done. unfold FOUR_MIB. lia. }
  exists b. cbn [mheap page_directory cr3 cr4]. split; [done|]. split; [apply N|]. split; [apply N|].
  split; [intros i Hj; rewrite E by done; by apply big_entry_flags|]. split; [done|].
  split; [apply has_top_bit|]. split; [exact (eq_trans (Z.lor_spec (cr4 s) 16 4) (orb_true_r _))|].
  split; [eapply kept_trans; [apply N|exact K2]|].
  intros v Hv. pose proof (dir_index_range v Hv) as Hj. unfold translate. rewrite E by done.
  destruct (big_entry_flags _ Hj) as [-> ->]. cbn [negb].
  rewrite big_frame_eq by (unfold FOUR_MIB; lia). f_equal. rewrite dir_index_eq. unfold FOUR_MIB. zlia.
Qed.



End PagingLaws.

(** * Properties *)

Section Claims.
Context `{KernelHeap}.

(** C27: [paging_init] turns paging on with a directory under which every
    32-bit address translates to itself; it touches no block in use. *)
Theorem paging_init_identity s al :
  heap_inv (mheap s) al ->
  ends (paging_init s) (fun _ s' =>
    paging_is_enabled s' = true /\ Z.testbit (cr4 s') 4 = true
    /\ paging_get_directory s' = paging_get_kernel_directory s'
    /\ kept al (hram (mheap s)) (hram (mheap s'))
    /\ forall v, in_u32 v -> translate (hram (mheap s')) (paging_get_directory s') v = Some v).
Proof.
  intros Hi. eapply ends_mono; [by apply (init_law s al)|]. cbv beta.
  intros [] s' (b & _ & _ & _ & _ & E & H1 & H2 & K & T). auto.
Qed.

(** C5: [paging_map_page] maps exactly one page. After it [v]
    translates into the page of [p]; every address outside the page of [v]
    translates as before, also when a 4 MiB page had to be split; the
    directory stays well formed, its tables in memory of its own ([ds']), and
    no other block in use ([al]) changes. The alternative to returning is the
    allocator's out-of-memory halt. *)
Theorem paging_map_page_correct h ds al pd v p flags :
  heap_inv h (ds ++ al) -> dir_ok ds (hram h) pd -> in_u32 v -> in_u32 p -> 0 <= flags < 4096 ->
  ends (paging_map_page pd v p flags h) (fun _ h' => exists ds',
    heap_inv h' (ds' ++ al) /\ dir_ok ds' (hram h') pd /\ kept al (hram h) (hram h')
    /\ translate (hram h') pd v = Some (frame p + v mod PAGE_SIZE)
    /\ forall w, in_u32 w -> w / 4096 <> v / 4096 ->
         translate (hram h') pd w = translate (hram h) pd w).
Proof.
  intros. eapply ends_mono; [by apply (map_page_law h ds al)|]. cbv beta.
  intros [] h' (ds' & Mp). exists ds'. do 4 (split; [apply Mp|]).
  intros w Hw Hne. by apply (mp_others _ _ _ _ _ _ _ _ _ Mp).
Qed.

(** C4: [paging_clone_directory] gives the child an address space of its own.
    Every marked page of the parent is mapped in the new directory to a page in
    a new block with the parent's contents, different addresses to different
    pages; every other address translates as in the kernel's directory; and no
    byte of memory in use before the call (the parent's directory, tables and
    pages among it) changes. *)
Theorem paging_clone_isolates h al kpd parent :
  heap_inv h al -> owns al kpd (kpd + 4096) -> all_big (hram h) kpd ->
  dir_ok al (hram h) parent ->
  (forall v pte, in_u32 v -> user_page (hram h) parent v = Some pte ->
     owns al (frame pte) (frame pte + 4096)) ->
  ends (paging_clone_directory kpd parent h) (fun dir h' => exists ds ps,
    heap_inv h' (ds ++ ps ++ al) /\ dir_ok ds (hram h') dir /\ kept al (hram h) (hram h')
    /\ (forall v pte, in_u32 v -> user_page (hram h) parent v = Some pte -> exists np,
          translate (hram h') dir v = Some (np + v mod PAGE_SIZE) /\ owns ps np (np + 4096)
          /\ forall k, 0 <= k < 4096 -> ld8 (hram h') (np + k) = ld8 (hram h) (frame pte + k))
    /\ (forall v, in_u32 v -> user_page (hram h) parent v = None ->
          translate (hram h') dir v = translate (hram h) kpd v)
    /\ (forall v w a b, in_u32 v -> in_u32 w -> v / 4096 <> w / 4096 ->
          user_page (hram h) parent v <> None -> user_page (hram h) parent w <> None ->
          translate (hram h') dir v = Some a -> translate (hram h') dir w = Some b ->
          a / 4096 <> b / 4096)).
Proof.
  intros. eapply ends_mono; [by apply clone_directory_law|]. cbv beta.
  intros dir h' (ds & ps & C). exists ds, ps. do 3 (split; [apply C|]). split; [|split; [apply C|apply C]].
  intros v pte Hv Hu. destruct (cr_page _ _ _ _ _ _ _ _ C v pte Hv Hu) as (np & ? & _ & ? & ?). by exists np.
Qed.

(** [paging_free_directory] gives a task's directory the kernel's
    translation back: afterwards no address reaches one of its tables. Only
    memory of that directory ([ds]) is written, and nothing is released. *)
Theorem paging_free_directory_restores h ds al kpd pd :
  heap_inv h (ds ++ al) -> dir_ok ds (hram h) pd ->
  owns al kpd (kpd + 4096) -> all_big (hram h) kpd ->
  (forall v, in_u32 v -> user_page (hram h) pd v = None ->
     translate (hram h) pd v = translate (hram h) kpd v) ->
  ends (paging_free_directory kpd pd h) (fun _ h' =>
    heap_inv h' (ds ++ al) /\ kept al (hram h) (hram h') /\ all_big (hram h') pd
    /\ forall v, in_u32 v -> translate (hram h') pd v = translate (hram h) kpd v).
Proof.
  intros Hi D Ho B Hb. pose proof (inv_ram _ _ Hi) as Rm.
  destruct (owns_bounds _ _ _ _ Hi (owns_app_l ds al _ _ (dir_owned _ _ _ D))).
  eapply ends_mono; [apply (free_directory_law ds al (hram h) kpd pd); try done; [lia|]|].
  - destruct (owns_disjoint _ _ _ _ _ _ _ Hi (dir_owned _ _ _ D) Ho); lia.
  - cbv beta. intros [] h' C. split; [apply C|]. split; [apply C|].
    assert (E : forall i, 0 <= i < 1024 -> pde (hram h') pd i =
        if has (pde (hram h) pd i) PAGE_SIZE_4MB then pde (hram h) pd i else pde (hram h) kpd i).
    { intros i Hj. rewrite (fr_pde _ _ _ _ _ _ _ C) by done. unfold cleared_pde.
      destruct (Z.ltb_spec i 1024); [|lia]. by destruct (has (pde (hram h) pd i) PAGE_SIZE_4MB). }
    split.
    + intros i Hj. rewrite E by done. destruct (has (pde (hram h) pd i) PAGE_SIZE_4MB) eqn:Eb.
      * split; [by apply D|done].
      * by apply B.
    + intros v Hv. pose proof (dir_index_range v Hv) as Hj.
      destruct (has (pde (hram h) pd (dir_index v)) PAGE_SIZE_4MB) eqn:Eb.
      * rewrite <- Hb by (done || (unfold user_page; by rewrite Eb, orb_true_r)).
        apply same_walk_results. split; [by rewrite E, Eb|by rewrite Eb].
      * unfold translate. rewrite E, Eb by done. by destruct (B _ Hj) as [-> ->].
Qed.

End Claims.

(** * A concrete machine, for the witnesses *)

Definition demo_mmu : mmu := mkMmu (mkHeap 1048576 16777216 1048576 0 ∅) 0 17 0 0.

Lemma demo_mmu_inv : heap_inv (mheap demo_mmu) [].
Proof.
  split; [simpl; lia|]. exists []. split; [|constructor].
  split; simpl; try lia; try constructor; try done.
Qed.

(** Boot, create a directory, allocate a page and map it at 4 MiB as a marked,
    writable page. *)
Definition demo_task : res heap (Z * Z) :=
  match paging_init demo_mmu with
  | Ret _ s =>
      (dir ← paging_create_directory (page_directory s);
       pg ← alloc_aligned_page;
       paging_map_page dir 4194304 pg 6 ;;
       mret (page_directory s, dir)) (mheap s)
  | Halted s => Halted (mheap s)
  | NoFuel => NoFuel
  end.

Example demo_task_translates :
  match demo_task with
  | Ret (_, dir) h =>
      (translate (hram h) dir 4198400, translate (hram h) dir 4194405,
       user_page (hram h) dir 4194304, user_page (hram h) dir 4198400)
  | _ => (None, None, None, None)
  end = (Some 4198400, Some 1069157, Some 1069063, None).
Proof. vm_compute. reflexivity. Qed.

Definition demo_space (kb : blk) (ds : list blk) (pb : blk) (kpd dir : Z) (h : heap) : Prop :=
  heap_inv h (ds ++ [pb; kb]) /\ dir_ok ds (hram h) dir /\ owns [pb; kb] kpd (kpd + 4096)
  /\ all_big (hram h) kpd
  /\ (forall v pte, in_u32 v -> user_page (hram h) dir v = Some pte ->
       owns [pb; kb] (frame pte) (frame pte + 4096))
  /\ (forall v, in_u32 v -> user_page (hram h) dir v = None ->
       translate (hram h) dir v = translate (hram h) kpd v).

Lemma all_big_kept al m m' pd :
  owns al pd (pd + 4096) -> kept al m m' -> all_big m pd -> all_big m' pd.
Proof.
  intros Ho K B i Hi. rewrite (pde_same m m'); [by apply B|done|]. by eapply kept_owned.
Qed.

Lemma demo_task_law :
  ends demo_task (fun '(kpd, dir) h => exists kb ds pb, demo_space kb ds pb kpd dir h).
Proof.
  unfold demo_task. pose proof (init_law demo_mmu [] demo_mmu_inv) as L.
  destruct (paging_init demo_mmu) as [[] s|s|]; [|done|done].
  destruct L as (kb & Hi & Ho & _ & B & _). set (kpd := page_directory s) in *.
  eapply ends_seq; [by apply (create_directory_law _ [kb])|]. cbv beta.
  intros dir h1 (db & Hi1 & D1 & K1 & B1 & _ & _ & T1).
  eapply ends_seq; [by apply (alloc_page_law h1 [db; kb])|]. cbv beta.
  intros pg h2 (pb & N). pose proof (np_kept _ _ _ _ _ N) as K2.
  apply (kept_app [db] [kb]) in K2 as [K2d K2k].
  assert (D2 : dir_ok [db] (hram h2) dir).
  { eapply dir_ok_same; [exact D1| |done]. eapply kept_owned; [exact K2d|apply D1]. }
  assert (Ho2 : owns [pb; kb] kpd (kpd + 4096)) by (by apply (owns_app_r [pb])).
  eapply ends_seq; [apply (map_page_law h2 [db] [pb; kb])|].
  - eapply inv_perm; [apply N|]. apply perm_swap.
  - exact D2.
  - lia.
  - pose proof (np_u32 _ _ _ _ _ N). lia.
  - lia.
  - cbv beta. intros [] h3 (ds' & Mp). apply ends_ret. exists kb, ds', pb.
    split; [apply Mp|]. split; [apply Mp|]. split; [done|].
    pose proof (mp_kept _ _ _ _ _ _ _ _ _ Mp) as K3. apply (kept_app [pb] [kb]) in K3 as [_ K3k].
    split; [apply (all_big_kept [kb] (hram (mheap s))); [done|by eauto using kept_trans|exact B]|].
    pose proof (np_u32 _ _ _ _ _ N). pose proof (np_aligned _ _ _ _ _ N).
    pose proof (mp_user _ _ _ _ _ _ _ _ _ Mp) as U. change (has 6 PAGE_USER) with true in U.
    assert (B2 : all_big (hram h2) dir) by (eapply (all_big_kept [db]); [apply D1|done|done]).
    assert (Kk : kept [kb] (hram (mheap s)) (hram h3)) by eauto using kept_trans.
    split; intros v; [intros pte|]; intros Hv Hu;
      (destruct (Z.eq_dec (v / 4096) (4194304 / 4096)) as [E|Hne];
        [rewrite (user_page_page _ _ v 4194304), U in Hu by done; try discriminate|
         destruct (mp_others _ _ _ _ _ _ _ _ _ Mp v Hv Hne) as [T E]]).
    + injection Hu as <-. change (Z.lor 6 1) with 7.
      rewrite (frame_self pg), frame_aligned by lia. apply (owns_app_l [pb] [kb]), N.
    + rewrite E in Hu. unfold user_page in Hu. destruct (B2 _ (dir_index_range v Hv)) as [_ Hb2].
      by rewrite Hb2, orb_true_r in Hu.
    + rewrite T. transitivity (translate (hram (mheap s)) kpd v).
      * rewrite <- T1 by done. apply translate_big; [done|done|]. intros i Hi'.
        apply pde_same; [done|]. eapply kept_owned; [exact K2d|apply D1].
      * symmetry. apply translate_big; [done|done|]. intros i Hi'.
        apply pde_same; [done|]. by eapply kept_owned.
Qed.

Lemma demo_space_exists : exists kb ds pb kpd dir h,
  demo_space kb ds pb kpd dir h.
Proof.
  assert (E : match demo_task with Ret _ _ => true | _ => false end = true)
    by (vm_compute; reflexivity).
  pose proof demo_task_law as L. destruct demo_task as [[kpd dir] h|h|]; [|done|done].
  destruct L as (kb & ds & pb & L). by exists kb, ds, pb, kpd, dir, h.
Qed.

Lemma paging_init_identity_witness :
  heap_inv (mheap demo_mmu) [] /\
  ends (paging_init demo_mmu) (fun _ s' =>
    paging_is_enabled s' = true /\ Z.testbit (cr4 s') 4 = true
    /\ paging_get_directory s' = paging_get_kernel_directory s'
    /\ kept [] (hram (mheap demo_mmu)) (hram (mheap s'))
    /\ forall v, in_u32 v -> translate (hram (mheap s')) (paging_get_directory s') v = Some v).
Proof. split; [apply demo_mmu_inv|]. apply (paging_init_identity demo_mmu []), demo_mmu_inv. Defined.

Lemma paging_map_page_correct_witness :
  exists h ds al pd, heap_inv h (ds ++ al) /\ dir_ok ds (hram h) pd /\
  ends (paging_map_page pd 4198405 8388608 2 h) (fun _ h' => exists ds',
    heap_inv h' (ds' ++ al) /\ dir_ok ds' (hram h') pd /\ kept al (hram h) (hram h')
    /\ translate (hram h') pd 4198405 = Some (frame 8388608 + 4198405 mod PAGE_SIZE)
    /\ forall w, in_u32 w -> w / 4096 <> 4198405 / 4096 ->
         translate (hram h') pd w = translate (hram h) pd w).
Proof.
  destruct demo_space_exists as (kb & ds & pb & kpd & dir & h & Hi & D & _).
  exists h, ds, [pb; kb], dir. split; [done|]. split; [done|].
  apply (paging_map_page_correct h ds [pb; kb] dir); try done; lia.
Defined.

Lemma paging_clone_isolates_witness :
  exists h al kpd parent, heap_inv h al /\ dir_ok al (hram h) parent /\
  ends (paging_clone_directory kpd parent h) (fun dir h' => exists ds ps,
    heap_inv h' (ds ++ ps ++ al) /\ dir_ok ds (hram h') dir /\ kept al (hram h) (hram h')).
Proof.
  destruct demo_space_exists as (kb & ds & pb & kpd & dir & h & Hi & D & Ho & B & U & T).
  assert (D' : dir_ok (ds ++ [pb; kb]) (hram h) dir).
  { eapply dir_ok_same; [exact D|done|]. intros. by apply owns_app_l. }
  exists h, (ds ++ [pb; kb]), kpd, dir. split; [done|]. split; [done|].
  eapply ends_mono; [apply (paging_clone_isolates h (ds ++ [pb; kb]) kpd dir); try done|].
  - by apply owns_app_r.
  - intros v pte Hv Hu. apply owns_app_r. by apply (U v).
  - cbv beta. intros d h' (ds' & ps & ? & ? & ? & _). by exists ds', ps.
Defined.

Lemma paging_free_directory_restores_witness :
  exists h ds al kpd pd, heap_inv h (ds ++ al) /\ dir_ok ds (hram h) pd /\
  ends (paging_free_directory kpd pd h) (fun _ h' =>
    heap_inv h' (ds ++ al) /\ kept al (hram h) (hram h') /\ all_big (hram h') pd
    /\ forall v, in_u32 v -> translate (hram h') pd v = translate (hram h) kpd v).
Proof.
  destruct demo_space_exists as (kb & ds & pb & kpd & dir & h & Hi & D & Ho & B & U & T).
  exists h, ds, [pb; kb], kpd, dir. split; [done|]. split; [done|].
  by apply (paging_free_directory_restores h ds [pb; kb] kpd dir).
Defined.
