(* ===== verification/Utils.v ===== *)
(** String, byte-order and BCD helpers of stage2/utils.c and inc/utils.h.

    A C string is the list of the bytes of its array; reading past the end of
    the list gives the terminating 0. *)
From S2P Require Import Prelude.

Definition char_at (s : list Z) (i : nat) : Z := default 0 (s !! i).

(** * Strings *)

(** The loop of [strncmp] from index [i], with [n] characters left. *)
Fixpoint strncmp_from (a b : list Z) (i n : nat) : bool :=
  match n with
  | O => true
  | S n' => if negb (char_at a i =? char_at b i) then false else strncmp_from a b (S i) n'
  end.
Definition strncmp (a b : list Z) (n : nat) : bool := strncmp_from a b 0 n.

Fixpoint strlen (s : list Z) : nat :=
  match s with
  | [] => 0
  | c :: s' => if c =? 0 then 0%nat else S (strlen s')
  end.

(** The macro [strcmp(a, b)]. *)
Definition strcmp (a b : list Z) : bool := strncmp a b (strlen a).

Definition tolower (c : Z) : Z := if (65 <=? c) && (c <=? 90) then c + (97 - 65) else c.

(** The loop of [strcasecmp] on two non-null pointers. *)
Fixpoint strcasecmp_loop (s1 s2 : list Z) : Z :=
  match s1, s2 with
  | a :: s1', b :: s2' =>
      if negb (a =? 0) && negb (b =? 0) then
        let c1 := u8 (tolower (u8 a)) in
        let c2 := u8 (tolower (u8 b)) in
        if negb (c1 =? c2) then c1 - c2 else strcasecmp_loop s1' s2'
      else u8 a - u8 b
  | a :: _, [] => u8 a - 0
  | [], b :: _ => 0 - u8 b
  | [], [] => 0
  end.

(** Null pointers are [None]. *)
Definition strcasecmp (s1 s2 : option (list Z)) : Z :=
  match s1, s2 with
  | Some a, Some b => strcasecmp_loop a b
  | None, None => 0
  | Some _, None => 1
  | None, Some _ => -1
  end.

(** * Byte order and BCD *)

Definition htons (x : Z) : Z := Z.lor (Z.shiftl (Z.land x 255) 8) (Z.shiftr x 8).
Definition htonl (x : Z) : Z :=
  Z.lor (Z.lor (Z.lor (u32 (Z.shiftl (Z.land (u32 x) 255) 24))
                      (Z.shiftl (Z.land (u32 x) 65280) 8))
               (Z.shiftr (Z.land (u32 x) 16711680) 8))
        (Z.shiftr (Z.land (u32 x) 4278190080) 24).

Definition bcd_to_bin (val : Z) : Z := u8 (Z.land val 15 + val / 16 * 10).

(** * What they compute *)

(** A string: bytes without a 0. *)
Definition cstring (s : list Z) : Prop := Forall (fun c => 0 < c < 256) s.

Lemma strlen_cstring s : cstring s -> strlen s = length s.
Proof.
  induction 1 as [|c s Hc Hs IH]; [done|]. simpl. destruct (Z.eqb_spec c 0); [lia|]. by rewrite IH.
Qed.

Lemma strncmp_from_spec a b n : forall i,
  strncmp_from a b i n = true <->
  (forall j, (i <= j < i + n)%nat -> char_at a j = char_at b j).
Proof.
  induction n as [|n IH]; intros i; simpl.
  - split; [intros _ j Hj; lia|done].
  - destruct (Z.eqb_spec (char_at a i) (char_at b i)) as [E|E]; simpl.
    + rewrite IH. split; intros H j Hj; [|apply H; lia].
      destruct (Nat.eq_dec j i) as [->|]; [done|]. apply H. lia.
    + split; [done|]. intros H. exfalso. apply E, H. lia.
Qed.

(** The kernel's [strcmp] is a prefix test, not equality. *)
Lemma strcmp_prefix a b : cstring a -> cstring b -> strcmp a b = true <-> a `prefix_of` b.
Proof.
  intros Ha Hb. unfold strcmp, strncmp. rewrite strncmp_from_spec, strlen_cstring by done. split.
  - intros H. exists (drop (length a) b). rewrite <- (take_drop (length a) b) at 1. f_equal.
    apply list_eq. intros i. destruct (Nat.lt_ge_cases i (length a)) as [Hi|Hi].
    + rewrite lookup_take_lt by lia. specialize (H i ltac:(lia)). unfold char_at in H.
      destruct (lookup_lt_is_Some_2 a i Hi) as [x Hx]. rewrite Hx in H |- *. simpl in H.
      pose proof (Forall_lookup_1 _ _ _ _ Ha Hx) as Hpos. simpl in Hpos.
      destruct (b !! i); simpl in H; [by subst|lia].
    + rewrite lookup_take_ge by lia. symmetry. by apply lookup_ge_None_2.
  - intros [k ->] j Hj. unfold char_at. by rewrite lookup_app_l by lia.
Qed.

Lemma tolower_range c : in_u8 c -> in_u8 (tolower c).
Proof. intros. unfold tolower. repeat case_z; simpl; lia. Qed.

Lemma strcasecmp_loop_eq a b :
  cstring a -> cstring b ->
  strcasecmp_loop a b = 0 <-> map tolower a = map tolower b.
Proof.
  intros Ha. revert b. induction Ha as [|x a Hx Ha IH]; intros [|y b] Hb; simpl.
  - done.
  - inversion Hb; subst. rewrite u8_small by lia. split; [lia|done].
  - rewrite u8_small by lia. split; [lia|done].
  - inversion Hb; subst. destruct (Z.eqb_spec x 0), (Z.eqb_spec y 0); try lia. simpl.
    rewrite !(u8_small x), !(u8_small y) by lia.
    rewrite !(u8_small (tolower _)) by (apply tolower_range; lia).
    destruct (Z.eqb_spec (tolower x) (tolower y)) as [E|E]; simpl.
    + rewrite IH by done. rewrite E. split; [by intros ->|by intros [= ->]].
    + split; [lia|]. by intros [= ? ?].
Qed.

(** Swapping the bytes of a 16-bit value. *)
Lemma htons_val x : 0 <= x -> htons x = (x mod 256) * 256 + x / 256 \/ 65536 <= x.
Proof.
  intros Hx. destruct (Z.ltb_spec x 65536); [left|by right]. unfold htons.
  change 255 with (Z.ones 8). rewrite Z.land_ones, Z.shiftl_mul_pow2, Z.shiftr_div_pow2 by lia.
  change (2 ^ 8) with 256. apply (lor_add_disjoint _ _ 8); [lia|apply Z.mod_mul; lia|].
  change (2 ^ 8) with 256. split; [apply Z.div_pos; lia|apply Z.div_lt_upper_bound; lia].
Qed.

Lemma htons_spec x : in_u16 x -> htons x = (x mod 256) * 256 + x / 256.
Proof. intros Hx. destruct (htons_val x); lia. Qed.

Lemma htons_range x : in_u16 x -> in_u16 (htons x).
Proof. intros Hx. rewrite htons_spec by done. zlia. Qed.

Lemma htons_involutive x : in_u16 x -> htons (htons x) = x.
Proof. intros Hx. rewrite (htons_spec (htons x)), htons_spec by (done || by apply htons_range). zlia. Qed.

Lemma bcd_to_bin_spec tens ones :
  0 <= tens <= 9 -> 0 <= ones <= 9 -> bcd_to_bin (tens * 16 + ones) = 10 * tens + ones.
Proof.
  intros. unfold bcd_to_bin. change 15 with (Z.ones 4). rewrite Z.land_ones by lia.
  change (2 ^ 4) with 16. rewrite u8_small by zlia. zlia.
Qed.
