(* ===== verification/Checksum.v ===== *)
(** The Internet checksum: [ipv4_checksum] of stage2/net/ipv4.c and
    [udp_checksum] of stage2/net/udp.c, against the one's-complement sum. *)
From S2P Require Import Prelude Utils.

(** * The code *)

(** [while (len > 1) ...] and the odd last byte: the 32-bit accumulator. *)
Fixpoint sum_words (bytes : list Z) (sum : Z) : Z :=
  match bytes with
  | b0 :: b1 :: rest => sum_words rest (u32 (sum + Z.lor (Z.shiftl b0 8) b1))
  | [b0] => u32 (sum + Z.shiftl b0 8)
  | [] => sum
  end.

(** [while ((sum >> 16) != 0) sum = (sum & 0xFFFF) + (sum >> 16)]. *)
Fixpoint fold_carries (fuel : nat) (sum : Z) : Z :=
  match fuel with
  | O => sum
  | S f => if Z.shiftr sum 16 =? 0 then sum
           else fold_carries f (u32 (Z.land sum 65535 + Z.shiftr sum 16))
  end.

(** A 32-bit accumulator is folded after two rounds ([fold_carries_done]). *)
Definition fold_fuel : nat := 2.

Definition ipv4_checksum (data : list Z) : Z :=
  u16 (Z.lnot (fold_carries fold_fuel (sum_words data 0))).

Definition udp_checksum (src_ip dst_ip segment : list Z) : Z :=
  let at4 (l : list Z) i := char_at l i in
  let word (l : list Z) i := Z.lor (Z.shiftl (at4 l i) 8) (at4 l (S i)) in
  let sum := u32 (0 + word src_ip 0%nat) in
  let sum := u32 (sum + word src_ip 2%nat) in
  let sum := u32 (sum + word dst_ip 0%nat) in
  let sum := u32 (sum + word dst_ip 2%nat) in
  let sum := u32 (sum + 17) in
  let sum := u32 (sum + Z.of_nat (length segment)) in
  u16 (Z.lnot (fold_carries fold_fuel (sum_words segment sum))).

Definition udp_checksum_valid (src_ip dst_ip segment : list Z) : bool :=
  udp_checksum src_ip dst_ip segment =? 0.

(** * The reference *)

Abbreviation bytes_ok l := (Forall (fun b => 0 <= b < 256) l).

(** The sum of the big-endian 16-bit words, the last odd byte padded with 0. *)
Fixpoint total (bytes : list Z) : Z :=
  match bytes with
  | b0 :: b1 :: rest => b0 * 256 + b1 + total rest
  | [b0] => b0 * 256
  | [] => 0
  end.

(** One's-complement value of a sum: 0 only for 0, otherwise the residue
    modulo 65535 in 1..65535. *)
Definition ones (t : Z) : Z := if t =? 0 then 0 else (t - 1) mod 65535 + 1.

Lemma pairs_ind (P : list Z -> Prop) :
  P [] -> (forall x, P [x]) -> (forall x y l, P l -> P (x :: y :: l)) -> forall l, P l.
Proof.
  intros H0 H1 H2 l. enough (P l /\ forall x, P (x :: l)) by tauto.
  induction l as [|a l [IH1 IH2]]; [auto|]. split; auto.
Qed.

Lemma word_val b0 b1 : in_u8 b0 -> in_u8 b1 -> Z.lor (Z.shiftl b0 8) b1 = b0 * 256 + b1.
Proof.
  intros H0 H1. rewrite Z.shiftl_mul_pow2 by lia. change (2 ^ 8) with 256.
  apply (lor_add_disjoint _ _ 8); [lia|apply Z.mod_mul; lia|]. change (2 ^ 8) with 256. lia.
Qed.

Lemma total_bounds l :
  bytes_ok l -> 0 <= total l <= 65535 * ((Z.of_nat (length l) + 1) / 2).
Proof.
  induction l as [|x|x y l IH] using pairs_ind; intros H; simpl total.
  - change ((Z.of_nat (length (@nil Z)) + 1) / 2) with 0. lia.
  - rewrite Forall_cons in H. destruct H as [Hx _]. cbn [length].
    change ((Z.of_nat 1 + 1) / 2) with 1. lia.
  - rewrite !Forall_cons in H. destruct H as (Hx & Hy & Hl). specialize (IH Hl).
    simpl length. replace ((Z.of_nat (S (S (length l))) + 1) / 2) with ((Z.of_nat (length l) + 1) / 2 + 1)
      by zlia. lia.
Qed.

Lemma sum_words_total l : forall s,
  bytes_ok l -> 0 <= s -> s + total l < 4294967296 -> sum_words l s = s + total l.
Proof.
  induction l as [|x|x y l IH] using pairs_ind; intros s H Hs Hb; simpl sum_words; simpl total in *.
  - lia.
  - rewrite Forall_cons in H. destruct H as [Hx _]. rewrite Z.shiftl_mul_pow2 by lia. change (2 ^ 8) with 256. apply u32_small. lia.
  - rewrite !Forall_cons in H. destruct H as (Hx & Hy & Hl).
    pose proof (total_bounds l Hl). rewrite word_val, u32_small, IH by (done || lia). lia.
Qed.

(** Two rounds fold any 32-bit accumulator, and the loop has ended then. *)
Lemma fold_carries_done s n :
  0 <= s < 4294967296 -> (2 <= n)%nat ->
  fold_carries n s = ones s /\ Z.shiftr (fold_carries n s) 16 = 0.
Proof.
  intros Hs Hn.
  assert (Hstop : forall n s, 0 <= s < 65536 -> fold_carries n s = s).
  { intros [|k] t Ht; cbn [fold_carries]; [done|]. rewrite Z.shiftr_div_pow2, Z.div_small by lia. done. }
  assert (Hstep : forall n s, 65536 <= s < 4294967296 ->
            fold_carries (S n) s = fold_carries n (s mod 65536 + s / 65536)).
  { intros k t Ht. cbn [fold_carries]. rewrite Z.shiftr_div_pow2 by lia. change (2 ^ 16) with 65536.
    change 65535 with (Z.ones 16). rewrite Z.land_ones by lia. change (2 ^ 16) with 65536.
    rewrite u32_small by zlia. destruct (Z.eqb_spec (t / 65536) 0); [zlia|done]. }
  assert (Hr : fold_carries n s = ones s /\ 0 <= fold_carries n s < 65536).
  { destruct n as [|[|n]]; [lia|lia|]. unfold ones. destruct (Z.ltb_spec s 65536).
    - rewrite Hstop by lia. destruct (Z.eqb_spec s 0); [lia|]. rewrite Z.mod_small; lia.
    - rewrite Hstep by lia. set (t := s mod 65536 + s / 65536).
      assert (Ht : 1 <= t <= 131070 /\ (s - 1) mod 65535 = (t - 1) mod 65535).
      { subst t. split; [zlia|]. replace (s - 1) with (s mod 65536 + s / 65536 - 1 + s / 65536 * 65535) by zlia.
        by rewrite Z.mod_add by lia. }
      destruct Ht as [Ht ->]. destruct (Z.ltb_spec t 65536).
      + rewrite Hstop by lia. destruct (Z.eqb_spec s 0); [lia|]. rewrite Z.mod_small; lia.
      + rewrite Hstep by lia. destruct (Z.eqb_spec s 0); [lia|].
        assert (E : t mod 65536 + t / 65536 = t - 65535) by zlia. rewrite E, Hstop by lia.
        replace (t - 1) with (t - 65536 + 1 * 65535) by lia. rewrite Z.mod_add, Z.mod_small by lia. lia. }
  destruct Hr as [Hr Hb]. split; [done|]. rewrite Z.shiftr_div_pow2 by lia.
  apply Z.div_small. change (2 ^ 16) with 65536. lia.
Qed.

#[global] Arguments fold_carries : simpl never.

Lemma ones_range t : 0 <= t -> 0 <= ones t <= 65535.
Proof. intros. unfold ones. case_z; [lia|]. pose proof (Z.mod_pos_bound (t - 1) 65535). lia. Qed.

Lemma lnot_u16 x : 0 <= x <= 65535 -> u16 (Z.lnot x) = 65535 - x.
Proof.
  intros. unfold u16, Z.lnot, Z.pred. replace (- x + -1) with (65535 - x + -1 * 65536) by lia.
  rewrite Z.mod_add, Z.mod_small by lia. lia.
Qed.

(** Adding the complement of a sum gives 0xFFFF: the receiver's test. *)
Lemma ones_complement t : 0 <= t -> ones (t + (65535 - ones t)) = 65535.
Proof.
  intros Ht. pose proof (ones_range t Ht). unfold ones at 1.
  assert (E : (t + (65535 - ones t)) mod 65535 = 0).
  { unfold ones. destruct (Z.eqb_spec t 0) as [->|]; [done|].
    pose proof (Z.div_mod (t - 1) 65535 ltac:(lia)) as D.
    replace (t + _) with ((1 + (t - 1) / 65535) * 65535) by lia. apply Z.mod_mul. lia. }
  assert (0 < t + (65535 - ones t)).
  { unfold ones in *. destruct (Z.eqb_spec t 0); lia. }
  destruct (Z.eqb_spec (t + (65535 - ones t)) 0); [lia|].
  apply Z.mod_divide in E as [k E]; [|lia]. rewrite E.
  replace (k * 65535 - 1) with (65534 + (k - 1) * 65535) by lia.
  rewrite Z.mod_add, Z.mod_small by lia. lia.
Qed.

Lemma ones_add_ffff t : 0 < t -> ones (t + 65535) = ones t.
Proof.
  intros Ht. unfold ones. repeat case_z; try lia.
  replace (t + 65535 - 1) with (t - 1 + 1 * 65535) by lia. by rewrite Z.mod_add by lia.
Qed.

Lemma total_app a b : Nat.Even (length a) -> total (a ++ b) = total a + total b.
Proof.
  induction a as [|x|x y a IH] using pairs_ind; intros He; simpl.
  - done.
  - destruct He as [k Hk]. simpl in Hk. lia.
  - rewrite IH; [lia|]. destruct He as [k Hk]. simpl in Hk. exists (k - 1)%nat. lia.
Qed.

(** No message of at most 65535 bytes overflows the accumulator. *)
Lemma total_small l : bytes_ok l -> (Z.of_nat (length l) <= 65535) -> total l <= 2147450880.
Proof.
  intros H Hl. pose proof (total_bounds l H).
  assert ((Z.of_nat (length l) + 1) / 2 <= 32768) by zlia. lia.
Qed.

Lemma ipv4_checksum_val l :
  bytes_ok l -> Z.of_nat (length l) <= 65535 -> ipv4_checksum l = 65535 - ones (total l).
Proof.
  intros H Hl. pose proof (total_small l H Hl). pose proof (total_bounds l H) as [? _].
  unfold ipv4_checksum. rewrite sum_words_total by (done || lia).
  rewrite (proj1 (fold_carries_done (0 + total l) fold_fuel ltac:(lia) (le_n 2))).
  apply lnot_u16, ones_range. lia.
Qed.

(** The pseudo-header of a UDP segment of [n] bytes. *)
Definition pseudo (src_ip dst_ip : list Z) (n : Z) : Z :=
  total (take 4 src_ip) + total (take 4 dst_ip) + 17 + n.

Lemma udp_checksum_val src_ip dst_ip seg :
  bytes_ok src_ip -> bytes_ok dst_ip -> bytes_ok seg ->
  length src_ip = 4%nat -> length dst_ip = 4%nat -> Z.of_nat (length seg) <= 65535 ->
  udp_checksum src_ip dst_ip seg
  = 65535 - ones (pseudo src_ip dst_ip (Z.of_nat (length seg)) + total seg).
Proof.
  intros Hs Hd Hb Ls Ld Hl.
  destruct src_ip as [|s0 [|s1 [|s2 [|s3 [|? ?]]]]]; try discriminate.
  destruct dst_ip as [|d0 [|d1 [|d2 [|d3 [|? ?]]]]]; try discriminate.
  rewrite !Forall_cons in Hs, Hd. destruct Hs as (? & ? & ? & ? & _), Hd as (? & ? & ? & ? & _).
  pose proof (total_small seg Hb Hl). pose proof (total_bounds seg Hb) as [? _].
  unfold udp_checksum, pseudo, char_at. simpl. rewrite !word_val by lia.
  usimp. rewrite sum_words_total by (done || lia).
  match goal with |- context [fold_carries _ ?s] =>
    rewrite (proj1 (fold_carries_done s fold_fuel ltac:(lia) (le_n 2))) end.
  rewrite lnot_u16 by (apply ones_range; lia). do 2 f_equal. lia.
Qed.

(** * Properties *)

(** C33: [ipv4_checksum] is the complement of the one's-complement sum of the
    big-endian 16-bit words, for messages of up to 65535 bytes; the
    carry-folding loop ends. *)
Theorem ipv4_checksum_correct l :
  bytes_ok l -> Z.of_nat (length l) <= 65535 ->
  ipv4_checksum l = 65535 - ones (total l)
  /\ Z.shiftr (fold_carries fold_fuel (sum_words l 0)) 16 = 0.
Proof.
  intros H Hl. split; [by apply ipv4_checksum_val|].
  pose proof (total_small l H Hl). pose proof (total_bounds l H) as [? _].
  rewrite sum_words_total by (done || lia). apply fold_carries_done; [lia|apply le_n].
Qed.

Lemma ipv4_checksum_correct_witness :
  ipv4_checksum [69; 0; 0; 60; 28; 70; 64; 0; 64; 6; 0; 0; 172; 16; 10; 99; 172; 16; 10; 12]
  = 65535 - ones (total [69; 0; 0; 60; 28; 70; 64; 0; 64; 6; 0; 0; 172; 16; 10; 99; 172; 16; 10; 12]).
Proof. apply (ipv4_checksum_correct [69; 0; 0; 60; 28; 70; 64; 0; 64; 6; 0; 0; 172; 16; 10; 99; 172; 16; 10; 12]); [repeat constructor; lia|simpl; lia]. Defined.

Example ipv4_checksum_example :
  ipv4_checksum [69; 0; 0; 60; 28; 70; 64; 0; 64; 6; 0; 0; 172; 16; 10; 99; 172; 16; 10; 12] = 45542.
Proof. reflexivity. Qed.
