(* ===== verification/Net.v ===== *)
(** The network stack of stage2/net: Ethernet, ARP, IPv4, ICMP, UDP and sockets.

    A packet is the list of its bytes; a packed C struct is the concatenation of
    its fields in order, 16-bit fields in memory being little-endian, so that
    [htons] and [ntohs] are written where the source writes them. The adapter is
    an instance of [Nic]; frames being built live in a scratch list instead of a
    [kmalloc] block. A datagram queue is the memory of its
    [udp_user_server_t], because datagrams are copied into it without a bound.
    Tasks made runnable by [scheduler_wake] are recorded in [woken]. *)
From S2P Require Import Prelude Utils Checksum.

(** ** Packed structs as bytes *)

Definition le16 (v : Z) : list Z := [v mod 256; v / 256 mod 256].
Definition f16 (bs : list Z) (i : nat) : Z := char_at bs i + 256 * char_at bs (S i).
Definition slice (off n : nat) (bs : list Z) : list Z := take n (drop off bs).
(** A frame buffer of at least [n] bytes, cleared before the fields are set. *)
Definition pad_to (n : nat) (bs : list Z) : list Z := bs ++ replicate (n - length bs) 0.

Definition ld16 (m : ram) (a : Z) : Z := ld8 m a + 256 * ld8 m (a + 1).
Definition st16 (a v : Z) (m : ram) : ram := st8 (a + 1) (Z.shiftr v 8) (st8 a v m).

Definition sizeof_eth_hdr : nat := 14.
Definition sizeof_arp_pkt : nat := 28.
Definition sizeof_ipv4_hdr : nat := 20.
Definition sizeof_udp_hdr : nat := 8.
Definition sizeof_icmp_echo_hdr : nat := 8.
Definition sizeof_sockaddr_in : Z := 16.
Definition IPV4_PROTOCOL_ICMP : Z := 1.
Definition IPV4_PROTOCOL_UDP : Z := 17.
Definition ICMP_ECHO_REPLY : Z := 0.
Definition ICMP_ECHO_REQUEST : Z := 8.

Record eth_hdr := mkEth { eth_dst : list Z; eth_src : list Z; eth_type : Z }.
Definition eth_bytes (e : eth_hdr) : list Z := eth_dst e ++ eth_src e ++ le16 (eth_type e).
Definition eth_of (bs : list Z) : eth_hdr := mkEth (slice 0 6 bs) (slice 6 6 bs) (f16 bs 12).

Record arp_pkt := mkArp {
  htype : Z; ptype : Z; hlen : Z; plen : Z; opcode : Z;
  sender_mac : list Z; sender_ip : list Z; target_mac : list Z; target_ip : list Z
}.
Definition arp_bytes (p : arp_pkt) : list Z :=
  le16 (htype p) ++ le16 (ptype p) ++ [hlen p; plen p] ++ le16 (opcode p)
  ++ sender_mac p ++ sender_ip p ++ target_mac p ++ target_ip p.
Definition arp_of (bs : list Z) : arp_pkt :=
  mkArp (f16 bs 0) (f16 bs 2) (char_at bs 4) (char_at bs 5) (f16 bs 6)
    (slice 8 6 bs) (slice 14 4 bs) (slice 18 6 bs) (slice 24 4 bs).

Record ipv4_hdr := mkIp {
  version_ihl : Z; dscp_ecn : Z; total_length : Z; identification : Z;
  flags_fragment_offset : Z; ttl : Z; protocol : Z; header_checksum : Z;
  src_ip : list Z; dst_ip : list Z
}.
Definition ipv4_bytes (h : ipv4_hdr) : list Z :=
  [version_ihl h; dscp_ecn h] ++ le16 (total_length h) ++ le16 (identification h)
  ++ le16 (flags_fragment_offset h) ++ [ttl h; protocol h] ++ le16 (header_checksum h)
  ++ src_ip h ++ dst_ip h.
Definition ipv4_of (bs : list Z) : ipv4_hdr :=
  mkIp (char_at bs 0) (char_at bs 1) (f16 bs 2) (f16 bs 4) (f16 bs 6) (char_at bs 8)
    (char_at bs 9) (f16 bs 10) (slice 12 4 bs) (slice 16 4 bs).

Record udp_hdr := mkUdp { src_port : Z; dst_port : Z; dgram_len : Z; dgram_cksum : Z }.
Definition udp_bytes (u : udp_hdr) : list Z :=
  le16 (src_port u) ++ le16 (dst_port u) ++ le16 (dgram_len u) ++ le16 (dgram_cksum u).
Definition udp_of (bs : list Z) : udp_hdr := mkUdp (f16 bs 0) (f16 bs 2) (f16 bs 4) (f16 bs 6).

Record icmp_echo_hdr := mkIcmp {
  icmp_type : Z; icmp_code : Z; icmp_cksum : Z; icmp_ident : Z; icmp_seq : Z
}.
Definition icmp_bytes (i : icmp_echo_hdr) : list Z :=
  [icmp_type i; icmp_code i] ++ le16 (icmp_cksum i) ++ le16 (icmp_ident i) ++ le16 (icmp_seq i).
Definition icmp_of (bs : list Z) : icmp_echo_hdr :=
  mkIcmp (char_at bs 0) (char_at bs 1) (f16 bs 2) (f16 bs 4) (f16 bs 6).

(** ** The adapter, as the stack sees it *)

(** [nic_recv] hands over the next received frame, if one is ready. *)
Class Nic (N : Type) := {
  nic_mac : N -> list Z;
  nic_send : list Z -> N -> Z * N;
  nic_recv : N -> option (list Z) * N
}.

(** ** State *)

Record arp_state := mkArpState {
  arp_cached_ip : list Z; arp_cached_mac : list Z; arp_cache_valid : bool
}.
Record ip_state := mkIpState {
  ipv4_local_ip : list Z; ipv4_local_ip_valid : bool; ipv4_netmask : list Z;
  ipv4_gateway : list Z; ipv4_gateway_valid : bool
}.
Record udp_binding_t := mkBinding { b_port : Z; b_handler : Z }.

Record socket_t := mkSocket {
  used : bool; refs : Z; domain : Z; type : Z; sk_protocol : Z; local_port : Z; bound : bool;
  is_raw : bool; icmp_identifier : Z; icmp_sequence : Z; has_peer : bool; peer_ip : list Z;
  peer_port : Z; inbuf : ram; in_len : Z; in_pos : Z; outbuf : ram; out_len : Z
}.

(** What a blocked task waits for: a local port or a socket object. *)
Inductive wait_obj := WPort (port : Z) | WSocket (i : nat).
#[export] Instance wait_obj_eq_dec : EqDecision wait_obj.
Proof. solve_decision. Defined.

Record net (N : Type) := mkNet {
  arp : arp_state; ip : ip_state; udp_bindings : list udp_binding_t;
  udp_servers : list (option ram); udp_tx_identification : Z; sockets : list socket_t;
  nic : N; woken : list wait_obj
}.
Arguments mkNet {N}. Arguments arp {N}. Arguments ip {N}. Arguments udp_bindings {N}.
Arguments udp_servers {N}. Arguments udp_tx_identification {N}. Arguments sockets {N}.
Arguments nic {N}. Arguments woken {N}.

Definition UDP_MAX_BINDINGS : nat := 8.
Definition UDP_MAX_SERVERS : nat := 4.
Definition UDP_MAX_QUEUE : Z := 16.
Definition UDP_MAX_DGRAM : Z := 1472.
Definition SOCKET_MAX : nat := 16.
Definition SOCKET_HANDLE_BASE : Z := -4096.
Definition SOCKET_BUF_SIZE : Z := 1472.
Definition SOCKET_OUT_SIZE : Z := 2048.
Definition AF_INET : Z := 2.
Definition SOCK_DGRAM : Z := 2.
Definition SOCK_RAW : Z := 3.
Definition IPPROTO_ICMP : Z := 1.

Section Net.
Context {N : Type} `{Nic N}.
(** In-kernel UDP callbacks are function pointers; none is registered in the
    repository, so what they do is a parameter. *)
Context (call_handler : Z -> list Z -> Z -> list Z -> Z -> list Z -> net N -> net N).

Abbreviation NM := (M (net N)).

Definition set_arp (a : arp_state) (s : net N) : net N :=
  mkNet a (ip s) (udp_bindings s) (udp_servers s) (udp_tx_identification s) (sockets s) (nic s) (woken s).
Definition set_ip (a : ip_state) (s : net N) : net N :=
  mkNet (arp s) a (udp_bindings s) (udp_servers s) (udp_tx_identification s) (sockets s) (nic s) (woken s).
Definition set_bindings (b : list udp_binding_t) (s : net N) : net N :=
  mkNet (arp s) (ip s) b (udp_servers s) (udp_tx_identification s) (sockets s) (nic s) (woken s).
Definition set_servers (v : list (option ram)) (s : net N) : net N :=
  mkNet (arp s) (ip s) (udp_bindings s) v (udp_tx_identification s) (sockets s) (nic s) (woken s).
Definition set_ident (i : Z) (s : net N) : net N :=
  mkNet (arp s) (ip s) (udp_bindings s) (udp_servers s) i (sockets s) (nic s) (woken s).
Definition set_sockets (k : list socket_t) (s : net N) : net N :=
  mkNet (arp s) (ip s) (udp_bindings s) (udp_servers s) (udp_tx_identification s) k (nic s) (woken s).
Definition set_nic (n : N) (s : net N) : net N :=
  mkNet (arp s) (ip s) (udp_bindings s) (udp_servers s) (udp_tx_identification s) (sockets s) n (woken s).
Definition wake_object (w : wait_obj) (s : net N) : net N :=
  mkNet (arp s) (ip s) (udp_bindings s) (udp_servers s) (udp_tx_identification s) (sockets s) (nic s)
    (woken s ++ [w]).

Definition e1k_get_mac : NM (list Z) := gets (fun s => nic_mac (nic s)).
Definition e1k_send (frame : list Z) : NM Z := fun s =>
  let '(r, n) := nic_send frame (nic s) in Ret r (set_nic n s).

(** ** IPv4 configuration (stage2/net/ipv4.c) *)

Definition ipv4_set_address (a : list Z) : NM unit := modify (fun s =>
  set_ip (mkIpState (take 4 a) true (ipv4_netmask (ip s)) (ipv4_gateway (ip s)) (ipv4_gateway_valid (ip s))) s).
Definition ipv4_set_netmask (mask : list Z) : NM unit := modify (fun s =>
  set_ip (mkIpState (ipv4_local_ip (ip s)) (ipv4_local_ip_valid (ip s)) (take 4 mask)
    (ipv4_gateway (ip s)) (ipv4_gateway_valid (ip s))) s).
Definition ipv4_set_gateway (gw : list Z) : NM unit := modify (fun s =>
  set_ip (mkIpState (ipv4_local_ip (ip s)) (ipv4_local_ip_valid (ip s)) (ipv4_netmask (ip s))
    (take 4 gw) true) s).
(** [None] is the return value 0. *)
Definition ipv4_get_address (s : net N) : option (list Z) :=
  if ipv4_local_ip_valid (ip s) then Some (ipv4_local_ip (ip s)) else None.
Definition ipv4_get_gateway (s : net N) : option (list Z) :=
  if ipv4_gateway_valid (ip s) then Some (ipv4_gateway (ip s)) else None.

(** [for (i = 0; i < 4; ++i)] over the bytes of an address. *)
Definition all4 (f : nat -> bool) : bool := f 0%nat && f 1%nat && f 2%nat && f 3%nat.

Definition ipv4_is_local_address (a : list Z) (s : net N) : bool :=
  ipv4_local_ip_valid (ip s) && all4 (fun i => char_at (ipv4_local_ip (ip s)) i =? char_at a i).
Definition ipv4_on_local_network (a : list Z) (s : net N) : bool :=
  ipv4_local_ip_valid (ip s) && all4 (fun i =>
    Z.land (char_at (ipv4_local_ip (ip s)) i) (char_at (ipv4_netmask (ip s)) i)
    =? Z.land (char_at a i) (char_at (ipv4_netmask (ip s)) i)).

(** ** ARP (stage2/net/arp.c) *)

Definition arp_update_cache (sip smac : list Z) : NM unit :=
  modify (set_arp (mkArpState sip smac true)).

Definition ip_equal (lhs rhs : list Z) : bool := all4 (fun i => char_at lhs i =? char_at rhs i).

(** The frame of [arp_send_request] ([opcode] 1) and [arp_send_reply] (2). *)
Definition arp_frame (dst mac : list Z) (op : Z) (sip tmac tip : list Z) : list Z :=
  pad_to 60 (eth_bytes (mkEth dst mac (htons 2054)) ++
    arp_bytes (mkArp (htons 1) (htons 2048) 6 4 (htons op) mac sip tmac tip)).

Definition arp_send_request (sip tip : list Z) : NM unit :=
  mac ← e1k_get_mac;
  e1k_send (arp_frame (replicate 6 255) mac 1 sip (replicate 6 0) tip) ;;
  mret tt.

Definition arp_send_reply (tmac sip tip : list Z) : NM Z :=
  mac ← e1k_get_mac;
  e1k_send (arp_frame tmac mac 2 sip tmac tip).

Definition arp_process_packet (data : list Z) : NM unit :=
  if (length data <? sizeof_arp_pkt)%nat then mret tt
  else
    let a := arp_of data in
    arp_update_cache (sender_ip a) (sender_mac a) ;;
    if htons (opcode a) =? 1 then
      local ← gets (ipv4_is_local_address (target_ip a));
      if (local : bool) then
        arp_send_reply (sender_mac a) (target_ip a) (sender_ip a) ;; mret tt
      else mret tt
    else mret tt.

Definition arp_try_get_mac (tip : list Z) (s : net N) : option (list Z) :=
  if negb (arp_cache_valid (arp s)) || negb (ip_equal tip (arp_cached_ip (arp s))) then None
  else Some (arp_cached_mac (arp s)).

(** ** UDP receive queues (stage2/net/udp.c) *)

Definition sizeof_udp_dgram_t : Z := 1480.
Definition sizeof_udp_user_server_t : Z := 23684.
Definition dgram_at (slot : Z) : Z := 2 + sizeof_udp_dgram_t * slot.
Definition srv_port (m : ram) : Z := ld16 m 0.
Definition srv_head (m : ram) : Z := ld8 m 23682.
Definition srv_count (m : ram) : Z := ld8 m 23683.

Fixpoint find_server (port : Z) (i : nat) (l : list (option ram)) : option nat :=
  match l with
  | [] => None
  | Some m :: l' => if srv_port m =? port then Some i else find_server port (S i) l'
  | None :: l' => find_server port (S i) l'
  end.
Definition udp_find_server (port : Z) (s : net N) : option nat := find_server port 0 (udp_servers s).

Fixpoint find_handler (port : Z) (l : list udp_binding_t) : option Z :=
  match l with
  | [] => None
  | b :: l' => if negb (b_handler b =? 0) && (b_port b =? port) then Some (b_handler b)
               else find_handler port l'
  end.
Definition udp_find_handler (port : Z) (s : net N) : option Z := find_handler port (udp_bindings s).

Fixpoint find_free {A} (free : A -> bool) (i : nat) (l : list A) : option nat :=
  match l with
  | [] => None
  | x :: l' => if free x then Some i else find_free free (S i) l'
  end.

Definition udp_server_bind (port : Z) : NM Z := fun s =>
  match udp_find_server port s with
  | Some _ => Ret 0 s
  | None =>
      match find_free (fun o : option ram => match o with None => true | _ => false end) 0 (udp_servers s) with
      | Some i => Ret 0 (set_servers (<[i := Some (st16 0 port ∅)]> (udp_servers s)) s)
      | None => Ret (-1) s
      end
  end.

(** The stores of [udp_server_enqueue] on the server's memory. *)
Definition enqueue_ram (sip : list Z) (sport : Z) (payload : list Z) (m : ram) : ram :=
  let slot := (srv_head m + srv_count m) mod UDP_MAX_QUEUE in
  let d := dgram_at slot in
  let m := st16 d (Z.of_nat (length payload)) m in
  let m := write_bytes (d + 2) sip m in
  let m := st16 (d + 6) sport m in
  let m := write_bytes (d + 8) payload m in
  st8 23683 (srv_count m + 1) m.

Definition udp_server_enqueue (i : nat) (sip : list Z) (sport : Z) (payload : list Z) : NM unit := fun s =>
  match udp_servers s !! i with
  | Some (Some m) =>
      if UDP_MAX_QUEUE <=? srv_count m then Ret tt s
      else Ret tt (wake_object (WPort (srv_port m))
                    (set_servers (<[i := Some (enqueue_ram sip sport payload m)]> (udp_servers s)) s))
  | _ => Ret tt s
  end.

(** The datagram at the head and the memory after it is removed. *)
Definition dequeue_ram (max_len : Z) (m : ram) : (list Z * Z * list Z) * ram :=
  let d := dgram_at (srv_head m) in
  let len := ld16 m d in
  let take := if max_len <? len then max_len else len in
  ((read_bytes_at 4 (d + 2) m, ld16 m (d + 6), read_bytes_at (Z.to_nat take) (d + 8) m),
   let m' := st8 23682 ((srv_head m + 1) mod UDP_MAX_QUEUE) m in
   st8 23683 (srv_count m' - 1) m').

(** [None] is the return value -1. *)
Definition udp_server_recv (port max_len : Z) : NM (option (list Z * Z * list Z)) := fun s =>
  match udp_find_server port s with
  | None => Ret None s
  | Some i =>
      match udp_servers s !! i with
      | Some (Some m) =>
          if srv_count m =? 0 then Ret None s
          else
            let '(d, m') := dequeue_ram max_len m in
            Ret (Some d) (set_servers (<[i := Some m']> (udp_servers s)) s)
      | _ => Ret None s
      end
  end.

Definition udp_init : NM unit := modify (fun s =>
  set_servers (replicate UDP_MAX_SERVERS None)
    (set_bindings (replicate UDP_MAX_BINDINGS (mkBinding 0 0)) s)).

Definition udp_bind (port handler : Z) : NM Z := fun s =>
  match find_free (fun b => negb (b_handler b =? 0) && (b_port b =? port)) 0 (udp_bindings s) with
  | Some i => Ret 0 (set_bindings (<[i := mkBinding port handler]> (udp_bindings s)) s)
  | None =>
      match find_free (fun b => b_handler b =? 0) 0 (udp_bindings s) with
      | Some i => Ret 0 (set_bindings (<[i := mkBinding port handler]> (udp_bindings s)) s)
      | None => Ret (-1) s
      end
  end.

(** ** Receive path *)

Definition set_socket (i : nat) (k : socket_t) (s : net N) : net N :=
  set_sockets (<[i := k]> (sockets s)) s.

Definition with_in (k : socket_t) (b : ram) (len pos : Z) : socket_t :=
  mkSocket (used k) (refs k) (domain k) (type k) (sk_protocol k) (local_port k) (bound k) (is_raw k)
    (icmp_identifier k) (icmp_sequence k) (has_peer k) (peer_ip k) (peer_port k) b len pos
    (outbuf k) (out_len k).
Definition with_out (k : socket_t) (b : ram) (len : Z) : socket_t :=
  mkSocket (used k) (refs k) (domain k) (type k) (sk_protocol k) (local_port k) (bound k) (is_raw k)
    (icmp_identifier k) (icmp_sequence k) (has_peer k) (peer_ip k) (peer_port k) (inbuf k) (in_len k)
    (in_pos k) b len.
Definition with_peer (k : socket_t) (pip : list Z) (pport : Z) : socket_t :=
  mkSocket (used k) (refs k) (domain k) (type k) (sk_protocol k) (local_port k) (bound k) (is_raw k)
    (icmp_identifier k) (icmp_sequence k) true pip pport (inbuf k) (in_len k) (in_pos k)
    (outbuf k) (out_len k).
Definition with_refs (k : socket_t) (r : Z) : socket_t :=
  mkSocket (used k) r (domain k) (type k) (sk_protocol k) (local_port k) (bound k) (is_raw k)
    (icmp_identifier k) (icmp_sequence k) (has_peer k) (peer_ip k) (peer_port k) (inbuf k) (in_len k)
    (in_pos k) (outbuf k) (out_len k).
Definition with_bound (k : socket_t) (port : Z) : socket_t :=
  mkSocket (used k) (refs k) (domain k) (type k) (sk_protocol k) port true (is_raw k)
    (icmp_identifier k) (icmp_sequence k) (has_peer k) (peer_ip k) (peer_port k) (inbuf k) (in_len k)
    (in_pos k) (outbuf k) (out_len k).
Definition with_sequence (k : socket_t) (q : Z) : socket_t :=
  mkSocket (used k) (refs k) (domain k) (type k) (sk_protocol k) (local_port k) (bound k) (is_raw k)
    (icmp_identifier k) q (has_peer k) (peer_ip k) (peer_port k) (inbuf k) (in_len k)
    (in_pos k) (outbuf k) (out_len k).

Definition socket_icmp_rx (sip icmp_data : list Z) : NM Z := fun s =>
  if (length icmp_data <? sizeof_icmp_echo_hdr)%nat then Ret (-1) s
  else
    let icmp := icmp_of icmp_data in
    if negb (icmp_type icmp =? ICMP_ECHO_REPLY) || negb (icmp_code icmp =? 0) then Ret (-1) s
    else
      let ident := htons (icmp_ident icmp) in
      match find_free (fun k => used k && is_raw k && (icmp_identifier k =? ident)) 0 (sockets s) with
      | None => Ret (-1) s
      | Some i =>
          match sockets s !! i with
          | None => Ret (-1) s
          | Some k =>
              let n := if Z.of_nat (length icmp_data) <? SOCKET_BUF_SIZE
                       then Z.of_nat (length icmp_data) else SOCKET_BUF_SIZE in
              let k := with_in k (write_bytes 0 (take (Z.to_nat n) icmp_data) (inbuf k)) n 0 in
              let k := with_peer k sip (peer_port k) in
              Ret 0 (wake_object (WSocket i) (set_socket i k s))
          end
      end.

Definition icmp_process_packet (h : ipv4_hdr) (icmp_data : list Z) : NM unit :=
  if (length icmp_data <? sizeof_icmp_echo_hdr)%nat then mret tt
  else
    let icmp := icmp_of icmp_data in
    if (icmp_type icmp =? ICMP_ECHO_REPLY) && (icmp_code icmp =? 0) then
      socket_icmp_rx (src_ip h) icmp_data ;; mret tt
    else mret tt.

Definition udp_process_packet (h : ipv4_hdr) (udp_data : list Z) : NM unit := fun s =>
  if (length udp_data <? sizeof_udp_hdr)%nat then Ret tt s
  else
    let u := udp_of udp_data in
    let sport := htons (src_port u) in
    let dport := htons (dst_port u) in
    let dlen := Z.to_nat (htons (dgram_len u)) in
    if (dlen <? sizeof_udp_hdr)%nat || (length udp_data <? dlen)%nat then Ret tt s
    else if negb (dgram_cksum u =? 0) && negb (udp_checksum_valid (src_ip h) (dst_ip h) (take dlen udp_data))
    then Ret tt s
    else
      let payload := slice sizeof_udp_hdr (dlen - sizeof_udp_hdr) udp_data in
      match udp_find_server dport s with
      | Some i => udp_server_enqueue i (src_ip h) sport payload s
      | None =>
          match udp_find_handler dport s with
          | None => Ret tt s
          | Some f => Ret tt (call_handler f (src_ip h) sport (dst_ip h) dport payload s)
          end
      end.

(** The header with its checksum field cleared, as it is when summed. *)
Definition clear_checksum (hdr : list Z) : list Z := <[10%nat := 0]> (<[11%nat := 0]> hdr).

Definition ipv4_process_packet (data : list Z) : NM unit := fun s =>
  if (length data <? sizeof_ipv4_hdr)%nat then Ret tt s
  else
    let h := ipv4_of data in
    let version := Z.shiftr (version_ihl h) 4 in
    let ihl := Z.to_nat (Z.land (version_ihl h) 15 * 4) in
    let tlen := Z.to_nat (htons (total_length h)) in
    if negb (version =? 4) || (ihl <? sizeof_ipv4_hdr)%nat || (length data <? ihl)%nat
       || (tlen <? ihl)%nat || (length data <? tlen)%nat then Ret tt s
    else if negb (header_checksum h =? htons (ipv4_checksum (clear_checksum (take ihl data)))) then Ret tt s
    else
      let fragment_field := htons (flags_fragment_offset h) in
      if negb (Z.land fragment_field 16383 =? 0) || negb (Z.land fragment_field 8192 =? 0) then Ret tt s
      else if ipv4_local_ip_valid (ip s) && negb (ipv4_is_local_address (dst_ip h) s)
              && negb (all4 (fun i => char_at (dst_ip h) i =? 255)) then Ret tt s
      else if protocol h =? IPV4_PROTOCOL_ICMP then
        icmp_process_packet h (slice ihl (tlen - ihl) data) s
      else if protocol h =? IPV4_PROTOCOL_UDP then
        udp_process_packet h (slice ihl (tlen - ihl) data) s
      else Ret tt s.

Definition eth_process_packet (data : list Z) : NM unit :=
  if (length data <? sizeof_eth_hdr)%nat then mret tt
  else
    let ethertype := htons (eth_type (eth_of data)) in
    if ethertype =? 2054 then arp_process_packet (drop sizeof_eth_hdr data)
    else if ethertype =? 2048 then ipv4_process_packet (drop sizeof_eth_hdr data)
    else mret tt.

(** [e1k_drain_rx] without the descriptor ring: every ready frame, in order. *)
Fixpoint drain_rx (fuel : nat) : NM unit := fun s =>
  match fuel with
  | O => NoFuel
  | S f =>
      match nic_recv (nic s) with
      | (None, n) => Ret tt (set_nic n s)
      | (Some frame, n) => (eth_process_packet frame ;; drain_rx f) (set_nic n s)
      end
  end.

(** The polling loop of [arp_resolve], [polls] attempts; [Some] ends it. *)
Fixpoint arp_poll (fuel polls : nat) (tip : list Z) : NM (option (list Z)) := fun s =>
  match polls with
  | O => Ret None s
  | S p =>
      match arp_try_get_mac tip s with
      | Some mac => Ret (Some mac) s
      | None => (drain_rx fuel ;; arp_poll fuel p tip) s
      end
  end.

(** [None] is the return value 0. The [hlt] between the eight rounds only waits
    for an interrupt. [rounds] times [polls] is 8 times 1000000 in the source. *)
Fixpoint arp_rounds (fuel rounds polls : nat) (tip : list Z) : NM (option (list Z)) :=
  match rounds with
  | O => mret None
  | S r =>
      m ← arp_poll fuel polls tip;
      match m with Some mac => mret (Some mac) | None => arp_rounds fuel r polls tip end
  end.

Definition arp_resolve (fuel polls : nat) (tip : list Z) : NM (option (list Z)) := fun s =>
  match arp_try_get_mac tip s with
  | Some mac => Ret (Some mac) s
  | None =>
      match ipv4_get_address s with
      | None => Ret None s
      | Some sip => (arp_send_request sip tip ;; arp_rounds fuel 8 polls tip) s
      end
  end.

(** ** Transmit path *)

Definition ipv4_header (sip dip : list Z) (proto ident plen cksum : Z) : ipv4_hdr :=
  mkIp 69 0 (htons (20 + plen)) (htons ident) (htons 16384) 64 proto cksum sip dip.

Definition ipv4_frame (mac next_hop sip dip : list Z) (proto ident : Z) (payload : list Z) : list Z :=
  let plen := Z.of_nat (length payload) in
  let cksum := htons (ipv4_checksum (ipv4_bytes (ipv4_header sip dip proto ident plen 0))) in
  pad_to 60 (eth_bytes (mkEth next_hop mac (htons 2048))
    ++ ipv4_bytes (ipv4_header sip dip proto ident plen cksum) ++ payload).

Definition ipv4_send_packet (sip dip next_hop : list Z) (proto ident : Z) (payload : list Z) : NM Z :=
  mac ← e1k_get_mac;
  e1k_send (ipv4_frame mac next_hop sip dip proto ident payload).

Definition icmp_echo_payload : list Z := [109; 98; 111; 111; 116; 45; 105; 99; 109; 112].

Definition icmp_echo_packet (ident seq : Z) : list Z :=
  let packet cksum :=
    icmp_bytes (mkIcmp ICMP_ECHO_REQUEST 0 cksum (htons ident) (htons seq)) ++ icmp_echo_payload in
  packet (htons (ipv4_checksum (packet 0))).

Section Send.
(** Bounds of the polling loops, see [arp_resolve]. *)
Context (fuel polls : nat).

Definition icmp_send_echo (sip dip : list Z) (ident seq : Z) : NM Z := fun s =>
  let send next_hop :=
    ipv4_send_packet sip dip next_hop IPV4_PROTOCOL_ICMP seq (icmp_echo_packet ident seq) in
  let resolved (r : option (list Z)) : NM Z :=
    match r with None => mret (-1) | Some mac => send mac end in
  if ipv4_on_local_network dip s then (r ← arp_resolve fuel polls dip; resolved r) s
  else
    match ipv4_get_gateway s with
    | None => Ret (-1) s
    | Some gw => (r ← arp_resolve fuel polls gw; resolved r) s
    end.

(** The segment; its length field and size are 16-bit sums. *)
Definition udp_segment (sip dip : list Z) (sport dport : Z) (payload : list Z) : list Z :=
  let segment_len := u16 (8 + Z.of_nat (length payload)) in
  let seg cksum := udp_bytes (mkUdp (htons sport) (htons dport) (htons segment_len) cksum) ++ payload in
  let checksum := udp_checksum sip dip (take (Z.to_nat segment_len) (seg 0)) in
  seg (htons (if checksum =? 0 then 65535 else checksum)).

(** The part of [udp_send] after the next hop is known. *)
Definition udp_transmit (sip dip next_hop : list Z) (sport dport : Z) (payload : list Z) : NM Z :=
  ident ← gets udp_tx_identification;
  modify (set_ident (u16 (ident + 1))) ;;
  ipv4_send_packet sip dip next_hop IPV4_PROTOCOL_UDP ident
    (take (Z.to_nat (u16 (8 + Z.of_nat (length payload)))) (udp_segment sip dip sport dport payload)).

Definition udp_send (sip dip : list Z) (next_hop_mac : option (list Z)) (sport dport : Z)
    (payload : list Z) : NM Z := fun s =>
  let resolved (r : option (list Z)) : NM Z :=
    match r with None => mret (-1) | Some mac => udp_transmit sip dip mac sport dport payload end in
  match next_hop_mac with
  | Some mac => udp_transmit sip dip mac sport dport payload s
  | None =>
      if ipv4_on_local_network dip s then (r ← arp_resolve fuel polls dip; resolved r) s
      else
        match ipv4_get_gateway s with
        | Some gw => (r ← arp_resolve fuel polls gw; resolved r) s
        | None => Ret (-1) s
        end
  end.

Definition udp_send_local (sport : Z) (dip : list Z) (dport : Z) (payload : list Z) : NM Z := fun s =>
  match ipv4_get_address s with
  | None => Ret (-1) s
  | Some sip => udp_send sip dip None sport dport payload s
  end.

End Send.

End Net.
