(* ===== verification/UdpQueue.v ===== *)
(** The datagram queues of stage2/net/udp.c refine bounded first-in
    first-out queues. *)
From S2P Require Import Prelude Utils Checksum Net.

(** * Memory lemmas for 16-bit fields and byte ranges *)

Lemma ld16_ext m m' a : (forall x, a <= x < a + 2 -> ld8 m x = ld8 m' x) -> ld16 m a = ld16 m' a.
Proof. intros H. unfold ld16. by rewrite !H by lia. Qed.

Lemma ld8_st16_other m a v x : x < a \/ a + 2 <= x -> ld8 (st16 a v m) x = ld8 m x.
Proof. intros. unfold st16. rewrite !ld8_st8. repeat case_z; lia. Qed.

Lemma ld16_st16_eq m a v : in_u16 v -> ld16 (st16 a v m) a = v.
Proof.
  intros Hv. unfold ld16, st16. rewrite !ld8_st8, !Z.eqb_refl, Z.shiftr_div_pow2 by lia.
  destruct (Z.eqb_spec a (a + 1)); [lia|]. unfold u8. change (2 ^ 8) with 256. zlia.
Qed.

Lemma read_bytes_take n k : forall a m,
  (k <= n)%nat -> read_bytes_at k a m = take k (read_bytes_at n a m).
Proof.
  revert k. induction n as [|n IH]; intros k a m Hk; destruct k as [|k]; simpl; try done; [lia|].
  f_equal. apply IH. lia.
Qed.

Lemma ld8_write_bytes bs : forall a m x,
  bytes_ok bs -> a <= x < a + Z.of_nat (length bs) ->
  ld8 (write_bytes a bs m) x = char_at bs (Z.to_nat (x - a)).
Proof.
  induction bs as [|b bs IH]; intros a m x Hb Hx; simpl in *; [lia|].
  rewrite Forall_cons in Hb. destruct Hb as [Hb Hbs]. destruct (Z.eq_dec x a) as [->|Hne].
  - rewrite ld8_write_bytes_other, ld8_st8, Z.eqb_refl, Z.sub_diag by lia. by rewrite u8_small.
  - rewrite IH by (done || lia). replace (Z.to_nat (x - a)) with (S (Z.to_nat (x - (a + 1)))) by lia. done.
Qed.

(** * The abstract queue *)

Abbreviation dgram := (list Z * Z * list Z)%type.

Definition dgram_ok (x : dgram) : Prop :=
  length x.1.1 = 4%nat /\ bytes_ok x.1.1 /\ in_u16 x.1.2 /\ bytes_ok x.2.

(** One slot holds a datagram. *)
Definition slot_holds (m : ram) (slot : Z) (x : dgram) : Prop :=
  let d := dgram_at slot in
  Z.of_nat (length x.2) <= UDP_MAX_DGRAM /\ ld16 m d = Z.of_nat (length x.2)
  /\ read_bytes_at 4 (d + 2) m = x.1.1 /\ ld16 m (d + 6) = x.1.2
  /\ read_bytes_at (length x.2) (d + 8) m = x.2.

(** The server's memory holds the queue [q] for [port]. *)
Record queue_repr (m : ram) (port : Z) (q : list dgram) : Prop := {
  qr_port : srv_port m = port;
  qr_head : 0 <= srv_head m < 16;
  qr_count : srv_count m = Z.of_nat (length q);
  qr_bound : (length q <= 16)%nat;
  qr_slots : forall j x, q !! j = Some x -> slot_holds m ((srv_head m + Z.of_nat j) mod 16) x
}.

Definition fifo_push (x : dgram) (q : list dgram) : list dgram :=
  if (length q <? 16)%nat then q ++ [x] else q.

(** A datagram as it reaches a reader with room for [max_len] bytes. *)
Definition truncate (max_len : Z) (x : dgram) : dgram := (x.1, take (Z.to_nat max_len) x.2).

(** ** Operations on the representation *)

Lemma slot_same m m' slot x :
  (forall y, dgram_at slot <= y < dgram_at slot + 1480 -> ld8 m y = ld8 m' y) ->
  slot_holds m slot x -> slot_holds m' slot x.
Proof.
  unfold slot_holds, UDP_MAX_DGRAM. intros Hy (H1 & H2 & H3 & H4 & H5). split; [done|].
  rewrite <- H3, <- H4. rewrite <- H5 at 3. rewrite <- H2.
  repeat split; first [apply ld16_ext|apply read_bytes_ext]; intros y Hy'; symmetry; apply Hy;
    simpl in *; lia.
Qed.

Lemma slots_disjoint s s' :
  0 <= s < 16 -> 0 <= s' < 16 -> s <> s' ->
  dgram_at s + 1480 <= dgram_at s' \/ dgram_at s' + 1480 <= dgram_at s.
Proof. unfold dgram_at, sizeof_udp_dgram_t. intros. lia. Qed.

Section Enqueue.
Context (m : ram) (port : Z) (q : list dgram) (x : dgram).
Hypothesis (Q : queue_repr m port q) (Hx : dgram_ok x).
Hypothesis (Hlen : Z.of_nat (length x.2) <= 1472) (Hroom : (length q < 16)%nat).

Let slot := (srv_head m + srv_count m) mod 16.
Let d := dgram_at slot.
Let m' := enqueue_ram x.1.1 x.1.2 x.2 m.

Lemma slot_range : 0 <= slot < 16.
Proof. apply Z.mod_pos_bound. lia. Qed.

(** Only the slot and the counter are written. *)
Lemma enqueue_other y : ~ (d <= y < d + 1480) -> y <> 23683 -> ld8 m' y = ld8 m y.
Proof.
  intros Hy Hc. destruct Hx as (L4 & _). pose proof slot_range. unfold m', enqueue_ram.
  fold slot. change UDP_MAX_QUEUE with 16. fold slot d. rewrite ld8_st8.
  destruct (Z.eqb_spec y 23683); [lia|].
  rewrite ld8_write_bytes_other by lia. rewrite ld8_st16_other by lia.
  rewrite ld8_write_bytes_other by (rewrite L4; lia). by rewrite ld8_st16_other by lia.
Qed.

Lemma enqueue_count : srv_count m' = srv_count m + 1.
Proof.
  destruct Hx as (L4 & _). pose proof slot_range. pose proof (qr_count _ _ _ Q).
  unfold m', enqueue_ram, srv_count. change UDP_MAX_QUEUE with 16. fold (srv_count m). fold slot d.
  rewrite ld8_st8, Z.eqb_refl.
  assert (Hd : d + 1480 <= 23682) by (unfold d, dgram_at, sizeof_udp_dgram_t; lia).
  rewrite ld8_write_bytes_other by lia. rewrite ld8_st16_other by lia.
  rewrite ld8_write_bytes_other by (rewrite L4; lia). rewrite ld8_st16_other by lia.
  fold (srv_count m). apply u8_small. lia.
Qed.

Lemma enqueue_slot : slot_holds m' slot x.
Proof.
  destruct Hx as (L4 & Bi & Bp & Bd). pose proof slot_range.
  assert (Hd : d + 1480 <= 23682) by (unfold d, dgram_at, sizeof_udp_dgram_t; lia).
  unfold slot_holds. fold d. split; [done|]. unfold m', enqueue_ram.
  change UDP_MAX_QUEUE with 16. fold slot d.
  set (m1 := st16 d _ m). set (m2 := write_bytes (d + 2) x.1.1 m1). set (m3 := st16 (d + 6) x.1.2 m2).
  set (m4 := write_bytes (d + 8) x.2 m3).
  assert (E5 : forall y, y < 23683 -> ld8 (st8 23683 (srv_count m4 + 1) m4) y = ld8 m4 y).
  { intros y Hy. rewrite ld8_st8. by destruct (Z.eqb_spec y 23683); [lia|]. }
  assert (E4 : forall y, y < d + 8 -> ld8 m4 y = ld8 m3 y)
    by (intros; apply ld8_write_bytes_other; lia).
  assert (E3 : forall y, y < d + 6 -> ld8 m3 y = ld8 m2 y)
    by (intros; apply ld8_st16_other; lia).
  assert (E2 : forall y, y < d + 2 -> ld8 m2 y = ld8 m1 y)
    by (intros; apply ld8_write_bytes_other; lia).
  split; [|split; [|split]].
  - rewrite <- (ld16_st16_eq m d (Z.of_nat (length x.2))) by lia. apply ld16_ext. intros y Hy.
    by rewrite E5, E4, E3, E2 by lia.
  - transitivity (read_bytes_at (length x.1.1) (d + 2) m2); [rewrite L4|by apply read_write_bytes].
    apply read_bytes_ext. intros y Hy. by rewrite E5, E4, E3 by lia.
  - rewrite <- (ld16_st16_eq m2 (d + 6) x.1.2) by done. apply ld16_ext. intros y Hy.
    by rewrite E5, E4 by lia.
  - transitivity (read_bytes_at (length x.2) (d + 8) m4); [|by apply read_write_bytes].
    apply read_bytes_ext. intros y Hy. by rewrite E5 by lia.
Qed.

Lemma enqueue_repr : queue_repr m' port (q ++ [x]).
Proof.
  pose proof slot_range. pose proof (qr_count _ _ _ Q) as Ec. pose proof (qr_head _ _ _ Q) as Hh.
  assert (Hd : 2 <= d /\ d + 1480 <= 23682) by (unfold d, dgram_at, sizeof_udp_dgram_t; lia).
  assert (Eh : srv_head m' = srv_head m) by (apply enqueue_other; lia). split.
  - rewrite <- (qr_port _ _ _ Q). unfold srv_port. apply ld16_ext. intros y Hy. apply enqueue_other; lia.
  - by rewrite Eh.
  - rewrite enqueue_count, Ec, length_app. simpl. lia.
  - rewrite length_app. simpl. lia.
  - rewrite Eh. intros j y Hj. apply lookup_snoc_Some in Hj as [[Hlt Hj]|[-> <-]].
    + apply (slot_same m); [|by apply (qr_slots _ _ _ Q)]. intros z Hz. symmetry.
      set (s := (srv_head m + Z.of_nat j) mod 16) in *.
      assert (Hs : 0 <= s < 16) by (apply Z.mod_pos_bound; lia).
      assert (Hne : s <> slot) by (unfold s, slot; rewrite Ec; zlia).
      unfold dgram_at, sizeof_udp_dgram_t in Hz.
      apply enqueue_other; [|lia]. destruct (slots_disjoint s slot Hs slot_range Hne) as [Hd'|Hd'];
        fold d in Hd'; unfold dgram_at, sizeof_udp_dgram_t in Hd'; lia.
    + rewrite <- Ec. apply enqueue_slot.
Qed.
End Enqueue.

Lemma dequeue_repr m port x q max_len :
  queue_repr m port (x :: q) -> 0 <= max_len ->
  (dequeue_ram max_len m).1 = truncate max_len x /\ queue_repr (dequeue_ram max_len m).2 port q.
Proof.
  intros Q Hm. pose proof (qr_slots _ _ _ Q 0%nat x eq_refl) as S0.
  pose proof (qr_head _ _ _ Q) as Hh. pose proof (qr_count _ _ _ Q) as Ec. pose proof (qr_bound _ _ _ Q) as Hb.
  simpl length in *.
  rewrite Z.add_0_r, Z.mod_small in S0 by lia. destruct S0 as (L & E1 & E2 & E3 & E4).
  unfold dequeue_ram. cbn [fst snd]. split.
  - unfold truncate. rewrite E1, E2, E3. destruct x as [[xi xp] xd]. cbn [fst snd] in *.
    destruct (Z.ltb_spec max_len (Z.of_nat (length xd))).
    + rewrite (read_bytes_take (length xd)) by lia. by rewrite E4.
    + rewrite Nat2Z.id, E4, take_ge by lia. done.
  - set (m1 := st8 23682 _ m). set (m2 := st8 23683 _ m1).
    assert (E0 : forall y, y < 23682 -> ld8 m2 y = ld8 m y).
    { intros y Hy. unfold m2, m1. rewrite !ld8_st8. repeat case_z; lia || done. }
    assert (Eh : srv_head m2 = (srv_head m + 1) mod 16).
    { unfold m2, m1, srv_head at 1. rewrite !ld8_st8. simpl. apply u8_small. unfold UDP_MAX_QUEUE. zlia. }
    split.
    + rewrite <- (qr_port _ _ _ Q). apply ld16_ext. intros y Hy. apply E0. lia.
    + rewrite Eh. apply Z.mod_pos_bound. lia.
    + unfold m2, srv_count at 1. rewrite ld8_st8. simpl. unfold m1, srv_count at 1. rewrite ld8_st8.
      simpl. fold (srv_count m). rewrite Ec, u8_small; lia.
    + lia.
    + intros j y Hj. rewrite Eh. replace (((srv_head m + 1) mod 16 + Z.of_nat j) mod 16)
        with ((srv_head m + Z.of_nat (S j)) mod 16) by zlia.
      apply (slot_same m); [|by apply (qr_slots _ _ _ Q (S j))]. intros z Hz. symmetry. apply E0.
      pose proof (Z.mod_pos_bound (srv_head m + Z.of_nat (S j)) 16 ltac:(lia)).
      unfold dgram_at, sizeof_udp_dgram_t in Hz. lia.
Qed.

(** * The system calls' view: sequences of deliveries and receives *)

Lemma find_server_found port : forall l k i,
  find_server port k l = Some i ->
  exists j m, i = (k + j)%nat /\ l !! j = Some (Some m) /\ srv_port m = port.
Proof.
  induction l as [|[m|] l IH]; intros k i; simpl; [done| |].
  - destruct (Z.eqb_spec (srv_port m) port).
    + intros [= <-]. exists 0%nat, m. split; [lia|done].
    + intros E. destruct (IH _ _ E) as (j & m' & -> & ? & ?). exists (S j), m'. split; [lia|done].
  - intros E. destruct (IH _ _ E) as (j & m' & -> & ? & ?). exists (S j), m'. split; [lia|done].
Qed.

Lemma find_server_insert port m' : forall l k j,
  find_server port k l = Some (k + j)%nat -> srv_port m' = port ->
  find_server port k (<[j := Some m']> l) = Some (k + j)%nat.
Proof.
  induction l as [|o l IH]; intros k j Hf Hp; [done|].
  destruct j as [|j]; simpl in *.
  - destruct (Z.eqb_spec (srv_port m') port); [f_equal; lia|done].
  - assert (E : forall z, find_server port (S k) l = Some z -> Some z = Some (k + S j)%nat ->
      find_server port (S k) (<[j := Some m']> l) = Some (k + S j)%nat).
    { intros z Hz Ez. replace (k + S j)%nat with (S k + j)%nat by lia. apply IH; [|done].
      rewrite Hz, Ez. f_equal. lia. }
    destruct o as [m|]; [|by eapply E]. destruct (srv_port m =? port) eqn:Em; [|by eapply E].
    injection Hf. lia.
Qed.

Inductive qop := Push (x : dgram) | Pop (max_len : Z).

Definition qop_ok (o : qop) : Prop :=
  match o with
  | Push x => dgram_ok x /\ Z.of_nat (length x.2) <= UDP_MAX_DGRAM
  | Pop n => 0 <= n
  end.

(** The specification: a first-in first-out queue of at most 16 datagrams. *)
Fixpoint fifo_run (ops : list qop) (q : list dgram) : list (option dgram) * list dgram :=
  match ops with
  | [] => ([], q)
  | Push x :: ops' => fifo_run ops' (fifo_push x q)
  | Pop n :: ops' =>
      let '(out, q1) := fifo_run ops' (tail q) in
      (option_map (truncate n) (head q) :: out, q1)
  end.

Section Refinement.
Context {N : Type}.
Abbreviation NM := (M (net N)).

Fixpoint udp_run (i : nat) (port : Z) (ops : list qop) : NM (list (option dgram)) :=
  match ops with
  | [] => mret []
  | Push x :: ops' => udp_server_enqueue i x.1.1 x.1.2 x.2 ;; udp_run i port ops'
  | Pop n :: ops' =>
      r ← udp_server_recv port n;
      out ← udp_run i port ops';
      mret (r :: out)
  end.

(** The server of [port] is number [i] and holds [q]. *)
Definition serves (s : net N) (i : nat) (port : Z) (q : list dgram) : Prop :=
  udp_find_server port s = Some i /\
  exists m, udp_servers s !! i = Some (Some m) /\ queue_repr m port q.

Lemma serves_set s i port m m' q q' :
  serves s i port q -> udp_servers s !! i = Some (Some m) -> queue_repr m' port q' ->
  serves (set_servers (<[i := Some m']> (udp_servers s)) s) i port q'.
Proof.
  intros (Hf & _) Hi Q. split.
  - apply (find_server_insert port m' (udp_servers s) 0 i); [exact Hf|apply Q].
  - exists m'. split; [|done]. simpl. apply list_lookup_insert_eq. by eapply lookup_lt_Some.
Qed.

Lemma push_serves s i port q x :
  serves s i port q -> qop_ok (Push x) ->
  exists s', udp_server_enqueue i x.1.1 x.1.2 x.2 s = Ret tt s' /\ serves s' i port (fifo_push x q)
    /\ woken s' = woken s ++ (if (length q <? 16)%nat then [WPort port] else []).
Proof.
  intros Hs [Hx Hl]. pose proof Hs as (Hf & m & Hm & Q). unfold udp_server_enqueue. rewrite Hm.
  unfold fifo_push. rewrite (qr_count _ _ _ Q). change UDP_MAX_QUEUE with 16.
  destruct (Z.leb_spec 16 (Z.of_nat (length q))), (Nat.ltb_spec (length q) 16); try lia.
  - exists s. split; [done|]. split; [done|]. by rewrite app_nil_r.
  - eexists. split; [done|]. split.
    + apply (serves_set s i port m _ q); [done|done|by apply enqueue_repr].
    + simpl. by rewrite (qr_port _ _ _ Q).
Qed.

Lemma pop_serves s i port q n :
  serves s i port q -> 0 <= n ->
  exists s', udp_server_recv port n s = Ret (option_map (truncate n) (head q)) s'
    /\ serves s' i port (tail q).
Proof.
  intros Hs Hn. pose proof Hs as (Hf & m & Hm & Q). unfold udp_server_recv. rewrite Hf, Hm.
  rewrite (qr_count _ _ _ Q). destruct q as [|x q].
  - exists s. done.
  - destruct (Z.eqb_spec (Z.of_nat (length (x :: q))) 0); [simpl in *; lia|].
    destruct (dequeue_repr m port x q n Q Hn) as [E Q']. destruct (dequeue_ram n m) as [y m'].
    simpl in E, Q'. subst y. eexists. split; [done|]. by apply (serves_set s i port m _ (x :: q)).
Qed.

(** C8: [udp_server_enqueue] and [udp_server_recv] implement a first-in
    first-out queue of at most 16 datagrams: over any sequence of deliveries (of
    at most 1472 bytes) and receives, every receive returns exactly what the
    abstract queue returns, source address and port included, cut to the
    reader's buffer; a delivery to a full queue is dropped. *)
Theorem udp_queue_refines_fifo s i port q ops :
  serves s i port q -> Forall qop_ok ops ->
  exists s', udp_run i port ops s = Ret (fifo_run ops q).1 s'
    /\ serves s' i port (fifo_run ops q).2.
Proof.
  intros Hs Ho. revert s q Hs. induction Ho as [|[x|n] ops Hok Ho IH]; intros s q Hs; simpl.
  - by exists s.
  - destruct (push_serves s i port q x Hs Hok) as (s1 & E1 & Hs1 & _).
    destruct (IH s1 _ Hs1) as (s' & E & Hs'). exists s'. by rewrite (bind_ret _ _ _ _ _ E1).
  - destruct (pop_serves s i port q n Hs Hok) as (s1 & E1 & Hs1).
    destruct (IH s1 _ Hs1) as (s' & E & Hs'). exists s'. rewrite (bind_ret _ _ _ _ _ E1).
    destruct (fifo_run ops (tail q)) as [out q1]. by rewrite (bind_ret _ _ _ _ _ E).
Qed.

End Refinement.

(** [udp_server_enqueue] does not bound the copy by the 1472 bytes of a
    slot: a datagram of 1474 bytes that lands in the last slot replaces the
    queue's own head index and count. *)
Theorem udp_enqueue_overwrites_queue m sip sport payload :
  (srv_head m + srv_count m) mod 16 = 15 -> length sip = 4%nat -> bytes_ok payload ->
  length payload = 1474%nat ->
  let m' := enqueue_ram sip sport payload m in
  srv_head m' = char_at payload 1472 /\ srv_count m' = u8 (char_at payload 1473 + 1).
Proof.
  intros Hs L4 Hb Hl m'. unfold m', enqueue_ram. change UDP_MAX_QUEUE with 16. rewrite Hs.
  change (dgram_at 15) with 22202. change (22202 + 8) with 22210.
  set (m3 := st16 _ _ _). split.
  - unfold srv_head at 1. rewrite ld8_st8. change (23682 =? 23683) with false. cbv iota.
    rewrite ld8_write_bytes by (done || rewrite Hl; lia). done.
  - unfold srv_count at 1. rewrite ld8_st8, Z.eqb_refl. unfold srv_count.
    rewrite ld8_write_bytes by (done || rewrite Hl; lia). done.
Qed.

(** * Witnesses *)

Definition demo_server : ram := st16 0 7 ∅.
Definition demo_dgram : dgram := ([10; 0; 2; 2], 5000, [104; 105]).

Lemma demo_server_repr : queue_repr demo_server 7 [].
Proof. split; first [vm_compute; done|split; vm_compute; done|simpl; lia|done]. Qed.

Lemma demo_dgram_ok : dgram_ok demo_dgram.
Proof.
  split; [done|]. split; [repeat constructor; lia|]. split; [simpl; lia|repeat constructor; lia].
Qed.

Definition demo_net : net unit :=
  mkNet (mkArpState [] [] false) (mkIpState [] false [] [] false) [] [None; Some demo_server] 1 [] tt [].

Lemma udp_queue_refines_fifo_witness :
  serves demo_net 1 7 [] /\
  exists s', udp_run 1 7 [Push demo_dgram; Pop 1472; Pop 10] demo_net = Ret [Some demo_dgram; None] s'
    /\ serves s' 1 7 [].
Proof.
  assert (S0 : serves demo_net 1 7 []).
  { split; [reflexivity|]. exists demo_server. split; [done|apply demo_server_repr]. }
  split; [done|].
  apply (udp_queue_refines_fifo demo_net 1 7 [] [Push demo_dgram; Pop 1472; Pop 10] S0).
  constructor; [split; [apply demo_dgram_ok|unfold UDP_MAX_DGRAM; simpl; lia]|].
  constructor; [simpl; lia|]. constructor; [simpl; lia|constructor].
Defined.

Lemma udp_enqueue_overwrites_queue_witness :
  srv_count (enqueue_ram [10; 0; 2; 2] 5000 (replicate 1474 0) (st8 23682 15 demo_server)) = 1.
Proof.
  destruct (udp_enqueue_overwrites_queue (st8 23682 15 demo_server) [10; 0; 2; 2] 5000 (replicate 1474 0))
    as [_ E].
  - vm_compute. reflexivity.
  - reflexivity.
  - apply Forall_replicate. lia.
  - apply length_replicate.
  - exact E.
Defined.
