(* ===== verification/NetProofs.v ===== *)
(** What the protocol layers guarantee: header round trips, delivery of the
    frames the stack itself builds, and what is dropped. *)
From S2P Require Import Prelude Utils Checksum Net UdpQueue.

(** * Header round trips *)

Lemma f16_le16 v : in_u16 v -> v mod 256 + 256 * (v / 256 mod 256) = v.
Proof. intros. zlia. Qed.

Lemma le16_htons v : in_u16 v -> le16 (htons v) = [v / 256; v mod 256].
Proof. intros Hv. unfold le16. rewrite htons_spec by done. f_equal; [zlia|]. f_equal. zlia. Qed.

(** Lists of known length, as explicit lists. *)
Ltac explode l :=
  lazymatch goal with
  | H : length l = 0%nat |- _ => destruct l; [clear H|discriminate H]
  | H : length l = S _ |- _ =>
      let x := fresh "x" in let l' := fresh "l" in
      destruct l as [|x l']; [discriminate H|]; injection H as H; explode l'
  end.

Definition eth_ok (e : eth_hdr) : Prop :=
  length (eth_dst e) = 6%nat /\ length (eth_src e) = 6%nat /\ in_u16 (eth_type e).
Definition arp_ok (p : arp_pkt) : Prop :=
  in_u16 (htype p) /\ in_u16 (ptype p) /\ in_u16 (opcode p) /\
  length (sender_mac p) = 6%nat /\ length (sender_ip p) = 4%nat /\
  length (target_mac p) = 6%nat /\ length (target_ip p) = 4%nat.
Definition ipv4_ok (h : ipv4_hdr) : Prop :=
  in_u16 (total_length h) /\ in_u16 (identification h) /\ in_u16 (flags_fragment_offset h) /\
  in_u16 (header_checksum h) /\ length (src_ip h) = 4%nat /\ length (dst_ip h) = 4%nat.
Definition udp_ok (u : udp_hdr) : Prop :=
  in_u16 (src_port u) /\ in_u16 (dst_port u) /\ in_u16 (dgram_len u) /\ in_u16 (dgram_cksum u).
Definition icmp_ok (i : icmp_echo_hdr) : Prop :=
  in_u16 (icmp_cksum i) /\ in_u16 (icmp_ident i) /\ in_u16 (icmp_seq i).

Lemma eth_of_bytes e rest : eth_ok e -> eth_of (eth_bytes e ++ rest) = e /\ length (eth_bytes e) = 14%nat.
Proof.
  destruct e as [d s t]. unfold eth_ok. simpl. intros (Hd & Hs & Ht). explode d. explode s.
  split; [|done]. unfold eth_of, f16, char_at, slice. simpl. by rewrite f16_le16.
Qed.

Lemma arp_of_bytes p rest : arp_ok p -> arp_of (arp_bytes p ++ rest) = p /\ length (arp_bytes p) = 28%nat.
Proof.
  destruct p as [a b c d e sm si tm ti]. unfold arp_ok. simpl. intros (? & ? & ? & H1 & H2 & H3 & H4).
  explode sm. explode si. explode tm. explode ti.
  split; [|done]. unfold arp_of, f16, char_at, slice. simpl. by rewrite !f16_le16.
Qed.

Lemma ipv4_of_bytes h rest :
  ipv4_ok h -> ipv4_of (ipv4_bytes h ++ rest) = h /\ length (ipv4_bytes h) = 20%nat.
Proof.
  destruct h as [a b c d e f g k si di]. unfold ipv4_ok. simpl. intros (? & ? & ? & ? & H1 & H2).
  explode si. explode di. split; [|done]. unfold ipv4_of, f16, char_at, slice. simpl. by rewrite !f16_le16.
Qed.

Lemma udp_of_bytes u rest : udp_ok u -> udp_of (udp_bytes u ++ rest) = u /\ length (udp_bytes u) = 8%nat.
Proof.
  destruct u as [a b c d]. unfold udp_ok. simpl. intros (? & ? & ? & ?).
  split; [|done]. unfold udp_of, f16, char_at. simpl. by rewrite !f16_le16.
Qed.

Lemma icmp_of_bytes i rest :
  icmp_ok i -> icmp_of (icmp_bytes i ++ rest) = i /\ length (icmp_bytes i) = 8%nat.
Proof.
  destruct i as [a b c d e]. unfold icmp_ok. simpl. intros (? & ? & ?).
  split; [|done]. unfold icmp_of, f16, char_at. simpl. by rewrite !f16_le16.
Qed.

Lemma slice_app a b c : slice (length a) (length b) (a ++ b ++ c) = b.
Proof. unfold slice. rewrite drop_app_length. apply take_app_length. Qed.

Lemma u16_htons v : in_u16 v -> in_u16 (htons v).
Proof. apply htons_range. Qed.
#[export] Hint Resolve u16_htons : mboot.

(** * Receiving an IPv4 frame *)

Section Receive.
Context {N : Type} `{Nic N}.
Context (call_handler : Z -> list Z -> Z -> list Z -> Z -> list Z -> net N -> net N).

Lemma ipv4_header_ok sip dip proto ident plen ck :
  length sip = 4%nat -> length dip = 4%nat -> in_u16 (20 + plen) -> in_u16 ident -> in_u16 ck ->
  ipv4_ok (ipv4_header sip dip proto ident plen ck).
Proof.
  intros. unfold ipv4_ok, ipv4_header. simpl. split; [by apply u16_htons|].
  split; [by apply u16_htons|]. split; [vm_compute; split; congruence|]. done.
Qed.

Lemma ipv4_checksum_range l : in_u16 (ipv4_checksum l).
Proof. unfold ipv4_checksum. apply u16_range. Qed.

Lemma udp_checksum_range a b l : in_u16 (udp_checksum a b l).
Proof. unfold udp_checksum. apply u16_range. Qed.

(** The bytes that are summed are the header with a zero checksum. *)
Lemma clear_checksum_bytes sip dip proto ident plen ck :
  length sip = 4%nat -> length dip = 4%nat ->
  clear_checksum (ipv4_bytes (ipv4_header sip dip proto ident plen ck))
  = ipv4_bytes (ipv4_header sip dip proto ident plen 0).
Proof. intros H1 H2. explode sip. explode dip. done. Qed.

Definition dispatch (h : ipv4_hdr) (payload : list Z) : M (net N) unit :=
  if protocol h =? IPV4_PROTOCOL_ICMP then icmp_process_packet h payload
  else if protocol h =? IPV4_PROTOCOL_UDP then udp_process_packet call_handler h payload
  else mret tt.

(** The checks of [ipv4_process_packet] accept a header the stack builds. *)
Lemma ipv4_accepts sip dip proto ident payload pad s :
  length sip = 4%nat -> length dip = 4%nat -> in_u16 ident ->
  20 + Z.of_nat (length payload) < 65536 -> ipv4_is_local_address dip s = true ->
  let plen := Z.of_nat (length payload) in
  let ck := htons (ipv4_checksum (ipv4_bytes (ipv4_header sip dip proto ident plen 0))) in
  let h := ipv4_header sip dip proto ident plen ck in
  ipv4_process_packet call_handler (ipv4_bytes h ++ payload ++ pad) s = dispatch h payload s.
Proof.
  intros Hs Hd Hi Hl Hloc plen ck h.
  assert (Hck : in_u16 ck) by (apply u16_htons, ipv4_checksum_range).
  assert (Hok : ipv4_ok h) by (apply ipv4_header_ok; try done; lia).
  destruct (ipv4_of_bytes h (payload ++ pad) Hok) as [Eh Lh].
  unfold ipv4_process_packet. rewrite Eh, length_app, Lh, length_app.
  change (Z.shiftr (version_ihl h) 4) with 4. change (Z.to_nat (Z.land (version_ihl h) 15 * 4)) with 20%nat.
  change (total_length h) with (htons (20 + plen)). rewrite htons_involutive by lia.
  replace (Z.to_nat (20 + plen)) with (20 + length payload)%nat by lia.
  unfold sizeof_ipv4_hdr. change (20 <? 20)%nat with false.
  destruct (Nat.ltb_spec (20 + (length payload + length pad)) 20); [lia|].
  destruct (Nat.ltb_spec (20 + length payload) 20); [lia|].
  destruct (Nat.ltb_spec (20 + (length payload + length pad)) (20 + length payload)); [lia|].
  cbn [negb orb Z.eqb Pos.eqb].
  replace (take 20 (ipv4_bytes h ++ payload ++ pad)) with (ipv4_bytes h)
    by (rewrite <- Lh; symmetry; apply take_app_length).
  unfold h at 2. rewrite clear_checksum_bytes by done. fold plen.
  change (header_checksum h) with ck. unfold ck at 1. rewrite Z.eqb_refl. cbn [negb].
  change (flags_fragment_offset h) with (htons 16384). rewrite htons_involutive by lia.
  change (Z.land 16384 16383 =? 0) with true. change (Z.land 16384 8192 =? 0) with true. cbn [negb orb].
  change (dst_ip h) with dip. rewrite Hloc, andb_false_r. cbn [negb andb].
  replace (slice 20 (20 + length payload - 20) (ipv4_bytes h ++ payload ++ pad)) with payload
    by (rewrite <- Lh at 1; replace (20 + length payload - 20)%nat with (length payload) by lia;
        by rewrite slice_app).
  unfold dispatch. by repeat case_z.
Qed.

(** An Ethernet frame with an IPv4 type reaches the IPv4 layer. *)
Lemma eth_accepts_ipv4 dst mac data s :
  length dst = 6%nat -> length mac = 6%nat ->
  eth_process_packet call_handler (eth_bytes (mkEth dst mac (htons 2048)) ++ data) s
  = ipv4_process_packet call_handler data s.
Proof.
  intros Hd Hm. assert (Hok : eth_ok (mkEth dst mac (htons 2048))).
  { split; [done|]. split; [done|]. simpl. by apply u16_htons. }
  destruct (eth_of_bytes _ data Hok) as [Ee Le]. unfold eth_process_packet.
  rewrite Ee, length_app, Le. cbn [eth_type]. rewrite htons_involutive by lia.
  unfold sizeof_eth_hdr. destruct (Nat.ltb_spec (14 + length data) 14); [lia|].
  set (hd := eth_bytes _) in *. replace (drop 14 (hd ++ data)) with data
    by (rewrite <- Le; symmetry; apply drop_app_length). done.
Qed.

(** ** UDP *)

Definition udp_wire (sport dport len ck : Z) : udp_hdr :=
  mkUdp (htons sport) (htons dport) (htons len) (htons ck).

Lemma total_udp_segment sport dport len ck payload :
  in_u16 sport -> in_u16 dport -> in_u16 len -> in_u16 ck -> bytes_ok payload ->
  let seg := udp_bytes (udp_wire sport dport len ck) ++ payload in
  total seg = sport + dport + len + ck + total payload /\ bytes_ok seg.
Proof.
  intros Hs Hd Hl Hc Hp seg. unfold seg, udp_bytes, udp_wire.
  cbn [src_port dst_port dgram_len dgram_cksum]. rewrite !le16_htons by done. simpl. split.
  - zlia.
  - repeat (apply Forall_cons; split; [zlia|]). done.
Qed.

(** The checksum that is sent passes the receiver's test, also when it had to
    be replaced by 0xFFFF. *)
Lemma sent_checksum_valid sip dip sport dport payload :
  length sip = 4%nat -> length dip = 4%nat -> bytes_ok sip -> bytes_ok dip -> bytes_ok payload ->
  in_u16 sport -> in_u16 dport -> 8 + Z.of_nat (length payload) < 65536 ->
  let len := 8 + Z.of_nat (length payload) in
  let seg ck := udp_bytes (udp_wire sport dport len ck) ++ payload in
  let c := udp_checksum sip dip (seg 0) in
  let ck := if c =? 0 then 65535 else c in
  udp_checksum_valid sip dip (seg ck) = true /\ in_u16 ck /\ ck <> 0.
Proof.
  intros Ls Ld Bs Bd Bp Hs Hd Hl len seg c ck.
  assert (Hlen : in_u16 len) by lia.
  assert (L : forall k, Z.of_nat (length (seg k)) = len).
  { intros k. unfold seg, udp_bytes, le16. simpl. lia. }
  destruct (total_udp_segment sport dport len 0 payload Hs Hd Hlen ltac:(lia) Bp) as [T0 B0]. fold (seg 0) in T0, B0.
  assert (Hc : in_u16 c) by apply udp_checksum_range.
  assert (Hck : in_u16 ck) by (unfold ck; case_z; lia).
  destruct (total_udp_segment sport dport len ck payload Hs Hd Hlen Hck Bp) as [T1 B1]. fold (seg ck) in T1, B1.
  split; [|split; [done|unfold ck; case_z; lia]].
  unfold udp_checksum_valid. rewrite udp_checksum_val by (done || rewrite L; lia).
  assert (Ec : c = 65535 - ones (pseudo sip dip len + total (seg 0))).
  { unfold c. rewrite udp_checksum_val by (done || rewrite L; lia). by rewrite L. }
  assert (Hpos : 0 < pseudo sip dip len + total (seg 0)).
  { unfold pseudo. pose proof (total_bounds (take 4 sip) (Forall_take _ _ _ Bs)).
    pose proof (total_bounds (take 4 dip) (Forall_take _ _ _ Bd)). pose proof (total_bounds _ B0). lia. }
  rewrite L. replace (pseudo sip dip len + total (seg ck)) with (pseudo sip dip len + total (seg 0) + ck) by lia.
  apply Z.eqb_eq. unfold ck. destruct (Z.eqb_spec c 0).
  - rewrite ones_add_ffff by done. lia.
  - rewrite Ec, ones_complement by lia. done.
Qed.

Lemma udp_segment_eq sip dip sport dport payload :
  8 + Z.of_nat (length payload) < 65536 ->
  let len := 8 + Z.of_nat (length payload) in
  let seg ck := udp_bytes (udp_wire sport dport len ck) ++ payload in
  let c := udp_checksum sip dip (seg 0) in
  udp_segment sip dip sport dport payload = seg (if c =? 0 then 65535 else c).
Proof.
  intros Hl len seg c. unfold udp_segment. rewrite u16_small by lia. fold len.
  replace (take _ _) with (seg 0); [done|]. symmetry. apply take_ge.
  unfold seg, udp_bytes, le16. simpl. lia.
Qed.

Lemma length_udp_segment sip dip sport dport payload :
  8 + Z.of_nat (length payload) < 65536 ->
  Z.of_nat (length (udp_segment sip dip sport dport payload)) = 8 + Z.of_nat (length payload).
Proof.
  intros Hl. pose proof (udp_segment_eq sip dip sport dport payload Hl) as Es. cbv zeta in Es.
  rewrite Es, length_app. unfold udp_bytes, le16. cbn [length app]. lia.
Qed.

(** A received segment that the stack built is queued for its port. *)
Lemma udp_accepts h sport dport payload s i :
  let sip := src_ip h in let dip := dst_ip h in
  length sip = 4%nat -> length dip = 4%nat -> bytes_ok sip -> bytes_ok dip -> bytes_ok payload ->
  in_u16 sport -> in_u16 dport -> 8 + Z.of_nat (length payload) < 65536 ->
  udp_find_server dport s = Some i ->
  udp_process_packet call_handler h (udp_segment sip dip sport dport payload) s
  = udp_server_enqueue i sip sport payload s.
Proof.
  intros sip dip Ls Ld Bs Bd Bp Hs Hd Hl Hf.
  pose proof (udp_segment_eq sip dip sport dport payload Hl) as Es. cbv zeta in Es. rewrite Es. clear Es.
  destruct (sent_checksum_valid sip dip sport dport payload) as (V & Hck & Hnz); try done.
  set (len := 8 + Z.of_nat (length payload)) in *. set (ck := if _ =? 0 then 65535 else _) in *.
  assert (Hok : udp_ok (udp_wire sport dport len ck)).
  { unfold udp_ok, udp_wire. simpl. unfold len. repeat split; apply u16_htons; lia. }
  destruct (udp_of_bytes _ payload Hok) as [Eu Lu]. unfold udp_process_packet.
  rewrite Eu, length_app, Lu. set (w := udp_wire sport dport len ck) in *.
  change (src_port w) with (htons sport). change (dst_port w) with (htons dport).
  change (dgram_len w) with (htons len). change (dgram_cksum w) with (htons ck).
  rewrite !htons_involutive by (done || unfold len; lia). unfold sizeof_udp_hdr.
  replace (Z.to_nat len) with (8 + length payload)%nat by (unfold len; lia).
  destruct (Nat.ltb_spec (8 + length payload) 8); [lia|].
  destruct (Nat.ltb_spec (8 + length payload) (8 + length payload)); [lia|]. cbn [orb].
  assert (Hh : htons ck <> 0).
  { intros E. apply Hnz. rewrite <- (htons_involutive ck Hck), E. done. }
  destruct (Z.eqb_spec (htons ck) 0); [done|]. cbn [negb andb].
  rewrite take_ge by (rewrite length_app, Lu; lia). fold sip dip. rewrite V. cbn [negb]. rewrite Hf.
  f_equal. rewrite <- (app_nil_r (udp_bytes _ ++ payload)), <- app_assoc, <- Lu at 1.
  replace (8 + length payload - 8)%nat with (length payload) by lia. apply slice_app.
Qed.

(** The frame of a datagram, received by its destination. *)
Lemma udp_frame_delivered mac next_hop sip dip ident sport dport payload s i :
  length mac = 6%nat -> length next_hop = 6%nat -> length sip = 4%nat -> length dip = 4%nat ->
  bytes_ok sip -> bytes_ok dip -> bytes_ok payload ->
  in_u16 ident -> in_u16 sport -> in_u16 dport -> 28 + Z.of_nat (length payload) < 65536 ->
  ipv4_is_local_address dip s = true -> udp_find_server dport s = Some i ->
  eth_process_packet call_handler
    (ipv4_frame mac next_hop sip dip IPV4_PROTOCOL_UDP ident (udp_segment sip dip sport dport payload)) s
  = udp_server_enqueue i sip sport payload s.
Proof.
  intros Lm Ln Ls Ld Bs Bd Bp Hi Hs Hd Hl Hloc Hf.
  assert (Lseg : Z.of_nat (length (udp_segment sip dip sport dport payload)) = 8 + Z.of_nat (length payload)).
  { apply length_udp_segment. lia. }
  unfold ipv4_frame, pad_to. rewrite <- app_assoc, eth_accepts_ipv4 by done.
  rewrite <- app_assoc, ipv4_accepts by (done || lia). unfold dispatch.
  change (protocol _ =? IPV4_PROTOCOL_ICMP) with false. change (protocol _ =? IPV4_PROTOCOL_UDP) with true.
  cbv iota. set (h := ipv4_header _ _ _ _ _ _).
  change sip with (src_ip h). change dip with (dst_ip h). apply udp_accepts; try done. lia.
Qed.

(** What [udp_send_local] does when the next hop is in the ARP cache. *)
Lemma udp_send_cached fuel polls sport dip dport payload (s : net N) sip hop mac :
  8 + Z.of_nat (length payload) < 65536 ->
  ipv4_get_address s = Some sip ->
  (if ipv4_on_local_network dip s then Some dip else ipv4_get_gateway s) = Some hop ->
  arp_try_get_mac hop s = Some mac ->
  let frame := ipv4_frame (nic_mac (nic s)) mac sip dip IPV4_PROTOCOL_UDP (udp_tx_identification s)
                 (udp_segment sip dip sport dport payload) in
  udp_send_local call_handler fuel polls sport dip dport payload s
  = let '(r, n) := nic_send frame (nic s) in
    Ret r (set_nic n (set_ident (u16 (udp_tx_identification s + 1)) s)).
Proof.
  intros Hl Ha Hh Hm frame. unfold udp_send_local, udp_send. rewrite Ha.
  assert (T : take (Z.to_nat (u16 (8 + Z.of_nat (length payload)))) (udp_segment sip dip sport dport payload)
              = udp_segment sip dip sport dport payload).
  { apply take_ge. rewrite u16_small by lia.
    pose proof (length_udp_segment sip dip sport dport payload Hl). lia. }
  assert (R : arp_resolve call_handler fuel polls hop s = Ret (Some mac) s)
    by (unfold arp_resolve; by rewrite Hm).
  assert (E : udp_transmit sip dip mac sport dport payload s
    = let '(r, n) := nic_send frame (nic s) in
      Ret r (set_nic n (set_ident (u16 (udp_tx_identification s + 1)) s))).
  { unfold udp_transmit. rewrite T. done. }
  destruct (ipv4_on_local_network dip s).
  - injection Hh as ->. rewrite (bind_ret _ _ _ _ _ R). exact E.
  - rewrite Hh, (bind_ret _ _ _ _ _ R). exact E.
Qed.

(** A datagram sent by this stack is delivered by this stack. [udp_send_local]
    on host [a], with the next hop in its ARP cache, hands exactly one frame to
    the adapter; when host [b], which has the destination address and a server
    on the destination port, receives that frame, it passes all Ethernet, IPv4
    and UDP checks (lengths, padding, both checksums) and is queued with the
    sender's address, port and exact payload. *)
Theorem udp_end_to_end fuel polls sport dip dport payload (a b : net N) sip hop mac i :
  ipv4_get_address a = Some sip ->
  (if ipv4_on_local_network dip a then Some dip else ipv4_get_gateway a) = Some hop ->
  arp_try_get_mac hop a = Some mac ->
  length (nic_mac (nic a)) = 6%nat -> length mac = 6%nat -> length sip = 4%nat -> length dip = 4%nat ->
  bytes_ok sip -> bytes_ok dip -> bytes_ok payload -> in_u16 (udp_tx_identification a) ->
  in_u16 sport -> in_u16 dport -> 28 + Z.of_nat (length payload) < 65536 ->
  ipv4_is_local_address dip b = true -> udp_find_server dport b = Some i ->
  exists frame,
    udp_send_local call_handler fuel polls sport dip dport payload a
    = (let '(r, n) := nic_send frame (nic a) in
       Ret r (set_nic n (set_ident (u16 (udp_tx_identification a + 1)) a)))
    /\ eth_process_packet call_handler frame b = udp_server_enqueue i sip sport payload b.
Proof.
  intros Ha Hh Hm Lm Ln Ls Ld Bs Bd Bp Hi Hs Hd Hl Hloc Hf. eexists. split.
  - apply (udp_send_cached fuel polls sport dip dport payload a sip hop mac); [lia|done..].
  - by apply udp_frame_delivered.
Qed.

(** ** ARP *)

Lemma eth_accepts_arp dst mac op sip tmac tip s :
  length dst = 6%nat -> length mac = 6%nat -> in_u16 op -> length sip = 4%nat ->
  length tmac = 6%nat -> length tip = 4%nat ->
  eth_process_packet call_handler (arp_frame dst mac op sip tmac tip) s
  = (arp_update_cache sip mac ;;
     if op =? 1 then
       local ← gets (ipv4_is_local_address tip);
       if (local : bool) then arp_send_reply mac tip sip ;; mret tt else mret tt
     else mret tt) s.
Proof.
  intros Ld Lm Ho Ls Lt Lp. unfold arp_frame, pad_to.
  set (e := mkEth dst mac (htons 2054)). set (p := mkArp (htons 1) (htons 2048) 6 4 (htons op) mac sip tmac tip).
  assert (Hp : arp_ok p).
  { unfold arp_ok, p. simpl. repeat split; try done; try (vm_compute; congruence); apply u16_htons; done. }
  assert (He : eth_ok e) by (unfold eth_ok, e; simpl; split; [done|]; split; [done|]; by apply u16_htons).
  rewrite <- app_assoc. set (pad := replicate _ _).
  destruct (eth_of_bytes e (arp_bytes p ++ pad) He) as [Ee Le].
  destruct (arp_of_bytes p pad Hp) as [Ep Lpp].
  unfold eth_process_packet. rewrite Ee, !length_app, Le, Lpp.
  unfold sizeof_eth_hdr. destruct (Nat.ltb_spec (14 + (28 + length pad)) 14); [lia|].
  replace (drop 14 (eth_bytes e ++ arp_bytes p ++ pad)) with (arp_bytes p ++ pad)
    by (rewrite <- Le; symmetry; apply drop_app_length).
  change (eth_type e) with (htons 2054). rewrite htons_involutive by lia.
  change (2054 =? 2054) with true. cbv iota. unfold arp_process_packet. rewrite Ep, length_app, Lpp.
  unfold sizeof_arp_pkt. destruct (Nat.ltb_spec (28 + length pad) 28); [lia|].
  change (opcode p) with (htons op). rewrite htons_involutive by done. done.
Qed.

(** C32: The ARP exchange. A request for an address of host [b] makes [b] send
    exactly the reply frame that names its hardware address, addressed to the
    requester; when the requester [a] receives that reply, [arp_try_get_mac]
    finds the hardware address of [b]. *)
Theorem arp_exchange (a b : net N) mac_a sip tip :
  length mac_a = 6%nat -> length (nic_mac (nic b)) = 6%nat -> length sip = 4%nat -> length tip = 4%nat ->
  ipv4_is_local_address tip b = true ->
  let reply := arp_frame mac_a (nic_mac (nic b)) 2 tip mac_a sip in
  eth_process_packet call_handler (arp_frame (replicate 6 255) mac_a 1 sip (replicate 6 0) tip) b
  = Ret tt (set_nic (nic_send reply (nic b)).2 (set_arp (mkArpState sip mac_a true) b))
  /\ exists a', eth_process_packet call_handler reply a = Ret tt a'
     /\ arp_try_get_mac tip a' = Some (nic_mac (nic b)).
Proof.
  intros La Lb Ls Lt Hloc reply. split.
  - rewrite eth_accepts_arp by (done || lia). cbn [Z.eqb Pos.eqb].
    unfold arp_update_cache, mbind, M_bind, modify, gets. cbn [nic set_arp].
    assert (E : ipv4_is_local_address tip (set_arp (mkArpState sip mac_a true) b) = true) by exact Hloc.
    rewrite E. unfold arp_send_reply, e1k_get_mac, e1k_send, mbind, M_bind, gets. cbn [nic set_arp].
    fold reply. by destruct (nic_send reply (nic b)).
  - eexists. split.
    + unfold reply. rewrite eth_accepts_arp by (done || lia). cbn [Z.eqb Pos.eqb]. reflexivity.
    + unfold arp_try_get_mac. cbn. unfold ip_equal, all4. by rewrite !Z.eqb_refl.
Qed.

(** ** What is dropped *)

(** The conditions under which a packet may have an effect. *)
Definition ipv4_well_formed (data : list Z) (s : net N) : Prop :=
  let h := ipv4_of data in
  let ihl := Z.land (version_ihl h) 15 * 4 in
  let tlen := htons (total_length h) in
  Z.shiftr (version_ihl h) 4 = 4 /\ 20 <= ihl <= tlen /\ tlen <= Z.of_nat (length data)
  /\ header_checksum h = htons (ipv4_checksum (clear_checksum (take (Z.to_nat ihl) data)))
  /\ Z.land (htons (flags_fragment_offset h)) 16383 = 0
  /\ (ipv4_local_ip_valid (ip s) = true ->
      ipv4_is_local_address (dst_ip h) s = true \/ all4 (fun i => char_at (dst_ip h) i =? 255) = true)
  /\ (protocol h = IPV4_PROTOCOL_ICMP \/ protocol h = IPV4_PROTOCOL_UDP).

(** C24: A received IPv4 packet changes nothing unless it is well formed: version
    4, a header of at least 20 bytes inside a total length inside the data, a
    matching header checksum, not a fragment, addressed to this host (or
    broadcast), and ICMP or UDP. *)
Theorem ipv4_drops_malformed data s :
  bytes_ok data ->
  ipv4_process_packet call_handler data s = Ret tt s \/ ipv4_well_formed data s.
Proof.
  intros Hb. unfold ipv4_process_packet.
  destruct (Nat.ltb_spec (length data) sizeof_ipv4_hdr) as [|L20]; [by left|]. cbv zeta.
  set (h := ipv4_of data).
  destruct (Z.eqb_spec (Z.shiftr (version_ihl h) 4) 4) as [Hv|]; [|by left].
  assert (Hi0 : 0 <= Z.land (version_ihl h) 15) by (apply Z.land_nonneg; lia).
  assert (Ht0 : 0 <= htons (total_length h)).
  { apply u16_htons. unfold h, ipv4_of, f16. cbn [total_length].
    assert (C : forall k, in_u8 (char_at data k)).
    { intros k. unfold char_at. destruct (data !! k) eqn:E; simpl; [|lia].
      by apply (Forall_lookup_1 _ _ _ _ Hb E). }
    pose proof (C 2%nat). pose proof (C 3%nat). lia. }
  destruct (Nat.ltb_spec (Z.to_nat (Z.land (version_ihl h) 15 * 4)) sizeof_ipv4_hdr); [by left|].
  destruct (Nat.ltb_spec (length data) (Z.to_nat (Z.land (version_ihl h) 15 * 4))); [by left|].
  destruct (Nat.ltb_spec (Z.to_nat (htons (total_length h))) (Z.to_nat (Z.land (version_ihl h) 15 * 4))); [by left|].
  destruct (Nat.ltb_spec (length data) (Z.to_nat (htons (total_length h)))); [by left|]. cbn [negb orb].
  set (hdr := clear_checksum _). destruct (Z.eqb_spec (header_checksum h) (htons (ipv4_checksum hdr))) as [Hck|]; [|by left].
  destruct (Z.eqb_spec (Z.land (htons (flags_fragment_offset h)) 16383) 0) as [Hfr|]; [|by left]. cbn [negb orb].
  destruct (Z.eqb_spec (Z.land (htons (flags_fragment_offset h)) 8192) 0); [|by left]. cbn [negb].
  destruct (ipv4_local_ip_valid (ip s) && negb (ipv4_is_local_address (dst_ip h) s)
            && negb (all4 (fun i => char_at (dst_ip h) i =? 255))) eqn:Hd; [by left|].
  unfold sizeof_ipv4_hdr in *.
  destruct (Z.eqb_spec (protocol h) IPV4_PROTOCOL_ICMP), (Z.eqb_spec (protocol h) IPV4_PROTOCOL_UDP); [..|by left].
  all: right; unfold ipv4_well_formed; cbv zeta; fold h; split; [done|]; split; [lia|]; split; [lia|]; split; [done|]; split; [done|]; split; [|auto];
    intros Hval; rewrite Hval in Hd; fold h;
    destruct (ipv4_is_local_address (dst_ip h) s), (all4 (fun i => char_at (dst_ip h) i =? 255)); auto.
Qed.

End Receive.

(** * Address resolution ends *)

(** An adapter with finitely many frames waiting: receiving consumes one,
    sending brings none. *)
Class NicBounded (N : Type) `{Nic N} := {
  nic_pending : N -> nat;
  recv_some : forall n f n', nic_recv n = (Some f, n') -> (nic_pending n' < nic_pending n)%nat;
  recv_none : forall n n', nic_recv n = (None, n') -> (nic_pending n' <= nic_pending n)%nat;
  send_pending : forall f n, (nic_pending (nic_send f n).2 <= nic_pending n)%nat
}.

Section Resolve.
Context {N : Type} `{NicBounded N}.
Context (call_handler : Z -> list Z -> Z -> list Z -> Z -> list Z -> net N -> net N).
Hypothesis handler_pending : forall f a b c d e s,
  (nic_pending (nic (call_handler f a b c d e s)) <= nic_pending (nic s))%nat.

(** The computation returns and leaves no more frames waiting. *)
Definition settles {A} (c : M (net N) A) : Prop := forall s,
  exists a s', c s = Ret a s' /\ (nic_pending (nic s') <= nic_pending (nic s))%nat.

Lemma settles_bind {A B} (c : M (net N) A) (k : A -> M (net N) B) :
  settles c -> (forall a, settles (k a)) -> settles (c ≫= k).
Proof.
  intros Hc Hk s. destruct (Hc s) as (a & s1 & E1 & L1). destruct (Hk a s1) as (b & s2 & E2 & L2).
  exists b, s2. rewrite (bind_ret _ _ _ _ _ E1). split; [done|lia].
Qed.

Lemma settles_ret {A} (a : A) : settles (mret a).
Proof. intros s. by exists a, s. Qed.

Lemma settles_send f : settles (e1k_send f).
Proof.
  intros s. unfold e1k_send. pose proof (send_pending f (nic s)).
  destruct (nic_send f (nic s)) as [r n]. by exists r, (set_nic n s).
Qed.

Lemma settles_arp data : settles (arp_process_packet data).
Proof.
  unfold arp_process_packet. destruct (_ <? _)%nat; [apply settles_ret|]. cbv zeta.
  apply settles_bind; [intros s; by eexists _, _|]. intros [].
  destruct (_ =? 1); [|apply settles_ret].
  apply settles_bind; [intros s; by eexists _, _|]. intros []; [|apply settles_ret].
  apply settles_bind; [|intros; apply settles_ret].
  apply settles_bind; [intros s; by eexists _, _|]. intros; apply settles_send.
Qed.

Lemma settles_icmp h d : settles (icmp_process_packet h d : M (net N) unit).
Proof.
  unfold icmp_process_packet. destruct (_ <? _)%nat; [apply settles_ret|]. cbv zeta.
  destruct (_ && _); [|apply settles_ret]. apply settles_bind; [|intros; apply settles_ret].
  intros s. unfold socket_icmp_rx. destruct (_ <? _)%nat; [by eexists _, _|].
  destruct (_ || _); [by eexists _, _|]. destruct (find_free _ _ _); [|by eexists _, _].
  destruct (_ !! _); by eexists _, _.
Qed.

Lemma settles_udp h d : settles (udp_process_packet call_handler h d).
Proof.
  intros s. unfold udp_process_packet. destruct (_ <? _)%nat; [by eexists _, _|].
  destruct (_ || _); [by eexists _, _|]. destruct (_ && _); [by eexists _, _|].
  destruct (udp_find_server _ s) as [i|].
  - unfold udp_server_enqueue. destruct (_ !! _) as [[m|]|]; [|by eexists _, _..].
    destruct (_ <=? _); by eexists _, _.
  - destruct (udp_find_handler _ s); [|by eexists _, _]. eexists _, _. split; [done|apply handler_pending].
Qed.

Lemma settles_eth f : settles (eth_process_packet call_handler f).
Proof.
  unfold eth_process_packet. destruct (_ <? _)%nat; [apply settles_ret|].
  destruct (_ =? 2054); [apply settles_arp|]. destruct (_ =? 2048); [|apply settles_ret].
  intros s. unfold ipv4_process_packet.
  repeat match goal with
  | |- context [if ?c then Ret tt s else _] => destruct c; [by eexists _, _|]
  end.
  destruct (_ =? IPV4_PROTOCOL_ICMP); [apply settles_icmp|].
  destruct (_ =? IPV4_PROTOCOL_UDP); [apply settles_udp|by eexists _, _].
Qed.

Lemma drain_settles fuel : forall s, (nic_pending (nic s) < fuel)%nat ->
  exists s', drain_rx call_handler fuel s = Ret tt s' /\ (nic_pending (nic s') <= nic_pending (nic s))%nat.
Proof.
  induction fuel as [|fuel IH]; intros s Hs; [lia|]. cbn [drain_rx].
  destruct (nic_recv (nic s)) as [[f|] n] eqn:E.
  - pose proof (recv_some _ _ _ E).
    destruct (settles_eth f (set_nic n s)) as ([] & s1 & E1 & L1). rewrite (bind_ret _ _ _ _ _ E1).
    cbn in L1. destruct (IH s1) as (s2 & E2 & L2); [lia|]. exists s2. split; [done|lia].
  - pose proof (recv_none _ _ E). eexists. split; [done|]. done.
Qed.

Lemma poll_settles fuel polls tip : forall s, (nic_pending (nic s) < fuel)%nat ->
  exists r s', arp_poll call_handler fuel polls tip s = Ret r s'
    /\ (nic_pending (nic s') <= nic_pending (nic s))%nat
    /\ forall mac, r = Some mac -> arp_try_get_mac tip s' = Some mac.
Proof.
  induction polls as [|p IH]; intros s Hs; cbn [arp_poll].
  - by exists None, s.
  - destruct (arp_try_get_mac tip s) as [mac|] eqn:E.
    + exists (Some mac), s. split; [done|]. split; [done|]. by intros ? [= <-].
    + destruct (drain_settles fuel s Hs) as (s1 & E1 & L1). rewrite (bind_ret _ _ _ _ _ E1).
      destruct (IH s1) as (r & s2 & E2 & L2 & R2); [lia|]. exists r, s2. split; [done|]. split; [lia|done].
Qed.

Lemma rounds_settle fuel rounds polls tip : forall s, (nic_pending (nic s) < fuel)%nat ->
  exists r s', arp_rounds call_handler fuel rounds polls tip s = Ret r s'
    /\ forall mac, r = Some mac -> arp_try_get_mac tip s' = Some mac.
Proof.
  induction rounds as [|k IH]; intros s Hs; cbn [arp_rounds].
  - by exists None, s.
  - destruct (poll_settles fuel polls tip s Hs) as (r & s1 & E1 & L1 & R1). rewrite (bind_ret _ _ _ _ _ E1).
    destruct r as [mac|].
    + exists (Some mac), s1. split; [done|]. intros ? [= <-]. by apply R1.
    + apply IH. lia.
Qed.

(** [arp_resolve] returns, whatever arrives while it polls and whatever
    the number of attempts, and the hardware address it reports is the one the
    cache holds for the address asked for. *)
Theorem arp_resolve_returns fuel polls tip s :
  (nic_pending (nic s) < fuel)%nat ->
  exists r s', arp_resolve call_handler fuel polls tip s = Ret r s'
    /\ forall mac, r = Some mac -> arp_try_get_mac tip s' = Some mac.
Proof.
  intros Hs. unfold arp_resolve. destruct (arp_try_get_mac tip s) as [mac|] eqn:E.
  - exists (Some mac), s. split; [done|]. by intros ? [= <-].
  - destruct (ipv4_get_address s) as [sip|]; [|by exists None, s].
    assert (S : settles (arp_send_request sip tip)).
    { apply settles_bind; [intros ?; by eexists _, _|]. intros mac.
      apply settles_bind; [apply settles_send|intros; apply settles_ret]. }
    destruct (S s) as ([] & s1 & E1 & L1). rewrite (bind_ret _ _ _ _ _ E1). apply rounds_settle. lia.
Qed.

End Resolve.

(** * A concrete adapter, for the witnesses: an address, the frames sent and
    the frames waiting *)

Record wire := mkWire { w_mac : list Z; w_sent : list (list Z); w_rx : list (list Z) }.
#[export] Instance wire_nic : Nic wire := {|
  nic_mac := w_mac;
  nic_send f w := (0, mkWire (w_mac w) (w_sent w ++ [f]) (w_rx w));
  nic_recv w := match w_rx w with
                | [] => (None, w)
                | f :: r => (Some f, mkWire (w_mac w) (w_sent w) r)
                end
|}.
#[export] Program Instance wire_bounded : NicBounded wire := {| nic_pending w := length (w_rx w) |}.
Next Obligation. intros [m s [|g r]] f n'; simpl; intros E; simplify_eq. simpl. lia. Qed.
Next Obligation. intros [m s [|g r]] n'; simpl; intros E; simplify_eq. simpl. lia. Qed.
Next Obligation. intros f [m s r]; simpl. lia. Qed.

Definition no_handler : Z -> list Z -> Z -> list Z -> Z -> list Z -> net wire -> net wire :=
  fun _ _ _ _ _ _ s => s.

Definition demo_host (last : Z) : net wire :=
  mkNet (mkArpState [10; 0; 2; 9] [82; 84; 0; 0; 0; 9] true)
    (mkIpState [10; 0; 2; last] true [255; 255; 255; 0] [10; 0; 2; 2] true) [] [Some demo_server] 1 []
    (mkWire [82; 84; 0; 0; 0; last] [] []) [].

Ltac bytes := repeat (apply Forall_cons; split; [lia|]); apply Forall_nil.

Lemma udp_end_to_end_witness : exists frame,
  udp_send_local no_handler 1 1 5000 [10; 0; 2; 9] 7 [104; 105] (demo_host 15)
  = (let '(r, n) := nic_send frame (nic (demo_host 15)) in
     Ret r (set_nic n (set_ident (u16 2) (demo_host 15))))
  /\ eth_process_packet no_handler frame (demo_host 9)
     = udp_server_enqueue 0 [10; 0; 2; 15] 5000 [104; 105] (demo_host 9).
Proof.
  apply (udp_end_to_end no_handler 1 1 5000 [10; 0; 2; 9] 7 [104; 105] (demo_host 15) (demo_host 9)
    [10; 0; 2; 15] [10; 0; 2; 9] [82; 84; 0; 0; 0; 9] 0);
    try reflexivity; try bytes; simpl; lia.
Defined.

Lemma arp_exchange_witness :
  let reply := arp_frame [82; 84; 0; 0; 0; 15] [82; 84; 0; 0; 0; 9] 2 [10; 0; 2; 9] [82; 84; 0; 0; 0; 15] [10; 0; 2; 15] in
  eth_process_packet no_handler
    (arp_frame (replicate 6 255) [82; 84; 0; 0; 0; 15] 1 [10; 0; 2; 15] (replicate 6 0) [10; 0; 2; 9]) (demo_host 9)
  = Ret tt (set_nic (nic_send reply (nic (demo_host 9))).2
      (set_arp (mkArpState [10; 0; 2; 15] [82; 84; 0; 0; 0; 15] true) (demo_host 9)))
  /\ exists a', eth_process_packet no_handler reply (demo_host 15) = Ret tt a'
     /\ arp_try_get_mac [10; 0; 2; 9] a' = Some [82; 84; 0; 0; 0; 9].
Proof.
  exact (arp_exchange no_handler (demo_host 15) (demo_host 9) [82; 84; 0; 0; 0; 15] [10; 0; 2; 15] [10; 0; 2; 9]
    eq_refl eq_refl eq_refl eq_refl eq_refl).
Defined.

Lemma ipv4_drops_malformed_witness :
  ipv4_process_packet no_handler (replicate 20 70) (demo_host 9) = Ret tt (demo_host 9)
  \/ ipv4_well_formed (replicate 20 70) (demo_host 9).
Proof. apply (ipv4_drops_malformed no_handler). apply Forall_replicate. lia. Defined.

Lemma arp_resolve_returns_witness : exists r s',
  arp_resolve no_handler 1 3 [10; 0; 2; 1] (demo_host 15) = Ret r s'
  /\ forall mac, r = Some mac -> arp_try_get_mac [10; 0; 2; 1] s' = Some mac.
Proof. apply (arp_resolve_returns no_handler); [intros; apply le_n|simpl; lia]. Defined.
