(* ===== verification/Socket.v ===== *)
(** Sockets: stage2/net/socket.c and [net_init] of stage2/net/net.c.

    A call that blocks runs the next element of its schedule [env], which
    stands for everything other tasks and interrupts do until the task is woken;
    [NoFuel] means that it is still blocked when the schedule ends. *)
From S2P Require Import Prelude Utils Checksum Net.

Record sockaddr_in := mkAddr { sin_family : Z; sin_port : Z; s_addr : Z }.

Definition zero_socket : socket_t :=
  mkSocket false 0 0 0 0 0 false false 0 0 false [0; 0; 0; 0] 0 ∅ 0 0 ∅ 0.

Section Socket.
Context {N : Type} `{Nic N}.
Context (fuel polls : nat) (call_handler : Z -> list Z -> Z -> list Z -> Z -> list Z -> net N -> net N).
Abbreviation NM := (M (net N)).

Definition socket_index_from_handle (handle : Z) : Z :=
  let index := SOCKET_HANDLE_BASE - handle in
  if (index <? 0) || (Z.of_nat SOCKET_MAX <=? index) then -1 else index.
Definition socket_handle_from_index (index : Z) : Z := SOCKET_HANDLE_BASE - index.

(** The index of the socket object, as the pointer to it. *)
Definition socket_from_handle (handle : Z) (s : net N) : option (nat * socket_t) :=
  let index := socket_index_from_handle handle in
  if index <? 0 then None
  else match sockets s !! Z.to_nat index with
       | Some k => if used k then Some (Z.to_nat index, k) else None
       | None => None
       end.

Definition socket_handle_valid (handle : Z) (s : net N) : bool :=
  match socket_from_handle handle s with Some _ => true | None => false end.

(** [None] is a null pointer. *)
Definition sockaddr_in_valid (addr : option sockaddr_in) (addrlen : Z) : bool :=
  match addr with
  | None => false
  | Some a => if addrlen <? sizeof_sockaddr_in then false else sin_family a =? AF_INET
  end.

(** What is stored through [addr] and [addrlen]. *)
Definition sockaddr_from_peer (have_addr : bool) (addrlen : option Z) (pip : list Z) (port : Z) :
    option sockaddr_in :=
  match addrlen with
  | Some n =>
      if negb have_addr || (n <? sizeof_sockaddr_in) then None
      else Some (mkAddr AF_INET (htons port)
                  (Z.lor (Z.lor (Z.lor (Z.shiftl (char_at pip 0) 24) (Z.shiftl (char_at pip 1) 16))
                                (Z.shiftl (char_at pip 2) 8)) (char_at pip 3)))
  | None => None
  end.

Definition socket_flush_output (i : nat) : NM unit := fun s =>
  match sockets s !! i with
  | None => Ret tt s
  | Some k =>
      if negb (has_peer k) || (out_len k =? 0) then Ret tt s
      else
        (r ← udp_send_local call_handler fuel polls (local_port k) (peer_ip k) (peer_port k)
               (read_bytes_at (Z.to_nat (out_len k)) 0 (outbuf k));
         if r =? 0 then
           modify (fun s => match sockets s !! i with
                            | Some k => set_socket i (with_out k (outbuf k) 0) s
                            | None => s
                            end)
         else mret tt) s
  end.

Definition socket_init : NM unit := modify (set_sockets (replicate SOCKET_MAX zero_socket)).

Definition new_socket (i : nat) (dom ty proto : Z) : socket_t :=
  let raw := ty =? SOCK_RAW in
  mkSocket true 1 dom ty proto 0 false raw (if raw then u16 (4096 + Z.of_nat i) else 0)
    (if raw then 1 else 0) false [0; 0; 0; 0] 0 ∅ 0 0 ∅ 0.

Definition socket_create (dom ty proto : Z) : NM Z := fun s =>
  if negb (dom =? AF_INET) then Ret (-1) s
  else if (ty =? SOCK_DGRAM) && negb (proto =? 0) then Ret (-1) s
  else if (ty =? SOCK_RAW) && negb (proto =? IPPROTO_ICMP) then Ret (-1) s
  else if negb (ty =? SOCK_DGRAM) && negb (ty =? SOCK_RAW) then Ret (-1) s
  else
    match find_free (fun k => negb (used k)) 0 (sockets s) with
    | Some i => Ret (socket_handle_from_index (Z.of_nat i)) (set_socket i (new_socket i dom ty proto) s)
    | None => Ret (-1) s
    end.

Definition socket_dup (handle : Z) : NM Z := fun s =>
  match socket_from_handle handle s with
  | None => Ret (-1) s
  | Some (i, k) => Ret 0 (set_socket i (with_refs k (refs k + 1)) s)
  end.

Definition socket_close (handle : Z) : NM Z := fun s =>
  match socket_from_handle handle s with
  | None => Ret (-1) s
  | Some (i, k) =>
      let k := if 0 <? refs k then with_refs k (refs k - 1) else k in
      let k := if refs k =? 0 then zero_socket else k in
      Ret 0 (set_socket i k s)
  end.

Definition socket_bind (handle : Z) (addr : option sockaddr_in) (addrlen : Z) : NM Z := fun s =>
  match socket_from_handle handle s, addr with
  | Some (i, k), Some a =>
      if negb (sockaddr_in_valid addr addrlen) then Ret (-1) s
      else
        let port := htons (sin_port a) in
        if port =? 0 then Ret (-1) s
        else
          (r ← udp_server_bind port;
           if r <? 0 then mret (-1)
           else modify (set_socket i (with_bound k port)) ;; mret 0) s
  | _, _ => Ret (-1) s
  end.

(** One round of the loop of [socket_read]: either the socket has unread bytes
    afterwards, or the task must block. *)
Definition socket_read_poll (i : nat) : NM bool := fun s =>
  match sockets s !! i with
  | None => Ret false s
  | Some k =>
      if in_pos k <? in_len k then Ret true s
      else
        let k := with_in k (inbuf k) 0 0 in
        (d ← udp_server_recv (local_port k) SOCKET_BUF_SIZE;
         match d with
         | Some (sip, sport, payload) =>
             let k := with_in k (write_bytes 0 payload (inbuf k)) (Z.of_nat (length payload)) 0 in
             modify (set_socket i (with_peer k sip sport)) ;;
             socket_flush_output i ;;
             mret true
         | None => modify (set_socket i k) ;; mret false
         end) s
  end.

(** [for (;;) { if (poll) break; scheduler_block(...); }]. *)
Fixpoint wait_loop (poll : NM bool) (env : list (net N -> net N)) : NM unit :=
  ready ← poll;
  if (ready : bool) then mret tt
  else match env with
       | [] => out_of_fuel
       | e :: env' => modify e ;; wait_loop poll env'
       end.

(** The bytes handed to the caller, and the socket after them. *)
Definition take_input (i : nat) (len : Z) : NM (list Z) := fun s =>
  match sockets s !! i with
  | None => Ret [] s
  | Some k =>
      let available := u16 (in_len k - in_pos k) in
      let n := if len <? available then len else available in
      Ret (read_bytes_at (Z.to_nat n) (in_pos k) (inbuf k))
        (set_socket i (with_in k (inbuf k) (in_len k) (u16 (in_pos k + n))) s)
  end.

(** [None] is the return value -1, otherwise the bytes stored in [buf]. *)
Definition socket_read (env : list (net N -> net N)) (handle : Z) (buf_ok : bool) (len : Z) :
    NM (option (list Z)) := fun s =>
  match socket_from_handle handle s with
  | None => Ret None s
  | Some (i, k) =>
      if negb (bound k) || negb buf_ok || (65535 <? len) then Ret None s
      else (wait_loop (socket_read_poll i) env ;; bs ← take_input i len; mret (Some bs)) s
  end.

Definition socket_write (handle : Z) (buf : option (list Z)) : NM Z := fun s =>
  match socket_from_handle handle s, buf with
  | Some (i, k), Some bs =>
      let len := Z.of_nat (length bs) in
      if negb (bound k) || (65535 <? len) then Ret (-1) s
      else if has_peer k then
        (r ← udp_send_local call_handler fuel polls (local_port k) (peer_ip k) (peer_port k) bs;
         mret (if r =? 0 then len else -1)) s
      else
        let room := SOCKET_OUT_SIZE - out_len k in
        let n := if len <? room then len else room in
        Ret len (set_socket i (with_out k (write_bytes (out_len k) (take (Z.to_nat n) bs) (outbuf k))
                                 (u16 (out_len k + n))) s)
  | _, _ => Ret (-1) s
  end.

Definition addr_bytes (a : Z) : list Z :=
  [u8 (Z.shiftr a 24); u8 (Z.shiftr a 16); u8 (Z.shiftr a 8); u8 a].

Definition socket_sendto (handle : Z) (buf : option (list Z)) (dest : option sockaddr_in) (addrlen : Z) :
    NM Z := fun s =>
  match socket_from_handle handle s, buf, dest with
  | Some (i, k), Some bs, Some a =>
      let len := Z.of_nat (length bs) in
      if negb (sockaddr_in_valid dest addrlen) || (65535 <? len) then Ret (-1) s
      else
        let dip := addr_bytes (s_addr a) in
        let update f := modify (fun s => match sockets s !! i with
                                         | Some k => set_socket i (f k) s
                                         | None => s
                                         end) in
        if is_raw k then
          match ipv4_get_address s with
          | None => Ret (-1) s
          | Some sip =>
              (r ← icmp_send_echo call_handler fuel polls sip dip (icmp_identifier k) (icmp_sequence k);
               if r <? 0 then mret (-1)
               else update (fun k => with_peer (with_sequence k (u16 (icmp_sequence k + 1))) dip (peer_port k)) ;;
                    mret len) s
          end
        else
          let sport := if bound k then local_port k else 49152 in
          let dport := htons (sin_port a) in
          (r ← udp_send_local call_handler fuel polls sport dip dport bs;
           if r <? 0 then mret (-1)
           else update (fun k => with_peer k dip dport) ;; mret len) s
  | _, _, _ => Ret (-1) s
  end.

(** The loop of the raw branch of [socket_recvfrom]. *)
Definition raw_poll (i : nat) : NM bool := fun s =>
  match sockets s !! i with
  | None => Ret false s
  | Some k => if in_pos k <? in_len k then Ret true s
              else Ret false (set_socket i (with_in k (inbuf k) 0 0) s)
  end.

(** The loop of the datagram branch, with what it received. *)
Fixpoint recv_loop (i : nat) (len : Z) (env : list (net N -> net N)) : NM (list Z * Z * list Z) :=
  port ← gets (fun s => match sockets s !! i with Some k => local_port k | None => 0 end);
  d ← udp_server_recv port (u16 len);
  match d with
  | Some x => mret x
  | None => match env with
            | [] => out_of_fuel
            | e :: env' => modify e ;; recv_loop i len env'
            end
  end.

Definition socket_recvfrom (env : list (net N -> net N)) (handle : Z) (buf_ok : bool) (len : Z)
    (have_addr : bool) (addrlen : option Z) : NM (option (list Z * option sockaddr_in)) := fun s =>
  match socket_from_handle handle s with
  | None => Ret None s
  | Some (i, k) =>
      if negb buf_ok || (65535 <? len) then Ret None s
      else if is_raw k then
        (wait_loop (raw_poll i) env ;;
         bs ← take_input i len;
         pip ← gets (fun s => match sockets s !! i with Some k => peer_ip k | None => [] end);
         mret (Some (bs, sockaddr_from_peer have_addr addrlen pip 0))) s
      else if negb (bound k) then Ret None s
      else
        ('(pip, pport, payload) ← recv_loop i len env;
         modify (fun s => match sockets s !! i with
                          | Some k => set_socket i (with_peer k pip pport) s
                          | None => s
                          end) ;;
         socket_flush_output i ;;
         mret (Some (payload, sockaddr_from_peer have_addr addrlen pip pport))) s
  end.

Definition net_init : NM unit :=
  ipv4_set_address [10; 0; 2; 15] ;;
  ipv4_set_netmask [255; 255; 255; 0] ;;
  ipv4_set_gateway [10; 0; 2; 2] ;;
  udp_init ;;
  socket_init.

End Socket.
