(* ===== verification/SocketProofs.v ===== *)
(** Properties of the socket layer: the handle table, reference counts, and
    reading a socket as a stream of datagrams. *)
From S2P Require Import Prelude Utils Checksum Net UdpQueue NetProofs Socket.

(** * The handle table *)

Lemma find_free_Some {A} (f : A -> bool) : forall l k i,
  find_free f k l = Some i ->
  exists j x, i = (k + j)%nat /\ l !! j = Some x /\ f x = true.
Proof.
  induction l as [|y l IH]; intros k i; simpl; [done|]. destruct (f y) eqn:E.
  - intros [= <-]. exists 0%nat, y. split; [lia|done].
  - intros Hf. destruct (IH _ _ Hf) as (j & x & -> & ? & ?). exists (S j), x. split; [lia|done].
Qed.

Lemma find_free_None {A} (f : A -> bool) : forall l k,
  find_free f k l = None -> Forall (fun x => f x = false) l.
Proof.
  induction l as [|y l IH]; intros k; simpl; [constructor|]. destruct (f y) eqn:E; [done|].
  intros Hf. constructor; [done|by eapply IH].
Qed.

Section Handles.
Context {N : Type}.

Lemma handle_of_index i : (i < SOCKET_MAX)%nat ->
  socket_index_from_handle (socket_handle_from_index (Z.of_nat i)) = Z.of_nat i.
Proof.
  intros Hi. unfold socket_index_from_handle, socket_handle_from_index, SOCKET_HANDLE_BASE, SOCKET_MAX in *.
  repeat case_z; simpl; lia.
Qed.

Lemma socket_lookup i (s : net N) k :
  (i < SOCKET_MAX)%nat -> sockets s !! i = Some k -> used k = true ->
  socket_from_handle (socket_handle_from_index (Z.of_nat i)) s = Some (i, k).
Proof.
  intros Hi Hk Hu. unfold socket_from_handle. rewrite handle_of_index by done.
  destruct (Z.ltb_spec (Z.of_nat i) 0); [lia|]. by rewrite Nat2Z.id, Hk, Hu.
Qed.

Lemma socket_lookup_inv h (s : net N) i k :
  socket_from_handle h s = Some (i, k) ->
  h = socket_handle_from_index (Z.of_nat i) /\ (i < SOCKET_MAX)%nat /\ sockets s !! i = Some k /\ used k = true.
Proof.
  unfold socket_from_handle, socket_index_from_handle, socket_handle_from_index, SOCKET_HANDLE_BASE, SOCKET_MAX.
  intros E. repeat match type of E with
  | (let x := _ in _) = _ => cbv zeta in E
  | (if ?c then None else _) = _ => destruct c eqn:?; [discriminate E|]
  end.
  destruct ((-4096 - h <? 0) || (Z.of_nat 16 <=? -4096 - h)) eqn:B; [discriminate|].
  apply orb_false_iff in B as [B1%Z.ltb_ge B2%Z.leb_gt].
  destruct (sockets s !! Z.to_nat (-4096 - h)) as [k'|] eqn:Ek; [|discriminate].
  destruct (used k') eqn:Hu; [|discriminate]. injection E as <- <-.
  split; [lia|]. split; [lia|]. done.
Qed.

(** Updating one socket does not change what other handles refer to. *)
Lemma socket_set_other h i k (s : net N) :
  h <> socket_handle_from_index (Z.of_nat i) ->
  socket_from_handle h (set_socket i k s) = socket_from_handle h s.
Proof.
  intros Hne. unfold socket_from_handle. cbn [sockets set_socket set_sockets].
  destruct (Z.ltb_spec (socket_index_from_handle h) 0) as [|Hp]; [done|].
  destruct (Nat.eq_dec (Z.to_nat (socket_index_from_handle h)) i) as [E|E].
  - exfalso. apply Hne. revert Hp E. unfold socket_index_from_handle, socket_handle_from_index, SOCKET_HANDLE_BASE.
    repeat case_z; simpl; lia.
  - by rewrite list_lookup_insert_ne by done.
Qed.

Lemma socket_set_same i k k0 (s : net N) :
  (i < SOCKET_MAX)%nat -> sockets s !! i = Some k0 ->
  socket_from_handle (socket_handle_from_index (Z.of_nat i)) (set_socket i k s)
  = if used k then Some (i, k) else None.
Proof.
  intros Hi Hk. unfold socket_from_handle. rewrite handle_of_index by done.
  destruct (Z.ltb_spec (Z.of_nat i) 0); [lia|]. cbn [sockets set_socket set_sockets].
  rewrite Nat2Z.id, list_lookup_insert_eq; [done|by eapply lookup_lt_Some].
Qed.

(** [socket_create] returns -1 exactly when the family, type and protocol
    are not supported or all 16 sockets are in use; otherwise the new handle
    was not valid before, refers to a fresh socket with one reference, and every
    other handle refers to what it referred to. *)
Theorem socket_create_fresh dom ty proto (s : net N) :
  length (sockets s) = SOCKET_MAX ->
  (socket_create dom ty proto s = Ret (-1) s
   /\ ~ (dom = AF_INET /\ (ty = SOCK_DGRAM /\ proto = 0 \/ ty = SOCK_RAW /\ proto = IPPROTO_ICMP)
         /\ Exists (fun k => used k = false) (sockets s)))
  \/ (exists h i s', socket_create dom ty proto s = Ret h s' /\ socket_handle_valid h s = false
      /\ socket_from_handle h s' = Some (i, new_socket i dom ty proto) /\ h < 0
      /\ forall h', h' <> h -> socket_from_handle h' s' = socket_from_handle h' s).
Proof.
  intros L. unfold socket_create.
  assert (A : dom <> AF_INET \/ ~ (ty = SOCK_DGRAM /\ proto = 0 \/ ty = SOCK_RAW /\ proto = IPPROTO_ICMP)
    \/ (dom =? AF_INET) = true /\ ((ty =? SOCK_DGRAM) && negb (proto =? 0)) = false
       /\ ((ty =? SOCK_RAW) && negb (proto =? IPPROTO_ICMP)) = false
       /\ (negb (ty =? SOCK_DGRAM) && negb (ty =? SOCK_RAW)) = false).
  { unfold AF_INET, SOCK_DGRAM, SOCK_RAW, IPPROTO_ICMP. repeat case_z; simpl; lia. }
  destruct (Z.eqb_spec dom AF_INET) as [Ed|]; [|left; split; [done|tauto]]. cbn [negb].
  destruct ((ty =? SOCK_DGRAM) && negb (proto =? 0)) eqn:E1; [left; split; [done|intuition congruence]|].
  destruct ((ty =? SOCK_RAW) && negb (proto =? IPPROTO_ICMP)) eqn:E2; [left; split; [done|intuition congruence]|].
  destruct (negb (ty =? SOCK_DGRAM) && negb (ty =? SOCK_RAW)) eqn:E3; [left; split; [done|intuition congruence]|].
  destruct (find_free _ 0 (sockets s)) as [i|] eqn:Ef.
  - right. destruct (find_free_Some _ _ _ _ Ef) as (j & k & Hj & Hk & Hu). simpl in Hj. subst j.
    apply negb_true_iff in Hu.
    assert (Hi : (i < SOCKET_MAX)%nat) by (rewrite <- L; by eapply lookup_lt_Some).
    exists (socket_handle_from_index (Z.of_nat i)), i. eexists. split; [reflexivity|]. split; [|split; [|split]].
    + unfold socket_handle_valid. destruct (socket_from_handle _ s) as [[i' k']|] eqn:E; [|done].
      apply socket_lookup_inv in E as (Eh & _ & Hk' & Hu').
      unfold socket_handle_from_index in Eh. assert (i' = i) by lia. subst. congruence.
    + by rewrite (socket_set_same i _ k).
    + unfold socket_handle_from_index, SOCKET_HANDLE_BASE. lia.
    + intros h' Hne. by apply socket_set_other.
  - left. split; [done|]. intros (_ & _ & Hx). apply find_free_None in Ef.
    rewrite Exists_exists in Hx. destruct Hx as (k & Hin & Hk). rewrite Forall_forall in Ef.
    specialize (Ef k Hin). rewrite Hk in Ef. done.
Qed.

(** ** Reference counts *)

Inductive refop := Dup | Close.

Fixpoint run_refs (h : Z) (ops : list refop) : M (net N) unit :=
  match ops with
  | [] => mret tt
  | Dup :: ops' => socket_dup h ;; run_refs h ops'
  | Close :: ops' => socket_close h ;; run_refs h ops'
  end.

(** References left after [ops]; [None] once they have reached 0. *)
Fixpoint count_refs (ops : list refop) (r : Z) : option Z :=
  match ops with
  | [] => Some r
  | Dup :: ops' => count_refs ops' (r + 1)
  | Close :: ops' => if r =? 1 then None else count_refs ops' (r - 1)
  end.

Lemma with_refs_refs k r r' : with_refs (with_refs k r) r' = with_refs k r'.
Proof. done. Qed.

(** A closed handle stays closed. *)
Lemma run_refs_closed h ops : forall (s : net N),
  socket_from_handle h s = None -> run_refs h ops s = Ret tt s.
Proof.
  induction ops as [|[] ops IH]; intros s Hs; [done| |];
    cbn [run_refs]; unfold mbind, M_bind; [unfold socket_dup|unfold socket_close]; rewrite Hs; by apply IH.
Qed.

(** Reference counting over any sequence of [socket_dup] and [socket_close]
    on a handle: while references are left the handle denotes the same socket
    with the counted number of references and nothing else changed; when the
    last one is closed the handle is invalid, its slot is cleared, and later
    operations on it have no effect. *)
Theorem socket_refcount i k (s : net N) ops :
  (i < SOCKET_MAX)%nat -> sockets s !! i = Some k -> used k = true -> 0 < refs k ->
  let h := socket_handle_from_index (Z.of_nat i) in
  exists s', run_refs h ops s = Ret tt s' /\
    match count_refs ops (refs k) with
    | Some r => 0 < r /\ s' = set_socket i (with_refs k r) s
    | None => socket_from_handle h s' = None /\ s' = set_socket i zero_socket s
    end.
Proof.
  intros Hi Hk Hu Hr h. revert s k Hk Hu Hr.
  induction ops as [|op ops IH]; intros s k Hk Hu Hr; cbn [run_refs count_refs].
  - exists s. split; [done|]. split; [done|]. unfold set_socket, set_sockets.
    rewrite list_insert_id by (rewrite Hk; by destruct k). by destruct s.
  - assert (Hl : (i < length (sockets s))%nat) by (by eapply lookup_lt_Some).
    assert (Hg : forall k', sockets (set_socket i k' s) !! i = Some k') by (intros; by apply list_lookup_insert_eq).
    assert (Hss : forall k1 k2, set_socket i k2 (set_socket i k1 s) = set_socket i k2 s).
    { intros. unfold set_socket, set_sockets. cbn. by rewrite list_insert_insert_eq. }
    pose proof (socket_lookup i s k Hi Hk Hu) as Ek. fold h in Ek.
    destruct op; unfold mbind, M_bind; [unfold socket_dup|unfold socket_close]; rewrite Ek.
    + destruct (IH _ _ (Hg (with_refs k (refs k + 1))) Hu) as (s' & E & R); [simpl; lia|].
      exists s'. split; [done|]. simpl refs in R. destruct (count_refs ops (refs k + 1)); by rewrite Hss in R.
    + destruct (Z.ltb_spec 0 (refs k)); [|lia]. cbn [refs with_refs].
      destruct (Z.eqb_spec (refs k - 1) 0), (Z.eqb_spec (refs k) 1); try lia.
      * assert (En : socket_from_handle h (set_socket i zero_socket s) = None)
          by (unfold h; by rewrite (socket_set_same i _ k)).
        exists (set_socket i zero_socket s). split; [by apply run_refs_closed|done].
      * destruct (IH _ _ (Hg (with_refs k (refs k - 1))) Hu) as (s' & E & R); [simpl; lia|].
        exists s'. split; [done|]. simpl refs in R. destruct (count_refs ops (refs k - 1)); by rewrite Hss in R.
Qed.

End Handles.

(** * Reading a bound socket *)

Section Stream.
Context {N : Type} `{Nic N}.
Context (fuel polls : nat) (call_handler : Z -> list Z -> Z -> list Z -> Z -> list Z -> net N -> net N).

(** Socket [i] is bound to [port], holds the unread bytes [u] of the datagram
    last received, has no buffered output, and server [j] queues [q]. *)
Record stream (s : net N) (i j : nat) (port : Z) (u : list Z) (q : list dgram) : Prop := {
  st_index : (i < SOCKET_MAX)%nat;
  st_sock : exists k, sockets s !! i = Some k /\ used k = true /\ bound k = true /\ local_port k = port
    /\ out_len k = 0 /\ 0 <= in_pos k <= in_len k /\ in_len k <= 1472
    /\ u = read_bytes_at (Z.to_nat (in_len k - in_pos k)) (in_pos k) (inbuf k);
  st_queue : serves s j port q;
  st_ok : Forall dgram_ok q
}.

Lemma serves_set_socket (s : net N) i k j port q :
  serves s j port q -> serves (set_socket i k s) j port q.
Proof. done. Qed.

(** Handing over at most [len] of the unread bytes. *)
Lemma take_input_stream s i j port u q len :
  stream s i j port u q -> 0 < len ->
  exists s', take_input i len s = Ret (take (Z.to_nat len) u) s' /\ stream s' i j port (drop (Z.to_nat len) u) q.
Proof.
  intros S Hl. destruct (st_sock _ _ _ _ _ _ S) as (k & Hk & Hu & Hb & Hp & Ho & Hpos & Hin & Eu).
  unfold take_input. rewrite Hk. rewrite u16_small by lia.
  set (n := if len <? in_len k - in_pos k then len else in_len k - in_pos k).
  assert (Hn : 0 <= n <= in_len k - in_pos k) by (unfold n; case_z; lia).
  assert (Sp : u = read_bytes_at (Z.to_nat n) (in_pos k) (inbuf k)
     ++ read_bytes_at (Z.to_nat (in_len k - in_pos k) - Z.to_nat n) (in_pos k + n) (inbuf k)).
  { rewrite Eu. replace (Z.to_nat (in_len k - in_pos k)) with
      (Z.to_nat n + (Z.to_nat (in_len k - in_pos k) - Z.to_nat n))%nat at 1 by lia.
    rewrite read_bytes_split. do 2 f_equal. lia. }
  assert (Hcut : take (Z.to_nat len) u = read_bytes_at (Z.to_nat n) (in_pos k) (inbuf k)
    /\ drop (Z.to_nat len) u = read_bytes_at (Z.to_nat (in_len k - in_pos k) - Z.to_nat n) (in_pos k + n) (inbuf k)).
  { unfold n in *. destruct (Z.ltb_spec len (in_len k - in_pos k)).
    - pose proof (length_read_bytes_at (Z.to_nat len) (in_pos k) (inbuf k)) as L.
      split; rewrite Sp, <- L at 1; [apply take_app_length|apply drop_app_length].
    - assert (Z.of_nat (length u) <= len) by (rewrite Eu, length_read_bytes_at; lia).
      rewrite take_ge, drop_ge by lia. rewrite Nat.sub_diag. simpl. done. }
  destruct Hcut as [-> ->]. eexists. split; [reflexivity|]. split.
  - apply S.
  - eexists. split; [by apply list_lookup_insert_eq; eapply lookup_lt_Some|].
    cbn. rewrite u16_small by lia. repeat (split; [done || lia|]). f_equal; lia.
  - apply serves_set_socket, S.
  - apply S.
Qed.

(** A round of the loop with unread bytes, with a queued datagram, or neither. *)
Lemma poll_stream s i j port u q :
  stream s i j port u q ->
  match u, q with
  | [], [] => exists s', socket_read_poll fuel polls call_handler i s = Ret false s' /\ stream s' i j port [] []
  | [], x :: q' => exists s', socket_read_poll fuel polls call_handler i s = Ret true s' /\ stream s' i j port x.2 q'
  | _, _ => socket_read_poll fuel polls call_handler i s = Ret true s
  end.
Proof.
  intros S. destruct (st_sock _ _ _ _ _ _ S) as (k & Hk & Hu & Hb & Hp & Ho & Hpos & Hin & Eu).
  assert (Lu : Z.of_nat (length u) = in_len k - in_pos k) by (rewrite Eu, length_read_bytes_at; lia).
  assert (Hl : (i < length (sockets s))%nat) by (by eapply lookup_lt_Some).
  unfold socket_read_poll. rewrite Hk. destruct u as [|b u].
  2: { simpl in Lu. destruct (Z.ltb_spec (in_pos k) (in_len k)); [done|lia]. }
  simpl in Lu. destruct (Z.ltb_spec (in_pos k) (in_len k)); [lia|]. cbn [local_port with_in]. rewrite Hp.
  destruct (pop_serves s j port q SOCKET_BUF_SIZE (st_queue _ _ _ _ _ _ S)) as (s1 & E1 & S1);
    [unfold SOCKET_BUF_SIZE; lia|]. rewrite (bind_ret _ _ _ _ _ E1).
  assert (Es : sockets s1 = sockets s).
  { revert E1. unfold udp_server_recv. destruct (udp_find_server port s) as [z|]; [|by intros [= _ <-]].
    destruct (_ !! z) as [[m|]|]; [|by intros [= _ <-]..]. destruct (_ =? 0); [by intros [= _ <-]|].
    destruct (dequeue_ram _ _). by intros [= _ <-]. }
  pose proof (st_ok _ _ _ _ _ _ S) as Hok. destruct q as [|x q]; cbn [option_map head tail] in *.
  - eexists. split; [reflexivity|]. split; [apply S| |exact S1|constructor].
    eexists. split; [cbn; apply list_lookup_insert_eq; by rewrite Es|]. cbn.
    repeat (split; [done || lia|]). done.
  - inversion Hok as [|? ? Hx Hq]; subst. destruct x as [[xi xp] xd]. cbn [truncate fst snd].
    assert (Hxl : Z.of_nat (length xd) <= 1472).
    { destruct (st_queue _ _ _ _ _ _ S) as (_ & m & _ & Q).
      destruct (qr_slots _ _ _ Q 0%nat _ eq_refl) as (Hle & _). exact Hle. }
    rewrite take_ge by (unfold SOCKET_BUF_SIZE; lia).
    eexists. split.
    { unfold mbind, M_bind, modify. unfold socket_flush_output. cbn [sockets set_socket set_sockets].
      rewrite list_lookup_insert_eq by (by rewrite Es). cbn [has_peer out_len with_peer with_in negb orb].
      rewrite Ho. cbn [Z.eqb orb]. reflexivity. }
    split; [apply S| |exact S1|done].
    eexists. split; [cbn; apply list_lookup_insert_eq; by rewrite Es|]. cbn.
    repeat (split; [done || lia|]). rewrite Z.sub_0_r, Nat2Z.id. symmetry. apply read_write_bytes. apply Hx.
Qed.

(** C25: [socket_read] on a bound socket delivers the queued datagrams in order
    as a stream: it returns the next bytes of the datagram being read, starts on
    the next queued datagram when that one is used up, and otherwise blocks (it
    has not returned before something else happens). *)
Theorem socket_read_stream s i j port u q len :
  stream s i j port u q -> 0 < len <= 65535 ->
  let h := socket_handle_from_index (Z.of_nat i) in
  match u, q with
  | [], [] => socket_read fuel polls call_handler [] h true len s = NoFuel
  | [], x :: q' => exists s', socket_read fuel polls call_handler [] h true len s
        = Ret (Some (take (Z.to_nat len) x.2)) s' /\ stream s' i j port (drop (Z.to_nat len) x.2) q'
  | _, _ => exists s', socket_read fuel polls call_handler [] h true len s
        = Ret (Some (take (Z.to_nat len) u)) s' /\ stream s' i j port (drop (Z.to_nat len) u) q
  end.
Proof.
  intros S Hl h. destruct (st_sock _ _ _ _ _ _ S) as (k & Hk & Hu & Hb & _).
  assert (E : socket_read fuel polls call_handler [] h true len s
    = (wait_loop (socket_read_poll fuel polls call_handler i) [] ;;
       bs ← take_input i len; mret (Some bs)) s).
  { unfold socket_read, h. rewrite (socket_lookup i s k (st_index _ _ _ _ _ _ S) Hk Hu), Hb.
    destruct (Z.ltb_spec 65535 len); [lia|done]. }
  pose proof (poll_stream s i j port u q S) as P.
  assert (K : forall u' q' s1, socket_read_poll fuel polls call_handler i s = Ret true s1 ->
    stream s1 i j port u' q' ->
    exists s', socket_read fuel polls call_handler [] h true len s = Ret (Some (take (Z.to_nat len) u')) s'
      /\ stream s' i j port (drop (Z.to_nat len) u') q').
  { intros u' q' s1 E1 S1. destruct (take_input_stream s1 i j port u' q' len S1 ltac:(lia)) as (s2 & E2 & S2).
    exists s2. split; [|done]. rewrite E. cbn [wait_loop]. unfold mbind, M_bind in *. rewrite E1.
    cbn. by rewrite E2. }
  destruct u as [|b u]; [destruct q as [|x q]|].
  - destruct P as (s1 & E1 & _). rewrite E. cbn [wait_loop]. unfold mbind, M_bind in *. by rewrite E1.
  - destruct P as (s1 & E1 & S1). by apply (K x.2 q s1).
  - by apply (K (b :: u) q s).
Qed.

End Stream.

(** * Witnesses *)

Definition demo_socket : socket_t := with_bound (new_socket 0 2 2 0) 7.
Definition demo_sockets : net wire :=
  set_sockets (demo_socket :: replicate 15 zero_socket)
    (set_servers [Some (enqueue_ram [10; 0; 2; 2] 5000 [104; 105] demo_server)] (demo_host 15)).

Lemma demo_stream : stream demo_sockets 0 0 7 [] [demo_dgram].
Proof.
  split.
  - unfold SOCKET_MAX. lia.
  - exists demo_socket. split; [done|]. cbn.
    repeat (split; [done|]). done.
  - split; [vm_compute; reflexivity|]. eexists. split; [reflexivity|].
    apply (enqueue_repr demo_server 7 [] demo_dgram demo_server_repr demo_dgram_ok); simpl; lia.
  - constructor; [apply demo_dgram_ok|constructor].
Qed.

Lemma socket_create_fresh_witness :
  exists h i s', socket_create 2 3 1 demo_sockets = Ret h s'
    /\ socket_from_handle h s' = Some (i, new_socket i 2 3 1).
Proof.
  destruct (socket_create_fresh 2 3 1 demo_sockets eq_refl) as [[E _]|(h & i & s' & E & _ & F & _)].
  - vm_compute in E. discriminate E.
  - by exists h, i, s'.
Defined.

Lemma socket_refcount_witness : exists s',
  run_refs (-4096) [Dup; Close; Close; Close] demo_sockets = Ret tt s'
  /\ socket_from_handle (-4096) s' = None.
Proof.
  destruct (socket_refcount 0 demo_socket demo_sockets [Dup; Close; Close; Close]) as (s' & E & R & _);
    [unfold SOCKET_MAX; lia|done|done|simpl; lia|]. by exists s'.
Defined.

Lemma socket_read_stream_witness :
  exists s', socket_read 1 1 no_handler [] (-4096) true 1 demo_sockets = Ret (Some [104]) s'
  /\ stream s' 0 0 7 [105] [].
Proof.
  apply (socket_read_stream 1 1 no_handler demo_sockets 0 0 7 [] [demo_dgram] 1); [apply demo_stream|lia].
Defined.
