(* ===== verification/Sched.v ===== *)
(** Tasks and scheduling: stage2/scheduler.c.

    A task control block is a record in a store keyed by its address; the
    circular run list is the [next] pointers in that store, walked with fuel.
    Stacks, saved frames, page directories and program images are in the byte
    memory of the heap, through [KernelHeap] and the operations of [Paging]. The
    descriptor layer is an instance of [FdBackend]. The assembly stubs restore
    the frame whose address the C code returns; that address is the result of
    the operations here. *)
From S2P Require Import Prelude Mem HeapSpec Paging.

Inductive task_state_t := TASK_READY | TASK_RUNNING | TASK_BLOCKED | TASK_EXITED.
#[export] Instance task_state_eq_dec : EqDecision task_state_t.
Proof. solve_decision. Defined.

Record tcb_t := mkTcb {
  esp : Z; state : task_state_t; pid : Z; stack_base : Z; tcr3 : Z; tty : Z; fds : list Z;
  wait_obj : Z; exit_code : Z; next : Z
}.

(** A loadable segment; [sdata] is the address of its file bytes. *)
Record user_segment_t := mkSegment { vaddr : Z; filesz : Z; memsz : Z; sdata : Z }.

(** What the descriptor layer (stage2/vfs.c) offers to the scheduler. *)
Class FdBackend (B : Type) := {
  vfs_init_fds : Z -> list Z;
  vfs_bind_tty : list Z -> Z -> list Z;
  vfs_fork_fds : list Z -> B -> list Z * B;
  vfs_exit_fds : list Z -> B -> list Z * B
}.

Definition TASK_STACK_SIZE : Z := 65536.
Definition MAX_TASK_ARGS : Z := 16.
Definition GDT_CODE_SEG : Z := 8.
Definition sizeof_tcb_t : Z := 100.
Definition sizeof_user_segment_t : Z := 16.
Definition TTY_COUNT : Z := 4.
Definition tty_valid (id : Z) : bool := (0 <=? id) && (id <? TTY_COUNT).

Record kern (B : Type) := mkKern {
  kmmu : mmu; tasks : gmap Z tcb_t; current_task : Z; idle_task : Z; next_pid : Z; files : B
}.
Arguments mkKern {B}. Arguments kmmu {B}. Arguments tasks {B}. Arguments current_task {B}.
Arguments idle_task {B}. Arguments next_pid {B}. Arguments files {B}.

Definition with_state (t : tcb_t) (st : task_state_t) : tcb_t :=
  mkTcb (esp t) st (pid t) (stack_base t) (tcr3 t) (tty t) (fds t) (wait_obj t) (exit_code t) (next t).
Definition with_esp (t : tcb_t) (e : Z) : tcb_t :=
  mkTcb e (state t) (pid t) (stack_base t) (tcr3 t) (tty t) (fds t) (wait_obj t) (exit_code t) (next t).
Definition with_wait (t : tcb_t) (w : Z) : tcb_t :=
  mkTcb (esp t) TASK_BLOCKED (pid t) (stack_base t) (tcr3 t) (tty t) (fds t) w (exit_code t) (next t).
Definition with_exit (t : tcb_t) (f : list Z) (c : Z) : tcb_t :=
  mkTcb (esp t) TASK_EXITED (pid t) (stack_base t) (tcr3 t) (tty t) f (wait_obj t) c (next t).
Definition with_next (t : tcb_t) (n : Z) : tcb_t :=
  mkTcb (esp t) (state t) (pid t) (stack_base t) (tcr3 t) (tty t) (fds t) (wait_obj t) (exit_code t) n.
Definition with_tty (t : tcb_t) (y : Z) (f : list Z) : tcb_t :=
  mkTcb (esp t) (state t) (pid t) (stack_base t) (tcr3 t) y f (wait_obj t) (exit_code t) (next t).
Definition with_image (t : tcb_t) (e cr3 : Z) : tcb_t :=
  mkTcb e (state t) (pid t) (stack_base t) cr3 (tty t) (fds t) (wait_obj t) (exit_code t) (next t).
Definition with_stack (t : tcb_t) (b : Z) : tcb_t :=
  mkTcb (esp t) (state t) (pid t) b (tcr3 t) (tty t) (fds t) (wait_obj t) (exit_code t) (next t).

Definition null_tcb : tcb_t := mkTcb 0 TASK_READY 0 0 0 0 [] 0 0 0.

Section Sched.
Context {B : Type} `{FdBackend B} `{KernelHeap}.
Abbreviation KM := (M (kern B)).

Definition set_tasks (t : gmap Z tcb_t) (k : kern B) : kern B :=
  mkKern (kmmu k) t (current_task k) (idle_task k) (next_pid k) (files k).
Definition set_mmu (m : mmu) (k : kern B) : kern B :=
  mkKern m (tasks k) (current_task k) (idle_task k) (next_pid k) (files k).
Definition set_current (c : Z) (k : kern B) : kern B :=
  mkKern (kmmu k) (tasks k) c (idle_task k) (next_pid k) (files k).
Definition set_next_pid (n : Z) (k : kern B) : kern B :=
  mkKern (kmmu k) (tasks k) (current_task k) (idle_task k) n (files k).
Definition set_files (b : B) (k : kern B) : kern B :=
  mkKern (kmmu k) (tasks k) (current_task k) (idle_task k) (next_pid k) b.

(** The control block at an address. *)
Definition task (p : Z) (k : kern B) : tcb_t := default null_tcb (tasks k !! p).
Definition set_task (p : Z) (t : tcb_t) (k : kern B) : kern B := set_tasks (<[p := t]> (tasks k)) k.
Definition current (k : kern B) : tcb_t := task (current_task k) k.

Definition on_mmu {A} (c : M mmu A) : KM A := zoom kmmu set_mmu c.
Definition on_heap {A} (c : M heap A) : KM A := on_mmu (zoom mheap put_heap c).
Definition on_ram (f : ram -> ram) : KM unit := on_heap (write_ram f).

(** ** Queries *)

Definition scheduler_current_fds (k : kern B) : option (list Z) :=
  if current_task k =? 0 then None else Some (fds (current k)).
Definition scheduler_get_current (k : kern B) : Z := current_task k.
Definition scheduler_current_tty (k : kern B) : Z :=
  if current_task k =? 0 then 0 else tty (current k).

(** [do { ... t = t->next; } while (t != idle_task)]: the first task, from [t]
    on, that satisfies [f]. *)
Fixpoint walk_find (fuel : nat) (f : tcb_t -> bool) (t stop : Z) (k : kern B) : res (kern B) (option Z) :=
  match fuel with
  | O => NoFuel
  | S n =>
      if f (task t k) then Ret (Some t) k
      else
        let t' := next (task t k) in
        if t' =? stop then Ret None k else walk_find n f t' stop k
  end.

Definition scheduler_find_by_pid (fuel : nat) (p : Z) : KM (option Z) := fun k =>
  if (idle_task k =? 0) || (p <? 0) then Ret None k
  else walk_find fuel (fun t => i32 (pid t) =? p) (idle_task k) (idle_task k) k.

(** ** Scheduling *)

Definition runnable (t : tcb_t) : bool :=
  match state t with TASK_READY | TASK_RUNNING => true | _ => false end.

(** The loop of [scheduler_schedule]: where the walk from [current] stops. *)
Fixpoint pick_next (fuel : nat) (nx cur : Z) (k : kern B) : option Z :=
  match fuel with
  | O => None
  | S n =>
      let nx := next (task nx k) in
      if (nx =? cur) || runnable (task nx k) then Some nx else pick_next n nx cur k
  end.

Definition scheduler_schedule (fuel : nat) : KM unit := fun k =>
  let cur := current_task k in
  if cur =? 0 then Ret tt k
  else
    match pick_next fuel cur cur k with
    | None => NoFuel
    | Some nx =>
        let k1 :=
          if negb (nx =? cur) then set_task nx (with_state (task nx k) TASK_RUNNING) (set_current nx k)
          else if decide (state (task cur k) = TASK_BLOCKED)
               then set_task cur (with_state (task cur k) TASK_RUNNING) k
               else k in
        if negb (tcr3 (current k1) =? paging_get_directory (kmmu k1))
        then on_mmu (paging_switch (tcr3 (current k1))) k1
        else Ret tt k1
    end.

(** [r] is the address of the saved frame; the result is the frame to restore. *)
Definition scheduler_tick (fuel : nat) (r : Z) : KM Z := fun k =>
  if current_task k =? 0 then Ret r k
  else
    let t := with_esp (current k) r in
    let t := if decide (state t = TASK_RUNNING) then with_state t TASK_READY else t in
    (scheduler_schedule fuel ;; gets (fun k => esp (current k))) (set_task (current_task k) t k).

Definition scheduler_perform_switch (fuel : nat) (old_esp : Z) : KM Z := fun k =>
  (scheduler_schedule fuel ;; gets (fun k => esp (current k)))
    (set_task (current_task k) (with_esp (current k) old_esp) k).

(** [scheduler_block] up to the switch; [frame] is the frame that
    [scheduler_switch] pushes. The result is the frame of the task resumed. *)
Definition scheduler_block (fuel : nat) (w frame : Z) : KM Z := fun k =>
  scheduler_perform_switch fuel frame (set_task (current_task k) (with_wait (current k) w) k).

(** [do { if blocked on w: ready; t = t->next } while (t != idle_task)]. *)
Fixpoint wake_loop (fuel : nat) (w t stop : Z) : KM unit := fun k =>
  match fuel with
  | O => NoFuel
  | S n =>
      let tc := task t k in
      let k' := if decide (state tc = TASK_BLOCKED /\ wait_obj tc = w)
                then set_task t (with_state tc TASK_READY) k else k in
      let t' := next (task t k') in
      if t' =? stop then Ret tt k' else wake_loop n w t' stop k'
  end.

Definition scheduler_wake (fuel : nat) (w : Z) : KM unit := fun k =>
  if w =? 0 then Ret tt k else wake_loop fuel w (idle_task k) (idle_task k) k.

(** [scheduler_wait_pid] up to the point where the task sleeps ([inl] is its
    result, [inr] the wait object), and after it has been woken. *)
Definition wait_pid_check (fuel : nat) (p : Z) : KM (Z + Z) :=
  if p <? 0 then mret (inl (-1))
  else
    child ← scheduler_find_by_pid fuel p;
    match child with
    | None => mret (inl (-1))
    | Some c =>
        t ← gets (task c);
        if decide (state t = TASK_EXITED) then mret (inl (exit_code t)) else mret (inr p)
    end.

Definition wait_pid_resume (fuel : nat) (p : Z) : KM Z :=
  child ← scheduler_find_by_pid fuel p;
  match child with
  | None => mret (-1)
  | Some c => t ← gets (task c); mret (exit_code t)
  end.

(** The whole call: [sleep] is what other tasks and interrupts do between the
    block and the moment this task runs again. *)
Definition scheduler_wait_pid (fuel : nat) (frame : Z) (sleep : KM unit) (p : Z) : KM Z :=
  c ← wait_pid_check fuel p;
  match c with
  | inl r => mret r
  | inr w => scheduler_block fuel w frame ;; sleep ;; wait_pid_resume fuel p
  end.

Definition scheduler_set_tty (y : Z) : KM Z := fun k =>
  if current_task k =? 0 then Ret (-1) k
  else if negb (tty_valid y) then Ret (-1) k
  else Ret 0 (set_task (current_task k) (with_tty (current k) y (vfs_bind_tty (fds (current k)) y)) k).

Definition scheduler_exit_current (fuel : nat) (code : Z) : KM unit := fun k =>
  let cur := current_task k in
  if (cur =? 0) || (cur =? idle_task k) then Ret tt k
  else
    let '(f, b) := vfs_exit_fds (fds (current k)) (files k) in
    let k1 := set_task cur (with_exit (current k) f code) (set_files b k) in
    scheduler_wake fuel (pid (current k)) k1.

(** [task_exit] before its final loop. *)
Definition task_exit (fuel : nat) : KM unit := fun k =>
  let cur := current_task k in
  let k1 := set_task cur (with_exit (current k) (fds (current k)) 0) k in
  scheduler_wake fuel (pid (current k)) k1.

(** ** Creating tasks *)

Definition scheduler_init : KM unit :=
  p ← on_heap (malloc sizeof_tcb_t);
  modify (fun k =>
    let t := mkTcb 0 TASK_RUNNING (next_pid k) 0 (paging_get_kernel_directory (kmmu k)) 0 (vfs_init_fds 0) 0 0 p in
    mkKern (kmmu k) (<[p := t]> (tasks k)) p p (u32 (next_pid k + 1)) (files k)).

(** [*--sp = w] for each word in turn. *)
Fixpoint push_words (sp : Z) (ws : list Z) (m : ram) : ram :=
  match ws with
  | [] => m
  | w :: ws' => push_words (sp - 4) ws' (st32 (sp - 4) w m)
  end.

(** The saved-register part of a frame: interrupt slots and seven registers. *)
Definition frame_tail : list Z := replicate 9 0.

(** Descriptors of a new task ([task_init_fds]). *)
Definition task_init_fds (y : Z) (k : kern B) : list Z * B :=
  if negb (current_task k =? 0) && negb (current_task k =? idle_task k)
  then vfs_fork_fds (fds (current k)) (files k)
  else (vfs_init_fds y, files k).

(** [tcb->next = idle_task->next; idle_task->next = tcb]. *)
Definition link_task (p : Z) (t : tcb_t) (k : kern B) : kern B :=
  let idle := task (idle_task k) k in
  set_tasks (<[idle_task k := with_next idle p]> (<[p := with_next t (next idle)]> (tasks k))) k.

Definition create_task (exit_addr func : Z) : KM Z :=
  p ← on_heap (malloc sizeof_tcb_t);
  stack ← on_heap (malloc TASK_STACK_SIZE);
  let ws := [exit_addr; 514; GDT_CODE_SEG; func] ++ frame_tail in
  let sp := stack + TASK_STACK_SIZE in
  on_ram (push_words sp ws) ;;
  modify (fun k =>
    let y := scheduler_current_tty k in
    let '(f, b) := task_init_fds y k in
    let t := mkTcb (sp - 4 * Z.of_nat (length ws)) TASK_READY (next_pid k) stack
               (paging_get_kernel_directory (kmmu k)) y f 0 0 0 in
    set_next_pid (u32 (next_pid k + 1)) (link_task p t (set_files b k))) ;;
  gets (fun k => pid (task p k)).

(** ** Program images *)

Definition page_align_down (x : Z) : Z := Z.land x 4294963200.
Definition page_align_up (x : Z) : Z := align_up_uintptr x PAGE_SIZE.

Definition alloc_user_page : M heap Z :=
  raw ← malloc (PAGE_SIZE * 2);
  let page := align_up_uintptr raw PAGE_SIZE in
  write_ram (memset page 0 PAGE_SIZE) ;;
  mret page.

(** The page-aligned span that encloses all segments. *)
Fixpoint image_span (segs : list user_segment_t) (base end_ : Z) : Z * Z :=
  match segs with
  | [] => (base, end_)
  | s :: segs' =>
      let seg_base := page_align_down (vaddr s) in
      let seg_end := page_align_up (u32 (vaddr s + memsz s)) in
      image_span segs' (if seg_base <? base then seg_base else base)
        (if end_ <? seg_end then seg_end else end_)
  end.

(** One iteration of the page loop: a zeroed page, recorded and mapped. *)
Definition map_image_page (dir image_base pages i : Z) : M heap unit :=
  page ← alloc_user_page;
  write_ram (st32 (pages + 4 * i) page) ;;
  pa ← gets (fun h => ld32 (hram h) (pages + 4 * i));
  paging_map_page dir (u32 (image_base + i * PAGE_SIZE)) pa (Z.lor PAGE_USER PAGE_WRITABLE).

(** [while (remaining > 0)]: the file bytes of a segment, page by page. *)
Fixpoint copy_segment (fuel : nat) (image_base pages dst src remaining : Z) : M heap unit := fun h =>
  match fuel with
  | O => NoFuel
  | S n =>
      if remaining <=? 0 then Ret tt h
      else
        let page_idx := u32 (page_align_down dst - image_base) / PAGE_SIZE in
        let page_off := Z.land dst (PAGE_SIZE - 1) in
        let chunk := if remaining <? PAGE_SIZE - page_off then remaining else PAGE_SIZE - page_off in
        (write_ram (fun m => memcpy (ld32 m (pages + 4 * page_idx) + page_off) src chunk m) ;;
         copy_segment n image_base pages (u32 (dst + chunk)) (u32 (src + chunk)) (remaining - chunk)) h
  end.

Fixpoint copy_segments (fuel : nat) (image_base pages : Z) (segs : list user_segment_t) : M heap unit :=
  match segs with
  | [] => mret tt
  | s :: segs' =>
      copy_segment fuel image_base pages (vaddr s) (sdata s) (filesz s) ;;
      copy_segments fuel image_base pages segs'
  end.

(** The stack pages of a task, mapped at their own addresses. *)
Fixpoint map_stack (n : nat) (dir addr limit : Z) : M heap unit :=
  match n with
  | O => mret tt
  | S n' =>
      if limit <=? addr then mret tt
      else paging_map_page dir addr addr (Z.lor PAGE_USER PAGE_WRITABLE) ;;
           map_stack n' dir (addr + PAGE_SIZE) limit
  end.
(** A 64 KiB stack touches at most 17 pages. *)
Definition stack_pages : nat := 18.

(** Pages for the span, segments copied, stack mapped; the result is the array
    of page addresses. *)
Definition build_image (fuel : nat) (dir image_base image_end : Z) (segs : list user_segment_t) : M heap Z :=
  let page_count := (image_end - image_base) / PAGE_SIZE in
  pages ← malloc (u32 (page_count * 4));
  for_loop (Z.to_nat page_count) 0 (map_image_page dir image_base pages) ;;
  copy_segments fuel image_base pages segs ;;
  mret pages.

(** ** Memory of the running program, through its page directory [pd] *)

Definition vld8 (m : ram) (pd v : Z) : Z :=
  match translate m pd (u32 v) with Some p => ld8 m p | None => 0 end.
Definition vld32 (m : ram) (pd v : Z) : Z :=
  vld8 m pd v + 256 * vld8 m pd (v + 1) + 65536 * vld8 m pd (v + 2) + 16777216 * vld8 m pd (v + 3).
Fixpoint vread (n : nat) (m : ram) (pd v : Z) : list Z :=
  match n with O => [] | S n' => vld8 m pd v :: vread n' m pd (v + 1) end.
Definition vst8 (pd v x : Z) (m : ram) : ram :=
  match translate m pd (u32 v) with Some p => st8 p x m | None => m end.
Definition vst32 (pd v x : Z) (m : ram) : ram :=
  vst8 pd (v + 3) (Z.shiftr x 24) (vst8 pd (v + 2) (Z.shiftr x 16) (vst8 pd (v + 1) (Z.shiftr x 8) (vst8 pd v x m))).

(** [strlen] of a string of the running program. *)
Fixpoint vstrlen (fuel : nat) (m : ram) (pd v : Z) : option Z :=
  match fuel with
  | O => None
  | S n => if vld8 m pd v =? 0 then Some 0 else option_map (Z.add 1) (vstrlen n m pd (v + 1))
  end.

Definition copy_arg (fuel : nat) (pd arg : Z) : M heap Z := fun h =>
  match vstrlen fuel (hram h) pd arg with
  | None => NoFuel
  | Some len =>
      (copy ← malloc (u32 (len + 1));
       write_ram (fun m => write_bytes copy (vread (Z.to_nat (len + 1)) m pd arg) m) ;;
       mret copy) h
  end.

(** [for (i = argc - 1; i >= 0; --i) *--sp = copy_arg(argv[i])]. *)
Fixpoint push_args (fuel n : nat) (pd argv sp : Z) : M heap Z :=
  match n with
  | O => mret sp
  | S i =>
      arg ← gets (fun h => vld32 (hram h) pd (argv + 4 * Z.of_nat i));
      copy ← copy_arg fuel pd arg;
      write_ram (st32 (sp - 4) copy) ;;
      push_args fuel i pd argv (sp - 4)
  end.

Definition create_user_task_from_segments (fuel : nat) (entry : Z) (segments : list user_segment_t)
    (argc argv y : Z) : KM Z :=
  if argc <? 0 then mret (-1)
  else
    let argc := if MAX_TASK_ARGS <? argc then MAX_TASK_ARGS else argc in
    match segments with
    | [] => mret (-1)
    | _ =>
        p ← on_heap (malloc sizeof_tcb_t);
        stack ← on_heap (malloc TASK_STACK_SIZE);
        kpd ← gets (fun k => page_directory (kmmu k));
        dir ← on_heap (paging_create_directory kpd);
        let '(image_base, image_end) := image_span segments 4294967295 0 in
        if image_end <=? image_base then mret (-1)
        else
          on_heap (build_image fuel dir image_base image_end segments) ;;
          on_heap (map_stack stack_pages dir (frame stack) (stack + TASK_STACK_SIZE)) ;;
          on_ram (push_words (stack + TASK_STACK_SIZE) [0; 0]) ;;
          pd ← gets (fun k => paging_get_directory (kmmu k));
          sp ← on_heap (push_args fuel (Z.to_nat argc) pd argv (stack + TASK_STACK_SIZE - 8));
          let ws := [argc; 514; GDT_CODE_SEG; entry] ++ frame_tail in
          on_ram (push_words sp ws) ;;
          modify (fun k =>
            let '(f, b) := task_init_fds (tty null_tcb) k in
            let '(y', f') := if 0 <=? y then (y, vfs_bind_tty f y) else (scheduler_current_tty k, f) in
            let t := mkTcb (sp - 4 * Z.of_nat (length ws)) TASK_READY (next_pid k) stack dir y' f' 0 0 0 in
            set_next_pid (u32 (next_pid k + 1)) (link_task p t (set_files b k))) ;;
          gets (fun k => pid (task p k))
    end.

Definition create_user_task (fuel : nat) (entry code_base code_size argc argv y : Z) : KM Z :=
  create_user_task_from_segments fuel entry [mkSegment code_base code_size code_size code_base] argc argv y.

(** The argument strings copied before the old image goes away; the loop stops
    at a null pointer. *)
Fixpoint copy_args (fuel n : nat) (pd argv i : Z) : M heap (list Z) :=
  match n with
  | O => mret []
  | S n' =>
      if argv =? 0 then mret []
      else
        arg ← gets (fun h => vld32 (hram h) pd (argv + 4 * i));
        if arg =? 0 then mret []
        else
          copy ← copy_arg fuel pd arg;
          rest ← copy_args fuel n' pd argv (i + 1);
          mret (copy :: rest)
  end.

(** The saved frame [r] is rewritten to enter the new image. *)
Definition set_frame_entry (pd r entry : Z) (m : ram) : ram :=
  if r =? 0 then m
  else vst32 pd (r + 24) 0 (vst32 pd (r + 44) 514 (vst32 pd (r + 40) GDT_CODE_SEG (vst32 pd (r + 36) entry m))).

Definition scheduler_exec_replace (fuel : nat) (entry : Z) (segments : list user_segment_t)
    (argc argv y r : Z) : KM Z := fun k0 =>
  let cur := current_task k0 in
  if (cur =? 0) || (cur =? idle_task k0) then Ret 0 k0
  else
    let argc := if argc <? 0 then 0 else argc in
    let argc := if MAX_TASK_ARGS <? argc then MAX_TASK_ARGS else argc in
    match segments with
    | [] => Ret 0 k0
    | _ =>
        (pd ← gets (fun k => paging_get_directory (kmmu k));
         kargv ← on_heap (copy_args fuel (Z.to_nat argc) pd argv 0);
         let old_cr3 := tcr3 (current k0) in
         kpd ← gets (fun k => page_directory (kmmu k));
         clone_tmp ← on_heap (paging_clone_directory kpd old_cr3);
         on_heap (paging_free_directory kpd clone_tmp) ;;
         new_cr3 ← on_heap (paging_create_directory kpd);
         let '(image_base, image_end) := image_span segments 4294967295 0 in
         if image_end <=? image_base then mret 0
         else
           image_pages ← on_heap (build_image fuel new_cr3 image_base image_end segments);
           sb ← gets (fun k => stack_base (current k));
           sb ← (if sb =? 0 then
                   new_stack ← on_heap (malloc TASK_STACK_SIZE);
                   modify (fun k => set_task cur (with_stack (current k) new_stack) k) ;;
                   mret new_stack
                 else mret sb);
           on_heap (map_stack stack_pages new_cr3 (frame sb) (sb + TASK_STACK_SIZE)) ;;
           let ws := [0; 0] ++ reverse kargv ++ [Z.of_nat (length kargv); 514; GDT_CODE_SEG; entry] ++ frame_tail in
           let new_sp := sb + TASK_STACK_SIZE - 4 * Z.of_nat (length ws) in
           on_ram (push_words (sb + TASK_STACK_SIZE) ws) ;;
           modify (fun k =>
             let t := with_image (current k) new_sp new_cr3 in
             let t := if 0 <=? y then with_tty t y (vfs_bind_tty (fds t) y) else t in
             set_task cur t k) ;;
           on_mmu (paging_switch new_cr3) ;;
           on_heap (paging_free_directory kpd old_cr3) ;;
           on_ram (set_frame_entry new_cr3 r entry) ;;
           on_heap (free image_pages) ;;
           mret new_sp) k0
    end.

(** ** fork *)

(** [r] is the address of the caller's saved frame of 48 bytes; [eip] is at
    offset 36 and [eax] at 24. *)
Definition fork_frame_paddr (dir frame_vaddr : Z) (m : ram) : Z :=
  let e := ld32 m (dir + 4 * Z.shiftr frame_vaddr 22) in
  frame (ld32 m (frame e + 4 * Z.land (Z.shiftr frame_vaddr 12) 1023)) + Z.land frame_vaddr 4095.

Definition fork_current (r : Z) : KM Z := fun k0 =>
  let cur := current_task k0 in
  if (cur =? 0) || (cur =? idle_task k0) then Ret (-1) k0
  else
    (kpd ← gets (fun k => page_directory (kmmu k));
     dir ← on_heap (paging_clone_directory kpd (tcr3 (current k0)));
     child ← on_heap (malloc sizeof_tcb_t);
     let user_esp := u32 (r + 36 + 12) in
     let frame_vaddr := u32 (user_esp - 48) in
     child_frame ← gets (fun k => fork_frame_paddr dir frame_vaddr (hram (mheap (kmmu k))));
     pd ← gets (fun k => paging_get_directory (kmmu k));
     on_ram (fun m => write_bytes child_frame (vread 48 m pd r) m) ;;
     on_ram (st32 (child_frame + 24) 0) ;;
     modify (fun k =>
       let parent := current k in
       let '(f, b) := vfs_fork_fds (fds parent) (files k) in
       let t := mkTcb child_frame TASK_READY (next_pid k) 0 dir (tty parent) f 0 0 0 in
       set_next_pid (u32 (next_pid k + 1)) (link_task child t (set_files b k))) ;;
     gets (fun k => pid (task child k))) k0.

End Sched.
