(* ===== verification/SchedProofs.v ===== *)
(** Properties of the scheduler: the circular run list, round-robin selection,
    fairness, waking and waiting. *)
From S2P Require Import Prelude Mem HeapSpec Paging Sched.

(** * The circular list *)

Section Ring.
Context {B : Type} `{FdBackend B} `{KernelHeap}.
Implicit Types (k : kern B) (l : list Z).

(** Following [next] from the head of [l] visits [l] and then [z]. *)
Fixpoint links k l (z : Z) : Prop :=
  match l with
  | [] => True
  | x :: l' => next (task x k) = hd z l' /\ links k l' z
  end.

(** The run list: [idle_task] first, then the others in list order. *)
Record ring_ok k l : Prop := {
  ring_head : exists rest, l = idle_task k :: rest;
  ring_nodup : NoDup l;
  ring_nonnull : 0 ∉ l;
  ring_links : links k l (idle_task k);
  ring_tasks : forall p, p ∈ l -> is_Some (tasks k !! p);
  ring_current : current_task k ∈ l
}.

Lemma links_app k l1 l2 z : links k (l1 ++ l2) z <-> links k l1 (hd z l2) /\ links k l2 z.
Proof.
  induction l1 as [|x l1 IH]; simpl; [tauto|]. rewrite IH.
  assert (E : hd z (l1 ++ l2) = hd (hd z l2) l1) by (by destruct l1). rewrite E. tauto.
Qed.

(** The list seen from another task on it. *)
Lemma links_rotate k a c b : links k (a ++ c :: b) (hd c a) -> links k (c :: b ++ a) c.
Proof.
  intros L. apply links_app in L as [L1 L2]. simpl in L1.
  change (c :: b ++ a) with ((c :: b) ++ a). apply links_app. split; [|done].
  by destruct a.
Qed.

Lemma ring_from k l c :
  ring_ok k l -> c ∈ l -> exists a b, l = a ++ c :: b /\ links k (c :: b ++ a) c /\ c ∉ b ++ a.
Proof.
  intros R Hc. apply list_elem_of_split in Hc as (a & b & El). exists a, b. split; [done|]. split.
  - destruct (ring_head _ _ R) as [rest Er]. pose proof (ring_links _ _ R) as L. subst l.
    apply links_rotate. destruct a as [|i a]; simpl in Er; injection Er as E1 E2; by subst.
  - pose proof (ring_nodup _ _ R) as Nd. subst l. apply NoDup_app in Nd as (_ & Hd & Nd).
    apply NoDup_cons in Nd as [Hb _]. rewrite elem_of_app. intros [?|Ha]; [done|].
    apply (Hd c Ha). set_solver.
Qed.

(** Only the [next] fields matter for the shape of the list. *)
Lemma links_same k k' l z :
  (forall p, p ∈ l -> next (task p k') = next (task p k)) -> links k l z -> links k' l z.
Proof.
  induction l as [|x l IH]; simpl; [done|]. intros E [L1 L2].
  split; [rewrite E by set_solver; done|]. apply IH; [|done]. intros p Hp. apply E. set_solver.
Qed.

Lemma ring_same k k' l :
  ring_ok k l -> idle_task k' = idle_task k -> current_task k' ∈ l ->
  (forall p, p ∈ l -> is_Some (tasks k' !! p) /\ next (task p k') = next (task p k)) -> ring_ok k' l.
Proof.
  intros R Ei Hc Hp. split.
  - rewrite Ei. apply R.
  - apply R.
  - apply R.
  - rewrite Ei. eapply links_same; [|apply R]. intros p Hq. by apply Hp.
  - intros p Hq. by apply Hp.
  - done.
Qed.

Lemma task_set_same p t k : task p (set_task p t k) = t.
Proof. unfold task, set_task, set_tasks. simpl. by rewrite lookup_insert_eq. Qed.
Lemma task_set_other p q t k : p <> q -> task q (set_task p t k) = task q k.
Proof. intros. unfold task, set_task, set_tasks. simpl. by rewrite lookup_insert_ne. Qed.

Lemma ring_set_task k l p t :
  ring_ok k l -> p ∈ l -> next t = next (task p k) -> ring_ok (set_task p t k) l.
Proof.
  intros R Hp En. apply (ring_same k); [done|done|apply R|]. intros q Hq.
  destruct (decide (p = q)) as [->|Hne].
  - rewrite task_set_same. split; [|done]. unfold set_task, set_tasks. simpl. rewrite lookup_insert_eq. done.
  - rewrite task_set_other by done. split; [|done]. unfold set_task, set_tasks. simpl.
    rewrite lookup_insert_ne by done. by apply R.
Qed.

(** ** Round-robin selection *)

Fixpoint first_runnable k l : option Z :=
  match l with
  | [] => None
  | x :: l' => if runnable (task x k) then Some x else first_runnable k l'
  end.

Lemma first_runnable_elem k l x : first_runnable k l = Some x -> x ∈ l /\ runnable (task x k) = true.
Proof.
  induction l as [|y l IH]; simpl; [done|]. destruct (runnable (task y k)) eqn:E.
  - intros [= <-]. split; [set_solver|done].
  - intros Hx. destruct (IH Hx). split; [set_solver|done].
Qed.

Lemma pick_next_spec k cur l : forall nx fuel,
  links k (nx :: l) cur -> cur ∉ l -> (length l < fuel)%nat ->
  pick_next fuel nx cur k = Some (default cur (first_runnable k l)).
Proof.
  induction l as [|x l IH]; intros nx fuel [Hn L] Hc Hf; (destruct fuel as [|fuel]; [simpl in *; lia|]);
    cbn [pick_next]; simpl in Hn; rewrite Hn.
  - by rewrite Z.eqb_refl.
  - destruct (Z.eqb_spec x cur) as [->|]; [set_solver|]. cbn [orb first_runnable].
    destruct (runnable (task x k)); [done|]. apply IH; [exact L|set_solver|simpl in *; lia].
Qed.

(** The tasks after [cur] in list order, and round again. *)
Definition successor k (order : list Z) : Z := default (current_task k) (first_runnable k order).

(** The state after [scheduler_schedule] has chosen [nx]. *)
Definition dispatched k (nx : Z) : kern B :=
  let k1 := if decide (nx = current_task k)
            then if decide (state (current k) = TASK_BLOCKED)
                 then set_task nx (with_state (current k) TASK_RUNNING) k else k
            else set_task nx (with_state (task nx k) TASK_RUNNING) (set_current nx k) in
  set_mmu (mkMmu (mheap (kmmu k1)) (page_directory (kmmu k1)) (cr0 (kmmu k1)) (tcr3 (task nx k)) (cr4 (kmmu k1))) k1.

Lemma set_mmu_same k : set_mmu (kmmu k) k = k.
Proof. by destruct k. Qed.

Lemma mmu_eta (m : mmu) : mkMmu (mheap m) (page_directory m) (cr0 m) (cr3 m) (cr4 m) = m.
Proof. by destruct m. Qed.

Lemma schedule_spec k l a b fuel :
  ring_ok k l -> l = a ++ current_task k :: b -> links k (current_task k :: b ++ a) (current_task k) ->
  current_task k ∉ b ++ a -> (length l <= fuel)%nat ->
  scheduler_schedule fuel k = Ret tt (dispatched k (successor k (b ++ a))).
Proof.
  intros R El L Hc Hf. unfold scheduler_schedule, dispatched, successor.
  assert (Hnz : current_task k <> 0).
  { intros E. apply (ring_nonnull _ _ R). rewrite <- E. apply R. }
  destruct (Z.eqb_spec (current_task k) 0); [done|].
  rewrite (pick_next_spec k _ (b ++ a)) by (done || (subst l; rewrite !length_app in *; simpl in *; lia)).
  set (nx := default (current_task k) (first_runnable k (b ++ a))).
  destruct (Z.eqb_spec nx (current_task k)) as [E|E]; cbn [negb].
  - destruct (decide (nx = current_task k)) as [_|]; [|done]. unfold current. rewrite E.
    destruct (decide (state (task (current_task k) k) = TASK_BLOCKED)).
    + set (k1 := set_task _ _ k).
      assert (Et : tcr3 (task (current_task k1) k1) = tcr3 (task (current_task k) k)).
      { unfold k1. cbn [current_task set_task set_tasks]. by rewrite task_set_same. }
      rewrite Et. unfold paging_get_directory.
      destruct (Z.eqb_spec (tcr3 (task (current_task k) k)) (cr3 (kmmu k1))) as [Eq|]; cbn [negb]; [|done].
      by rewrite Eq, mmu_eta, set_mmu_same.
    + unfold paging_get_directory.
      destruct (Z.eqb_spec (tcr3 (task (current_task k) k)) (cr3 (kmmu k))) as [Eq|]; cbn [negb]; [|done].
      by rewrite Eq, mmu_eta, set_mmu_same.
  - destruct (decide (nx = current_task k)); [done|].
    set (k1 := set_task nx _ _).
    assert (Et : tcr3 (current k1) = tcr3 (task nx k)).
    { unfold k1, current. cbn [current_task set_task set_tasks set_current]. by rewrite task_set_same. }
    rewrite Et. unfold paging_get_directory.
    destruct (Z.eqb_spec (tcr3 (task nx k)) (cr3 (kmmu k1))) as [Eq|]; cbn [negb]; [|done].
    by rewrite Eq, mmu_eta, set_mmu_same.
Qed.

Lemma dispatched_facts k l nx :
  ring_ok k l -> nx ∈ l ->
  ring_ok (dispatched k nx) l /\ current_task (dispatched k nx) = nx
  /\ cr3 (kmmu (dispatched k nx)) = tcr3 (task nx k)
  /\ (forall p, p <> nx -> task p (dispatched k nx) = task p k)
  /\ esp (task nx (dispatched k nx)) = esp (task nx k)
  /\ (state (task nx (dispatched k nx)) = TASK_RUNNING \/ nx = current_task k)
  /\ mheap (kmmu (dispatched k nx)) = mheap (kmmu k).
Proof.
  intros R Hn. unfold dispatched.
  assert (Hmm : forall (m : mmu) (k' : kern B) l', ring_ok k' l' -> ring_ok (set_mmu m k') l')
    by (intros m k' l' R'; by apply (ring_same k'); [|done|apply R'|intros; split; [by apply R'|]]).
  assert (Hins : forall t (k' : kern B) p m, task p (set_mmu m (set_task nx t k')) =
            if decide (p = nx) then t else task p k').
  { intros t k' p m. unfold task. cbn [tasks set_mmu set_task set_tasks].
    destruct (decide (p = nx)) as [->|]; [by rewrite lookup_insert_eq|by rewrite lookup_insert_ne]. }
  destruct (decide (nx = current_task k)) as [Enx|Hne].
  - destruct (decide (state (current k) = TASK_BLOCKED)).
    + split; [apply Hmm, ring_set_task; [done|done|by subst nx]|]. split; [by subst nx|].
      split; [by subst nx|]. split; [intros p Hp; by rewrite Hins, decide_False|].
      split; [rewrite Hins, decide_True by done; by subst nx|]. split; [by right|done].
    + split; [by apply Hmm|]. split; [done|]. split; [done|]. split; [done|]. split; [done|]. split; [by right|done].
  - assert (Rc : ring_ok (set_current nx k) l) by (apply (ring_same k); [done|done|done|intros; split; [by apply R|done]]).
    split; [apply Hmm, ring_set_task; [done|done|done]|]. split; [done|]. split; [done|].
    split; [intros p Hp; by rewrite Hins, decide_False|].
    split; [by rewrite Hins, decide_True|]. split; [left; by rewrite Hins, decide_True|done].
Qed.

(** ** The timer tick *)

Definition suspended k (r : Z) : tcb_t :=
  let t := with_esp (current k) r in
  if decide (state t = TASK_RUNNING) then with_state t TASK_READY else t.

Lemma first_runnable_same k k' l :
  (forall p, p ∈ l -> task p k' = task p k) -> first_runnable k' l = first_runnable k l.
Proof.
  induction l as [|x l IH]; intros E; simpl; [done|]. rewrite E by set_solver. rewrite IH; [done|].
  intros p Hp. apply E. set_solver.
Qed.

Lemma suspended_next k r : next (suspended k r) = next (current k).
Proof. unfold suspended. by destruct (decide _). Qed.
Lemma suspended_esp k r : esp (suspended k r) = r.
Proof. unfold suspended. by destruct (decide _). Qed.

Lemma tick_spec k l fuel r :
  ring_ok k l -> (length l <= fuel)%nat ->
  exists a b, l = a ++ current_task k :: b /\ current_task k ∉ b ++ a /\
    let k1 := set_task (current_task k) (suspended k r) k in
    let nx := default (current_task k) (first_runnable k (b ++ a)) in
    ring_ok k1 l /\ nx ∈ l /\
    scheduler_tick fuel r k = Ret (esp (task nx (dispatched k1 nx))) (dispatched k1 nx).
Proof.
  intros R Hf. destruct (ring_from k l _ R (ring_current _ _ R)) as (a & b & El & L & Hc).
  exists a, b. split; [done|]. split; [done|]. cbv zeta.
  set (k1 := set_task (current_task k) (suspended k r) k).
  assert (R1 : ring_ok k1 l) by (apply ring_set_task; [done|apply R|apply suspended_next]).
  assert (L1 : links k1 (current_task k :: b ++ a) (current_task k)).
  { eapply links_same; [|exact L]. intros p Hp. unfold k1. destruct (decide (current_task k = p)) as [<-|].
    - rewrite task_set_same. apply suspended_next.
    - by rewrite task_set_other. }
  assert (Ef : first_runnable k1 (b ++ a) = first_runnable k (b ++ a)).
  { apply first_runnable_same. intros p Hp. apply task_set_other. by intros <-. }
  assert (Hnz : current_task k <> 0).
  { intros E. apply (ring_nonnull _ _ R). rewrite <- E. apply R. }
  assert (Hn : default (current_task k) (first_runnable k (b ++ a)) ∈ l).
  { destruct (first_runnable k (b ++ a)) as [x|] eqn:E; simpl; [|apply R].
    apply first_runnable_elem in E as [Hx _]. subst l. set_solver. }
  split; [done|]. split; [done|].
  unfold scheduler_tick. destruct (Z.eqb_spec (current_task k) 0); [done|].
  fold (suspended k r). fold k1.
  pose proof (schedule_spec k1 l a b fuel R1 El L1 Hc Hf) as E.
  unfold successor in E. rewrite Ef in E. change (current_task k1) with (current_task k) in E.
  rewrite (bind_ret _ _ _ _ _ E). unfold gets, current.
  pose proof (dispatched_facts k1 l _ R1 Hn) as (_ & Ec & _). by rewrite Ec.
Qed.

(** C13: A timer tick is one round-robin step. It saves the interrupted frame,
    moves on to the first runnable task after the current one in list order
    (staying only when no other is), loads that task's page directory, returns
    the frame that task was suspended with, and leaves all other tasks and the
    run list as they were. *)
Theorem scheduler_tick_round_robin k l fuel r :
  ring_ok k l -> (length l <= fuel)%nat ->
  exists a b k', l = a ++ current_task k :: b /\
    let nx := default (current_task k) (first_runnable k (b ++ a)) in
    scheduler_tick fuel r k = Ret (if decide (nx = current_task k) then r else esp (task nx k)) k'
    /\ current_task k' = nx /\ cr3 (kmmu k') = tcr3 (task nx k) /\ esp (task (current_task k) k') = r
    /\ ring_ok k' l /\ (nx <> current_task k -> state (task nx k') = TASK_RUNNING)
    /\ (forall p, p <> current_task k -> p <> nx -> task p k' = task p k).
Proof.
  intros R Hf. destruct (tick_spec k l fuel r R Hf) as (a & b & El & Hc & R1 & Hn & E).
  set (k1 := set_task (current_task k) (suspended k r) k) in *.
  set (nx := default (current_task k) (first_runnable k (b ++ a))) in *.
  destruct (dispatched_facts k1 l nx R1 Hn) as (R2 & Ec & E3 & Eo & Ee & Es & _).
  exists a, b, (dispatched k1 nx). split; [done|]. cbv zeta. fold nx.
  assert (Et : task (current_task k) k1 = suspended k r) by apply task_set_same.
  assert (En : nx <> current_task k -> task nx k1 = task nx k) by (intros; by apply task_set_other).
  assert (Er : tcr3 (task nx k1) = tcr3 (task nx k)).
  { destruct (decide (nx = current_task k)) as [->|Hne]; [|by rewrite En].
    rewrite Et. unfold suspended. by destruct (decide _). }
  split; [|split; [done|split; [by rewrite E3|]]].
  - rewrite E, Ee. f_equal. destruct (decide (nx = current_task k)) as [Eq|Hne]; [|by rewrite En].
    rewrite Eq, Et. apply suspended_esp.
  - split; [|split; [done|split]].
    + destruct (decide (nx = current_task k)) as [Eq|Hne].
      * rewrite <- Eq, Ee, Eq, Et. apply suspended_esp.
      * rewrite Eo by congruence. rewrite Et. apply suspended_esp.
    + intros Hne. by destruct Es.
    + intros p Hp1 Hp2. rewrite Eo by done. apply task_set_other. congruence.
Qed.

(** ** Fairness *)

(** The tasks that run after each of a sequence of ticks. *)
Fixpoint run_ticks (fuel : nat) (rs : list Z) : M (kern B) (list Z) :=
  match rs with
  | [] => mret []
  | r :: rs' =>
      scheduler_tick fuel r ;;
      c ← gets current_task;
      out ← run_ticks fuel rs';
      mret (c :: out)
  end.

Lemma ring_split_unique (a b a' b' : list Z) c :
  NoDup (a ++ c :: b) -> a ++ c :: b = a' ++ c :: b' -> a = a' /\ b = b'.
Proof.
  revert a'. induction a as [|x a IH]; intros [|y a'] Nd E; simpl in *; simplify_eq.
  - done.
  - apply NoDup_cons in Nd as [Hn _]. set_solver.
  - apply NoDup_cons in Nd as [Hn _]. set_solver.
  - apply NoDup_cons in Nd as [_ Nd]. destruct (IH a' Nd ltac:(done)) as [-> ->]. done.
Qed.

(** Distance from the current task to [x] along the list. *)
Definition ahead k l x (d : nat) : Prop :=
  exists a b, l = a ++ current_task k :: b /\ (b ++ a) !! d = Some x.

Lemma rotate_ahead l a c b y x d e :
  NoDup l -> l = a ++ c :: b -> (b ++ a) !! e = Some y -> (b ++ a) !! d = Some x -> (e < d)%nat ->
  exists a' b', l = a' ++ y :: b' /\ (b' ++ a') !! (d - e - 1)%nat = Some x.
Proof.
  intros Nd El Hy Hx Hlt. destruct (Nat.lt_ge_cases e (length b)) as [He|He].
  - rewrite lookup_app_l in Hy by lia. apply list_elem_of_split_length in Hy as (b1 & b2 & Eb & Le).
    exists (a ++ c :: b1), b2. split; [subst; by rewrite <- app_assoc|].
    subst b. rewrite <- app_assoc in Hx. simpl in Hx. subst e.
    rewrite lookup_app_r in Hx by lia. replace (d - length b1)%nat with (S (d - length b1 - 1)) in Hx by lia.
    simpl in Hx. rewrite app_assoc, lookup_app_l; [done|]. by eapply lookup_lt_Some.
  - rewrite lookup_app_r in Hy by lia. apply list_elem_of_split_length in Hy as (a1 & a2 & Ea & Le).
    exists a1, (a2 ++ c :: b). split; [subst; by rewrite <- app_assoc|].
    rewrite lookup_app_r in Hx by lia. subst a. rewrite lookup_app_r in Hx by lia.
    replace (d - length b - length a1)%nat with (S (d - e - 1)) in Hx by lia. simpl in Hx.
    rewrite <- app_assoc, lookup_app_l; [done|]. by eapply lookup_lt_Some.
Qed.

Lemma first_runnable_before k l x d :
  l !! d = Some x -> runnable (task x k) = true ->
  exists y e, first_runnable k l = Some y /\ l !! e = Some y /\ (e <= d)%nat.
Proof.
  revert d. induction l as [|z l IH]; intros d Hd Hr; [done|]. simpl.
  destruct (runnable (task z k)) eqn:E; [exists z, 0%nat; split; [done|]; split; [done|lia]|].
  destruct d as [|d]; simpl in Hd; [injection Hd as ->; congruence|].
  destruct (IH d Hd Hr) as (y & e & Hy & He & Hle). exists y, (S e). split; [done|]. split; [done|lia].
Qed.

(** A run of ticks returns. *)
Lemma ticks_return l fuel rs : (length l <= fuel)%nat -> forall k, ring_ok k l -> exists out k', run_ticks fuel rs k = Ret out k'.
Proof.
  intros Hf. induction rs as [|r rs IH]; intros k R; [by eexists _, _|]. cbn [run_ticks].
  destruct (tick_spec k l fuel r R Hf) as (a & b & _ & _ & R1 & Hn & E). rewrite (bind_ret _ _ _ _ _ E).
  destruct (dispatched_facts _ l _ R1 Hn) as (R2 & _).
  destruct (IH _ R2) as (out & k' & E'). eexists _, _. unfold mbind, M_bind in *. cbn [gets]. by rewrite E'.
Qed.

(** A ready task with [d] tasks before it runs within [d + 1] ticks. *)
Lemma fair_within l fuel x : (length l <= fuel)%nat -> forall rs d k, (d < length rs)%nat -> ring_ok k l -> ahead k l x d ->
  state (task x k) = TASK_READY -> exists out k', run_ticks fuel rs k = Ret out k' /\ x ∈ out.
Proof.
  intros Hf. induction rs as [|r rs IH]; intros d k Hd R A Hs; [simpl in Hd; lia|]. cbn [run_ticks].
  destruct A as (a & b & El & Hx). destruct (tick_spec k l fuel r R Hf) as (a' & b' & El' & Hc & R1 & Hn & E).
  assert (Eab : a' = a /\ b' = b).
  { pose proof (ring_nodup _ _ R) as Nd. rewrite El in El'.
    destruct (ring_split_unique a b a' b' (current_task k)) as [-> ->]; [by rewrite <- El|done|done]. }
  destruct Eab as [-> ->]. rewrite (bind_ret _ _ _ _ _ E). set (k1 := set_task (current_task k) (suspended k r) k) in *.
  destruct (first_runnable_before k (b ++ a) x d Hx) as (y & e & Ey & He & Hle); [unfold runnable; by rewrite Hs|].
  rewrite Ey in *. cbn [default from_option id] in *. destruct (dispatched_facts k1 l y R1 Hn) as (R2 & Ec & _ & Eo & _ & _).
  assert (Hout : exists out k', run_ticks fuel rs (dispatched k1 y) = Ret out k' /\ (x = y \/ x ∈ out)).
  { destruct (decide (x = y)) as [->|Hxy]; [destruct (ticks_return l fuel rs Hf _ R2) as (out & k' & E'); eauto|].
    assert (Hlt : (e < d)%nat) by (destruct (decide (e = d)) as [->|]; [congruence|lia]).
    destruct (IH (d - e - 1)%nat (dispatched k1 y)) as (out & k' & E' & Hi); [simpl in Hd; lia|done| | |eauto].
    - destruct (rotate_ahead l a _ b y x d e (ring_nodup _ _ R) El He Hx Hlt) as (a2 & b2 & E2 & H2). exists a2, b2. by rewrite Ec.
    - rewrite Eo by done. unfold k1. rewrite task_set_other; [done|]. intros Eq. apply Hc. rewrite Eq. by eapply list_elem_of_lookup_2. }
  destruct Hout as (out & k' & E' & Hi). eexists (y :: out), k'. unfold mbind, M_bind in *. cbn [gets]. rewrite E'. split; [by rewrite Ec|]. set_solver.
Qed.

(** C15: No starvation. A task that is ready is scheduled within as many timer
    ticks as there are tasks on the run list, whatever the other tasks' states. *)
Theorem scheduler_fair k l fuel rs x :
  ring_ok k l -> (length l <= fuel)%nat -> x ∈ l -> x <> current_task k -> state (task x k) = TASK_READY ->
  (length l <= length rs)%nat ->
  exists out k', run_ticks fuel rs k = Ret out k' /\ x ∈ out.
Proof.
  intros R Hf Hx Hne Hs Hl. destruct (ring_from k l _ R (ring_current _ _ R)) as (a & b & El & _ & Hc).
  assert (Hin : x ∈ b ++ a) by (subst l; set_solver). apply list_elem_of_lookup in Hin as [d Hd].
  apply (fair_within l fuel x Hf rs d k); [|done|by exists a, b|done].
  apply lookup_lt_Some in Hd. subst l. rewrite !length_app in *. simpl in *. lia.
Qed.

(** ** Waking *)

Definition woken_tcb (w : Z) (t : tcb_t) : tcb_t :=
  if decide (state t = TASK_BLOCKED /\ wait_obj t = w) then with_state t TASK_READY else t.

Lemma woken_next w t : next (woken_tcb w t) = next t.
Proof. unfold woken_tcb. by destruct (decide _). Qed.

Lemma wake_step w t k :
  is_Some (tasks k !! t) ->
  (if decide (state (task t k) = TASK_BLOCKED /\ wait_obj (task t k) = w)
   then set_task t (with_state (task t k) TASK_READY) k else k) = set_task t (woken_tcb w (task t k)) k.
Proof.
  intros [x Hx]. unfold woken_tcb. destruct (decide _); [done|].
  unfold set_task, set_tasks, task. rewrite Hx. simpl. rewrite insert_id by done. by destruct k.
Qed.

Lemma wake_loop_spec w stop : forall l t k fuel,
  links k (t :: l) stop -> NoDup (t :: l) -> stop ∉ l -> (forall p, p ∈ t :: l -> is_Some (tasks k !! p)) ->
  (length l < fuel)%nat ->
  exists k', wake_loop fuel w t stop k = Ret tt k'
    /\ idle_task k' = idle_task k /\ current_task k' = current_task k /\ kmmu k' = kmmu k
    /\ next_pid k' = next_pid k /\ files k' = files k
    /\ (forall p, task p k' = if decide (p ∈ t :: l) then woken_tcb w (task p k) else task p k)
    /\ (forall p, is_Some (tasks k !! p) -> is_Some (tasks k' !! p)).
Proof.
  induction l as [|x l IH]; intros t k fuel [Hn L] Nd Hs Ht Hf; (destruct fuel as [|fuel]; [simpl in *; lia|]);
    cbn [wake_loop]; rewrite wake_step by (apply Ht; set_solver);
    set (k1 := set_task t (woken_tcb w (task t k)) k);
    (assert (E1 : next (task t k1) = next (task t k)) by (unfold k1; rewrite task_set_same; apply woken_next));
    rewrite E1, Hn; simpl hd.
  - rewrite Z.eqb_refl. exists k1. do 6 (split; [done|]). split.
    + intros p. destruct (decide (p ∈ [t])) as [Hp|Hp].
      * apply list_elem_of_singleton in Hp as ->. apply task_set_same.
      * apply task_set_other. set_solver.
    + intros p Hp. unfold k1, set_task, set_tasks. simpl. destruct (decide (p = t)) as [->|].
      * by rewrite lookup_insert_eq. * by rewrite lookup_insert_ne.
  - destruct (Z.eqb_spec x stop) as [->|]; [set_solver|].
    apply NoDup_cons in Nd as [Hnt Nd].
    assert (Eo : forall p, p <> t -> task p k1 = task p k) by (intros; apply task_set_other; congruence).
    assert (Ei : forall p, is_Some (tasks k !! p) -> is_Some (tasks k1 !! p)).
    { intros p Hp. unfold k1, set_task, set_tasks. simpl. destruct (decide (p = t)) as [->|].
      - by rewrite lookup_insert_eq.
      - by rewrite lookup_insert_ne. }
    destruct (IH x k1 fuel) as (k' & E & C1 & C2 & C3 & C4 & C5 & C6 & C7).
    + eapply links_same; [|exact L]. intros p Hp. rewrite Eo; [done|]. intros ->. done.
    + done.
    + set_solver.
    + intros p Hp. apply Ei, Ht. set_solver.
    + simpl in Hf. lia.
    + exists k'. split; [done|]. do 5 (split; [done|]). split; [|by intros; apply C7, Ei].
      intros p. rewrite C6. destruct (decide (p = t)) as [->|Hp].
      * rewrite decide_False by done. rewrite decide_True by set_solver. apply task_set_same.
      * rewrite Eo by done. destruct (decide (p ∈ x :: l)); destruct (decide (p ∈ t :: x :: l)); set_solver.
Qed.

(** The whole list is visited, once. *)
Lemma wake_spec k l fuel w :
  ring_ok k l -> (length l <= fuel)%nat -> w <> 0 ->
  exists k', scheduler_wake fuel w k = Ret tt k' /\ ring_ok k' l
    /\ current_task k' = current_task k /\ kmmu k' = kmmu k
    /\ (forall p, p ∈ l -> task p k' = woken_tcb w (task p k))
    /\ (forall p, p ∉ l -> task p k' = task p k).
Proof.
  intros R Hf Hw. unfold scheduler_wake. destruct (Z.eqb_spec w 0); [done|].
  destruct (ring_head _ _ R) as [rest ->]. pose proof (ring_links _ _ R) as L. pose proof (ring_nodup _ _ R) as Nd.
  destruct (wake_loop_spec w (idle_task k) rest (idle_task k) k fuel L Nd) as (k' & E & C1 & C2 & C3 & C4 & C5 & C6 & C7).
  - by apply NoDup_cons in Nd as [? _].
  - apply R.
  - simpl in Hf. lia.
  - exists k'. split; [done|]. split; [|split; [done|split; [done|split]]].
    + apply (ring_same k); [done|done|rewrite C2; apply R|]. intros p Hp. split; [by apply C7, R|].
      rewrite C6, decide_True by done. apply woken_next.
    + intros p Hp. by rewrite C6, decide_True.
    + intros p Hp. by rewrite C6, decide_False.
Qed.

(** C29: [scheduler_wake] makes exactly the tasks blocked on the given object
    ready, all of them, and changes nothing else; it visits the whole run list
    and ends. *)
Theorem scheduler_wake_exact k l fuel w :
  ring_ok k l -> (length l <= fuel)%nat -> w <> 0 ->
  exists k', scheduler_wake fuel w k = Ret tt k' /\ ring_ok k' l
    /\ current_task k' = current_task k /\ kmmu k' = kmmu k
    /\ forall p, p ∈ l ->
         task p k' = if decide (state (task p k) = TASK_BLOCKED /\ wait_obj (task p k) = w)
                     then with_state (task p k) TASK_READY else task p k.
Proof.
  intros R Hf Hw. destruct (wake_spec k l fuel w R Hf Hw) as (k' & E & R' & C & M' & Hin & _).
  exists k'. do 4 (split; [done|]). exact Hin.
Qed.

(** ** Waiting for a task *)

Fixpoint first_pid k l (p : Z) : option Z :=
  match l with
  | [] => None
  | x :: l' => if i32 (pid (task x k)) =? p then Some x else first_pid k l' p
  end.

Lemma walk_find_spec k stop p : forall l t fuel,
  links k (t :: l) stop -> stop ∉ l -> (length l < fuel)%nat ->
  walk_find fuel (fun t => i32 (pid t) =? p) t stop k = Ret (first_pid k (t :: l) p) k.
Proof.
  induction l as [|x l IH]; intros t fuel [Hn L] Hs Hf; (destruct fuel as [|fuel]; [simpl in *; lia|]);
    cbn [walk_find first_pid]; simpl in Hn; rewrite Hn; destruct (i32 (pid (task t k)) =? p); try done.
  - by rewrite Z.eqb_refl.
  - destruct (Z.eqb_spec x stop) as [->|]; [set_solver|]. apply IH; [exact L|set_solver|simpl in *; lia].
Qed.

Lemma find_by_pid_spec k l fuel p :
  ring_ok k l -> (length l <= fuel)%nat -> 0 <= p ->
  scheduler_find_by_pid fuel p k = Ret (first_pid k l p) k.
Proof.
  intros R Hf Hp. unfold scheduler_find_by_pid.
  destruct (ring_head _ _ R) as [rest El]. pose proof (ring_links _ _ R) as L. pose proof (ring_nodup _ _ R) as Nd.
  assert (idle_task k <> 0) by (intros E; apply (ring_nonnull _ _ R); subst l; rewrite E; set_solver).
  destruct (Z.eqb_spec (idle_task k) 0), (Z.ltb_spec p 0); try done; try lia. cbn [orb]. subst l.
  apply NoDup_cons in Nd as [Hn _].
  apply walk_find_spec; [exact L|done|simpl in Hf; lia].
Qed.

(** Waiting for a task that has exited returns its exit code at once;
    waiting for a PID no task has returns -1; otherwise the caller goes to sleep
    on the PID, and what it returns when it runs again is the exit-code field of
    that task, whether or not the task has exited by then. *)
Theorem wait_pid_cases k l fuel p :
  ring_ok k l -> (length l <= fuel)%nat -> 0 <= p ->
  (forall k', ring_ok k' l -> wait_pid_resume fuel p k' =
     Ret (match first_pid k' l p with Some c => exit_code (task c k') | None => -1 end) k')
  /\ wait_pid_check fuel p k =
     Ret (match first_pid k l p with
          | None => inl (-1)
          | Some c => if decide (state (task c k) = TASK_EXITED) then inl (exit_code (task c k)) else inr p
          end) k.
Proof.
  intros R Hf Hp. split.
  - intros k' R'. unfold wait_pid_resume. rewrite (bind_ret _ _ _ _ _ (find_by_pid_spec k' l fuel p R' Hf Hp)).
    by destruct (first_pid k' l p).
  - unfold wait_pid_check. destruct (Z.ltb_spec p 0); [lia|].
    rewrite (bind_ret _ _ _ _ _ (find_by_pid_spec k l fuel p R Hf Hp)).
    destruct (first_pid k l p) as [c|]; [|done]. unfold mbind, M_bind. cbn [gets].
    by destruct (decide (state (task c k) = TASK_EXITED)).
Qed.

(** A UDP datagram for port [p] ends a wait for PID [p]: ports and PIDs
    share the space of wait objects. The wake-up that [udp_server_enqueue]
    performs makes the task waiting for PID [p] ready although the awaited task
    [c] has not exited, and the wait then returns that task's exit-code field. *)
Theorem wait_pid_woken_by_port k l fuel p waiter c :
  ring_ok k l -> (length l <= fuel)%nat -> 0 < p -> waiter ∈ l -> c <> waiter ->
  state (task waiter k) = TASK_BLOCKED -> wait_obj (task waiter k) = p ->
  first_pid k l p = Some c -> state (task c k) = TASK_RUNNING ->
  exists k', scheduler_wake fuel p k = Ret tt k' /\ state (task waiter k') = TASK_READY
    /\ state (task c k') = TASK_RUNNING
    /\ wait_pid_resume fuel p k' = Ret (exit_code (task c k)) k'.
Proof.
  intros R Hf Hp Hw Hcw Sw Ww Fc Sc.
  destruct (wake_spec k l fuel p R Hf ltac:(lia)) as (k' & E & R' & _ & _ & Hin & Hout).
  assert (Et : forall q, task q k' = woken_tcb p (task q k) \/ task q k' = task q k).
  { intros q. destruct (decide (q ∈ l)); [left; by apply Hin|right; by apply Hout]. }
  assert (Ec : task c k' = task c k).
  { destruct (Et c) as [-> | ->]; [|done]. unfold woken_tcb. rewrite decide_False; [done|]. by rewrite Sc; intros [? _]. }
  assert (Ef : first_pid k' l p = first_pid k l p).
  { clear -Et. induction l as [|x l IH]; simpl; [done|]. rewrite IH.
    assert (Ep : pid (task x k') = pid (task x k)).
    { destruct (Et x) as [-> | ->]; [|done]. unfold woken_tcb. by destruct (decide _). }
    by rewrite Ep. }
  exists k'. split; [done|]. split; [|split].
  - rewrite Hin by done. unfold woken_tcb. by rewrite decide_True by done.
  - by rewrite Ec.
  - unfold wait_pid_resume. rewrite (bind_ret _ _ _ _ _ (find_by_pid_spec k' l fuel p R' Hf ltac:(lia))).
    rewrite Ef, Fc, <- Ec. done.
Qed.

(** ** What the operations keep *)

(** The run list is a ring that starts at the idle task, which never exits,
    and only the current task can be in state running. *)
Record sched_ok k l : Prop := {
  so_ring : ring_ok k l;
  so_running : forall p, p ∈ l -> state (task p k) = TASK_RUNNING -> p = current_task k;
  so_idle : state (task (idle_task k) k) <> TASK_EXITED
}.

Lemma sched_ok_dispatched k l nx :
  ring_ok k l -> nx ∈ l ->
  (forall p, p ∈ l -> state (task p k) = TASK_RUNNING -> p = nx) ->
  state (task (idle_task k) k) <> TASK_EXITED -> sched_ok (dispatched k nx) l.
Proof.
  intros R Hn Hr Hi. destruct (dispatched_facts k l nx R Hn) as (R2 & Ec & _ & Eo & _ & Es & _). split.
  - done.
  - intros p Hp Hs. rewrite Ec. destruct (decide (p = nx)) as [->|Hne]; [done|].
    rewrite Eo in Hs by done. by apply Hr.
  - assert (Ei : idle_task (dispatched k nx) = idle_task k).
    { unfold dispatched. destruct (decide _); [destruct (decide _)|]; done. }
    rewrite Ei. destruct (decide (idle_task k = nx)) as [E|Hne]; [|by rewrite Eo].
    destruct Es as [Es|Es]; [rewrite E, Es; done|]. rewrite E in *.
    unfold dispatched. rewrite decide_True by done. unfold current. rewrite <- Es.
    destruct (decide (state (task nx k) = TASK_BLOCKED)); [|done].
    change (task nx _) with (task nx (set_task nx (with_state (task nx k) TASK_RUNNING) k)).
    by rewrite task_set_same.
Qed.

(** A suspended or blocked current task, then the selection of the next. *)
Lemma sched_ok_switch k l t fuel x k' :
  sched_ok k l -> (length l <= fuel)%nat -> next t = next (current k) -> state t <> TASK_RUNNING ->
  (state t = TASK_EXITED -> state (current k) = TASK_EXITED) ->
  (scheduler_schedule fuel ;; gets (fun k => esp (current k))) (set_task (current_task k) t k) = Ret x k' ->
  sched_ok k' l.
Proof.
  intros [R Hr Hi] Hf Hn Hs He. set (k1 := set_task (current_task k) t k).
  assert (R1 : ring_ok k1 l) by (apply ring_set_task; [done|apply R|done]).
  destruct (ring_from k1 l _ R1 (ring_current _ _ R1)) as (a & b & El & L & Hc).
  pose proof (schedule_spec k1 l a b fuel R1 El L Hc Hf) as E. rewrite (bind_ret _ _ _ _ _ E).
  unfold gets. intros [= _ <-].
  assert (Hin : successor k1 (b ++ a) ∈ l).
  { unfold successor. destruct (first_runnable k1 (b ++ a)) as [y|] eqn:Ey; simpl; [|apply R1].
    apply first_runnable_elem in Ey as [Hy _]. rewrite El. set_solver. }
  apply sched_ok_dispatched; [done|done| |].
  - intros p Hp Hst. exfalso. destruct (decide (current_task k = p)) as [<-|Hne].
    + unfold k1 in Hst. by rewrite task_set_same in Hst.
    + unfold k1 in Hst. rewrite task_set_other in Hst by done. apply Hne. symmetry. by apply Hr.
  - change (idle_task k1) with (idle_task k). unfold k1. destruct (decide (current_task k = idle_task k)) as [Ei|Hne].
    + rewrite <- Ei, task_set_same. intros Ht. apply Hi. rewrite <- Ei. by apply He.
    + by rewrite task_set_other.
Qed.

(** Changing the current task without making it run. *)
Lemma sched_ok_set k l t :
  sched_ok k l -> next t = next (current k) ->
  (state t = TASK_EXITED -> current_task k <> idle_task k \/ state (current k) = TASK_EXITED) ->
  sched_ok (set_task (current_task k) t k) l.
Proof.
  intros [R Hr Hi] Hn He. split.
  - apply ring_set_task; [done|apply R|done].
  - intros p Hp. destruct (decide (current_task k = p)) as [<-|Hne]; [done|].
    rewrite task_set_other by done. by apply Hr.
  - change (idle_task (set_task (current_task k) t k)) with (idle_task k).
    destruct (decide (current_task k = idle_task k)) as [Ei|Hne]; [|by rewrite task_set_other].
    rewrite <- Ei, task_set_same. intros Ht. destruct (He Ht) as [?|Hx]; [done|]. apply Hi. by rewrite <- Ei.
Qed.

Lemma sched_ok_wake k l fuel w k' :
  sched_ok k l -> (length l <= fuel)%nat -> scheduler_wake fuel w k = Ret tt k' -> sched_ok k' l.
Proof.
  intros [R Hr Hi] Hf E. destruct (decide (w = 0)) as [->|Hw].
  { unfold scheduler_wake in E. simpl in E. injection E as <-. by split. }
  destruct (wake_spec k l fuel w R Hf Hw) as (k1 & E1 & R1 & Ec & _ & Hin & _).
  rewrite E1 in E. injection E as <-.
  assert (Hst : forall p, p ∈ l -> state (task p k1) <> state (task p k) -> state (task p k1) = TASK_READY).
  { intros p Hp. rewrite Hin by done. unfold woken_tcb. by destruct (decide _). }
  assert (Eid : idle_task k1 = idle_task k).
  { destruct (ring_head _ _ R) as [r1 E1'], (ring_head _ _ R1) as [r2 E2']. congruence. }
  split; [done| |].
  - intros p Hp Hs. rewrite Ec. destruct (decide (state (task p k1) = state (task p k))) as [Es|Es].
    + apply Hr; [done|congruence].
    + rewrite (Hst p Hp Es) in Hs. done.
  - rewrite Eid. assert (Hid : idle_task k ∈ l) by (destruct (ring_head _ _ R) as [? ->]; set_solver).
    destruct (decide (state (task (idle_task k) k1) = state (task (idle_task k) k))) as [Es|Es]; [by rewrite Es|].
    by rewrite (Hst _ Hid Es).
Qed.

Lemma sched_ok_link k l p t :
  sched_ok k l -> p ∉ l -> p <> 0 -> state t = TASK_READY ->
  exists rest, l = idle_task k :: rest /\ sched_ok (link_task p t k) (idle_task k :: p :: rest).
Proof.
  intros [R Hr Hi] Hpl Hp0 Ht. destruct (ring_head _ _ R) as [rest El]. exists rest. split; [done|].
  set (i := idle_task k) in *. assert (Hpi : i <> p) by (subst l; set_solver).
  assert (Hil : i ∈ l) by (subst l; set_solver).
  assert (Et : forall q, task q (link_task p t k) =
    if decide (q = i) then with_next (task i k) p
    else if decide (q = p) then with_next t (next (task i k)) else task q k).
  { intros q. unfold link_task, task, set_tasks. cbn [tasks]. fold i.
    destruct (decide (q = i)) as [->|]; [by rewrite lookup_insert_eq|]. rewrite lookup_insert_ne by done.
    destruct (decide (q = p)) as [->|]; [by rewrite lookup_insert_eq|by rewrite lookup_insert_ne]. }
  pose proof (ring_links _ _ R) as L. pose proof (ring_nodup _ _ R) as Nd. rewrite El in L, Nd. destruct L as [L1 L2].
  assert (Hir : i ∉ rest) by (by apply NoDup_cons in Nd as [? _]).
  split.
  - split.
    + by exists (p :: rest).
    + subst l. apply NoDup_cons. split; [set_solver|]. apply NoDup_cons. split; [set_solver|].
      by apply NoDup_cons in Nd as [_ ?].
    + pose proof (ring_nonnull _ _ R). subst l. set_solver.
    + change (idle_task (link_task p t k)) with i. cbn [links hd].
      split; [rewrite Et, decide_True by done; done|].
      split; [rewrite Et, decide_False, decide_True by done; exact L1|].
      eapply links_same; [|exact L2]. intros q Hq. rewrite Et, !decide_False; [done|set_solver|set_solver].
    + intros q Hq. unfold link_task, set_tasks. cbn [tasks]. fold i.
      destruct (decide (q = i)) as [->|]; [by rewrite lookup_insert_eq|]. rewrite lookup_insert_ne by done.
      destruct (decide (q = p)) as [->|]; [by rewrite lookup_insert_eq|]. rewrite lookup_insert_ne by done.
      apply R. subst l. set_solver.
    + change (current_task (link_task p t k)) with (current_task k). pose proof (ring_current _ _ R). subst l. set_solver.
  - intros q Hq. change (current_task (link_task p t k)) with (current_task k). rewrite Et.
    destruct (decide (q = i)) as [->|]; [intros Hs; by apply Hr|].
    destruct (decide (q = p)); [cbn; rewrite Ht; done|]. apply Hr. subst l. set_solver.
  - change (idle_task (link_task p t k)) with i. rewrite Et, decide_True by done. exact Hi.
Qed.

End Ring.

(** * A concrete run list, for the witnesses: idle (PID 0), a running task
    (PID 1), a ready task (PID 2), and one waiting for PID 1 *)

#[export] Instance unit_files : FdBackend unit := {|
  vfs_init_fds _ := []; vfs_bind_tty f _ := f; vfs_fork_fds f b := (f, b); vfs_exit_fds f b := (f, b)
|}.

Definition demo_tcb (e : Z) (st : task_state_t) (p w nx : Z) : tcb_t := mkTcb e st p 0 4096 0 [] w 0 nx.
Definition demo_kern : kern unit :=
  mkKern (mkMmu (mkHeap 0 0 0 0 ∅) 4096 0 4096 0)
    (<[8 := demo_tcb 100 TASK_READY 0 0 16]> (<[16 := demo_tcb 0 TASK_RUNNING 1 0 24]>
      (<[24 := demo_tcb 300 TASK_READY 2 0 32]> (<[32 := demo_tcb 400 TASK_BLOCKED 3 1 8]> ∅))))
    16 8 4 tt.

Lemma demo_kern_ok : sched_ok demo_kern [8; 16; 24; 32].
Proof.
  split.
  - split.
    + by exists [16; 24; 32].
    + repeat (apply NoDup_cons; split; [set_solver|]). apply NoDup_nil_2.
    + set_solver.
    + vm_compute. done.
    + intros p Hp. repeat (apply elem_of_cons in Hp as [->|Hp]; [by eexists|]). by apply elem_of_nil in Hp.
    + set_solver.
  - intros p Hp. repeat (apply elem_of_cons in Hp as [->|Hp]; [by vm_compute|]). by apply elem_of_nil in Hp.
  - by vm_compute.
Qed.

Lemma scheduler_tick_round_robin_witness : exists k', scheduler_tick 4 77 demo_kern = Ret 300 k'
  /\ current_task k' = 24 /\ esp (task 16 k') = 77.
Proof.
  destruct (scheduler_tick_round_robin demo_kern [8; 16; 24; 32] 4 77 (so_ring _ _ demo_kern_ok))
    as (a & b & k' & El & E & C & _ & Es & _); [simpl; lia|].
  destruct (ring_split_unique [8] [24; 32] a b 16) as [<- <-];
    [apply (ring_nodup _ _ (so_ring _ _ demo_kern_ok))|done|].
  exists k'. split; [exact E|]. split; [exact C|exact Es].
Defined.

Lemma scheduler_fair_witness : exists out k',
  run_ticks 4 [1; 2; 3; 4] demo_kern = Ret out k' /\ 24 ∈ out.
Proof.
  apply (scheduler_fair demo_kern [8; 16; 24; 32] 4 [1; 2; 3; 4] 24 (so_ring _ _ demo_kern_ok));
    [simpl; lia|set_solver|done|by vm_compute|simpl; lia].
Defined.

Lemma scheduler_wake_exact_witness : exists k', scheduler_wake 4 1 demo_kern = Ret tt k'
  /\ state (task 32 k') = TASK_READY.
Proof.
  destruct (scheduler_wake_exact demo_kern [8; 16; 24; 32] 4 1 (so_ring _ _ demo_kern_ok))
    as (k' & E & _ & _ & _ & T); [simpl; lia|lia|].
  exists k'. split; [done|]. by rewrite (T 32 ltac:(set_solver)).
Defined.

Lemma wait_pid_cases_witness : wait_pid_check 4 1 demo_kern = Ret (inr 1) demo_kern.
Proof.
  destruct (wait_pid_cases demo_kern [8; 16; 24; 32] 4 1 (so_ring _ _ demo_kern_ok)) as [_ E];
    [simpl; lia|lia|]. rewrite E. by vm_compute.
Defined.

Lemma wait_pid_woken_by_port_witness : exists k', scheduler_wake 4 1 demo_kern = Ret tt k'
  /\ state (task 32 k') = TASK_READY /\ state (task 16 k') = TASK_RUNNING
  /\ wait_pid_resume 4 1 k' = Ret 0 k'.
Proof.
  apply (wait_pid_woken_by_port demo_kern [8; 16; 24; 32] 4 1 32 16 (so_ring _ _ demo_kern_ok));
    first [simpl; lia|set_solver|by vm_compute|lia].
Defined.
