(* ===== verification/Image.v ===== *)
(** Program images: what [build_image] of [Sched] (the page and segment loops of
    stage2/scheduler.c) leaves in a new address space.

    The pages of the image are fresh, zero-filled and mapped one after the other;
    the file bytes of each segment are then copied through the array of page
    addresses. *)
From S2P Require Import Prelude Mem HeapSpec Paging Sched.

Section Image.
#[local] Opaque copy_bytes set_bytes.
Context `{KernelHeap}.

(** [alloc_user_page] hands out a page like [alloc_aligned_page]. *)
Lemma user_page_law h al :
  heap_inv h al -> ends (alloc_user_page h) (fun p h' => exists b, new_page h al p b h').
Proof.
  intros Hi. assert (E : alloc_user_page h
    = (p ← alloc_aligned_page; write_ram (memset p 0 PAGE_SIZE) ;; mret p) h).
  { unfold alloc_user_page, alloc_aligned_page, mbind, M_bind. by destruct (malloc (PAGE_SIZE * 2) h). }
  rewrite E. eapply ends_seq; [by apply alloc_page_law|]. cbv beta. intros p h1 (b & N).
  pose proof (inv_ram _ _ (np_inv _ _ _ _ _ N)) as R1. apply ends_bind.
  assert (Hs : forall x, ld8 (memset p 0 PAGE_SIZE (hram h1)) x
                = if (p <=? x) && (x <? p + 4096) then 0 else ld8 (hram h1) x).
  { intros x. unfold memset, PAGE_SIZE. by rewrite ld8_set_bytes, Z2Nat.id by lia. }
  eapply (write_ram_law h1 [b] al); [apply N|apply N|by apply ram_ok_set_bytes| |].
  { intros x Hx. rewrite Hs. repeat case_z; simpl; lia || done. }
  intros Hi2 K2. apply ends_ret. exists b. split; try apply N; [exact Hi2| |].
  - eapply kept_trans; [apply N|exact K2].
  - intros x Hx. cbn. rewrite Hs. repeat case_z; simpl; lia || done.
Qed.

(** The blocks: [ds] holds the directory and its tables, [ps] the pages, [ab] the
    array of page addresses, [al] everything else; [m0] is the memory before.
    [B] gives the byte of the image at a virtual address. *)
Context (al : list blk) (m0 : ram) (dir base pages : Z) (ab : blk).

Record image (B : Z -> Z) (h : heap) (ds ps : list blk) (pgs : list Z) : Prop := {
  im_inv : heap_inv h (ds ++ ps ++ ab :: al);
  im_dir : dir_ok ds (hram h) dir;
  im_kept : kept al m0 (hram h);
  im_array : forall i p, pgs !! i = Some p -> ld32 (hram h) (pages + 4 * Z.of_nat i) = p;
  im_page : forall i p, pgs !! i = Some p ->
    p mod 4096 = 0 /\ owns ps p (p + 4096) /\ in_u32 (p + 4095) /\ 0 <= p;
  im_apart : forall i j p q, pgs !! i = Some p -> pgs !! j = Some q -> i <> j ->
    p + 4096 <= q \/ q + 4096 <= p;
  im_maps : forall i p v, pgs !! i = Some p -> in_u32 v -> v / 4096 = base / 4096 + Z.of_nat i ->
    translate (hram h) dir v = Some (p + v mod 4096);
  im_user : forall i p v, pgs !! i = Some p -> in_u32 v -> v / 4096 = base / 4096 + Z.of_nat i ->
    user_page (hram h) dir v = Some (p + 7);
  im_others : forall v, in_u32 v ->
    v / 4096 < base / 4096 \/ base / 4096 + Z.of_nat (length pgs) <= v / 4096 ->
    translate (hram h) dir v = translate m0 dir v;
  im_bytes : forall i p k, pgs !! i = Some p -> 0 <= k < 4096 ->
    ld8 (hram h) (p + k) = B (base + 4096 * Z.of_nat i + k);
}.

(** The image in a memory where the directory, the pages and the rest are kept
    and the array reads the same. *)
Lemma image_kept B h ds ps pgs h' ps' :
  image B h ds ps pgs -> heap_inv h' (ds ++ ps' ++ ab :: al) ->
  kept ds (hram h) (hram h') -> kept ps (hram h) (hram h') -> kept al (hram h) (hram h') ->
  (forall lo hi, owns ps lo hi -> owns ps' lo hi) ->
  (forall i p, pgs !! i = Some p -> ld32 (hram h') (pages + 4 * Z.of_nat i) = p) ->
  image B h' ds ps' pgs.
Proof.
  intros I Hi Kd Kp Ka Ho Harr.
  assert (W : forall v, in_u32 v -> same_walk (hram h) (hram h') dir v).
  { intros v Hv. by apply (walk_kept ds); [apply I| |]. }
  split; try apply I; [exact Hi| | |exact Harr| | | | |].
  - eapply dir_ok_same; [apply I| |done]. eapply kept_owned; [exact Kd|apply I].
  - eapply kept_trans; [apply I|exact Ka].
  - intros i p E. destruct (im_page _ _ _ _ _ I i p E) as (P1 & P2 & P3). auto.
  - intros i p v E Hv Hpg. destruct (same_walk_results _ _ _ _ (W v Hv)) as [-> _]. by eapply im_maps.
  - intros i p v E Hv Hpg. destruct (same_walk_results _ _ _ _ (W v Hv)) as [_ ->]. by eapply im_user.
  - intros v Hv Hr. destruct (same_walk_results _ _ _ _ (W v Hv)) as [-> _]. by eapply im_others.
  - intros i p k E Hk. rewrite <- (im_bytes _ _ _ _ _ I i p k E Hk).
    destruct (im_page _ _ _ _ _ I i p E) as (_ & Ho' & _).
    symmetry. apply (kept_owned ps _ _ p (p + 4096)); [exact Kp|exact Ho'|lia].
Qed.

Lemma array_kept h h' (pgs : list Z) :
  kept [ab] (hram h) (hram h') -> Z.of_nat (length pgs) * 4 <= ab.2 -> pages = ab.1 + 12 ->
  (forall i p, pgs !! i = Some p -> ld32 (hram h) (pages + 4 * Z.of_nat i) = p) ->
  forall i p, pgs !! i = Some p -> ld32 (hram h') (pages + 4 * Z.of_nat i) = p.
Proof.
  intros K Hl Hp Ha i p E. rewrite <- (Ha i p E). symmetry. apply ld32_ext. intros x Hx.
  apply lookup_lt_Some in E. apply (kept_owned [ab] _ _ pages (pages + ab.2)); [exact K| |lia].
  exists ab. split; [set_solver|]. unfold bend, sizeof_block_header_t. lia.
Qed.

(** One more page, mapped after the others. *)
Lemma image_snoc B h ds ps pgs p v h' ds' :
  image B h ds ps pgs ->
  p mod 4096 = 0 /\ owns ps p (p + 4096) /\ in_u32 (p + 4095) /\ 0 <= p ->
  (forall i q, pgs !! i = Some q -> p + 4096 <= q \/ q + 4096 <= p) ->
  ld32 (hram h) (pages + 4 * Z.of_nat (length pgs)) = p ->
  (forall k, 0 <= k < 4096 -> ld8 (hram h) (p + k) = B (base + 4096 * Z.of_nat (length pgs) + k)) ->
  in_u32 v -> v / 4096 = base / 4096 + Z.of_nat (length pgs) ->
  Z.of_nat (S (length pgs)) * 4 <= ab.2 -> pages = ab.1 + 12 ->
  mapped h ds (ps ++ ab :: al) dir v p 6 h' ds' ->
  image B h' ds' ps (pgs ++ [p]).
Proof.
  intros I Pp Pap Parr Pby Hv Hpg Hl Hpa Mp.
  pose proof (mp_kept _ _ _ _ _ _ _ _ _ Mp) as K. apply kept_app in K as [Kp K].
  apply (kept_app [ab]) in K as [Kb Ka].
  assert (Fp : frame p = p) by (apply frame_self; [lia|apply Pp]).
  pose proof (mp_here _ _ _ _ _ _ _ _ _ Mp) as Th. pose proof (mp_user _ _ _ _ _ _ _ _ _ Mp) as Uh.
  change (has 6 PAGE_USER) with true in Uh. change (Z.lor 6 1) with 7 in Uh. rewrite Fp in Th, Uh.
  assert (Arr : forall i q, (pgs ++ [p]) !! i = Some q -> ld32 (hram h) (pages + 4 * Z.of_nat i) = q).
  { intros i q [[_ E]|[-> E]]%lookup_snoc_Some; [by eapply im_array|]. by subst. }
  assert (Pg : forall i q, (pgs ++ [p]) !! i = Some q ->
            q mod 4096 = 0 /\ owns ps q (q + 4096) /\ in_u32 (q + 4095) /\ 0 <= q).
  { intros i q [[_ E]|[-> E]]%lookup_snoc_Some; [by eapply im_page|by subst]. }
  split; try apply Mp; [eapply kept_trans; [apply I|exact Ka]| |exact Pg| | | | |].
  - apply (array_kept h h' (pgs ++ [p])); [exact Kb| |done|exact Arr]. rewrite length_app. simpl. lia.
  - intros i j q r [[Hi E]|[-> E]]%lookup_snoc_Some [[Hj E']|[-> E']]%lookup_snoc_Some Hne; subst.
    + by eapply (im_apart _ _ _ _ _ I i j).
    + specialize (Pap i q E). lia.
    + specialize (Pap j r E'). lia.
    + done.
  - intros i q w [[Hi E]|[-> E]]%lookup_snoc_Some Hw Hpw; subst.
    + destruct (mp_others _ _ _ _ _ _ _ _ _ Mp w Hw ltac:(lia)) as [-> _]. by eapply im_maps.
    + exact (translate_offset _ _ v w _ ltac:(lia) Th).
  - intros i q w [[Hi E]|[-> E]]%lookup_snoc_Some Hw Hpw; subst.
    + destruct (mp_others _ _ _ _ _ _ _ _ _ Mp w Hw ltac:(lia)) as [_ ->]. by eapply im_user.
    + by rewrite (user_page_page _ _ w v) by lia.
  - intros w Hw Hr. rewrite length_app in Hr. simpl in Hr.
    destruct (mp_others _ _ _ _ _ _ _ _ _ Mp w Hw ltac:(lia)) as [-> _]. eapply im_others; [exact I|done|lia].
  - intros i q k E Hk. destruct (Pg i q E) as (_ & Ho & _).
    rewrite <- (kept_owned ps _ _ q (q + 4096) Kp Ho) by lia.
    apply lookup_snoc_Some in E as [[Hi E]|[-> E]]; subst; [by eapply im_bytes|by apply Pby].
Qed.

Definition no_bytes (v : Z) : Z := 0.

(** The image with the pages so far: the invariant of the page loop. *)
Definition image_so_far (n : Z) (h : heap) : Prop :=
  exists ds ps pgs, Z.of_nat (length pgs) = n /\ image no_bytes h ds ps pgs.

Context (count : Z) (Hbase : base mod 4096 = 0) (Hb0 : 0 <= base)
  (Hend : base + count * 4096 <= 4294967296) (Hab : count * 4 <= ab.2) (Hpages : pages = ab.1 + 12).

Lemma map_image_page_law j h :
  0 <= j < count -> image_so_far j h ->
  ends (map_image_page dir base pages j h) (fun _ h' => image_so_far (j + 1) h').
Proof.
  intros Hj (ds & ps & pgs & Hlen & I). unfold map_image_page.
  eapply ends_seq; [by apply user_page_law, I|]. cbv beta. intros p h1 (b & N).
  pose proof (np_kept _ _ _ _ _ N) as K1. apply kept_app in K1 as [K1d K1].
  apply kept_app in K1 as [K1p K1]. apply (kept_app [ab]) in K1 as [K1b K1a].
  assert (Hi1 : heap_inv h1 (ds ++ (b :: ps) ++ ab :: al)).
  { eapply inv_perm; [apply N|]. solve_Permutation. }
  assert (I1 : image no_bytes h1 ds (b :: ps) pgs).
  { eapply image_kept; [exact I|exact Hi1|done|done|done|intros; by apply owns_cons|].
    apply (array_kept h); [done|lia|done|apply I]. }
  assert (Hp : p mod 4096 = 0 /\ owns (b :: ps) p (p + 4096) /\ in_u32 (p + 4095) /\ 0 <= p).
  { pose proof (np_u32 _ _ _ _ _ N). split; [apply N|]. split; [apply (owns_app_l [b] ps), N|lia]. }
  assert (Hpu : in_u32 p) by lia.
  assert (Hap : forall i q, pgs !! i = Some q -> p + 4096 <= q \/ q + 4096 <= p).
  { intros i q E. destruct (im_page _ _ _ _ _ I i q E) as (_ & Ho & _).
    destruct (np_fresh _ _ _ _ _ N q (q + 4096)); [by apply owns_app_r, owns_app_l|lia|lia]. }
  assert (Hab1 : owns [ab] (pages + 4 * j) (pages + 4 * j + 4)).
  { exists ab. split; [set_solver|]. unfold bend, sizeof_block_header_t. lia. }
  assert (Hpab : pages + 4 * j + 4 <= p \/ p + 4096 <= pages + 4 * j).
  { destruct (np_fresh _ _ _ _ _ N (pages + 4 * j) (pages + 4 * j + 4)); [|lia|lia].
    by apply owns_app_r, owns_app_r, (owns_app_l [ab]). }
  apply ends_bind.
  eapply (write_ram_law h1 [ab] (ds ++ (b :: ps) ++ al)); [|exact Hab1|by apply ram_ok_st32, (inv_ram _ _ Hi1)| |].
  { eapply inv_perm; [exact Hi1|]. solve_Permutation. }
  { intros x Hx. rewrite ld8_st32_other by lia. done. }
  intros Hi2 K2. apply kept_app in K2 as [K2d K2]. apply kept_app in K2 as [K2p K2a].
  set (h2 := set_ram (st32 (pages + 4 * j) p (hram h1)) h1) in *.
  assert (I2 : image no_bytes h2 ds (b :: ps) pgs).
  { eapply (image_kept no_bytes h1 ds (b :: ps)); [exact I1| |done|done|done|done|].
    - eapply inv_perm; [exact Hi2|]. solve_Permutation.
    - intros i q E. pose proof (lookup_lt_Some _ _ _ E). cbn.
      rewrite ld32_st32_other by lia. by eapply im_array. }
  assert (Earr : ld32 (hram h2) (pages + 4 * j) = p) by (apply ld32_st32_eq; lia).
  apply ends_bind. cbn [gets ends]. rewrite Earr.
  set (v := u32 (base + j * PAGE_SIZE)).
  assert (Hv : in_u32 v /\ v / 4096 = base / 4096 + j).
  { unfold v, PAGE_SIZE. rewrite u32_small by lia. split; [lia|]. by rewrite Z.div_add by lia. }
  change (Z.lor PAGE_USER PAGE_WRITABLE) with 6.
  eapply ends_mono; [apply (map_page_law h2 ds ((b :: ps) ++ ab :: al)); [apply I2|apply I2|lia|lia|lia]|].
  cbv beta. intros [] h3 (ds' & Mp). exists ds', (b :: ps), (pgs ++ [p]).
  split; [rewrite length_app; simpl; lia|].
  apply (image_snoc no_bytes h2 ds (b :: ps) pgs p v); try done; try lia.
  - by rewrite Hlen.
  - intros k Hk. cbn. rewrite ld8_st32_other by lia. apply (np_zero _ _ _ _ _ N). lia.
Qed.

(** * Copying the segments *)

(** The bytes with [n] bytes of the memory before, from [src], laid over them at
    the address [dst]. *)
Definition overlay (dst n src : Z) (B : Z -> Z) (v : Z) : Z :=
  if (dst <=? v) && (v <? dst + n) then ld8 m0 (src + (v - dst)) else B v.

Lemma copy_chunk_law B h ds ps pgs i p off src n :
  image B h ds ps pgs -> pgs !! i = Some p -> Z.of_nat (length pgs) * 4 <= ab.2 ->
  0 <= off -> 0 <= n -> off + n <= 4096 -> owns al src (src + n) ->
  ends (write_ram (fun m => memcpy (ld32 m (pages + 4 * Z.of_nat i) + off) src n m) h)
    (fun _ h' => image (overlay (base + 4096 * Z.of_nat i + off) n src B) h' ds ps pgs).
Proof.
  intros I Ei Hl Ho Hn Hon Hsrc. destruct (im_page _ _ _ _ _ I i p Ei) as (P1 & P2 & P3 & P4).
  pose proof (inv_ram _ _ (im_inv _ _ _ _ _ I)) as R.
  assert (Hd : p + 4096 <= src \/ src + n <= p).
  { apply (owns_disjoint h ps (ds ++ ab :: al)); [|done|by apply owns_app_r, (owns_app_r [ab])].
    eapply inv_perm; [apply I|]. solve_Permutation. }
  assert (Hc : forall x, ld8 (memcpy (p + off) src n (hram h)) x =
     if (p + off <=? x) && (x <? p + off + n) then ld8 (hram h) (src + (x - (p + off))) else ld8 (hram h) x).
  { intros x. apply ld8_memcpy; [done|lia|lia]. }
  eapply (write_ram_law h ps (ds ++ ab :: al) p (p + 4096)); [|done| | |].
  { eapply inv_perm; [apply I|]. solve_Permutation. }
  { by apply ram_ok_copy_bytes. }
  { cbn beta. rewrite (im_array _ _ _ _ _ I i p Ei). intros x Hx. rewrite Hc. repeat case_z; simpl; lia || done. }
  cbn beta. rewrite (im_array _ _ _ _ _ I i p Ei). intros Hi' K. apply kept_app in K as [Kd K].
  apply (kept_app [ab]) in K as [Kb Ka].
  set (h' := set_ram (memcpy (p + off) src n (hram h)) h) in *.
  assert (W : forall v, in_u32 v -> same_walk (hram h) (hram h') dir v).
  { intros v Hv. by apply (walk_kept ds); [apply I| |]. }
  split; try apply I; [|(eapply dir_ok_same; [apply I| |done]; eapply kept_owned; [exact Kd|apply I])
    |by eapply kept_trans; [apply I|]|by apply (array_kept h); [| | |apply I]| | | |].
  - eapply inv_perm; [exact Hi'|]. solve_Permutation.
  - intros j q v E Hv Hpg. destruct (same_walk_results _ _ _ _ (W v Hv)) as [-> _]. by eapply im_maps.
  - intros j q v E Hv Hpg. destruct (same_walk_results _ _ _ _ (W v Hv)) as [_ ->]. by eapply im_user.
  - intros v Hv Hr. destruct (same_walk_results _ _ _ _ (W v Hv)) as [-> _]. by eapply im_others.
  - intros j q k E Hk. unfold h', overlay. cbn [hram set_ram]. rewrite Hc.
    destruct (decide (j = i)) as [->|Hne].
    + rewrite Ei in E. injection E as <-.
      destruct (Z.leb_spec (p + off) (p + k)), (Z.leb_spec (base + 4096 * Z.of_nat i + off) (base + 4096 * Z.of_nat i + k));
        try lia; cbn [andb]; [|by eapply im_bytes].
      destruct (Z.ltb_spec (p + k) (p + off + n)), (Z.ltb_spec (base + 4096 * Z.of_nat i + k) (base + 4096 * Z.of_nat i + off + n));
        try lia; [|by eapply im_bytes].
      rewrite <- (kept_owned al m0 (hram h) src (src + n) (im_kept _ _ _ _ _ I) Hsrc) by lia. f_equal. lia.
    + destruct (im_apart _ _ _ _ _ I i j p q Ei E ltac:(done));
        repeat case_z; simpl; try lia; by eapply im_bytes.
Qed.

(** The file bytes of one segment. *)
Lemma copy_segment_law fuel : forall B h ds ps pgs dst src n,
  image B h ds ps pgs -> Z.of_nat (length pgs) = count -> base + count * 4096 < 4294967296 ->
  base <= dst -> 0 <= n -> dst + n <= base + count * 4096 ->
  owns al src (src + n) -> 0 <= src -> src + n < 4294967296 -> (Z.to_nat n < fuel)%nat ->
  ends (copy_segment fuel base pages dst src n h)
    (fun _ h' => exists B', image B' h' ds ps pgs /\ forall v, B' v = overlay dst n src B v).
Proof.
  induction fuel as [|fuel IH]; intros B h ds ps pgs dst src n I Hlen Hlt Hdst Hn Hde Ho Hs0 Hs1 Hf; [lia|].
  cbn [copy_segment]. destruct (Z.leb_spec n 0).
  { exists B. split; [done|]. intros v. unfold overlay. repeat case_z; simpl; lia || done. }
  unfold PAGE_SIZE. assert (Hal : page_align_down dst = dst / 4096 * 4096) by (apply frame_eq; lia).
  assert (Hoff : Z.land dst (4096 - 1) = dst mod 4096) by apply (Z.land_ones dst 12 ltac:(lia)).
  rewrite Hal, Hoff. pose proof (Z.div_mod dst 4096 ltac:(lia)) as Edm.
  pose proof (Z.mod_pos_bound dst 4096 ltac:(lia)) as Hmb. pose proof (Z.div_mod base 4096 ltac:(lia)) as Ebm.
  set (off := dst mod 4096) in *. set (dp := dst / 4096) in *.
  assert (Hbd : base / 4096 <= dp) by (apply Z.div_le_mono; lia).
  rewrite (u32_small (dp * 4096 - base)) by lia.
  assert (Eidx : (dp * 4096 - base) / 4096 = dp - base / 4096).
  { replace (dp * 4096 - base) with ((dp - base / 4096) * 4096) by lia. by apply Z.div_mul. }
  rewrite Eidx. set (i := Z.to_nat (dp - base / 4096)).
  assert (Ei : dp - base / 4096 = Z.of_nat i) by (unfold i; lia). rewrite Ei.
  destruct (lookup_lt_is_Some_2 pgs i) as [p Hp]; [unfold i; lia|].
  set (chunk := if n <? 4096 - off then n else 4096 - off).
  assert (Hch : 0 < chunk <= n /\ off + chunk <= 4096) by (unfold chunk; case_z; lia).
  eapply ends_seq; [apply (copy_chunk_law B h ds ps pgs i p); [done|done|lia|lia|lia|lia|]|].
  { eapply owns_sub; [exact Ho|lia|lia]. }
  cbv beta. intros [] h1 I1. rewrite !u32_small by lia.
  eapply ends_mono; [apply (IH (overlay (base + 4096 * Z.of_nat i + off) chunk src B) h1 ds ps pgs); [exact I1|lia..| |lia|lia|lia]|].
  { eapply owns_sub; [exact Ho|lia|lia]. }
  cbv beta. intros [] h2 (B' & I2 & E). exists B'. split; [done|]. intros v. rewrite E. unfold overlay.
  replace (base + 4096 * Z.of_nat i + off) with dst by lia.
  repeat (case_z; simpl; try lia; try done); f_equal; lia.
Qed.

(** A segment whose file bytes lie inside the image and in memory of the rest. *)
Record segment_fits (fuel : nat) (s : user_segment_t) : Prop := {
  sf_base : base <= vaddr s;
  sf_size : 0 <= filesz s;
  sf_end : vaddr s + filesz s <= base + count * 4096;
  sf_data : owns al (sdata s) (sdata s + filesz s);
  sf_data_range : 0 <= sdata s /\ sdata s + filesz s < 4294967296;
  sf_fuel : (Z.to_nat (filesz s) < fuel)%nat;
}.

(** The bytes after laying the segments over them, in order. *)
Definition overlays (segs : list user_segment_t) (B : Z -> Z) : Z -> Z :=
  fold_left (fun B s => overlay (vaddr s) (filesz s) (sdata s) B) segs B.

Lemma overlays_ext segs : forall B B', (forall v, B v = B' v) -> forall v, overlays segs B v = overlays segs B' v.
Proof.
  induction segs as [|s segs IH]; intros B B' E v; [apply E|]. unfold overlays in *. cbn [fold_left].
  apply IH. intros w. unfold overlay. by rewrite E.
Qed.

Lemma copy_segments_law fuel segs : forall B h ds ps pgs,
  image B h ds ps pgs -> Z.of_nat (length pgs) = count -> base + count * 4096 < 4294967296 ->
  Forall (segment_fits fuel) segs ->
  ends (copy_segments fuel base pages segs h)
    (fun _ h' => exists B', image B' h' ds ps pgs /\ forall v, B' v = overlays segs B v).
Proof.
  induction segs as [|s segs IH]; intros B h ds ps pgs I Hl He Hs; cbn [copy_segments].
  - apply ends_ret. by exists B.
  - inversion Hs as [|? ? [F1 F2 F3 F4 [F5 F6] F7] Hs']; subst.
    eapply ends_seq; [by apply (copy_segment_law fuel B h ds ps pgs)|]. cbv beta.
    intros [] h1 (B1 & I1 & E1). eapply ends_mono; [by apply (IH B1 h1 ds ps pgs)|]. cbv beta.
    intros [] h2 (B2 & I2 & E2). exists B2. split; [done|]. intros v. rewrite E2.
    unfold overlays. cbn [fold_left]. by apply overlays_ext.
Qed.

Lemma image_bytes_ext B B' h ds ps pgs :
  image B h ds ps pgs -> (forall v, B v = B' v) -> image B' h ds ps pgs.
Proof. intros I E. split; try apply I. intros i p k Ei Hk. rewrite <- E. by eapply im_bytes. Qed.
End Image.

(** * The image of a program *)

(** The byte that the last of the segments covering [v] puts there. *)
Fixpoint image_byte (m : ram) (segs : list user_segment_t) (v : Z) : option Z :=
  match segs with
  | [] => None
  | s :: segs' =>
      match image_byte m segs' v with
      | Some b => Some b
      | None =>
          if (vaddr s <=? v) && (v <? vaddr s + filesz s) then Some (ld8 m (sdata s + (v - vaddr s))) else None
      end
  end.

Lemma overlays_image_byte m segs : forall B v, overlays m segs B v = default (B v) (image_byte m segs v).
Proof.
  induction segs as [|s segs IH]; intros B v; [done|]. unfold overlays in *. cbn [fold_left image_byte].
  rewrite IH. destruct (image_byte m segs v) as [b|]; [done|]. simpl. unfold overlay.
  by destruct ((vaddr s <=? v) && (v <? vaddr s + filesz s)).
Qed.

(** A loadable segment: it does not reach the last page of the address space,
    its file part is not longer than its memory, and the file bytes are in
    memory that stays. *)
Record segment_ok (al : list blk) (fuel : nat) (s : user_segment_t) : Prop := {
  so_range : 0 <= vaddr s /\ vaddr s + memsz s <= 4294959104;
  so_sizes : 0 <= filesz s <= memsz s;
  so_data : owns al (sdata s) (sdata s + filesz s);
  so_data_range : 0 <= sdata s /\ sdata s + filesz s < 4294967296;
  so_fuel : (Z.to_nat (filesz s) < fuel)%nat;
}.

Lemma page_align_up_eq x : 0 <= x <= 4294963200 -> page_align_up x = (x + 4095) / 4096 * 4096.
Proof.
  intros Hx. destruct (align_up_spec x 12) as [H1 H2]; [lia..|change (2 ^ 12) with 4096; lia|].
  change (2 ^ 12) with 4096 in *. unfold page_align_up, PAGE_SIZE. zlia.
Qed.

Lemma image_span_ok al fuel segs : forall base end_ b e,
  Forall (segment_ok al fuel) segs ->
  image_span segs base end_ = (b, e) -> end_ mod 4096 = 0 -> 0 <= end_ <= 4294963200 -> 0 <= base ->
  b <= base /\ end_ <= e <= 4294963200 /\ e mod 4096 = 0 /\ 0 <= b /\ (base mod 4096 = 0 \/ segs <> [] /\ base = 4294967295 -> b mod 4096 = 0) /\
  Forall (fun s => b <= vaddr s /\ vaddr s + memsz s <= e) segs.
Proof.
  induction segs as [|s segs IH]; intros base end_ b e Hs E Ha He Hb; cbn [image_span] in E.
  - injection E as <- <-. split; [lia|]. split; [lia|]. split; [done|]. split; [lia|]. split; [tauto|constructor].
  - inversion Hs as [|? ? [[R1 R2] R3 _ _ _] Hs']; subst.
    assert (Hd : page_align_down (vaddr s) = vaddr s / 4096 * 4096) by (apply frame_eq; lia).
    rewrite (u32_small (vaddr s + memsz s)), page_align_up_eq, Hd in E by lia.
    set (sb := vaddr s / 4096 * 4096) in *. set (se := (vaddr s + memsz s + 4095) / 4096 * 4096) in *.
    assert (Hsb : 0 <= sb <= vaddr s /\ sb mod 4096 = 0 /\ vaddr s + memsz s <= se <= 4294963200 /\ se mod 4096 = 0)
      by (unfold sb, se; zlia).
    destruct (IH (if sb <? base then sb else base) (if end_ <? se then se else end_) b e Hs' E)
      as (H1 & H2 & H3 & H4 & H5 & H6); [case_z; lia|case_z; lia|case_z; lia|].
    split; [revert H1; case_z; lia|]. split; [revert H2; case_z; lia|]. split; [done|]. split; [done|]. split.
    + intros Hor. apply H5. left. destruct (Z.ltb_spec sb base); [lia|]. destruct Hor as [|[_ ->]]; [done|lia].
    + constructor; [|done]. revert H1 H2. repeat case_z; lia.
Qed.

Section Claim.
#[local] Opaque copy_bytes set_bytes.
Context `{KernelHeap}.

Lemma build_image_law fuel h ds al dir base end_ segs :
  heap_inv h (ds ++ al) -> dir_ok ds (hram h) dir ->
  base mod 4096 = 0 -> end_ mod 4096 = 0 -> 0 <= base < end_ -> end_ < 4294967296 ->
  (end_ - base) / 4096 * 4 <= 1000000 ->
  Forall (segment_fits al base ((end_ - base) / 4096) fuel) segs ->
  ends (build_image fuel dir base end_ segs h) (fun pages h' => exists ab ds' ps pgs,
    Z.of_nat (length pgs) = (end_ - base) / 4096 /\
    image al (hram h) dir base pages ab (fun v => default 0 (image_byte (hram h) segs v)) h' ds' ps pgs).
Proof.
  intros Hi D Hb He Hbe Hlt Hc Hs. unfold build_image, PAGE_SIZE. set (count := (end_ - base) / 4096) in *.
  assert (Ec : count * 4096 = end_ - base) by (unfold count; zlia).
  rewrite u32_small by lia.
  destruct (malloc_law h (ds ++ al) (count * 4) Hi ltac:(lia)) as [(pages & sz & h1 & E & Hsz & Hi1 & K & _ & Z1)|E];
    [rewrite (bind_ret _ _ _ _ _ E)|by rewrite (bind_halted _ _ _ _ E)].
  set (ab := (pages - 12, sz)) in *. apply kept_app in K as [Kd Ka].
  assert (Hab : count * 4 <= ab.2 /\ pages = ab.1 + 12) by (unfold ab; simpl; lia). destruct Hab as [Hab Hpages].
  assert (I0 : image_so_far al (hram h) dir base pages ab 0 h1).
  { exists ds, [], []. split; [done|]. split.
    - eapply inv_perm; [exact Hi1|]. solve_Permutation.
    - eapply dir_ok_same; [exact D| |done]. eapply kept_owned; [exact Kd|apply D].
    - done.
    - intros i p Ei. by rewrite lookup_nil in Ei.
    - intros i p Ei. by rewrite lookup_nil in Ei.
    - intros i j p q Ei. by rewrite lookup_nil in Ei.
    - intros i p v Ei. by rewrite lookup_nil in Ei.
    - intros i p v Ei. by rewrite lookup_nil in Ei.
    - intros v Hv _. by apply same_walk_results, (walk_kept ds).
    - intros i p k Ei. by rewrite lookup_nil in Ei. }
  eapply ends_seq.
  { apply (ends_for (image_so_far al (hram h) dir base pages ab)); [|exact I0].
    intros j hj Hj Ij. eapply (map_image_page_law al (hram h) dir base pages ab count); (done || lia). }
  cbv beta. rewrite Z2Nat.id, Z.add_0_l by lia. intros [] h2 (ds2 & ps & pgs & Hlen & I2).
  eapply ends_seq.
  { apply (copy_segments_law al (hram h) dir base pages ab count); [..|exact I2|exact Hlen|lia|exact Hs]; (done || lia). }
  cbv beta. intros [] h3 (B' & I3 & EB). apply ends_ret. exists ab, ds2, ps, pgs. split; [done|].
  eapply image_bytes_ext; [exact I3|]. intros v. rewrite EB. apply overlays_image_byte.
Qed.

(** The image of segments, in the span that encloses them. *)
Lemma span_image_law fuel h ds al dir segs base end_ :
  heap_inv h (ds ++ al) -> dir_ok ds (hram h) dir ->
  Forall (segment_ok al fuel) segs -> segs <> [] ->
  image_span segs 4294967295 0 = (base, end_) -> base < end_ ->
  (end_ - base) / 4096 * 4 <= 1000000 ->
  base mod 4096 = 0 /\ end_ mod 4096 = 0 /\ 0 <= base /\ end_ < 4294967296 /\
  ends (build_image fuel dir base end_ segs h) (fun pages h' => exists ab ds' ps pgs,
    Z.of_nat (length pgs) = (end_ - base) / 4096 /\
    image al (hram h) dir base pages ab (fun v => default 0 (image_byte (hram h) segs v)) h' ds' ps pgs).
Proof.
  intros Hi D Hs Hne Esp Hbe Hc.
  destruct (image_span_ok al fuel segs 4294967295 0 base end_ Hs Esp eq_refl ltac:(lia) ltac:(lia))
    as (_ & H2 & H3 & H4 & H5 & H6). specialize (H5 ltac:(by right)).
  repeat (split; [done || lia|]). apply (build_image_law fuel h ds al dir base end_ segs); try done; try lia.
  apply Forall_forall. intros s Hin. rewrite Forall_forall in Hs, H6.
  destruct (Hs s Hin) as [S1 S2 S3 S4 S5]. destruct (H6 s Hin). split; try done; zlia.
Qed.

(** The page of an address of the image. *)
Lemma image_address al m0 dir base end_ pages ab Bt h ds ps pgs v :
  image al m0 dir base pages ab Bt h ds ps pgs ->
  Z.of_nat (length pgs) = (end_ - base) / 4096 -> base mod 4096 = 0 -> end_ mod 4096 = 0 ->
  0 <= base -> end_ < 4294967296 -> base <= v < end_ ->
  exists i p, pgs !! i = Some p /\ v / 4096 = base / 4096 + Z.of_nat i /\ owns ps p (p + 4096) /\
    translate (hram h) dir v = Some (p + v mod 4096) /\ user_page (hram h) dir v = Some (p + 7) /\
    ld8 (hram h) (p + v mod 4096) = Bt v.
Proof.
  intros I Hlen Hb He Hb0 He0 Hv. set (i := Z.to_nat (v / 4096 - base / 4096)).
  assert (Hi : v / 4096 = base / 4096 + Z.of_nat i /\ Z.of_nat i < (end_ - base) / 4096)
    by (unfold i; rewrite Z2Nat.id; zlia).
  destruct (lookup_lt_is_Some_2 pgs i) as [p Hp]; [lia|]. exists i, p.
  destruct (im_page _ _ _ _ _ _ _ _ _ _ _ I i p Hp) as (P1 & P2 & P3 & P4).
  split; [done|]. split; [lia|]. split; [done|]. split; [eapply im_maps; [exact I|exact Hp|lia|lia]|].
  split; [eapply im_user; [exact I|exact Hp|lia|lia]|].
  rewrite (im_bytes _ _ _ _ _ _ _ _ _ _ _ I i p) by (done || zlia). f_equal. zlia.
Qed.

(** C10: a program's image is loaded.  For segments that lie in the address space
    with their file bytes in memory, building their image in a new directory
    stops only when the heap is exhausted; otherwise every address from the
    first page of the image to its last is mapped, as a marked page of its own
    in freshly allocated memory, and holds the file byte of the (last) segment
    that covers it, or zero; all other addresses are translated as before, and
    all other memory is kept. *)
Theorem program_image_loaded fuel h ds al dir segs base end_ :
  heap_inv h (ds ++ al) -> dir_ok ds (hram h) dir ->
  Forall (segment_ok al fuel) segs -> segs <> [] ->
  image_span segs 4294967295 0 = (base, end_) -> base < end_ ->
  (end_ - base) / 4096 * 4 <= 1000000 ->
  ends (build_image fuel dir base end_ segs h) (fun _ h' => exists ds' ps ab,
    heap_inv h' (ds' ++ ps ++ ab :: al) /\ dir_ok ds' (hram h') dir /\ kept al (hram h) (hram h') /\
    (forall v, base <= v < end_ -> exists p,
       translate (hram h') dir v = Some (p + v mod 4096) /\
       user_page (hram h') dir v = Some (p + 7) /\ owns ps p (p + 4096) /\
       ld8 (hram h') (p + v mod 4096) = default 0 (image_byte (hram h) segs v) /\
       (forall w, base <= w < end_ -> w / 4096 <> v / 4096 -> translate (hram h') dir w <> Some (p + w mod 4096))) /\
    (forall v, in_u32 v -> v < base \/ end_ <= v -> translate (hram h') dir v = translate (hram h) dir v)).
Proof.
  intros Hi D Hs Hne Esp Hbe Hc.
  destruct (span_image_law fuel h ds al dir segs base end_ Hi D Hs Hne Esp Hbe Hc) as (Hb & He & Hb0 & He0 & L).
  eapply ends_mono; [exact L|]. cbv beta. intros pages h' (ab & ds' & ps & pgs & Hlen & I). exists ds', ps, ab.
  split; [apply I|]. split; [apply I|]. split; [apply I|]. split.
  - intros v Hv.
    destruct (image_address _ _ _ _ end_ _ _ _ _ _ _ _ v I) as (i & p & Hp & Hi' & P1 & P2 & P3 & P4); try done.
    exists p. do 4 (split; [done|]). intros w Hw Hnp.
    destruct (image_address _ _ _ _ end_ _ _ _ _ _ _ _ w I) as (j & q & Hq & Hj' & _ & -> & _); try done.
    intros [= E]. destruct (im_apart _ _ _ _ _ _ _ _ _ _ _ I i j p q Hp Hq); lia.
  - intros v Hv Hr. eapply im_others; [exact I|done|]. rewrite Hlen. zlia.
Qed.
End Claim.

(** * A small program *)

(** Boot, create a directory, and put three bytes of a file in memory. *)
Definition demo_load : res heap (Z * Z) :=
  match paging_init demo_mmu with
  | Ret _ s =>
      (dir ← paging_create_directory (page_directory s);
       data ← malloc 8;
       write_ram (write_bytes data [7; 8; 9]) ;;
       mret (dir, data)) (mheap s)
  | Halted s => Halted (mheap s)
  | NoFuel => NoFuel
  end.

(** Two pages at 16 MiB: the bytes cross a page boundary. *)
Definition demo_segment (data : Z) : user_segment_t := mkSegment 16781310 3 100 data.

Example demo_image_bytes :
  match demo_load with
  | Ret (dir, data) h =>
      match build_image 4 dir 16777216 16785408 [demo_segment data] h with
      | Ret _ h' => vread 5 (hram h') dir 16781309
      | _ => []
      end
  | _ => []
  end = [0; 7; 8; 9; 0].
Proof. vm_compute. reflexivity. Qed.

Lemma demo_load_law :
  ends demo_load (fun '(dir, data) h => exists ds al,
    heap_inv h (ds ++ al) /\ dir_ok ds (hram h) dir /\ owns al data (data + 3) /\
    0 <= data /\ data + 3 < 4294967296).
Proof.
  unfold demo_load. pose proof (init_law demo_mmu [] demo_mmu_inv) as L.
  destruct (paging_init demo_mmu) as [[] s|s|]; [|done|done].
  destruct L as (kb & Hi & Ho & _ & B & _). set (kpd := page_directory s) in *.
  eapply ends_seq; [by apply (create_directory_law _ [kb])|]. cbv beta.
  intros dir h1 (db & Hi1 & D1 & _). apply ends_bind.
  destruct (malloc_law h1 [db; kb] 8 Hi1 ltac:(lia)) as [(p & sz & h2 & E & Hsz & Hi2 & K & _)|E];
    rewrite E; [|done]. cbn [ends].
  destruct (inv_bounds _ _ (p - 12, sz) Hi2 ltac:(set_solver)) as (B1 & B2 & B3).
  pose proof (inv_end _ _ Hi2). unfold bend, sizeof_block_header_t in B3. simpl in B1, B3.
  apply (kept_app [db] [kb]) in K as [Kd _].
  assert (Hod : owns [(p - 12, sz)] p (p + 3)).
  { exists (p - 12, sz). split; [set_solver|]. unfold bend, sizeof_block_header_t. simpl. lia. }
  apply ends_bind. eapply (write_ram_law h2 [(p - 12, sz)] [db; kb]); [done|exact Hod| | |].
  - cbn [write_bytes]. pose proof (inv_ram _ _ Hi2). auto with mboot.
  - intros x Hx. rewrite ld8_write_bytes_other by (cbn [length]; lia). done.
  - intros Hi3 K3. apply (kept_app [db] [kb]) in K3 as [K3 _]. apply ends_ret.
    exists [db], [(p - 12, sz); kb]. split.
    { eapply inv_perm; [exact Hi3|]. simpl. apply perm_swap. }
    split; [|split; [by apply (owns_app_l [(p - 12, sz)] [kb])|lia]].
    eapply dir_ok_same; [exact D1| |done].
    eapply kept_owned; [eapply kept_trans; [exact Kd|exact K3]|apply D1].
Qed.

Lemma program_image_loaded_witness : exists h ds al dir data,
  heap_inv h (ds ++ al) /\ image_span [demo_segment data] 4294967295 0 = (16777216, 16785408) /\
  ends (build_image 4 dir 16777216 16785408 [demo_segment data] h) (fun _ h' => exists ds' ps ab,
    heap_inv h' (ds' ++ ps ++ ab :: al) /\ dir_ok ds' (hram h') dir /\ kept al (hram h) (hram h')).
Proof.
  assert (E : match demo_load with Ret _ _ => true | _ => false end = true) by (vm_compute; reflexivity).
  pose proof demo_load_law as L. destruct demo_load as [[dir data] h|h|]; [|done|done].
  destruct L as (ds & al & Hi & D & Ho & Hd0 & Hd1). exists h, ds, al, dir, data.
  split; [exact Hi|]. split; [reflexivity|].
  eapply ends_mono.
  - apply (program_image_loaded 4 h ds al dir [demo_segment data] 16777216 16785408); try done; try lia.
    constructor; [|constructor]. split; simpl; try lia; done.
  - cbv beta. intros pages h' (ds' & ps & ab & H1 & H2 & H3 & _). by exists ds', ps, ab.
Defined.
