(* ===== verification/Fork.v ===== *)
(** What [fork_current] of [Sched] (stage2/scheduler.c) gives the child: an
    address space of its own, a copy of the caller's saved frame that returns 0,
    and a place on the run list. *)
From S2P Require Import Prelude Mem HeapSpec Paging Sched SchedProofs.

(** An operation on the heap, in the kernel state. *)
Lemma ends_on_heap {B A} (c : M heap A) (k : kern B) (Q : A -> kern B -> Prop) :
  ends (c (mheap (kmmu k))) (fun a h => Q a (set_mmu (put_heap h (kmmu k)) k)) -> ends (on_heap c k) Q.
Proof. unfold on_heap, on_mmu, zoom. by destruct (c (mheap (kmmu k))). Qed.

(** A marked page is translated through its table entry. *)
Lemma user_page_translate m pd v pte :
  user_page m pd v = Some pte ->
  translate m pd v = Some (frame pte + v mod PAGE_SIZE) /\
  pte = ld32 m (frame (pde m pd (dir_index v)) + 4 * table_index v).
Proof.
  unfold user_page, translate. destruct (has (pde m pd (dir_index v)) PAGE_PRESENT); [|done]. cbn [negb orb].
  destruct (has (pde m pd (dir_index v)) PAGE_SIZE_4MB); [done|].
  destruct (has (ld32 m (frame (pde m pd (dir_index v)) + 4 * table_index v)) PAGE_PRESENT); [|done]. cbn [negb orb].
  destruct (has _ PAGE_USER); [|done]. by intros [= <-].
Qed.

(** The walk of [fork_current] through the child's tables finds the page. *)
Lemma fork_frame_paddr_ok m dir v np :
  in_u32 v -> np mod 4096 = 0 -> translate m dir v = Some (np + v mod PAGE_SIZE) -> user_page m dir v <> None ->
  fork_frame_paddr dir v m = np + v mod 4096.
Proof.
  intros Hv Ha T U. destruct (user_page m dir v) as [pte|] eqn:E; [|done].
  apply user_page_translate in E as [T' ->]. rewrite T in T'. injection T' as T'.
  unfold fork_frame_paddr. fold (dir_index v) (table_index v). fold (pde m dir (dir_index v)).
  change 4095 with (Z.ones 12). rewrite Z.land_ones by lia. change (2 ^ 12) with 4096.
  unfold PAGE_SIZE in T'. lia.
Qed.

(** Bytes of one page, read through the directory. *)
Lemma vread_page n : forall m pd v a,
  in_u32 v -> v mod 4096 + Z.of_nat n <= 4096 -> v + Z.of_nat n <= 4294967296 ->
  translate m pd v = Some (a + v mod PAGE_SIZE) ->
  vread n m pd v = read_bytes_at n (a + v mod 4096) m.
Proof.
  induction n as [|n IH]; intros m pd v a Hv Hp He T; [done|]. cbn [vread read_bytes_at].
  unfold vld8 at 1. rewrite u32_small, T by lia. f_equal. destruct n as [|n]; [done|].
  assert (Hd : (v + 1) / 4096 = v / 4096 /\ (v + 1) mod 4096 = v mod 4096 + 1) by zlia.
  rewrite (IH m pd (v + 1) a); [f_equal; lia|lia|lia|lia|].
  apply (translate_offset _ _ v); [lia|exact T].
Qed.

Lemma ld8_read_bytes n : forall a m i, (i < n)%nat -> read_bytes_at n a m !! i = Some (ld8 m (a + Z.of_nat i)).
Proof.
  induction n as [|n IH]; intros a m i Hi; [lia|]. destruct i as [|i]; cbn [read_bytes_at].
  - simpl. by rewrite Z.add_0_r.
  - rewrite lookup_cons, IH by lia. do 2 f_equal. lia.
Qed.

Lemma ld8_write_at bs : forall a m i b,
  bs !! i = Some b -> in_u8 b -> ld8 (write_bytes a bs m) (a + Z.of_nat i) = b.
Proof.
  induction bs as [|x bs IH]; intros a m i b E Hb; [done|]. cbn [write_bytes]. destruct i as [|i].
  - injection E as ->. rewrite Z.add_0_r, ld8_write_bytes_other, ld8_st8, Z.eqb_refl by lia. by apply u8_small.
  - replace (a + Z.of_nat (S i)) with (a + 1 + Z.of_nat i) by lia. by apply IH.
Qed.


Section Fork.
#[local] Opaque write_bytes.
Context {B : Type} `{FdBackend B} `{KernelHeap}.

(** A task that can fork: it is not the idle task, its directory is the active
    one and well formed, its marked pages and the kernel's directory are in memory
    in use, and its saved frame lies in one marked page. *)
Record can_fork (k : kern B) (al : list blk) (r pte : Z) : Prop := {
  cf_task : current_task k <> 0 /\ current_task k <> idle_task k;
  cf_inv : heap_inv (mheap (kmmu k)) al;
  cf_kernel : owns al (page_directory (kmmu k)) (page_directory (kmmu k) + 4096);
  cf_big : all_big (hram (mheap (kmmu k))) (page_directory (kmmu k));
  cf_dir : dir_ok al (hram (mheap (kmmu k))) (tcr3 (current k));
  cf_active : paging_get_directory (kmmu k) = tcr3 (current k);
  cf_pages : forall v e, in_u32 v -> user_page (hram (mheap (kmmu k))) (tcr3 (current k)) v = Some e ->
    owns al (frame e) (frame e + 4096);
  cf_idle : owns al (idle_task k) (idle_task k + sizeof_tcb_t);
  cf_current : owns al (current_task k) (current_task k + sizeof_tcb_t);
  cf_frame : in_u32 r /\ r mod 4096 <= 4048;
  cf_frame_page : user_page (hram (mheap (kmmu k))) (tcr3 (current k)) r = Some pte;
}.

(** The memory after a fork: the child's directory [dir], the page [np] that
    holds its frame, and its blocks. *)
Record forked (m m' : ram) (al : list blk) (kpd parent dir r np : Z) (ps : list blk) : Prop := {
  fk_kept : kept al m m';
  fk_here : translate m' dir r = Some (np + r mod 4096);
  fk_frame : forall i, 0 <= i < 48 ->
    ld8 m' (np + r mod 4096 + i) = if (24 <=? i) && (i <? 28) then 0 else vld8 m parent (r + i);
  fk_page : forall v e, in_u32 v -> user_page m parent v = Some e -> exists p,
    translate m' dir v = Some (p + v mod 4096) /\ owns ps p (p + 4096) /\
    (p + v mod 4096 < np + r mod 4096 \/ np + r mod 4096 + 48 <= p + v mod 4096 ->
     ld8 m' (p + v mod 4096) = vld8 m parent v);
  fk_rest : forall v, in_u32 v -> user_page m parent v = None -> translate m' dir v = translate m kpd v;
}.

(** A change inside memory of the blocks [ds] keeps the other blocks. *)
Lemma kept_outside h ds al lo hi m m' :
  heap_inv h (ds ++ al) -> owns ds lo hi -> (forall x, ~ (lo <= x < hi) -> ld8 m x = ld8 m' x) -> kept al m m'.
Proof.
  intros Hi (b & Hb & H1 & H2) Hx. apply Forall_forall. intros c Hc x Hxc. apply Hx. intros Hr.
  pose proof (inv_disj _ _ Hi) as D. apply ForallOrdPairs_app in D as (_ & _ & D). specialize (D b c Hb Hc).
  unfold disj, bend, sizeof_block_header_t in *. lia.
Qed.

(** The two stores of the child's frame, in the page [np] of the clone. *)
Lemma frame_stores h al kpd parent dir h1 ds ps h2 r np pte :
  heap_inv h al -> dir_ok al (hram h) parent ->
  (forall v e, in_u32 v -> user_page (hram h) parent v = Some e -> owns al (frame e) (frame e + 4096)) ->
  clone_result h al kpd parent dir h1 ds ps -> kept (ds ++ ps ++ al) (hram h1) (hram h2) -> ram_ok (hram h2) ->
  in_u32 r -> r mod 4096 <= 4048 -> user_page (hram h) parent r = Some pte ->
  translate (hram h1) dir r = Some (np + r mod PAGE_SIZE) -> owns ps np (np + 4096) ->
  forked (hram h) (st32 (np + r mod 4096 + 24) 0
            (write_bytes (np + r mod 4096) (vread 48 (hram h2) parent r) (hram h2))) al kpd parent dir r np ps.
Proof.
  intros Hi D Hp C K R2 Hr Hro Hpte Tr Ho.
  assert (Hr48 : r + 48 <= 4294967296) by zlia.
  assert (Hsame : forall i, 0 <= i < 48 -> (r + i) / 4096 = r / 4096 /\ (r + i) mod 4096 = r mod 4096 + i) by (intros; zlia).
  set (off := r mod 4096) in *. set (m3 := write_bytes (np + off) (vread 48 (hram h2) parent r) (hram h2)).
  pose proof (Z.mod_pos_bound r 4096 ltac:(lia)) as Hoff. fold off in Hoff.
  apply kept_app in K as [Kd K]. apply kept_app in K as [Kp Ka].
  assert (Kal : kept al (hram h) (hram h2)) by (eapply kept_trans; [apply C|exact Ka]).
  destruct (user_page_translate _ _ _ _ Hpte) as [Tp _]. pose proof (Hp r pte Hr Hpte) as Hopte.
  assert (Tp2 : translate (hram h2) parent r = Some (frame pte + r mod PAGE_SIZE)).
  { rewrite <- Tp. by apply same_walk_results, (walk_kept al). }
  assert (Evr : vread 48 (hram h2) parent r = read_bytes_at 48 (frame pte + off) (hram h2)).
  { apply vread_page; [done|fold off; lia|lia|exact Tp2]. }
  assert (Hout : forall x, x < np + off \/ np + off + 48 <= x -> ld8 (st32 (np + off + 24) 0 m3) x = ld8 (hram h2) x).
  { intros x Hx. rewrite ld8_st32_other by lia. unfold m3. rewrite Evr.
    apply ld8_write_bytes_other. rewrite length_read_bytes_at. lia. }
  assert (Hw : owns ps (np + off) (np + off + 48)) by (eapply owns_sub; [exact Ho|lia|lia]).
  assert (Ko : kept (ds ++ al) (hram h2) (st32 (np + off + 24) 0 m3)).
  { apply (kept_outside h1 ps _ (np + off) (np + off + 48)); [|exact Hw|intros x Hx; symmetry; apply Hout; lia].
    eapply inv_perm; [apply C|]. solve_Permutation. }
  apply kept_app in Ko as [Kod Koa].
  assert (Wc : forall v, in_u32 v -> translate (st32 (np + off + 24) 0 m3) dir v = translate (hram h1) dir v).
  { intros v Hv. apply same_walk_results, (walk_kept ds); [apply C| |done]. by eapply kept_trans. }
  split.
  - by eapply kept_trans.
  - rewrite Wc by done. exact Tr.
  - intros i Hri. fold off. destruct (Z.leb_spec 24 i), (Z.ltb_spec i 28); cbn [andb].
    1: { unfold st32. rewrite !ld8_st8. repeat (case_z; [by cbn|]). lia. }
    all: rewrite ld8_st32_other by lia; unfold m3; rewrite Evr.
    all: replace (np + off + i) with (np + off + Z.of_nat (Z.to_nat i)) by lia.
    all: rewrite (ld8_write_at _ _ _ (Z.to_nat i) (ld8 (hram h2) (frame pte + off + i)))
      by (apply R2 || (rewrite ld8_read_bytes by lia; do 3 f_equal; lia)).
    all: rewrite <- (kept_owned al _ _ _ _ Kal Hopte) by lia.
    all: unfold vld8; rewrite (u32_small (r + i)) by lia.
    all: destruct (Hsame i Hri) as [Hs1 Hs2].
    all: rewrite (translate_offset _ _ r (r + i) (frame pte)) by (lia || done).
    all: f_equal; unfold PAGE_SIZE; lia.
  - intros v e Hv Hu. destruct (cr_page _ _ _ _ _ _ _ _ C v e Hv Hu) as (p & Tv & _ & Hop & Hby). exists p.
    rewrite Wc by done. split; [exact Tv|]. split; [done|]. intros Hx. fold off in Hx. rewrite Hout by lia.
    pose proof (Z.mod_pos_bound v 4096 ltac:(lia)).
    rewrite <- (kept_owned ps _ _ _ _ Kp Hop) by lia. rewrite Hby by lia.
    unfold vld8. rewrite u32_small by lia. destruct (user_page_translate _ _ _ _ Hu) as [-> _]. done.
  - intros v Hv Hu. rewrite Wc by done. by apply C.
Qed.

Lemma fork_frame_addr r : in_u32 r -> u32 (u32 (r + 36 + 12) - 48) = r.
Proof. intros Hr. unfold u32. rewrite Zminus_mod_idemp_l. replace (r + 36 + 12 - 48) with r by lia. by apply Z.mod_small. Qed.

(** Writes into a page of the clone, in the kernel state. *)
Lemma ends_on_ram k ds al lo hi f (Q : unit -> kern B -> Prop) :
  heap_inv (mheap (kmmu k)) (ds ++ al) -> owns ds lo hi ->
  ram_ok (f (hram (mheap (kmmu k)))) ->
  (forall x, ~ (lo <= x < hi) -> ld8 (hram (mheap (kmmu k))) x = ld8 (f (hram (mheap (kmmu k)))) x) ->
  (heap_inv (set_ram (f (hram (mheap (kmmu k)))) (mheap (kmmu k))) (ds ++ al) ->
   Q tt (set_mmu (put_heap (set_ram (f (hram (mheap (kmmu k)))) (mheap (kmmu k))) (kmmu k)) k)) ->
  ends (on_ram f k) Q.
Proof.
  intros Hi Ho Hr Hx HQ. apply ends_on_heap. eapply write_ram_law; [exact Hi|exact Ho|exact Hr|exact Hx|].
  intros Hi' _. by apply HQ.
Qed.

(** The whole call: what the child is, and the blocks in use afterwards. *)
Lemma fork_law k al r pte :
  can_fork k al r pte ->
  ends (fork_current r k) (fun p k' => exists child np dir ps f b,
    (exists ds sz, heap_inv (mheap (kmmu k')) (ps ++ (child - 12, sz) :: ds ++ al) /\ sizeof_tcb_t <= sz) /\
    (forall t, owns al t (t + sizeof_tcb_t) -> child <> t) /\ idle_task k' = idle_task k /\
    p = next_pid k /\ next_pid k' = u32 (next_pid k + 1) /\ current_task k' = current_task k /\
    vfs_fork_fds (fds (current k)) (files k) = (f, b) /\ files k' = b /\
    child <> idle_task k /\ child <> current_task k /\
    tasks k' = <[idle_task k := with_next (task (idle_task k) k) child]>
      (<[child := mkTcb (np + r mod 4096) TASK_READY (next_pid k) 0 dir (tty (current k)) f 0 0
                    (next (task (idle_task k) k))]> (tasks k)) /\
    owns ps np (np + 4096) /\
    forked (hram (mheap (kmmu k))) (hram (mheap (kmmu k'))) al (page_directory (kmmu k))
      (tcr3 (current k)) dir r np ps).
Proof.
  intros [[Ht1 Ht2] Hi Hk Hb Hd Hact Hpg Hidle Hcur [Hr Hro] Hfp]. unfold fork_current.
  destruct (Z.eqb_spec (current_task k) 0); [lia|]. destruct (Z.eqb_spec (current_task k) (idle_task k)); [lia|].
  cbn [orb]. set (h := mheap (kmmu k)) in *. set (kpd := page_directory (kmmu k)) in *.
  rewrite (bind_ret _ _ k kpd k) by done.
  apply ends_bind, ends_on_heap. eapply ends_mono; [by apply (clone_directory_law h al kpd)|]. cbv beta.
  intros dir h1 (ds & ps & C). apply ends_bind, ends_on_heap. cbn [kmmu set_mmu mheap put_heap].
  destruct (malloc_law h1 (ds ++ ps ++ al) sizeof_tcb_t (cr_inv _ _ _ _ _ _ _ _ C) ltac:(by unfold sizeof_tcb_t))
    as [(child & sz & h2 & E & Hsz & Hi2 & K2 & _)|E]; rewrite E; [|done]. cbn [ends].
  rewrite fork_frame_addr by done.
  destruct (cr_page _ _ _ _ _ _ _ _ C r pte Hr Hfp) as (np & Tr & Hna & Hnp & _).
  assert (Hcf : fork_frame_paddr dir r (hram h2) = np + r mod 4096).
  { pose proof K2 as K2d. apply kept_app in K2d as [K2d _].
    destruct (same_walk_results _ _ _ _ (walk_kept ds (hram h1) (hram h2) dir r (cr_dir _ _ _ _ _ _ _ _ C) K2d Hr)) as [T2 U2].
    apply fork_frame_paddr_ok; [done|done|by rewrite T2|]. rewrite U2. apply C; [done|]. by rewrite Hfp. }
  set (k2 := set_mmu (put_heap h2 (put_heap h1 (kmmu k))) (set_mmu (put_heap h1 (kmmu k)) k)).
  rewrite (bind_ret _ _ k2 (np + r mod 4096) k2) by (unfold gets; by rewrite <- Hcf).
  rewrite (bind_ret _ _ k2 (tcr3 (current k)) k2) by (unfold gets; by rewrite <- Hact).
  pose proof (inv_ram _ _ Hi2) as R2. pose proof (Z.mod_pos_bound r 4096 ltac:(lia)) as Hmb.
  assert (Hlen : forall m, length (vread 48 m (tcr3 (current k)) r) = 48%nat) by done.
  assert (Hw : owns ps (np + r mod 4096) (np + r mod 4096 + 48)) by (eapply owns_sub; [exact Hnp|lia|lia]).
  assert (Hi2' : heap_inv h2 (ps ++ (child - 12, sz) :: ds ++ al)) by (eapply inv_perm; [exact Hi2|]; solve_Permutation).
  apply ends_bind. eapply (ends_on_ram k2 ps); [exact Hi2'|exact Hw|by apply ram_ok_write_bytes| |].
  { intros x Hx. rewrite ld8_write_bytes_other; [done|]. rewrite Hlen. lia. }
  intros Hi3. set (k3 := set_mmu _ k2).
  apply ends_bind. eapply (ends_on_ram k3 ps); [exact Hi3|exact Hw|by apply ram_ok_st32, ram_ok_write_bytes| |].
  { intros x Hx. rewrite ld8_st32_other by lia. done. }
  intros Hi4. set (k4 := set_mmu _ k3).
  pose proof (frame_stores h al kpd (tcr3 (current k)) dir h1 ds ps h2 r np pte Hi Hd Hpg C K2 R2 Hr Hro Hfp Tr Hnp) as F.
  assert (Hne : forall t, owns al t (t + sizeof_tcb_t) -> child <> t).
  { unfold sizeof_tcb_t. intros t Hot ->.
    destruct (fresh_disjoint h2 (ds ++ ps ++ al) t sz t (t + 100) Hi2); [by apply owns_app_r, owns_app_r| | |]; unfold sizeof_tcb_t in *; lia. }
  pose proof (Hne _ Hidle) as Hni. pose proof (Hne _ Hcur) as Hnc.
  apply ends_bind. unfold modify. cbn [ends]. change (current k4) with (current k). change (files k4) with (files k).
  destruct (vfs_fork_fds (fds (current k)) (files k)) as [f b] eqn:Ef.
  unfold gets. cbn [ends]. exists child, np, dir, ps, f, b.
  split; [by exists ds, sz|]. split; [exact Hne|]. split; [done|].
  split; [unfold task; cbn; by rewrite lookup_insert_ne, lookup_insert_eq by done|].
  do 8 (split; [done|]). exact F.
Qed.

(** C11: [fork_current] creates a child with an address space of its own.  For a
    task that can fork, it stops only when the heap is exhausted; otherwise it
    returns the next PID, the parent stays current, and the child is linked after
    the idle task: ready, with the parent's terminal, a copy of its descriptors,
    and a new directory in which every marked page of the parent is a fresh page
    with the same bytes.  Its saved frame is the parent's with 0 in [eax]; the
    stack pointer it resumes with is the physical address of that frame.  No byte
    in use before the call changes. *)
Theorem fork_gives_child k al r pte :
  can_fork k al r pte ->
  ends (fork_current r k) (fun p k' => exists child np dir ps f b,
    p = next_pid k /\ next_pid k' = u32 (next_pid k + 1) /\ current_task k' = current_task k /\
    vfs_fork_fds (fds (current k)) (files k) = (f, b) /\ files k' = b /\
    child <> idle_task k /\ child <> current_task k /\
    tasks k' = <[idle_task k := with_next (task (idle_task k) k) child]>
      (<[child := mkTcb (np + r mod 4096) TASK_READY (next_pid k) 0 dir (tty (current k)) f 0 0
                    (next (task (idle_task k) k))]> (tasks k)) /\
    owns ps np (np + 4096) /\
    forked (hram (mheap (kmmu k))) (hram (mheap (kmmu k'))) al (page_directory (kmmu k))
      (tcr3 (current k)) dir r np ps).
Proof.
  intros C. eapply ends_mono; [exact (fork_law k al r pte C)|]. cbv beta.
  intros p k' (child & np & dir & ps & f & b & _ & _ & _ & Hrest). by exists child, np, dir, ps, f, b.
Qed.
End Fork.

(** * A task that forks *)

(** The address space of [demo_task], and two control blocks. *)
Definition with_block (r : res heap (Z * Z)) : res heap (Z * Z * Z) :=
  match r with
  | Ret (kpd, dir) h => match malloc 200 h with Ret t h' => Ret (kpd, dir, t) h' | Halted h' => Halted h' | NoFuel => NoFuel end
  | Halted h => Halted h
  | NoFuel => NoFuel
  end.
Definition demo_fork : res heap (Z * Z * Z) := with_block demo_task.

Definition demo_parent (kpd dir t : Z) (h : heap) : kern unit :=
  mkKern (mkMmu h kpd 0 dir 0)
    (<[t := mkTcb 0 TASK_READY 0 0 kpd 0 [] 0 0 (t + 100)]>
      (<[t + 100 := mkTcb 0 TASK_RUNNING 1 0 dir 0 [] 0 0 t]> ∅))
    (t + 100) t 2 tt.

(** The whole run: the child's frame has the caller's bytes but for [eax]. *)
Example demo_fork_runs :
  match demo_fork with
  | Ret (kpd, dir, t) h =>
      let k := demo_parent kpd dir t (set_ram (vst32 dir 4194404 5 (vst32 dir 4194428 6 (hram h))) h) in
      match fork_current 4194404 k with
      | Ret p k' =>
          let c := task (next (task t k')) k' in
          (p, state c, vld8 (hram (mheap (kmmu k'))) (tcr3 c) 4194404,
           vld8 (hram (mheap (kmmu k'))) (tcr3 c) 4194428, vld8 (hram (mheap (kmmu k'))) dir 4194428)
      | _ => (0, TASK_EXITED, 0, 0, 0)
      end
  | _ => (0, TASK_EXITED, 0, 0, 0)
  end = (2, TASK_READY, 5, 0, 6).
Proof. vm_compute. reflexivity. Qed.

Lemma demo_fork_law :
  ends demo_fork (fun '(kpd, dir, t) h => forall pte, user_page (hram h) dir 4194404 = Some pte ->
    exists al, can_fork (demo_parent kpd dir t h) al 4194404 pte).
Proof.
  unfold demo_fork, with_block. pose proof demo_task_law as L. destruct demo_task as [[kpd dir] h|h|]; [|done|done].
  destruct L as (kb & ds & pb & Hi & D & Ho & Big & U & T).
  destruct (malloc_law h (ds ++ [pb; kb]) 200 Hi ltac:(lia)) as [(t & sz & h1 & E & Hsz & Hi1 & K & _)|E];
    rewrite E; [|done]. cbn [ends]. intros pte Hpte.
  destruct (inv_bounds _ _ (t - 12, sz) Hi1 ltac:(set_solver)) as (B1 & B2 & B3). simpl in B1.
  apply kept_app in K as [Kd Ka].
  assert (Ht : owns ((t - 12, sz) :: ds ++ [pb; kb]) t (t + 200)).
  { exists (t - 12, sz). split; [set_solver|]. unfold bend, sizeof_block_header_t. simpl. lia. }
  assert (Hcur : current (demo_parent kpd dir t h1) = mkTcb 0 TASK_RUNNING 1 0 dir 0 [] 0 0 t).
  { unfold current, task. cbn. by rewrite lookup_insert_ne, lookup_insert_eq by lia. }
  exists ((t - 12, sz) :: ds ++ [pb; kb]). split; rewrite ?Hcur; cbn [demo_parent kmmu mheap page_directory tcr3
    current_task idle_task paging_get_directory cr3].
  - lia.
  - exact Hi1.
  - by apply owns_cons, owns_app_r.
  - by apply (all_big_kept [pb; kb] (hram h)).
  - eapply dir_ok_same; [exact D| |intros; by apply owns_cons, owns_app_l].
    eapply kept_owned; [exact Kd|apply D].
  - done.
  - intros v e Hv Hu. apply owns_cons, owns_app_r, (U v); [done|]. rewrite <- Hu. symmetry.
    by apply same_walk_results, (walk_kept ds).
  - eapply owns_sub; [exact Ht|lia|]. unfold sizeof_tcb_t. lia.
  - eapply owns_sub; [exact Ht|lia|]. unfold sizeof_tcb_t. lia.
  - split; [lia|]. vm_compute. discriminate.
  - exact Hpte.
Qed.

Lemma fork_gives_child_witness : exists (k : kern unit) al pte,
  can_fork k al 4194404 pte /\
  ends (fork_current 4194404 k) (fun p k' => p = 2 /\ exists child np dir ps,
    child <> idle_task k /\ owns ps np (np + 4096) /\
    forked (hram (mheap (kmmu k))) (hram (mheap (kmmu k'))) al (page_directory (kmmu k))
      (tcr3 (current k)) dir 4194404 np ps).
Proof.
  assert (E : match demo_fork with
    | Ret (_, dir, _) h => match user_page (hram h) dir 4194404 with Some _ => true | None => false end
    | _ => false end = true) by (vm_compute; reflexivity).
  pose proof demo_fork_law as L. destruct demo_fork as [[[kpd dir] t] h|h|]; [|done|done].
  destruct (user_page (hram h) dir 4194404) as [pte|] eqn:Ep; [|done].
  destruct (L pte Ep) as (al & C). exists (demo_parent kpd dir t h), al, pte. split; [exact C|].
  eapply ends_mono; [apply (fork_gives_child (demo_parent kpd dir t h) al 4194404 pte C)|]. cbv beta.
  intros p k' (child & np & d & ps & f & b & -> & _ & _ & _ & _ & Hn & _ & _ & Ho & F).
  split; [reflexivity|]. by exists child, np, d, ps.
Defined.
