(* ===== verification/SchedReach.v ===== *)
(** Sequences of scheduler operations, task creation included: the control block
    of a new task comes from the heap, so the invariant of the run list is kept
    together with that of the heap. *)
From S2P Require Import Prelude Mem HeapSpec Paging Sched SchedProofs Image Fork.

Section Reach.
#[local] Opaque copy_bytes set_bytes.
Context {B : Type} `{FdBackend B} `{KernelHeap}.
Implicit Types (k : kern B) (l : list Z) (al : list blk).

Abbreviation kheap k := (mheap (kmmu k)).
Definition tcb_in al (p : Z) : Prop := owns al p (p + sizeof_tcb_t).

(** The run list is in order, and its control blocks are in blocks in use. *)
Record sched_inv k l al : Prop := {
  si_ok : sched_ok k l;
  si_heap : heap_inv (kheap k) al;
  si_tcbs : Forall (tcb_in al) l
}.

(** ** Operations that neither allocate nor release *)

Lemma sched_ok_same k k' l :
  sched_ok k l -> tasks k' = tasks k -> idle_task k' = idle_task k -> current_task k' = current_task k -> sched_ok k' l.
Proof.
  intros [R Hr Hi] Et Ei Ec. assert (T : forall p, task p k' = task p k) by (intros p; unfold task; by rewrite Et).
  split.
  - apply (ring_same k); [done|done|rewrite Ec; apply R|]. intros p Hp. rewrite Et, T. split; [by apply R|done].
  - intros p Hp. rewrite T, Ec. by apply Hr.
  - by rewrite Ei, T.
Qed.

Lemma sched_inv_ok k k' l al : sched_inv k l al -> sched_ok k' l -> kheap k' = kheap k -> sched_inv k' l al.
Proof. intros [_ Hi Ht] Ok E. split; [done|by rewrite E|done]. Qed.

Lemma schedule_heap fuel k u k' : scheduler_schedule fuel k = Ret u k' -> kheap k' = kheap k.
Proof.
  unfold scheduler_schedule. destruct (current_task k =? 0); [by intros [= _ <-]|].
  destruct (pick_next _ _ _ _) as [nx|]; [|done].
  set (k1 := if negb (nx =? _) then _ else _). assert (E1 : kmmu k1 = kmmu k) by (unfold k1; by repeat case_match).
  clearbody k1. unfold on_mmu, zoom, paging_switch, modify. destruct (negb _); intros E; simplify_eq; cbn; congruence.
Qed.

Lemma switch_heap fuel k x k' : (scheduler_schedule fuel ;; gets (fun k => esp (current k))) k = Ret x k' -> kheap k' = kheap k.
Proof.
  unfold mbind, M_bind. destruct (scheduler_schedule fuel k) as [[] k1| |] eqn:E; [|done|done].
  intros [= _ <-]. by apply schedule_heap in E.
Qed.

Lemma wake_loop_heap w stop fuel : forall t k k', wake_loop fuel w t stop k = Ret tt k' -> kheap k' = kheap k.
Proof.
  induction fuel as [|fuel IH]; intros t k k' E; cbn [wake_loop] in E; [done|].
  set (k1 := if decide _ then _ else _) in E. assert (E1 : kmmu k1 = kmmu k) by (unfold k1; by destruct (decide _)).
  destruct (_ =? stop); [injection E as <-; by rewrite E1|]. by rewrite (IH _ _ _ E), E1.
Qed.

Lemma wake_heap fuel w k k' : scheduler_wake fuel w k = Ret tt k' -> kheap k' = kheap k.
Proof. unfold scheduler_wake. destruct (w =? 0); [by intros [= <-]|apply wake_loop_heap]. Qed.

(** ** Creating tasks *)

(** Linking a task in a new block, the memory having changed meanwhile. *)
Lemma sched_inv_link k l al k2 al2 p t :
  sched_inv k l al -> tasks k2 = tasks k -> idle_task k2 = idle_task k -> current_task k2 = current_task k ->
  heap_inv (kheap k2) al2 -> (forall lo hi, owns al lo hi -> owns al2 lo hi) ->
  tcb_in al2 p -> (forall q, tcb_in al q -> p <> q) -> state t = TASK_READY ->
  exists l', sched_inv (link_task p t k2) l' al2 /\ length l' = S (length l).
Proof.
  intros [Ok _ Ht] Et Ei Ec Hi2 Hsub Hp Hfresh Hs. pose proof (sched_ok_same k k2 l Ok Et Ei Ec) as Ok2.
  assert (Hpl : p ∉ l) by (intros Hin; rewrite Forall_forall in Ht; by apply (Hfresh p (Ht p Hin))).
  destruct (owns_bounds _ _ _ _ Hi2 Hp) as [Hp0 _].
  destruct (sched_ok_link k2 l p t Ok2 Hpl ltac:(lia) Hs) as (rest & -> & Ok3).
  exists (idle_task k2 :: p :: rest). split; [|done]. split; [exact Ok3|exact Hi2|].
  inversion Ht as [|? ? Hi Hr]; subst. constructor; [by apply Hsub|]. constructor; [done|].
  eapply Forall_impl; [exact Hr|]. intros q Hq. by apply Hsub.
Qed.

(** A new block is the place of no control block. *)
Lemma fresh_tcb h al p sz q : heap_inv h ((p - 12, sz) :: al) -> sizeof_tcb_t <= sz -> tcb_in al q -> p <> q.
Proof.
  unfold tcb_in, sizeof_tcb_t. intros Hi Hs Ho ->. destruct (fresh_disjoint h al q sz q (q + 100) Hi Ho); lia.
Qed.

Lemma ld8_push_words_other ws : forall sp m x, x < sp - 4 * Z.of_nat (length ws) \/ sp <= x ->
  ld8 (push_words sp ws m) x = ld8 m x.
Proof.
  induction ws as [|w ws IH]; intros sp m x Hx; cbn [push_words length] in *; [done|].
  rewrite IH by lia. by rewrite ld8_st32_other by lia.
Qed.
Lemma ram_ok_push_words ws : forall sp m, ram_ok m -> ram_ok (push_words sp ws m).
Proof. induction ws as [|w ws IH]; intros sp m R; cbn [push_words]; [done|]. auto with mboot. Qed.

Lemma create_task_law e f k l al :
  sched_inv k l al ->
  ends (create_task e f k) (fun _ k' => exists l' al', sched_inv k' l' al' /\ length l' = S (length l)).
Proof.
  intros I. pose proof (si_heap _ _ _ I) as Hi. unfold create_task. apply ends_bind, ends_on_heap.
  destruct (malloc_law _ al sizeof_tcb_t Hi ltac:(by unfold sizeof_tcb_t)) as [(p & sz & h1 & E & Hsz & Hi1 & _)|E];
    rewrite E; [|done]. cbn [ends]. apply ends_bind, ends_on_heap. cbn [kmmu set_mmu mheap put_heap].
  destruct (malloc_law h1 ((p - 12, sz) :: al) TASK_STACK_SIZE Hi1 ltac:(by unfold TASK_STACK_SIZE))
    as [(stack & sz2 & h2 & E2 & Hsz2 & Hi2 & _)|E2]; rewrite E2; [|done]. cbn [ends]. clear E E2.
  set (k2 := set_mmu _ (set_mmu _ k)). set (ws := _ ++ frame_tail).
  assert (Hst : owns [(stack - 12, sz2)] stack (stack + TASK_STACK_SIZE)).
  { exists (stack - 12, sz2). split; [set_solver|]. unfold bend, sizeof_block_header_t. cbn [fst snd]. lia. }
  apply ends_bind. eapply (ends_on_ram k2 [(stack - 12, sz2)] ((p - 12, sz) :: al)); [exact Hi2|exact Hst| | |].
  { apply ram_ok_push_words, (inv_ram _ _ Hi2). }
  { intros x Hx. rewrite ld8_push_words_other; [done|]. unfold TASK_STACK_SIZE in *. cbn [length ws frame_tail replicate app]. lia. }
  intros Hi3. set (k3 := set_mmu _ k2). apply ends_bind. unfold modify. cbn [ends].
  destruct (task_init_fds _ k3) as [fd b]. unfold gets. cbn [ends]. set (t := mkTcb _ _ _ _ _ _ _ _ _ _).
  assert (Hp : tcb_in ((stack - 12, sz2) :: (p - 12, sz) :: al) p).
  { exists (p - 12, sz). split; [set_solver|]. unfold bend, sizeof_block_header_t. cbn [fst snd]. lia. }
  destruct (sched_inv_link k l al (set_files b k3) ((stack - 12, sz2) :: (p - 12, sz) :: al) p t I) as (l' & I' & Hl); try done.
  { intros lo hi Ho. by apply owns_cons, owns_cons. }
  { intros q. by apply (fresh_tcb h1 al p sz). }
  exists l', ((stack - 12, sz2) :: (p - 12, sz) :: al). split; [|exact Hl]. eapply sched_inv_ok; [exact I'| |done]. by eapply sched_ok_same; [apply I'|..].
Qed.

(** [fork_current]: the child is linked in its new block. *)
Lemma fork_step_law k l al r pte :
  sched_inv k l al -> can_fork k al r pte ->
  ends (fork_current r k) (fun _ k' => exists l' al', sched_inv k' l' al' /\ length l' = S (length l)).
Proof.
  intros I C. eapply ends_mono; [exact (fork_law k al r pte C)|]. cbv beta.
  intros x k' (child & np & dir & ps & f & b & (ds & sz & Hi & Hsz) & Hfresh & Ei & _ & _ & Ec & _ & _ & _ & _ & Et & _).
  set (t := mkTcb (np + r mod 4096) TASK_READY (next_pid k) 0 dir (tty (current k)) f 0 0 0).
  set (k2 := mkKern (kmmu k') (tasks k) (current_task k) (idle_task k) (next_pid k') (files k')).
  destruct (sched_inv_link k l al k2 (ps ++ (child - 12, sz) :: ds ++ al) child t I) as (l' & I' & Hl); try done.
  { intros lo hi Ho. by apply owns_app_r, owns_cons, owns_app_r. }
  { exists (child - 12, sz). split; [set_solver|]. unfold bend, sizeof_block_header_t. cbn [fst snd]. lia. }
  exists l', (ps ++ (child - 12, sz) :: ds ++ al). split; [|exact Hl].
  eapply sched_inv_ok; [exact I'| |done]. eapply sched_ok_same; [apply I'|exact Et|exact Ei|exact Ec].
Qed.

(** *** User programs *)

(** What holds if the run returns. *)
Definition if_ret {S A} (r : res S A) (Q : A -> S -> Prop) : Prop := forall a s, r = Ret a s -> Q a s.

Lemma if_ret_ends {S A} (r : res S A) (Q : A -> S -> Prop) : ends r Q -> if_ret r Q.
Proof. by intros E a s ->. Qed.
Lemma if_ret_mono {S A} (r : res S A) (P Q : A -> S -> Prop) : if_ret r P -> (forall a s, P a s -> Q a s) -> if_ret r Q.
Proof. unfold if_ret. eauto. Qed.
Lemma if_ret_seq {S A A'} (c : M S A) (f : A -> M S A') s (P : A -> S -> Prop) (Q : A' -> S -> Prop) :
  if_ret (c s) P -> (forall a s', P a s' -> if_ret (f a s') Q) -> if_ret ((c ≫= f) s) Q.
Proof. intros Hc Hf b s2. unfold mbind, M_bind. destruct (c s) as [a s1| |]; [|done|done]. by apply Hf, Hc. Qed.
Lemma if_ret_on_heap {A} (c : M heap A) k (Q : A -> kern B -> Prop) :
  if_ret (c (kheap k)) (fun a h => Q a (set_mmu (put_heap h (kmmu k)) k)) -> if_ret (on_heap c k) Q.
Proof. intros Hc a s. unfold on_heap, on_mmu, zoom. destruct (c (kheap k)) as [a' h| |]; [|done|done]. intros [= <- <-]. by apply Hc. Qed.

(** More blocks are in use than before. *)
Definition extends al al' : Prop := forall lo hi, owns al lo hi -> owns al' lo hi.

Lemma alloc_law h al n : heap_inv h al -> 0 < n <= 1000000 ->
  if_ret (malloc n h) (fun p h' => exists sz, heap_inv h' ((p - 12, sz) :: al) /\ n <= sz /\ kept al (hram h) (hram h')).
Proof.
  intros Hi Hn. apply if_ret_ends. destruct (malloc_law h al n Hi Hn) as [(p & sz & h1 & -> & Hsz & Hi1 & K & _)| ->]; [|done].
  cbn. by exists sz.
Qed.

Lemma vstrlen_bound fuel : forall m pd v n, vstrlen fuel m pd v = Some n -> 0 <= n < Z.of_nat fuel.
Proof.
  induction fuel as [|fuel IH]; intros m pd v n E; cbn [vstrlen] in E; [done|].
  destruct (_ =? 0); [injection E as <-; lia|]. destruct (vstrlen fuel m pd (v + 1)) as [n'|] eqn:E'; [|done].
  injection E as <-. specialize (IH _ _ _ _ E'). lia.
Qed.

Lemma vread_length n : forall m pd v, length (vread n m pd v) = n.
Proof. induction n as [|n IH]; intros m pd v; cbn; [done|by rewrite IH]. Qed.

Lemma copy_arg_law fuel pd arg h al : heap_inv h al -> Z.of_nat fuel <= 999999 ->
  if_ret (copy_arg fuel pd arg h) (fun _ h' => exists b, heap_inv h' (b :: al)).
Proof.
  intros Hi Hf. unfold copy_arg. destruct (vstrlen fuel (hram h) pd arg) as [len|] eqn:El; [|done].
  apply vstrlen_bound in El. eapply if_ret_seq; [by apply (alloc_law h al); [|rewrite u32_small by lia; lia]|].
  cbv beta. intros p h1 (sz & Hi1 & Hsz & _). rewrite u32_small in Hsz by lia.
  eapply if_ret_seq with (P := fun _ h' => heap_inv h' ((p - 12, sz) :: al)).
  - apply if_ret_ends. eapply (write_ram_law h1 [(p - 12, sz)] al p (p + (len + 1))); [exact Hi1| | | |done].
    + exists (p - 12, sz). split; [set_solver|]. unfold bend, sizeof_block_header_t. cbn [fst snd]. lia.
    + apply ram_ok_write_bytes, (inv_ram _ _ Hi1).
    + intros x Hx. rewrite ld8_write_bytes_other; [done|]. rewrite vread_length. lia.
  - cbv beta. intros _ h2 Hi2 a h3 [= _ <-]. by exists (p - 12, sz).
Qed.

(** The arguments go to the new stack, in block [sb]; each string gets a block. *)
Lemma push_args_law fuel pd argv sb n : forall sp h al,
  heap_inv h (sb :: al) -> Z.of_nat fuel <= 999999 -> sb.1 + 12 <= sp - 4 * Z.of_nat n -> sp <= bend sb ->
  if_ret (push_args fuel n pd argv sp h) (fun sp' h' => exists al', heap_inv h' (sb :: al') /\ extends al al' /\ sp' = sp - 4 * Z.of_nat n).
Proof.
  induction n as [|n IH]; intros sp h al Hi Hf Hlo Hhi; cbn [push_args].
  { intros a h' [= <- <-]. exists al. split; [done|]. split; [by intros lo hi|lia]. }
  eapply if_ret_seq with (P := fun _ h' => h' = h); [by intros a s [= _ <-]|]. intros arg _ ->.
  eapply if_ret_seq; [by apply copy_arg_law|]. cbv beta. intros copy h1 (b & Hi1).
  assert (Hi1' : heap_inv h1 ([sb] ++ b :: al)) by (eapply inv_perm; [exact Hi1|apply perm_swap]).
  eapply if_ret_seq with (P := fun _ h' => heap_inv h' ([sb] ++ b :: al)).
  - apply if_ret_ends. eapply (write_ram_law h1 [sb] (b :: al) (sp - 4) sp); [exact Hi1'| | | |done].
    + exists sb. split; [set_solver|]. lia.
    + apply ram_ok_st32, (inv_ram _ _ Hi1).
    + intros x Hx. rewrite ld8_st32_other by lia. done.
  - cbv beta. intros _ h2 Hi2. eapply if_ret_mono; [apply (IH (sp - 4) h2 (b :: al)); [exact Hi2|done|lia|lia]|].
    cbv beta. intros sp' h3 (al' & Hi3 & X & ->). exists al'. split; [done|]. split; [|lia].
    intros lo hi Ho. by apply X, owns_cons.
Qed.

Lemma map_stack_law n : forall dir addr limit h ds al,
  heap_inv h (ds ++ al) -> dir_ok ds (hram h) dir -> 0 <= addr -> limit <= 4294967296 ->
  if_ret (map_stack n dir addr limit h) (fun _ h' => exists ds', heap_inv h' (ds' ++ al)).
Proof.
  induction n as [|n IH]; intros dir addr limit h ds al Hi D Ha Hl; cbn [map_stack]; [intros a s [= _ <-]; by exists ds|].
  destruct (Z.leb_spec limit addr); [intros a s [= _ <-]; by exists ds|].
  eapply if_ret_seq; [apply if_ret_ends, (map_page_law h ds al); [done|done|lia|lia|vm_compute; split; [discriminate|reflexivity]]|].
  cbv beta. intros _ h1 (ds1 & Mp). apply (IH dir _ limit h1 ds1 al); [apply Mp|apply Mp|unfold PAGE_SIZE; lia|done].
Qed.

(** The kernel state with another heap, and steps that only change the heap. *)
Definition with_heap k (h : heap) : kern B := set_mmu (put_heap h (kmmu k)) k.
Lemma with_heap_same k : with_heap k (kheap k) = k.
Proof. by destruct k as [[]]. Qed.
Lemma heap_seq {A A'} k h (c : M heap A) (f : A -> M (kern B) A') P Q :
  if_ret (c h) P -> (forall a h', P a h' -> if_ret (f a (with_heap k h')) Q) ->
  if_ret ((on_heap c ≫= f) (with_heap k h)) Q.
Proof.
  intros Hc Hf. eapply if_ret_seq with (P := fun a s => exists h', s = with_heap k h' /\ P a h').
  - apply if_ret_on_heap. eapply if_ret_mono; [exact Hc|]. intros a h' Pa. by exists h'.
  - intros a s (h' & -> & Pa). by apply Hf.
Qed.
Lemma ram_seq {A'} k h sb al lo hi g (f : unit -> M (kern B) A') Q :
  heap_inv h (sb :: al) -> owns [sb] lo hi -> (forall m, ram_ok m -> ram_ok (g m)) ->
  (forall m x, ~ (lo <= x < hi) -> ld8 m x = ld8 (g m) x) ->
  (forall h', heap_inv h' (sb :: al) -> if_ret (f tt (with_heap k h')) Q) ->
  if_ret ((on_ram g ≫= f) (with_heap k h)) Q.
Proof.
  intros Hi Ho Hr Hx Hf. apply (heap_seq k h (write_ram g) f (fun _ h' => heap_inv h' (sb :: al))); [|intros []; apply Hf].
  apply if_ret_ends. eapply (write_ram_law h [sb] al lo hi); [exact Hi|exact Ho|by apply Hr, (inv_ram _ _ Hi)|apply Hx|done].
Qed.

(** A program that can be loaded: the kernel's directory and the file bytes of
    the segments are in blocks in use, and the image is of moderate size. *)
Record can_load k al (fuel : nat) (segs : list user_segment_t) : Prop := {
  cl_kernel : owns al (page_directory (kmmu k)) (page_directory (kmmu k) + 4096);
  cl_big : all_big (hram (kheap k)) (page_directory (kmmu k));
  cl_segs : Forall (segment_ok al fuel) segs;
  cl_span : forall base end_, image_span segs 4294967295 0 = (base, end_) -> (end_ - base) / 4096 * 4 <= 1000000;
  cl_fuel : Z.of_nat fuel <= 999999
}.

Lemma segment_ok_extends al al' fuel s : extends al al' -> segment_ok al fuel s -> segment_ok al' fuel s.
Proof. intros X []. split; try done. by apply X. Qed.

(** The stack is filled and the task linked. *)
Lemma user_task_end fuel entry argc argv y k l al h p sb rest dir stack :
  sched_inv k l al -> heap_inv h (sb :: rest) -> extends al rest -> TASK_STACK_SIZE <= sb.2 ->
  tcb_in rest p -> (forall q, tcb_in al q -> p <> q) -> Z.of_nat fuel <= 999999 -> 0 <= argc <= 16 -> stack = sb.1 + 12 ->
  if_ret ((on_ram (push_words (stack + TASK_STACK_SIZE) [0; 0]) ;;
    pd ← gets (fun k => paging_get_directory (kmmu k));
    sp ← on_heap (push_args fuel (Z.to_nat argc) pd argv (stack + TASK_STACK_SIZE - 8));
    let ws := [argc; 514; GDT_CODE_SEG; entry] ++ frame_tail in
    on_ram (push_words sp ws) ;;
    modify (fun k =>
      let '(f, b) := task_init_fds (tty null_tcb) k in
      let '(y', f') := if 0 <=? y then (y, vfs_bind_tty f y) else (scheduler_current_tty k, f) in
      let t := mkTcb (sp - 4 * Z.of_nat (length ws)) TASK_READY (next_pid k) stack dir y' f' 0 0 0 in
      set_next_pid (u32 (next_pid k + 1)) (link_task p t (set_files b k))) ;;
    gets (fun k => pid (task p k))) (with_heap k h))
  (fun _ k' => exists l' al', sched_inv k' l' al' /\ length l' = S (length l)).
Proof.
  intros I Hi X Hsz Hp Hfresh Hf Hn Hstk. unfold TASK_STACK_SIZE in *.
  assert (Hst : forall lo hi, stack <= lo -> hi <= stack + 65536 -> owns [sb] lo hi).
  { intros lo hi H1 H2. exists sb. split; [set_solver|]. unfold bend, sizeof_block_header_t in *. lia. }
  eapply (ram_seq k h sb rest stack (stack + 65536)); [exact Hi|by apply Hst| | |].
  { intros m. apply ram_ok_push_words. }
  { intros m x Hx. rewrite ld8_push_words_other; [done|]. cbn [length]. lia. }
  intros h1 Hi1. eapply if_ret_seq with (P := fun _ s => s = with_heap k h1); [by intros a s [= _ <-]|]. intros pd _ ->.
  eapply heap_seq; [apply (push_args_law fuel pd argv sb (Z.to_nat argc) _ h1 rest Hi1 Hf); unfold bend, sizeof_block_header_t in *; lia|].
  cbv beta. intros sp h2 (rest2 & Hi2 & X2 & ->). cbv zeta.
  eapply (ram_seq k h2 sb rest2 stack (stack + 65536)); [exact Hi2|by apply Hst| | |].
  { intros m. apply ram_ok_push_words. }
  { intros m x Hx. rewrite ld8_push_words_other; [done|]. cbn [length frame_tail replicate app]. lia. }
  intros h3 Hi3. set (k3 := with_heap k h3). set (ws := _ ++ frame_tail).
  intros a s. unfold modify, gets, mbind, M_bind. destruct (task_init_fds _ k3) as [fd b].
  destruct (if 0 <=? y then _ else _) as [y' f']. intros [= _ <-].
  set (t := mkTcb _ _ _ _ _ _ _ _ _ _).
  destruct (sched_inv_link k l al (set_files b k3) (sb :: rest2) p t I) as (l' & I' & Hl); try done.
  { intros lo hi Ho. by apply owns_cons, X2, X. }
  { by apply owns_cons, X2. }
  exists l', (sb :: rest2). split; [|exact Hl]. eapply sched_inv_ok; [exact I'| |done]. by eapply sched_ok_same; [apply I'|..].
Qed.

Lemma sched_inv_heap k l al h al' : sched_inv k l al -> heap_inv h al' -> extends al al' -> sched_inv (with_heap k h) l al'.
Proof.
  intros [Ok _ Ht] Hi X. split; [by eapply sched_ok_same|done|]. eapply Forall_impl; [exact Ht|]. intros q. apply X.
Qed.

(** Creating a task from the segments of a program. *)
Lemma user_task_law fuel entry segs argc argv y k l al :
  sched_inv k l al -> can_load k al fuel segs ->
  if_ret (create_user_task_from_segments fuel entry segs argc argv y k)
    (fun _ k' => exists l' al', sched_inv k' l' al' /\ (length l' <= S (length l))%nat).
Proof.
  intros I [Hk Hbig Hsegs Hspan Hf]. set (Q := fun _ _ => _). pose proof (si_heap _ _ _ I) as Hi.
  assert (Q0 : forall a, Q a k) by (intros a; exists l, al; split; [done|lia]).
  unfold create_user_task_from_segments. destruct (Z.ltb_spec argc 0); [intros a s [= _ <-]; apply Q0|].
  set (argc' := if MAX_TASK_ARGS <? argc then _ else _). assert (Ha : 0 <= argc' <= 16) by (unfold argc', MAX_TASK_ARGS; case_z; lia).
  destruct segs as [|sg segs']; [intros a s [= _ <-]; apply Q0|]. set (segs := sg :: segs') in *. clear Q0.
  set (kpd := page_directory (kmmu k)) in *. rewrite <- (with_heap_same k).
  eapply heap_seq; [by apply (alloc_law _ al)|]. cbv beta. intros p h1 (sz & Hi1 & Hsz & K1).
  eapply heap_seq; [by apply (alloc_law h1 ((p - 12, sz) :: al))|]. cbv beta. intros stack h2 (sz2 & Hi2 & Hsz2 & K2).
  set (al2 := (stack - 12, sz2) :: (p - 12, sz) :: al) in *.
  assert (X2 : extends al al2) by (intros lo hi Ho; by apply owns_cons, owns_cons).
  assert (Big2 : all_big (hram h2) kpd).
  { apply (all_big_kept al (hram (kheap k))); [done| |done]. eapply kept_trans; [exact K1|]. by apply (kept_app [(p - 12, sz)] al) in K2 as [_ K2]. }
  eapply if_ret_seq with (P := fun a s => a = kpd /\ s = with_heap k h2); [by intros a s [= <- <-]|]. intros _ _ [-> ->].
  eapply heap_seq; [apply if_ret_ends, (create_directory_law h2 al2 kpd); [done|by apply X2|done]|].
  cbv beta. intros dir h3 (db & Hi3 & D3 & _). destruct (image_span segs 4294967295 0) as [base end_] eqn:Esp.
  destruct (Z.leb_spec end_ base) as [Hle|Hlt].
  { intros a s [= _ <-]. exists l, (db :: al2). split; [|lia]. apply (sched_inv_heap k l al); [done|done|]. intros lo hi Ho. by apply owns_cons, X2. }
  destruct (span_image_law fuel h3 [db] al2 dir segs base end_) as (_ & _ & _ & _ & L); try done; [|by apply Hspan|].
  { eapply Forall_impl; [exact Hsegs|]. intros sg'. by apply segment_ok_extends. }
  eapply heap_seq; [apply if_ret_ends, L|]. cbv beta. intros pages h4 (ab & ds & ps & pgs & _ & Im).
  destruct (inv_bounds _ _ (stack - 12, sz2) Hi2 ltac:(set_solver)) as (B1 & B2 & B3).
  pose proof (inv_end _ _ Hi2). unfold bend, sizeof_block_header_t in B3. cbn [fst snd] in B1, B2, B3.
  eapply heap_seq; [apply (map_stack_law stack_pages dir (frame stack) (stack + TASK_STACK_SIZE) h4 ds (ps ++ ab :: al2))|].
  { apply Im. } { apply Im. } { rewrite frame_eq by lia. zlia. } { unfold TASK_STACK_SIZE in *. lia. }
  cbv beta. intros _ h5 (ds5 & Hi5). eapply if_ret_mono; [apply (user_task_end fuel entry argc' argv y k l al h5 p (stack - 12, sz2) (ds5 ++ ps ++ ab :: (p - 12, sz) :: al) dir stack)|].
  - done.
  - eapply inv_perm; [exact Hi5|]. unfold al2. solve_Permutation.
  - intros lo hi Ho. by apply owns_app_r, owns_app_r, owns_cons, owns_cons.
  - done.
  - exists (p - 12, sz). split; [set_solver|]. unfold bend, sizeof_block_header_t. cbn [fst snd]. lia.
  - intros q. by apply (fresh_tcb h1 al p sz).
  - done.
  - done.
  - cbn [fst]. lia.
  - cbv beta. intros a s (l' & al' & I' & Hl). exists l', al'. split; [done|lia].
Qed.
(** ** Any sequence of operations *)

(** One operation, on a run list of at most [fuel] tasks.  In the last two, [al]
    are the blocks in use, which hold the control blocks and what the call reads:
    the caller's directory and pages, or the kernel's directory and the segments. *)
Inductive sched_step (fuel : nat) : kern B -> kern B -> Prop :=
| step_tick k r x k' : scheduler_tick fuel r k = Ret x k' -> sched_step fuel k k'
| step_block k w f x k' : scheduler_block fuel w f k = Ret x k' -> sched_step fuel k k'
| step_wake k w k' : scheduler_wake fuel w k = Ret tt k' -> sched_step fuel k k'
| step_exit k c k' : scheduler_exit_current fuel c k = Ret tt k' -> sched_step fuel k k'
| step_tty k y x k' : scheduler_set_tty y k = Ret x k' -> sched_step fuel k k'
| step_create k e f x k' : create_task e f k = Ret x k' -> sched_step fuel k k'
| step_fork k al r pte x k' :
    (forall p, is_Some (tasks k !! p) -> tcb_in al p) -> can_fork k al r pte ->
    fork_current r k = Ret x k' -> sched_step fuel k k'
| step_user k al n entry segs argc argv y x k' :
    (forall p, is_Some (tasks k !! p) -> tcb_in al p) -> heap_inv (kheap k) al -> can_load k al n segs ->
    create_user_task_from_segments n entry segs argc argv y k = Ret x k' -> sched_step fuel k k'.

(** Run lists only grow, so the fuel has to cover the largest. *)
Inductive sched_reach (fuel : nat) : kern B -> nat -> kern B -> Prop :=
| reach_refl k : sched_reach fuel k 0 k
| reach_step k n k1 k2 : sched_reach fuel k n k1 -> sched_step fuel k1 k2 -> sched_reach fuel k (S n) k2.

(** The same run list, with the blocks a step names. *)
Lemma sched_inv_blocks k l al al' :
  sched_inv k l al -> (forall p, is_Some (tasks k !! p) -> tcb_in al' p) -> heap_inv (kheap k) al' -> sched_inv k l al'.
Proof.
  intros [Ok _ _] Hp Hi. split; [done|done|]. apply Forall_forall. intros p Hin. apply Hp. by apply (so_ring _ _ Ok).
Qed.

(** Operations that create no task. *)
Lemma sched_step_same fuel k l k' :
  sched_ok k l -> (length l <= fuel)%nat ->
  (exists r x, scheduler_tick fuel r k = Ret x k') \/ (exists w f x, scheduler_block fuel w f k = Ret x k')
  \/ (exists w, scheduler_wake fuel w k = Ret tt k') \/ (exists c, scheduler_exit_current fuel c k = Ret tt k')
  \/ (exists y x, scheduler_set_tty y k = Ret x k') ->
  sched_ok k' l /\ kheap k' = kheap k.
Proof.
  intros Ok Hf [(r & x & E)|[(w & f & x & E)|[(w & E)|[(c & E)|(y & x & E)]]]].
  - unfold scheduler_tick in E. destruct (Z.eqb_spec (current_task k) 0); [by injection E as _ <-|].
    split; [|by apply switch_heap in E].
    eapply (sched_ok_switch k l _ fuel); [exact Ok|done| | | |exact E]; destruct (decide _); cbn in *; try done; congruence.
  - unfold scheduler_block, scheduler_perform_switch in E.
    set (k3 := set_task (current_task k) (with_wait (current k) w) k) in *. split; [|by apply switch_heap in E].
    assert (O3 : sched_ok k3 l) by (apply sched_ok_set; done).
    assert (Ec : current k3 = with_wait (current k) w) by (unfold current, k3; cbn; apply task_set_same).
    apply (sched_ok_switch k3 l (with_esp (current k3) f) fuel x k'); [exact O3|done|done| | |exact E]; cbn [state with_esp]; rewrite Ec; done.
  - split; [by apply (sched_ok_wake k l fuel w k' Ok)|by apply wake_heap in E].
  - unfold scheduler_exit_current in E.
    destruct (Z.eqb_spec (current_task k) 0), (Z.eqb_spec (current_task k) (idle_task k)) as [|Hne];
      cbn [orb] in E; try (by injection E as <-).
    destruct (vfs_exit_fds (fds (current k)) (files k)) as [fd b]. split; [|by apply wake_heap in E].
    refine (sched_ok_wake _ l fuel _ k' _ Hf E). apply (sched_ok_set (set_files b k)); [by eapply sched_ok_same|done|by left].
  - unfold scheduler_set_tty in E. destruct (current_task k =? 0); [by injection E as _ <-|].
    destruct (negb (tty_valid y)); [by injection E as _ <-|]. injection E as _ <-.
    split; [|done]. apply sched_ok_set; [done|done|]. intros Hx. by right.
Qed.

Lemma sched_step_inv fuel k l al k' :
  sched_inv k l al -> (length l <= fuel)%nat -> sched_step fuel k k' ->
  exists l' al', sched_inv k' l' al' /\ (length l' <= S (length l))%nat.
Proof.
  intros I Hf St. pose proof (si_ok _ _ _ I) as Ok.
  assert (Same : sched_ok k' l /\ kheap k' = kheap k -> exists l' al', sched_inv k' l' al' /\ (length l' <= S (length l))%nat).
  { intros [Ok' E]. exists l, al. split; [by eapply sched_inv_ok|lia]. }
  destruct St as [k r x k' E|k w f x k' E|k w k' E|k c k' E|k y x k' E|k e f x k' E|k al1 r pte x k' Hp C E|k al1 n entry segs argc argv y x k' Hp Hi C E].
  1-5: apply Same, (sched_step_same fuel k l); [done|done|]; eauto 8.
  - pose proof (create_task_law e f k l al I) as L. rewrite E in L. destruct L as (l' & al' & I' & Hl). exists l', al'. split; [done|lia].
  - pose proof (fork_step_law k l al1 r pte (sched_inv_blocks _ _ _ _ I Hp (cf_inv _ _ _ _ C)) C) as L. rewrite E in L.
    destruct L as (l' & al' & I' & Hl). exists l', al'. split; [done|lia].
  - by apply (user_task_law n entry segs argc argv y k l al1 (sched_inv_blocks _ _ _ _ I Hp Hi) C x).
Qed.

(** The idle task alone. *)
Lemma scheduler_init_law k al : heap_inv (kheap k) al ->
  ends (scheduler_init k) (fun _ k' => exists l b, sched_inv k' l (b :: al) /\ length l = 1%nat /\
    kept al (hram (kheap k)) (hram (kheap k')) /\ page_directory (kmmu k') = page_directory (kmmu k) /\
    forall q, is_Some (tasks k' !! q) -> is_Some (tasks k !! q) \/ tcb_in (b :: al) q).
Proof.
  intros Hi. unfold scheduler_init. apply ends_bind, ends_on_heap.
  destruct (malloc_law _ al sizeof_tcb_t Hi ltac:(by unfold sizeof_tcb_t)) as [(p & sz & h1 & E & Hsz & Hi1 & K1 & _)|E];
    rewrite E; [|done]. cbn [ends modify].
  destruct (inv_bounds _ _ (p - 12, sz) Hi1 ltac:(set_solver)) as (B1 & _). cbn [fst] in B1.
  set (k1 := mkKern _ _ _ _ _ _). exists [p], (p - 12, sz).
  assert (Hp : tcb_in ((p - 12, sz) :: al) p) by (exists (p - 12, sz); split; [set_solver|]; unfold bend, sizeof_block_header_t; cbn [fst snd]; lia).
  split; [|split; [done|split; [done|split; [done|]]]].
  2: { intros q. unfold k1. cbn [tasks]. destruct (decide (p = q)) as [<-|]; [by right|]. rewrite lookup_insert_ne by done. by left. }
  assert (T : task p k1 = mkTcb 0 TASK_RUNNING (next_pid k) 0 (paging_get_kernel_directory (kmmu k)) 0 (vfs_init_fds 0) 0 0 p)
    by (unfold task, k1; cbn; by rewrite lookup_insert_eq).
  split; [split; [split|..]|exact Hi1|].
  - by exists [].
  - apply NoDup_singleton.
  - intros Hin%list_elem_of_singleton. lia.
  - cbn [links hd]. by rewrite T.
  - intros q Hq%list_elem_of_singleton. subst q. unfold k1. cbn. rewrite lookup_insert_eq. done.
  - apply list_elem_of_singleton. done.
  - intros q Hq%list_elem_of_singleton _. done.
  - change (idle_task k1) with p. by rewrite T.
  - by repeat constructor.
Qed.

(** C14: Scheduler invariant. From [scheduler_init] on, after any sequence of
    ticks, blocks, wake-ups, exits, terminal changes and task creations (kernel
    tasks by [create_task], user programs by [create_user_task_from_segments]
    with the image it builds, children by [fork_current]), the run list is a ring
    through the idle task containing the current task, the idle task has not
    exited, no task other than the current one is in the running state, every
    control block lies in a heap block in use, and the heap is well-formed. *)
Theorem sched_invariant k al fuel n :
  heap_inv (kheap k) al -> (S n <= fuel)%nat ->
  ends (scheduler_init k) (fun _ k0 => forall k', sched_reach fuel k0 n k' ->
    exists l al', sched_inv k' l al' /\ (length l <= S n)%nat).
Proof.
  intros Hi Hf. eapply ends_mono; [by apply (scheduler_init_law k al)|]. cbv beta.
  intros _ k0 (l0 & b & I0 & Hl0 & _) k' R. induction R as [k0|k0 n k1 k2 R IH St].
  - exists l0, (b :: al). split; [done|lia].
  - destruct IH as (l1 & al1 & I1 & Hl1); [lia|done|]. destruct (sched_step_inv fuel k1 l1 al1 k2 I1 ltac:(lia) St) as (l2 & al2 & I2 & Hl2).
    exists l2, al2. split; [done|lia].
Qed.
End Reach.

(** * A run from boot *)

Definition boot_kern (s : mmu) : kern unit := mkKern s ∅ 0 0 0 tt.

(** A program of four zero bytes at 16 MiB. *)
Definition zero_program (kpd : Z) : list user_segment_t := [mkSegment 16777216 0 4 kpd].

(** A user program and two kernel tasks are created; a tick, a task that blocks on
    7, the wake-up of 7 and an exit follow. *)
Definition demo_steps (k0 : kern unit) : M (kern unit) unit :=
  create_user_task_from_segments 9 16777216 (zero_program (page_directory (kmmu k0))) 0 0 (-1) ;;
  create_task 1000 2000 ;;
  create_task 1000 3000 ;;
  scheduler_tick 9 5000 ;;
  scheduler_block 9 7 6000 ;;
  scheduler_wake 9 7 ;;
  scheduler_exit_current 9 3.

Lemma demo_steps_reach k0 al k' :
  (forall p, is_Some (tasks k0 !! p) -> tcb_in al p) -> heap_inv (mheap (kmmu k0)) al ->
  can_load k0 al 9 (zero_program (page_directory (kmmu k0))) ->
  demo_steps k0 k0 = Ret tt k' -> sched_reach 9 k0 7 k'.
Proof.
  intros Hp Hi C E. unfold demo_steps in E.
  repeat (apply bind_Ret in E as (? & ? & ? & E)). repeat match goal with u : unit |- _ => destruct u end.
  repeat (eapply reach_step; [|first [by eapply step_exit|by eapply step_wake|by eapply step_block|by eapply step_tick|by eapply step_create|by eapply (step_user 9 k0 al)]]).
  apply reach_refl.
Qed.

(** The run succeeds, and leaves four tasks: the idle task, the two kernel tasks
    and the program. *)
Lemma sched_invariant_witness : exists (s : mmu) k0 k' l al,
  scheduler_init (boot_kern s) = Ret tt k0 /\ demo_steps k0 k0 = Ret tt k' /\ size (tasks k') = 4%nat /\ sched_inv k' l al.
Proof.
  assert (E : match paging_init demo_mmu with
    | Ret _ s => match scheduler_init (boot_kern s) with
        | Ret _ k0 => match demo_steps k0 k0 with Ret _ k' => (size (tasks k') =? 4)%nat | _ => false end
        | _ => false end
    | _ => false end = true) by (vm_compute; reflexivity).
  pose proof (init_law demo_mmu [] demo_mmu_inv) as L. destruct (paging_init demo_mmu) as [[] s|s|]; [|done|done].
  destruct L as (kb & Hi & Ho & _ & Big & _).
  pose proof (sched_invariant (boot_kern s) [kb] 9 7 Hi ltac:(lia)) as T.
  pose proof (scheduler_init_law (boot_kern s) [kb] Hi) as L0.
  destruct (scheduler_init (boot_kern s)) as [[] k0|k0|] eqn:E0; [|done|done]. cbn [ends] in T, L0.
  destruct L0 as (l0 & b & I0 & _ & K0 & Ep & Ht).
  destruct (demo_steps k0 k0) as [[] k'|k'|] eqn:E1; [|done|done]. apply Nat.eqb_eq in E.
  destruct (T k') as (l & al & I & _); [|by exists s, k0, k', l, al].
  apply (demo_steps_reach k0 (b :: [kb])); [|apply I0| |done].
  - intros p Hp. destruct (Ht p Hp) as [[t Hx]|]; [|done]. cbn in Hx. by rewrite lookup_empty in Hx.
  - assert (Hb : forall lo hi, owns [kb] lo hi -> owns [b; kb] lo hi) by (intros lo hi; apply owns_cons).
    pose proof (owns_bounds _ _ _ _ Hi Ho) as [Bl Bh]. pose proof (inv_end _ _ Hi).
    rewrite Ep. change (page_directory (kmmu (boot_kern s))) with (page_directory s). split; try lia.
    + rewrite Ep. by apply Hb.
    + rewrite Ep. by apply (all_big_kept [kb] (hram (mheap s))).
    + repeat constructor; cbn [zero_program vaddr filesz memsz sdata]; try lia. apply Hb. eapply owns_sub; [exact Ho|lia|lia].
    + intros base end_ [= <- <-]. vm_compute. discriminate.
Defined.
