(* ===== verification/Elf.v ===== *)
(** The program loader, stage2/elf.c: it reads an ELF file from the file system
    into kernel memory, describes its loadable segments to the scheduler, and
    has the scheduler create a task from them or replace the current image.

    The segments go through memory as in the code: the loader stores them in an
    array of [user_segment_t] that it allocates, and the scheduler is given what
    that array holds when it is called; it only reads the array, and building an
    image leaves it unchanged.

    The file system is the class [FileStore]; the descriptor layer over FAT16 is
    an instance. *)
From S2P Require Import Prelude Mem HeapSpec Paging Sched Image.

Definition ELF_MAGIC : Z := 1179403647.
Definition PT_LOAD : Z := 1.

Definition ld16le (m : ram) (a : Z) : Z := ld8 m a + 256 * ld8 m (a + 1).

(** The fields of the file header and of a program header that are used. *)
Record Elf32_Ehdr := mkEhdr { magic : Z; entry : Z; phoff : Z; phnum : Z }.
Record Elf32_Phdr := mkPhdr { p_type : Z; p_offset : Z; p_vaddr : Z; p_filesz : Z; p_memsz : Z }.
Definition ehdr_at (m : ram) (a : Z) : Elf32_Ehdr :=
  mkEhdr (ld32 m a) (ld32 m (a + 24)) (ld32 m (a + 28)) (ld16le m (a + 44)).
Definition phdr_at (m : ram) (a : Z) : Elf32_Phdr :=
  mkPhdr (ld32 m a) (ld32 m (a + 4)) (ld32 m (a + 8)) (ld32 m (a + 16)) (ld32 m (a + 20)).

(** What the loader uses of the file layer: opening a path ([None] when null), the
    size of an open file, reading and closing. *)
Class FileStore (B : Type) := {
  store_open : option (list Z) -> M B Z;
  store_size : Z -> B -> Z;
  store_read : Z -> Z -> M B (option (list Z));
  store_close : Z -> M B Z
}.

(** ** The legacy direct loader *)

(** [for (i = 0; i < phnum; i++, ph++)]: every loadable segment is copied to its
    address and the rest of it cleared. *)
Fixpoint load_loop (n : nat) (ph file_data : Z) (m : ram) : ram :=
  match n with
  | O => m
  | S n' =>
      let p := phdr_at m ph in
      let m' :=
        if negb (p_type p =? PT_LOAD) then m
        else
          let m1 := memcpy (p_vaddr p) (u32 (file_data + p_offset p)) (p_filesz p) m in
          if p_filesz p <? p_memsz p
          then memset (u32 (p_vaddr p + p_filesz p)) 0 (p_memsz p - p_filesz p) m1 else m1 in
      load_loop n' (u32 (ph + 32)) file_data m'
  end.

Definition load_elf (file_data : Z) : M heap Z := fun h =>
  let eh := ehdr_at (hram h) file_data in
  if negb (magic eh =? ELF_MAGIC) then Ret (-1) h
  else Ret 0 (set_ram (load_loop (Z.to_nat (phnum eh)) (u32 (file_data + phoff eh)) file_data (hram h)) h).

(** ** Segments *)

Definition loadable (p : Elf32_Phdr) : bool := (p_type p =? PT_LOAD) && negb (p_vaddr p <? 16777216).
Definition segment_of (buf : Z) (p : Elf32_Phdr) : user_segment_t :=
  mkSegment (p_vaddr p) (p_filesz p) (p_memsz p) (u32 (buf + p_offset p)).

(** [segments[segment_count++] = ...] in memory. *)
Definition put_segment (a : Z) (s : user_segment_t) (m : ram) : ram :=
  st32 (a + 12) (sdata s) (st32 (a + 8) (memsz s) (st32 (a + 4) (filesz s) (st32 a (vaddr s) m))).

(** [segments[i]], as the scheduler reads it, and the first [n] elements. *)
Definition segment_at (m : ram) (a : Z) : user_segment_t :=
  mkSegment (ld32 m a) (ld32 m (a + 4)) (ld32 m (a + 8)) (ld32 m (a + 12)).
Fixpoint segments_at (n : nat) (a : Z) (m : ram) : list user_segment_t :=
  match n with
  | O => []
  | S n' => segment_at m a :: segments_at n' (a + 16) m
  end.

(** The loop over the program headers: it stores segments in the array at
    [segments], from index [count] on, and returns the new count. *)
Fixpoint segment_loop (n : nat) (ph buf segments count : Z) : M heap Z :=
  match n with
  | O => mret count
  | S n' =>
      p ← gets (fun h => phdr_at (hram h) ph);
      if negb (p_type p =? PT_LOAD) then segment_loop n' (u32 (ph + 32)) buf segments count
      else if p_vaddr p <? 16777216 then segment_loop n' (u32 (ph + 32)) buf segments count
      else
        write_ram (put_segment (segments + 16 * count) (segment_of buf p)) ;;
        segment_loop n' (u32 (ph + 32)) buf segments (count + 1)
  end.

Section Elf.
Context {B : Type} `{FdBackend B} `{FileStore B} `{KernelHeap}.
Abbreviation KM := (M (kern B)).
Definition on_files {A} (c : M B A) : KM A := zoom files set_files c.

(** The file at [buf]: [file_read] stores the bytes it returns. *)
Definition read_into (file size buf : Z) : KM unit :=
  bytes ← on_files (store_read file size);
  on_ram (write_bytes buf (default [] bytes)).

Definition spawn_elf (fuel : nat) (path : option (list Z)) (argc argv tty : Z) : KM Z :=
  file ← on_files (store_open path);
  if file <? 0 then mret (-1)
  else
    size ← gets (fun k => store_size file (files k));
    buf ← on_heap (malloc (u32 size));
    read_into file size buf ;;
    on_files (store_close file) ;;
    eh ← gets (fun k => ehdr_at (hram (mheap (kmmu k))) buf);
    if negb (magic eh =? ELF_MAGIC) then mret (-1)
    else
      segments ← on_heap (malloc (u32 (phnum eh * sizeof_user_segment_t)));
      segment_count ← on_heap (segment_loop (Z.to_nat (phnum eh)) (u32 (buf + phoff eh)) buf segments 0);
      if segment_count =? 0 then on_heap (free buf) ;; on_heap (free segments) ;; mret (-1)
      else
        segs ← gets (fun k => segments_at (Z.to_nat segment_count) segments (hram (mheap (kmmu k))));
        create_user_task_from_segments fuel (entry eh) segs argc argv tty.

Definition exec_elf (fuel : nat) (path : option (list Z)) (argc argv tty r : Z) : KM Z :=
  file ← on_files (store_open path);
  if file <? 0 then mret 0
  else
    size ← gets (fun k => store_size file (files k));
    buf ← on_heap (malloc (u32 size));
    if buf =? 0 then on_files (store_close file) ;; mret 0
    else
      read_into file size buf ;;
      on_files (store_close file) ;;
      eh ← gets (fun k => ehdr_at (hram (mheap (kmmu k))) buf);
      if negb (magic eh =? ELF_MAGIC) then on_heap (free buf) ;; mret 0
      else
        segments ← on_heap (malloc (u32 (phnum eh * sizeof_user_segment_t)));
        if segments =? 0 then on_heap (free buf) ;; mret 0
        else
          segment_count ← on_heap (segment_loop (Z.to_nat (phnum eh)) (u32 (buf + phoff eh)) buf segments 0);
          if segment_count =? 0 then on_heap (free buf) ;; on_heap (free segments) ;; mret 0
          else
            segs ← gets (fun k => segments_at (Z.to_nat segment_count) segments (hram (mheap (kmmu k))));
            new_sp ← scheduler_exec_replace fuel (entry eh) segs argc argv tty r;
            on_heap (free buf) ;;
            on_heap (free segments) ;;
            mret new_sp.
End Elf.

(** * The segments of a file in memory *)

Section Segments.
Context `{KernelHeap}.

Fixpoint phdrs (n : nat) (a : Z) (m : ram) : list Elf32_Phdr :=
  match n with
  | O => []
  | S n' => phdr_at m a :: phdrs n' (a + 32) m
  end.

Lemma phdr_at_same m m' a : same_on m m' a (a + 32) -> phdr_at m' a = phdr_at m a.
Proof.
  intros Hs. assert (E : forall o, 0 <= o <= 28 -> ld32 m' (a + o) = ld32 m (a + o)).
  { intros o Ho. apply ld32_ext. intros x Hx. symmetry. apply Hs. lia. }
  unfold phdr_at. pose proof (E 0 ltac:(lia)) as E0. rewrite !Z.add_0_r in E0.
  by rewrite E0, (E 4), (E 8), (E 16), (E 20) by lia.
Qed.

Lemma phdrs_same n : forall m m' a, same_on m m' a (a + 32 * Z.of_nat n) -> phdrs n a m' = phdrs n a m.
Proof.
  induction n as [|n IH]; intros m m' a Hs; cbn [phdrs]; [done|]. f_equal.
  - apply phdr_at_same. intros x Hx. apply Hs. lia.
  - apply IH. intros x Hx. apply Hs. lia.
Qed.

Lemma ld8_put_segment_other a s m x : x < a \/ a + 16 <= x -> ld8 (put_segment a s m) x = ld8 m x.
Proof. intros Hx. unfold put_segment. by rewrite !ld8_st32_other by lia. Qed.

(** An element stored is the element read. *)
Lemma segment_at_put a s m :
  in_u32 (vaddr s) -> in_u32 (filesz s) -> in_u32 (memsz s) -> in_u32 (sdata s) -> segment_at (put_segment a s m) a = s.
Proof.
  intros H1 H2 H3 H4. unfold segment_at, put_segment. destruct s as [v f z d]. cbn [vaddr filesz memsz sdata] in *.
  f_equal; repeat (rewrite ld32_st32_other by lia); by apply ld32_st32_eq.
Qed.

Lemma segment_at_same m m' a : same_on m m' a (a + 16) -> segment_at m' a = segment_at m a.
Proof.
  intros Hs. assert (E : forall o, 0 <= o <= 12 -> ld32 m' (a + o) = ld32 m (a + o)).
  { intros o Ho. apply ld32_ext. intros x Hx. symmetry. apply Hs. lia. }
  unfold segment_at. pose proof (E 0 ltac:(lia)) as E0. rewrite !Z.add_0_r in E0.
  by rewrite E0, (E 4), (E 8), (E 12) by lia.
Qed.

Lemma segments_at_same n : forall m m' a, same_on m m' a (a + 16 * Z.of_nat n) -> segments_at n a m' = segments_at n a m.
Proof.
  induction n as [|n IH]; intros m m' a Hs; cbn [segments_at]; [done|]. f_equal.
  - apply segment_at_same. intros x Hx. apply Hs. lia.
  - apply IH. intros x Hx. apply Hs. lia.
Qed.

(** The loop stores the segments of exactly the loadable headers, in order, after
    those already in the array, and changes nothing but the array. *)
Lemma segment_loop_law n : forall h sb al ph buf segments count,
  heap_inv h (sb :: al) -> segments = sb.1 + 12 -> 0 <= count -> 16 * (count + Z.of_nat n) <= sb.2 ->
  owns al ph (ph + 32 * Z.of_nat n) -> 0 <= ph -> ph + 32 * Z.of_nat n < 4294967296 ->
  let ps := List.filter loadable (phdrs n ph (hram h)) in
  exists h', segment_loop n ph buf segments count h = Ret (count + Z.of_nat (length ps)) h' /\
    heap_inv h' (sb :: al) /\ kept al (hram h) (hram h') /\
    same_on (hram h) (hram h') segments (segments + 16 * count) /\
    segments_at (length ps) (segments + 16 * count) (hram h') = map (segment_of buf) ps.
Proof.
  induction n as [|n IH]; intros h sb al ph buf segments count Hi Hs Hc Hsz Ho Hp0 Hp1.
  { exists h. split; [cbn; by rewrite Z.add_0_r|]. split; [done|]. split; [by apply Forall_forall|]. done. }
  cbn [segment_loop phdrs List.filter]. unfold loadable at 1 4 7. rewrite (bind_ret _ _ h (phdr_at (hram h) ph) h) by done.
  rewrite u32_small by lia.
  assert (Ho' : owns al (ph + 32) (ph + 32 + 32 * Z.of_nat n)) by (eapply owns_sub; [exact Ho|lia|lia]).
  destruct (Z.eqb_spec (p_type (phdr_at (hram h) ph)) PT_LOAD); cbn [negb andb];
    [|by apply (IH h sb al); try done; lia].
  destruct (Z.ltb_spec (p_vaddr (phdr_at (hram h) ph)) 16777216); cbn [negb];
    [by apply (IH h sb al); try done; lia|].
  pose proof (inv_ram _ _ Hi) as R. set (s := segment_of buf (phdr_at (hram h) ph)).
  set (h1 := set_ram (put_segment (segments + 16 * count) s (hram h)) h).
  assert (Hw : owns [sb] (segments + 16 * count) (segments + 16 * count + 16)).
  { exists sb. split; [set_solver|]. unfold bend, sizeof_block_header_t. lia. }
  destruct (write_owned h [sb] al _ _ (hram h1) Hi Hw) as [Hi1 K1].
  { unfold h1, put_segment. cbn. auto with mboot. }
  { intros x Hx. unfold h1. cbn. rewrite ld8_put_segment_other by lia. done. }
  assert (Eps : phdrs n (ph + 32) (hram h1) = phdrs n (ph + 32) (hram h)) by (apply phdrs_same; by eapply kept_owned).
  destruct (IH h1 sb al (ph + 32) buf segments (count + 1)) as (h2 & E & Hi2 & K2 & S2 & A2); try done; try lia.
  rewrite Eps in E, A2. exists h2. rewrite (bind_ret _ _ h tt h1) by done. rewrite E. cbn [length map segments_at].
  split; [f_equal; lia|]. split; [done|]. split; [by eapply kept_trans|]. split.
  { intros x Hx. rewrite <- S2 by lia. symmetry. apply ld8_put_segment_other. lia. }
  replace (segments + 16 * count + 16) with (segments + 16 * (count + 1)) by lia. rewrite A2. f_equal.
  rewrite (segment_at_same (hram h1)) by (intros x Hx; apply S2; lia).
  apply segment_at_put; try apply ld32_range; try done. apply u32_range.
Qed.

(** A header the loader can trust, for a file of [size] bytes. *)
Record phdr_ok (size : Z) (p : Elf32_Phdr) : Prop := {
  po_range : 0 <= p_vaddr p /\ p_vaddr p + p_memsz p <= 4294959104;
  po_sizes : 0 <= p_filesz p <= p_memsz p;
  po_file : 0 <= p_offset p /\ p_offset p + p_filesz p <= size;
}.

(** The segments of trusted headers are ones whose image can be built. *)
Lemma segments_ok al fuel buf size ps :
  owns al buf (buf + size) -> 0 <= buf -> buf + size < 4294967296 -> 0 <= size -> (Z.to_nat size < fuel)%nat ->
  Forall (phdr_ok size) ps -> Forall (segment_ok al fuel) (map (segment_of buf) ps).
Proof.
  intros Ho Hb Hs Hz Hf Hp. apply Forall_map. eapply Forall_impl; [exact Hp|].
  intros p [R [S1 S2] [F1 F2]].
  assert (E : u32 (buf + p_offset p) = buf + p_offset p) by (apply u32_small; lia).
  split; cbn [segment_of vaddr filesz memsz sdata]; rewrite ?E; [lia|lia| |lia|lia].
  eapply owns_sub; [exact Ho|lia|lia].
Qed.

(** The byte at [v] in the image of the segments is the byte of the file. *)
Fixpoint file_byte (m : ram) (buf : Z) (ps : list Elf32_Phdr) (v : Z) : option Z :=
  match ps with
  | [] => None
  | p :: ps' =>
      match file_byte m buf ps' v with
      | Some b => Some b
      | None => if (p_vaddr p <=? v) && (v <? p_vaddr p + p_filesz p)
                then Some (ld8 m (buf + (p_offset p + (v - p_vaddr p)))) else None
      end
  end.

Lemma image_byte_file m buf size ps v :
  0 <= buf -> buf + size < 4294967296 -> Forall (phdr_ok size) ps ->
  image_byte m (map (segment_of buf) ps) v = file_byte m buf ps v.
Proof.
  intros Hb Hs. induction 1 as [|p ps [_ S F] Hps IH]; [done|]. cbn. rewrite IH.
  destruct (file_byte m buf ps v); [done|]. rewrite u32_small by lia.
  by rewrite Z.add_assoc.
Qed.

Lemma file_byte_same m m' buf size ps v :
  same_on m m' buf (buf + size) -> Forall (phdr_ok size) ps -> file_byte m' buf ps v = file_byte m buf ps v.
Proof.
  intros Hs. induction 1 as [|p ps [_ S F] Hps IH]; [done|]. cbn. rewrite IH.
  destruct (file_byte m buf ps v); [done|]. destruct (Z.leb_spec (p_vaddr p) v); [|done].
  destruct (Z.ltb_spec v (p_vaddr p + p_filesz p)); [|done]. cbn [andb]. f_equal. symmetry. apply Hs. lia.
Qed.

(** C12: what the loader puts in the address space is the file.  For an ELF file
    in memory whose loadable headers stay inside it, the loop over the headers
    counts the loadable ones and stores exactly their segments, in order, in the
    array; and when the scheduler then builds the image of the segments that it
    reads from the array (in any later memory in which the file and the array are
    unchanged), every address of the image holds the byte that the last header
    covering it gives it in the file, or zero, and the array still holds the
    segments. *)
Theorem elf_image_is_file fuel h sb al buf size off n segments :
  heap_inv h (sb :: al) -> segments = sb.1 + 12 -> 16 * Z.of_nat n <= sb.2 ->
  owns al buf (buf + size) -> 0 <= buf -> buf + size < 4294967296 -> (Z.to_nat size < fuel)%nat ->
  0 <= off -> off + 32 * Z.of_nat n <= size ->
  let ps := List.filter loadable (phdrs n (buf + off) (hram h)) in
  Forall (phdr_ok size) ps -> ps <> [] ->
  exists h1, segment_loop n (buf + off) buf segments 0 h = Ret (Z.of_nat (length ps)) h1 /\
    heap_inv h1 (sb :: al) /\ kept al (hram h) (hram h1) /\
    segments_at (length ps) segments (hram h1) = map (segment_of buf) ps /\
    forall h2 ds al2 dir base end_,
      heap_inv h2 (ds ++ al2) -> dir_ok ds (hram h2) dir ->
      owns al2 buf (buf + size) -> same_on (hram h1) (hram h2) buf (buf + size) ->
      owns al2 segments (segments + 16 * Z.of_nat (length ps)) ->
      same_on (hram h1) (hram h2) segments (segments + 16 * Z.of_nat (length ps)) ->
      let segs := segments_at (length ps) segments (hram h2) in
      image_span segs 4294967295 0 = (base, end_) -> base < end_ -> (end_ - base) / 4096 * 4 <= 1000000 ->
      ends (build_image fuel dir base end_ segs h2) (fun _ h3 =>
        (forall v, base <= v < end_ -> vld8 (hram h3) dir v = default 0 (file_byte (hram h) buf ps v)) /\
        segments_at (length ps) segments (hram h3) = segs).
Proof.
  intros Hi Hs Hsz Ho Hb Hbs Hf Hoff Hps ps Hok Hne.
  destruct (segment_loop_law n h sb al (buf + off) buf segments 0) as (h1 & E & Hi1 & K1 & _ & A1); try done; try lia.
  { eapply owns_sub; [exact Ho|lia|lia]. }
  fold ps in E, A1. rewrite Z.mul_0_r, Z.add_0_r in A1.
  exists h1. split; [exact E|]. split; [done|]. split; [done|]. split; [done|].
  intros h2 ds al2 dir base end_ Hi2 D Ho2 Hsame Oseg Sseg segs Esp Hbe Hc.
  assert (Esegs : segs = map (segment_of buf) ps) by (unfold segs; rewrite <- A1; by apply segments_at_same).
  destruct (span_image_law fuel h2 ds al2 dir segs base end_) as (B1 & B2 & B3 & B4 & L); try done.
  { rewrite Esegs. apply (segments_ok al2 fuel buf size); try done. lia. }
  { rewrite Esegs. by destruct ps. }
  eapply ends_mono; [exact L|]. cbv beta. intros pages h3 (ab & ds' & pb & pgs & Hlen & I). split.
  - intros v Hv.
    destruct (image_address _ _ _ _ end_ _ _ _ _ _ _ _ v I) as (i & p & _ & _ & _ & T & _ & Hbyte); try done.
    unfold vld8. rewrite u32_small, T, Hbyte by lia. f_equal. rewrite Esegs, (image_byte_file _ _ size) by done.
    rewrite (file_byte_same (hram h1) _ buf size) by done. apply (file_byte_same _ _ buf size); [|done].
    by eapply kept_owned.
  - apply segments_at_same. eapply kept_owned; [apply I|done].
Qed.
End Segments.

(** * A small file, loaded and started *)

(** A store that holds one file. *)
#[local] Instance one_file : FileStore (list Z) := {|
  store_open _ := mret 0;
  store_size _ s := Z.of_nat (length s);
  store_read _ n := gets (fun s => Some (take (Z.to_nat n) s));
  store_close _ := mret 0
|}.
#[local] Instance no_fds : FdBackend (list Z) := {|
  vfs_init_fds _ := []; vfs_bind_tty f _ := f; vfs_fork_fds f b := (f, b); vfs_exit_fds f b := (f, b)
|}.

Definition word_bytes (w : Z) : list Z := [u8 w; u8 (Z.shiftr w 8); u8 (Z.shiftr w 16); u8 (Z.shiftr w 24)].

(** A header, a segment below 16 MiB that is skipped, and one of two bytes (and
    two more that are not in the file) at 16 MiB. *)
Definition demo_file : list Z :=
  concat (map word_bytes ([ELF_MAGIC; 0; 0; 0; 0; 0; 16777217; 52; 0; 0; 0; 2; 0]
    ++ [1; 0; 4194304; 0; 16; 16; 0; 0] ++ [1; 116; 16777216; 0; 2; 4; 0; 0])) ++ [170; 187].

(** After boot, [spawn_elf] creates PID 1: the saved [eip] is the entry point, and
    the bytes of the segment are at its address. *)
Example spawn_elf_runs :
  match paging_init demo_mmu with
  | Ret _ s =>
      match (scheduler_init ;; spawn_elf 200 None 0 0 (-1)) (mkKern s ∅ 0 0 0 demo_file) with
      | Ret p k =>
          let t := task (next (task (idle_task k) k)) k in
          (p, state t, ld32 (hram (mheap (kmmu k))) (esp t + 36), vread 5 (hram (mheap (kmmu k))) (tcr3 t) 16777216)
      | _ => (0, TASK_EXITED, 0, [])
      end
  | _ => (0, TASK_EXITED, 0, [])
  end = (1, TASK_READY, 16777217, [170; 187; 0; 0; 0]).
Proof. vm_compute. reflexivity. Qed.

(** The same file in memory, with room for two segments, and a new directory. *)
Definition demo_elf : res heap (Z * Z * Z) :=
  match paging_init demo_mmu with
  | Ret _ s =>
      (dir ← paging_create_directory (page_directory s);
       buf ← malloc 118;
       write_ram (write_bytes buf demo_file) ;;
       segments ← malloc 32;
       mret (dir, buf, segments)) (mheap s)
  | Halted s => Halted (mheap s)
  | NoFuel => NoFuel
  end.

Definition phdr_okb (size : Z) (p : Elf32_Phdr) : bool :=
  (0 <=? p_vaddr p) && (p_vaddr p + p_memsz p <=? 4294959104) && (0 <=? p_filesz p) && (p_filesz p <=? p_memsz p)
  && (0 <=? p_offset p) && (p_offset p + p_filesz p <=? size).

Lemma phdr_okb_ok size ps : forallb (phdr_okb size) ps = true -> Forall (phdr_ok size) ps.
Proof.
  intros Hf. apply Forall_forall. intros p Hp. rewrite forallb_forall in Hf.
  specialize (Hf p ltac:(by apply list_elem_of_In)). unfold phdr_okb in Hf. split; lia.
Qed.

Lemma demo_elf_law :
  ends demo_elf (fun '(dir, buf, segments) h => exists sb db al, heap_inv h (sb :: db :: al) /\ segments = sb.1 + 12 /\
    32 <= sb.2 /\ dir_ok [db] (hram h) dir /\ owns al buf (buf + 118) /\ 0 <= buf /\ buf + 118 < 4294967296).
Proof.
  unfold demo_elf. pose proof (init_law demo_mmu [] demo_mmu_inv) as L.
  destruct (paging_init demo_mmu) as [[] s|s|]; [|done|done]. destruct L as (kb & Hi & Hok & _ & B & _).
  eapply ends_seq; [by apply (create_directory_law _ [kb])|]. cbv beta. intros dir h1 (db & Hi1 & D1 & _).
  apply ends_bind. destruct (malloc_law h1 [db; kb] 118 Hi1 ltac:(lia)) as [(p & sz & h2 & E & Hsz & Hi2 & K2 & _)|E];
    rewrite E; [|done]. cbn [ends].
  destruct (inv_bounds _ _ (p - 12, sz) Hi2 ltac:(set_solver)) as (B1 & B2 & B3).
  pose proof (inv_end _ _ Hi2). unfold bend, sizeof_block_header_t in B3. simpl in B1, B3.
  assert (Hob : owns [(p - 12, sz)] p (p + 118)).
  { exists (p - 12, sz). split; [set_solver|]. unfold bend, sizeof_block_header_t. simpl. lia. }
  assert (Hlen : length demo_file = 118%nat) by reflexivity.
  apply ends_bind. eapply (write_ram_law h2 [(p - 12, sz)] [db; kb]); [done|exact Hob| | |].
  - pose proof (inv_ram _ _ Hi2) as R. revert R. generalize (hram h2), p, demo_file.
    intros m a l. revert m a. induction l; simpl; intros; auto with mboot.
  - intros x Hx. rewrite ld8_write_bytes_other by (rewrite Hlen; lia). done.
  - intros Hi3 K3. apply ends_bind.
    destruct (malloc_law _ _ 32 Hi3 ltac:(lia)) as [(q & sz2 & h3 & E3 & Hsz3 & Hi4 & K4 & _)|E3]; rewrite E3; [|done].
    cbn [ends]. apply ends_ret. exists (q - 12, sz2), db, [(p - 12, sz); kb].
    split; [eapply inv_perm; [exact Hi4|]; simpl; apply perm_skip, perm_swap|].
    simpl. split; [lia|]. split; [lia|].
    split; [|split; [by apply (owns_app_l [(p - 12, sz)] [kb])|lia]].
    apply (kept_app [db] [kb]) in K2 as [K2 _]. apply (kept_app [db] [kb]) in K3 as [K3 _].
    apply (kept_app [(p - 12, sz)] [db; kb]) in K4 as [_ K4]. apply (kept_app [db] [kb]) in K4 as [K4 _].
    eapply dir_ok_same; [exact D1| |done].
    eapply kept_owned; [eapply kept_trans; [exact K2|eapply kept_trans; [exact K3|exact K4]]|apply D1].
Qed.

#[export] Instance segment_eq_dec : EqDecision user_segment_t.
Proof. solve_decision. Defined.

(** The small file, loaded: one segment, found in the array, and the bytes of the
    file (then zeros) at its address. *)
Lemma elf_image_is_file_witness : exists h dir buf segments h1,
  segment_loop 2 (buf + 52) buf segments 0 h = Ret 1 h1 /\
  let segs := segments_at 1 segments (hram h1) in
  segs = [mkSegment 16777216 2 4 (buf + 116)] /\
  ends (build_image 200 dir 16777216 16781312 segs h1) (fun _ h3 =>
    vld8 (hram h3) dir 16777216 = 170 /\ vld8 (hram h3) dir 16777217 = 187 /\ vld8 (hram h3) dir 16777218 = 0).
Proof.
  assert (E : match demo_elf with
    | Ret (_, buf, _) h =>
        let ps := List.filter loadable (phdrs 2 (buf + 52) (hram h)) in
        forallb (phdr_okb 118) ps && (length ps =? 1)%nat
        && bool_decide (map (segment_of buf) ps = [mkSegment 16777216 2 4 (buf + 116)])
        && bool_decide (map (fun v => default 0 (file_byte (hram h) buf ps v)) [16777216; 16777217; 16777218] = [170; 187; 0])
    | _ => false end = true) by (vm_compute; reflexivity).
  pose proof demo_elf_law as L. destruct demo_elf as [[[dir buf] segments] h|h|]; [|done|done].
  destruct L as (sb & db & al & Hi & Hs & Hz & D & Ho & Hb0 & Hb1). cbv zeta in E.
  apply andb_true_iff in E as [[[E1 E2%Nat.eqb_eq]%andb_true_iff E3%bool_decide_eq_true]%andb_true_iff E4%bool_decide_eq_true].
  assert (Hne : List.filter loadable (phdrs 2 (buf + 52) (hram h)) <> []) by (intros E5; by rewrite E5 in E2).
  destruct (elf_image_is_file 200 h sb (db :: al) buf 118 52 2 segments Hi Hs ltac:(lia) ltac:(by apply (owns_app_r [db]))
    Hb0 Hb1 ltac:(lia) ltac:(lia) ltac:(lia) (phdr_okb_ok _ _ E1) Hne) as (h1 & El & Hi1 & K & A & Hall).
  rewrite E2, E3 in *. exists h, dir, buf, segments, h1. split; [exact El|]. split; [exact A|].
  apply (kept_app [db] al) in K as [Kd Ka].
  assert (D1 : dir_ok [db] (hram h1) dir) by (eapply dir_ok_same; [exact D| |done]; eapply kept_owned; [exact Kd|apply D]).
  eapply ends_mono; [apply (Hall h1 [db] (sb :: al) dir 16777216 16781312)|].
  - eapply inv_perm; [exact Hi1|]. apply perm_swap.
  - exact D1.
  - by apply (owns_app_r [sb]).
  - by intros x.
  - exists sb. split; [set_solver|]. unfold bend, sizeof_block_header_t. lia.
  - by intros x.
  - rewrite A. reflexivity.
  - lia.
  - vm_compute. discriminate.
  - cbv beta. intros _ h3 [Hv _]. injection E4 as F1 F2 F3.
    split; [rewrite <- F1; apply Hv; lia|]. split; [rewrite <- F2; apply Hv; lia|rewrite <- F3; apply Hv; lia].
Defined.
