(* ===== verification/Tty.v ===== *)
(** Terminals: stage2/dev/tty.c, stage2/dev/vga.c and stage2/dev/keyboard.c.

    The text screen is the array of cells at [VGA_BUF] and the bytes written to
    the CRT ports, newest first. Terminal objects live in a store keyed by the
    address [kmalloc] gave them, because [tty.c] compares those pointers and
    uses them as wait objects; objects made runnable by [scheduler_wake] are
    recorded in [woken_ttys]. Every store outside an array, whichever array of
    the display, of a terminal or of the keyboard it is, sets [wild]. A [char] is
    a number between -128 and 127. As for sockets, a call that blocks runs the
    next element of its schedule. *)
From S2P Require Import Prelude Mem HeapSpec Utils Sched.

(** ** The VGA text screen *)

Definition VGA_WIDTH : Z := 80.
Definition VGA_HEIGHT : Z := 25.
Definition VGA_WHITE_ON_BLACK : Z := Z.shiftl 15 8.
Definition VGA_REG_DEST : Z := 980.
Definition VGA_REG_DATA : Z := 981.
Definition TTY_CELL_COUNT : Z := VGA_WIDTH * VGA_HEIGHT.

(** [(uint16_t)c | VGA_WHITE_ON_BLACK]. *)
Definition cell_of (c : Z) : Z := Z.lor (u16 c) VGA_WHITE_ON_BLACK.
Definition blank : Z := cell_of 32.

(** [a[i] = v], with whether [i] is an index of [a]. *)
Definition store_at (i v : Z) (a : list Z) : list Z * bool :=
  if (0 <=? i) && (i <? Z.of_nat (length a)) then (<[Z.to_nat i := v]> a, true) else (a, false).

Record display := mkDisplay { text : list Z; ports : list (Z * Z); wild : bool }.

Definition outb (port v : Z) (d : display) : display :=
  mkDisplay (text d) ((port, u8 v) :: ports d) (wild d).

Definition vga_store (i v : Z) (d : display) : display :=
  let '(t, ok) := store_at i v (text d) in mkDisplay t (ports d) (wild d || negb ok).

Definition vga_move_cursor (x y : Z) (d : display) : display :=
  let pos := u16 (y * VGA_WIDTH + x) in
  outb VGA_REG_DATA (Z.land (Z.shiftr pos 8) 255) (outb VGA_REG_DEST 14
    (outb VGA_REG_DATA (Z.land pos 255) (outb VGA_REG_DEST 15 d))).

Definition vga_put_char (x y c : Z) (d : display) : display :=
  vga_store (y * VGA_WIDTH + x) (cell_of c) d.
Definition vga_clear_char (x y : Z) (d : display) : display :=
  vga_store (y * VGA_WIDTH + x) blank d.
Definition vga_clear_row (row : Z) (d : display) : display :=
  foldl (fun d x => vga_store (row * VGA_WIDTH + x) blank d) d (seqZ 0 VGA_WIDTH).
Definition vga_clear_screen (d : display) : display :=
  foldl (fun d i => vga_store i blank d) d (seqZ 0 (VGA_WIDTH * VGA_HEIGHT)).
(** [memcpy] of the whole screen: both arrays must be as long as it. *)
Definition vga_draw_buffer (cells : list Z) (d : display) : display :=
  let n := Z.to_nat (VGA_WIDTH * VGA_HEIGHT) in
  let ok := (n <=? length cells)%nat && (n <=? length (text d))%nat in
  mkDisplay (take n cells ++ drop n (text d)) (ports d) (wild d || negb ok).
Definition vga_get_entry (x y : Z) (d : display) : Z :=
  default 0 (text d !! Z.to_nat (y * VGA_WIDTH + x)).
Definition vga_get_char (x y : Z) (d : display) : Z := i8 (Z.land (vga_get_entry x y d) 255).

(** ** Terminal objects *)

Definition TTY_INPUT_SIZE : Z := 256.
Definition TTY_LINE_SIZE : Z := 256.
Definition sizeof_tty_t : Z := 4532.

Record tty_t := mkTty {
  cells : list Z; cur_x : Z; cur_y : Z; input : list Z; input_head : Z; input_tail : Z;
  line : list Z; line_fill : Z; line_pos : Z
}.

(** What [kmalloc] returns: cleared memory. *)
Definition zero_tty : tty_t :=
  mkTty (replicate (Z.to_nat TTY_CELL_COUNT) 0) 0 0 (replicate 256 0) 0 0 (replicate 256 0) 0 0.

Definition with_cells (t : tty_t) (c : list Z) : tty_t :=
  mkTty c (cur_x t) (cur_y t) (input t) (input_head t) (input_tail t) (line t) (line_fill t) (line_pos t).
Definition with_cursor (t : tty_t) (x y : Z) : tty_t :=
  mkTty (cells t) x y (input t) (input_head t) (input_tail t) (line t) (line_fill t) (line_pos t).
Definition with_input (t : tty_t) (b : list Z) (h tl : Z) : tty_t :=
  mkTty (cells t) (cur_x t) (cur_y t) b h tl (line t) (line_fill t) (line_pos t).
Definition with_line (t : tty_t) (b : list Z) (f p : Z) : tty_t :=
  mkTty (cells t) (cur_x t) (cur_y t) (input t) (input_head t) (input_tail t) b f p.

Record console := mkConsole {
  disp : display; ttys : list Z; terms : gmap Z tty_t; active_tty : Z; tty_ready : bool;
  early_x : Z; early_y : Z; woken_ttys : list Z
}.

Definition on_disp (f : display -> display) (s : console) : console :=
  mkConsole (f (disp s)) (ttys s) (terms s) (active_tty s) (tty_ready s) (early_x s) (early_y s) (woken_ttys s).
Definition set_term (p : Z) (t : tty_t) (s : console) : console :=
  mkConsole (disp s) (ttys s) (<[p := t]> (terms s)) (active_tty s) (tty_ready s) (early_x s) (early_y s) (woken_ttys s).
Definition set_ttys (l : list Z) (s : console) : console :=
  mkConsole (disp s) l (terms s) (active_tty s) (tty_ready s) (early_x s) (early_y s) (woken_ttys s).
Definition set_active (i : Z) (s : console) : console :=
  mkConsole (disp s) (ttys s) (terms s) i (tty_ready s) (early_x s) (early_y s) (woken_ttys s).
Definition set_early (x y : Z) (s : console) : console :=
  mkConsole (disp s) (ttys s) (terms s) (active_tty s) (tty_ready s) x y (woken_ttys s).
Definition set_ready (s : console) : console :=
  mkConsole (disp s) (ttys s) (terms s) 0 true 0 0 (woken_ttys s).
Definition wake_tty (p : Z) (s : console) : console :=
  mkConsole (disp s) (ttys s) (terms s) (active_tty s) (tty_ready s) (early_x s) (early_y s) (woken_ttys s ++ [p]).

(** Records a store outside an array of a terminal or of the keyboard. *)
Definition stray (ok : bool) (s : console) : console :=
  if ok then s else on_disp (fun d => mkDisplay (text d) (ports d) true) s.

(** [ttys[i]]; 0 is the null pointer. *)
Definition tty_ptr (i : Z) (s : console) : Z := default 0 (ttys s !! Z.to_nat i).
Definition term (p : Z) (s : console) : tty_t := default zero_tty (terms s !! p).
Definition upd_term (p : Z) (f : tty_t -> tty_t) (s : console) : console := set_term p (f (term p s)) s.

Definition tty_clear (t : tty_t) : tty_t :=
  mkTty (replicate (Z.to_nat TTY_CELL_COUNT) blank) 0 0 (input t) 0 0 (line t) 0 0.

Definition tty_render (tty_id : Z) (s : console) : console :=
  let p := tty_ptr tty_id s in
  if p =? 0 then s
  else on_disp (fun d => vga_move_cursor (cur_x (term p s)) (cur_y (term p s))
                           (vga_draw_buffer (cells (term p s)) d)) s.

Definition tty_put_cell (p x y c : Z) (s : console) : console :=
  let '(cs, ok) := store_at (y * VGA_WIDTH + x) (cell_of c) (cells (term p s)) in
  let s := stray ok (upd_term p (fun t => with_cells t cs) s) in
  if p =? tty_ptr (active_tty s) s then on_disp (vga_put_char x y c) s else s.

(** [memcpy] of row [y] over row [y - 1], with whether all rows so far were
    inside the array. *)
Definition copy_row (a : list Z * bool) (y : nat) : list Z * bool :=
  let '(cs, ok) := a in
  (take ((y - 1) * 80) cs ++ take 80 (drop (y * 80) cs) ++ drop (y * 80) cs,
   ok && (y * 80 + 80 <=? length cs)%nat).

(** [cells[(VGA_HEIGHT - 1) * VGA_WIDTH + x] = ' ']. *)
Definition blank_last (a : list Z * bool) (x : Z) : list Z * bool :=
  let '(cs, ok) := a in
  let '(cs', ok') := store_at ((VGA_HEIGHT - 1) * VGA_WIDTH + x) blank cs in (cs', ok && ok').

Definition scroll_cells (cs : list Z) : list Z * bool :=
  foldl blank_last (foldl copy_row (cs, true) (seq 1 24)) (seqZ 0 VGA_WIDTH).

Definition tty_scroll (p : Z) (s : console) : console :=
  let '(cs, ok) := scroll_cells (cells (term p s)) in
  let s := stray ok (upd_term p (fun t => with_cursor (with_cells t cs) (cur_x t) (VGA_HEIGHT - 1)) s) in
  if p =? tty_ptr (active_tty s) s then tty_render (active_tty s) s else s.

Definition early_scroll (s : console) : console :=
  let copy d y := foldl (fun d x => vga_put_char x (y - 1) (vga_get_char x y d) d) d (seqZ 0 VGA_WIDTH) in
  let s := on_disp (fun d => foldl copy d (seqZ 1 (VGA_HEIGHT - 1))) s in
  let s := on_disp (fun d => foldl (fun d x => vga_clear_char x (VGA_HEIGHT - 1) d) d (seqZ 0 VGA_WIDTH)) s in
  set_early (early_x s) (VGA_HEIGHT - 1) s.

Definition tty_early_write (c : Z) (s : console) : console :=
  let x := early_x s in
  let y := early_y s in
  let s :=
    if c =? 10 then set_early 0 (y + 1) s
    else if c =? 13 then set_early 0 y s
    else if c =? 8 then
      if 0 <? x then on_disp (vga_clear_char (x - 1) y) (set_early (x - 1) y s) else s
    else if c =? 9 then set_early (Z.land (x + 8) (Z.lnot 7)) y s
    else set_early (x + 1) y (on_disp (vga_put_char x y c) s) in
  let s := if VGA_WIDTH <=? early_x s then set_early 0 (early_y s + 1) s else s in
  let s := if VGA_HEIGHT <=? early_y s then early_scroll s else s in
  on_disp (vga_move_cursor (early_x s) (early_y s)) s.

(** ** Input *)

(** With whether the store was inside [input]. *)
Definition tty_push_input (t : tty_t) (c : Z) : tty_t * bool :=
  let next_head := u16 ((input_head t + 1) mod TTY_INPUT_SIZE) in
  if next_head =? input_tail t then (t, true)
  else
    let '(b, ok) := store_at (input_head t) c (input t) in
    (with_input t b next_head (input_tail t), ok).

Definition tty_has_input (t : tty_t) : bool := negb (input_head t =? input_tail t).

Abbreviation schedule := (list (console -> console)).

(** The next character and the rest of the schedule. *)
Fixpoint tty_pop_input (env : schedule) (p : Z) (s : console) : res console (Z * schedule) :=
  if tty_has_input (term p s) then
    let t := term p s in
    Ret (default 0 (input t !! Z.to_nat (input_tail t)), env)
      (set_term p (with_input t (input t) (input_head t) (u16 ((input_tail t + 1) mod TTY_INPUT_SIZE))) s)
  else match env with
       | [] => NoFuel
       | e :: env' => tty_pop_input env' p (e s)
       end.

Definition tty_current (s : console) : Z := active_tty s.

Definition tty_switch (id : Z) (s : console) : console :=
  if negb (tty_valid id) || (id =? active_tty s) then s
  else tty_render id (set_active id s).

(** ** Output *)

(** The switch of [tty_write] on the character. *)
Definition tty_putc (tty_id p c : Z) (s : console) : console :=
  let x := cur_x (term p s) in
  let y := cur_y (term p s) in
  let move x y := upd_term p (fun t => with_cursor t x y) in
  if c =? 10 then move 0 (y + 1) s
  else if c =? 13 then move 0 y s
  else if c =? 8 then
    if 0 <? x then tty_put_cell p (x - 1) y 32 (move (x - 1) y s) else s
  else if c =? 9 then move (Z.land (x + 8) (Z.lnot 7)) y s
  else if c =? 12 then
    let s := upd_term p tty_clear s in
    if tty_id =? active_tty s then tty_render (active_tty s) s else s
  else move (x + 1) y (tty_put_cell p x y c s).

(** The cursor past the last column goes to the next row. *)
Definition tty_wrap (p : Z) (s : console) : console :=
  if VGA_WIDTH <=? cur_x (term p s)
  then upd_term p (fun t => with_cursor t 0 (cur_y t + 1)) s else s.

Definition tty_write (tty_id c : Z) (s : console) : console :=
  if negb (tty_ready s) || negb (tty_valid tty_id) || (tty_ptr tty_id s =? 0) then tty_early_write c s
  else
    let p := tty_ptr tty_id s in
    let s := tty_wrap p (tty_putc tty_id p c s) in
    let s := if VGA_HEIGHT <=? cur_y (term p s) then tty_scroll p s else s in
    if tty_id =? active_tty s then on_disp (vga_move_cursor (cur_x (term p s)) (cur_y (term p s))) s else s.

(** [None] is a null pointer. *)
Definition tty_write_buf (id : Z) (buf : option (list Z)) (s : console) : Z * console :=
  match buf with
  | Some bs =>
      if negb (tty_valid id) then (-1, s)
      else (i32 (Z.of_nat (length bs)), foldl (fun s c => tty_write id c s) s bs)
  | None => (-1, s)
  end.

(** ** Line-oriented reading *)

(** [line[line_fill++] = c]. *)
Definition tty_append (p c : Z) (s : console) : console :=
  let t := term p s in
  let '(l, ok) := store_at (line_fill t) c (line t) in
  stray ok (set_term p (with_line t l (line_fill t + 1) (line_pos t)) s).

(** Whether the line is complete, and the state after the character. *)
Definition tty_edit (tty_id p c : Z) (s : console) : bool * console :=
  let c := if c =? 13 then 10 else c in
  let t := term p s in
  if (c =? 8) || (c =? 127) then
    if 0 <? line_fill t then
      (false, tty_write tty_id 8 (tty_write tty_id 32 (tty_write tty_id 8
        (set_term p (with_line t (line t) (line_fill t - 1) (line_pos t)) s))))
    else (false, s)
  else if c =? 10 then
    let s := if line_fill t <? TTY_LINE_SIZE then tty_append p 10 s else s in
    (true, tty_write tty_id 10 (tty_write tty_id 13 s))
  else if (32 <=? c) && (c <? 127) then
    if line_fill t <? TTY_LINE_SIZE - 1
    then (false, tty_write tty_id c (tty_append p c s))
    else (false, s)
  else (false, s).

(** The loop that collects a line; [fuel] bounds the characters it takes. *)
Fixpoint tty_collect (fuel : nat) (env : schedule) (tty_id p : Z) (s : console) : res console schedule :=
  match fuel with
  | O => NoFuel
  | S fuel' =>
      match tty_pop_input env p s with
      | Ret (c, env') s =>
          let '(complete, s) := tty_edit tty_id p c s in
          if complete then Ret env' s else tty_collect fuel' env' tty_id p s
      | Halted s => Halted s
      | NoFuel => NoFuel
      end
  end.

(** [rounds] bounds the depth of the recursion of [tty_read] on itself; [None]
    is the return value -1, otherwise the characters stored in [dst]. *)
Fixpoint tty_read (rounds fuel : nat) (env : schedule) (tty_id size : Z) (dst_ok : bool) (s : console) :
    res console (option (list Z)) :=
  match rounds with
  | O => NoFuel
  | S rounds' =>
      if negb dst_ok || negb (tty_valid tty_id) then Ret None s
      else
        let p := tty_ptr tty_id s in
        let t := term p s in
        if p =? 0 then Ret None s
        else if line_pos t <? line_fill t then
          let left := line_fill t - line_pos t in
          let n := if left <? size then left else size in
          Ret (Some (take (Z.to_nat n) (drop (Z.to_nat (line_pos t)) (line t))))
            (set_term p (with_line t (line t) (line_fill t) (line_pos t + n)) s)
        else
          match tty_collect fuel env tty_id p (set_term p (with_line t (line t) 0 0) s) with
          | Ret env' s => tty_read rounds' fuel env' tty_id size dst_ok s
          | Halted s => Halted s
          | NoFuel => NoFuel
          end
  end.

Definition tty_handle_key (scancode ascii : Z) (s : console) : console :=
  if negb (tty_ready s) then s
  else if (59 <=? scancode) && (scancode <=? 62) then tty_switch (scancode - 59) s
  else if negb (ascii =? 0) then
    let p := tty_ptr (active_tty s) s in
    let '(t, ok) := tty_push_input (term p s) ascii in
    wake_tty p (stray ok (set_term p t s))
  else s.

(** ** Initialisation *)

Section Init.
Context `{KernelHeap}.

(** The loop of [tty_init] from [i]; [false] when an allocation fails. *)
Fixpoint tty_init_loop (n : nat) (i : Z) : M (heap * console) bool :=
  match n with
  | O => mret true
  | S n' =>
      p ← zoom fst (fun h s => (h, s.2)) (malloc sizeof_tty_t);
      modify (fun s => (s.1, set_ttys (<[Z.to_nat i := p]> (ttys s.2)) s.2)) ;;
      if p =? 0 then mret false
      else modify (fun s => (s.1, set_term p (tty_clear zero_tty) s.2)) ;; tty_init_loop n' (i + 1)
  end.

Definition tty_init : M (heap * console) unit :=
  ok ← tty_init_loop (Z.to_nat TTY_COUNT) 0;
  if (ok : bool) then modify (fun s => (s.1, let c := set_ready s.2 in tty_render (active_tty c) c))
  else mret tt.
End Init.

(** ** Keyboard *)

Definition KEYBOARD_BUFFER_SIZE : Z := 256.

Record keyboard := mkKeyboard {
  shifted : bool; alt_down : bool; keyboard_buffer : list Z;
  keyboard_buffer_head : Z; keyboard_buffer_tail : Z; kcon : console
}.

Definition scancode_map : list Z :=
  [0; 27; 49; 50; 51; 52; 53; 54; 55; 56; 57; 48; 39;
   94; 8; 9; 113; 119; 101; 114; 116; 122; 117; 105; 111; 112;
   117; 101; 10; 0; 97; 115; 100; 102; 103; 104; 106; 107; 108;
   111; 97; 36; 0; 60; 121; 120; 99; 118; 98; 110; 109; 44;
   46; 45; 0; 42; 0; 32; 0; 0; 0; 0; 0; 0; 0;
   0; 0; 0; 0; 0; 0; 0; 0; 0; 45; 0; 0; 0;
   43; 0; 0; 0; 0; 0; 0; 0; 0; 0; 0; 0].
Definition shift_scancode_map : list Z :=
  [0; 27; 43; 34; 42; 36; 37; 38; 47; 40; 41; 61; 63;
   96; 8; 9; 81; 87; 69; 82; 84; 90; 85; 73; 79; 80;
   69; 33; 10; 0; 65; 83; 68; 70; 71; 72; 74; 75; 76;
   79; 65; 94; 0; 62; 89; 88; 67; 86; 66; 78; 77; 59;
   58; 95; 0; 42; 0; 32; 0; 0; 0; 0; 0; 0; 0;
   0; 0; 0; 0; 0; 0; 0; 0; 0; 45; 0; 0; 0;
   43; 0; 0; 0; 0; 0; 0; 0; 0; 0; 0; 0].

Definition set_shifted (b : bool) (k : keyboard) : keyboard :=
  mkKeyboard b (alt_down k) (keyboard_buffer k) (keyboard_buffer_head k) (keyboard_buffer_tail k) (kcon k).
Definition set_alt (b : bool) (k : keyboard) : keyboard :=
  mkKeyboard (shifted k) b (keyboard_buffer k) (keyboard_buffer_head k) (keyboard_buffer_tail k) (kcon k).
Definition set_kcon (c : console) (k : keyboard) : keyboard :=
  mkKeyboard (shifted k) (alt_down k) (keyboard_buffer k) (keyboard_buffer_head k) (keyboard_buffer_tail k) c.

Definition keyboard_has_key (k : keyboard) : bool :=
  negb (keyboard_buffer_head k =? keyboard_buffer_tail k).

(** The busy wait runs the schedule until a key is in the buffer. *)
Fixpoint keyboard_read_key (env : list (keyboard -> keyboard)) (k : keyboard) : res keyboard Z :=
  if keyboard_has_key k then
    Ret (default 0 (keyboard_buffer k !! Z.to_nat (keyboard_buffer_tail k)))
      (mkKeyboard (shifted k) (alt_down k) (keyboard_buffer k) (keyboard_buffer_head k)
        (u16 ((keyboard_buffer_tail k + 1) mod KEYBOARD_BUFFER_SIZE)) (kcon k))
  else match env with
       | [] => NoFuel
       | e :: env' => keyboard_read_key env' (e k)
       end.

Definition buffer_key (c : Z) (k : keyboard) : keyboard :=
  let next_head := u16 ((keyboard_buffer_head k + 1) mod KEYBOARD_BUFFER_SIZE) in
  if next_head =? keyboard_buffer_tail k then k
  else
    let '(b, ok) := store_at (keyboard_buffer_head k) (u8 c) (keyboard_buffer k) in
    mkKeyboard (shifted k) (alt_down k) b next_head (keyboard_buffer_tail k) (stray ok (kcon k)).

(** [past i] is the byte the program reads [i] bytes into a table that ends
    before [i]. *)
Definition table_char (past : Z -> Z) (map : list Z) (scancode : Z) : Z :=
  default (past scancode) (map !! Z.to_nat scancode).

(** The scancode is what [inb(0x60)] returned. *)
Definition keyboard_handler (past : Z -> Z) (scancode : Z) (k : keyboard) : keyboard :=
  if (scancode =? 42) || (scancode =? 54) then set_shifted true k
  else if (scancode =? 170) || (scancode =? 182) then set_shifted false k
  else if scancode =? 56 then set_alt true k
  else if scancode =? 184 then set_alt false k
  else if negb (Z.land scancode 128 =? 0) then k
  else if alt_down k && (59 <=? scancode) && (scancode <=? 62) then
    set_kcon (tty_handle_key scancode 0 (kcon k)) k
  else
    let ascii_char := table_char past (if shifted k then shift_scancode_map else scancode_map) scancode in
    if negb (ascii_char =? 0) then buffer_key ascii_char (set_kcon (tty_handle_key scancode ascii_char (kcon k)) k)
    else k.
