(* ===== verification/TtyProofs.v ===== *)
(** Properties of the terminals: the display mirrors the active terminal, every
    access is inside its array, and reading is line editing. *)
From S2P Require Import Prelude Mem HeapSpec Paging Utils Sched Tty.

(** ** The CRT controller's cursor registers *)

(** The byte last written to CRT register [r]: a write to the index port that
    selects it, then one to the data port. *)
Fixpoint crt_reg (r : Z) (ps : list (Z * Z)) : Z :=
  match ps with
  | [] => 0
  | (d, v) :: rest =>
      match rest with
      | (a, i) :: _ =>
          if (d =? VGA_REG_DATA) && (a =? VGA_REG_DEST) && (i =? r) then v else crt_reg r rest
      | [] => 0
      end
  end.
Definition cursor_pos (d : display) : Z := 256 * crt_reg 14 (ports d) + crt_reg 15 (ports d).

Lemma cursor_moved x y d :
  0 <= x < VGA_WIDTH -> 0 <= y < VGA_HEIGHT -> cursor_pos (vga_move_cursor x y d) = y * VGA_WIDTH + x.
Proof.
  unfold VGA_WIDTH, VGA_HEIGHT. intros Hx Hy. unfold cursor_pos, vga_move_cursor, outb. simpl.
  change VGA_WIDTH with 80. rewrite (u16_small (y * 80 + x)) by lia.
  change 255 with (Z.ones 8). rewrite !Z.land_ones, Z.shiftr_div_pow2 by lia. change (2 ^ 8) with 256.
  unfold u8. rewrite !Z.mod_mod by lia. zlia.
Qed.

(** ** Well-formed terminals *)

Record buf_ok (t : tty_t) : Prop := {
  b_cells : length (cells t) = Z.to_nat TTY_CELL_COUNT;
  b_input : length (input t) = Z.to_nat TTY_INPUT_SIZE;
  b_head : 0 <= input_head t < TTY_INPUT_SIZE;
  b_tail : 0 <= input_tail t < TTY_INPUT_SIZE;
  b_line : length (line t) = Z.to_nat TTY_LINE_SIZE;
  b_fill : 0 <= line_fill t <= TTY_LINE_SIZE;
  b_pos : 0 <= line_pos t <= TTY_LINE_SIZE
}.
Definition cursor_ok (t : tty_t) : Prop := 0 <= cur_x t < VGA_WIDTH /\ 0 <= cur_y t < VGA_HEIGHT.

(** The console, except for the cursor of terminal [id], which an operation
    may be moving. *)
Record con_except (id : Z) (s : console) : Prop := {
  c_ttys : length (ttys s) = Z.to_nat TTY_COUNT;
  c_distinct : NoDup (ttys s);
  c_ready : tty_ready s = true;
  c_active : 0 <= active_tty s < TTY_COUNT;
  c_ptr : forall i, 0 <= i < TTY_COUNT -> tty_ptr i s <> 0;
  c_term : forall i, 0 <= i < TTY_COUNT -> buf_ok (term (tty_ptr i s) s);
  c_cursor : forall i, 0 <= i < TTY_COUNT -> i <> id -> cursor_ok (term (tty_ptr i s) s);
  c_text : text (disp s) = cells (term (tty_ptr (active_tty s) s) s);
  c_wild : wild (disp s) = false;
  c_pos : active_tty s <> id ->
    let t := term (tty_ptr (active_tty s) s) s in cursor_pos (disp s) = cur_y t * VGA_WIDTH + cur_x t
}.

(** The whole console: no terminal is excepted. *)
Definition con_ok (s : console) : Prop := con_except (-1) s.

Lemma con_ok_except id s : con_ok s -> con_except id s.
Proof.
  intros []. constructor; auto.
  - intros i Hi _. apply c_cursor0; lia.
  - intros _. apply c_pos0. lia.
Qed.

Lemma con_except_ok id s :
  con_except id s -> (0 <= id < TTY_COUNT -> cursor_ok (term (tty_ptr id s) s)) ->
  (active_tty s = id -> let t := term (tty_ptr id s) s in cursor_pos (disp s) = cur_y t * VGA_WIDTH + cur_x t) ->
  con_ok s.
Proof.
  intros [] Hc Hp. constructor; auto.
  - intros i Hi _. destruct (Z.eq_dec i id) as [->|]; auto.
  - intros _. destruct (Z.eq_dec (active_tty s) id) as [E|]; auto. rewrite E. auto.
Qed.

Lemma ptr_lookup i s : length (ttys s) = Z.to_nat TTY_COUNT -> 0 <= i < TTY_COUNT -> ttys s !! Z.to_nat i = Some (tty_ptr i s).
Proof.
  unfold TTY_COUNT. intros Hl Hi. unfold tty_ptr. destruct (lookup_lt_is_Some_2 (ttys s) (Z.to_nat i)) as [p Hp]; [lia|].
  by rewrite Hp.
Qed.

Lemma ptr_inj id s i j :
  con_except id s -> 0 <= i < TTY_COUNT -> 0 <= j < TTY_COUNT -> tty_ptr i s = tty_ptr j s -> i = j.
Proof.
  intros C Hi Hj E. pose proof (ptr_lookup i s (c_ttys _ _ C) Hi) as Li.
  pose proof (ptr_lookup j s (c_ttys _ _ C) Hj) as Lj. rewrite E in Li.
  pose proof (NoDup_lookup _ _ _ _ (c_distinct _ _ C) Li Lj). lia.
Qed.

Lemma ptr_eqb id s i j :
  con_except id s -> 0 <= i < TTY_COUNT -> 0 <= j < TTY_COUNT -> (tty_ptr i s =? tty_ptr j s) = (i =? j).
Proof.
  intros C Hi Hj. destruct (Z.eqb_spec i j) as [->|Hn]; [apply Z.eqb_refl|].
  apply Z.eqb_neq. intros E. by apply Hn, (ptr_inj id s).
Qed.

(** ** What a terminal operation leaves alone

    [touches p s s']: the operation changed at most the display and terminal
    [p]; [draws p s s']: of terminal [p] it changed only the screen. *)
Record touches (p : Z) (s s' : console) : Prop := {
  d_ttys : ttys s' = ttys s;
  d_active : active_tty s' = active_tty s;
  d_ready : tty_ready s' = tty_ready s;
  d_woken : woken_ttys s' = woken_ttys s;
  d_other : forall q, q <> p -> term q s' = term q s;
  d_hidden : tty_ptr (active_tty s) s <> p -> disp s' = disp s
}.
Definition queues (t : tty_t) : list Z * Z * Z * (list Z * Z * Z) :=
  (input t, input_head t, input_tail t, (line t, line_fill t, line_pos t)).
Record draws (p : Z) (s s' : console) : Prop := {
  d_touches :> touches p s s';
  d_queues : queues (term p s') = queues (term p s)
}.

#[export] Instance touches_preorder p : PreOrder (touches p).
Proof.
  split.
  - intros s. by constructor.
  - intros s1 s2 s3 [] []. constructor; try congruence.
    + intros q Hq. by rewrite d_other1, d_other0 by done.
    + intros Hq. unfold tty_ptr in *. rewrite d_hidden1, d_hidden0; [done|done|congruence].
Qed.
#[export] Instance draws_preorder p : PreOrder (draws p).
Proof.
  split.
  - intros s. by constructor.
  - intros s1 s2 s3 [] []. constructor; [by etransitivity|congruence].
Qed.

Lemma term_set p t s q : term q (set_term p t s) = if q =? p then t else term q s.
Proof.
  unfold term, set_term. simpl. case_z; subst; [by rewrite lookup_insert_eq|by rewrite lookup_insert_ne].
Qed.
Lemma term_upd p f s q : term q (upd_term p f s) = if q =? p then f (term p s) else term q s.
Proof. apply term_set. Qed.

Lemma touches_disp p f s : p = tty_ptr (active_tty s) s -> touches p s (on_disp f s).
Proof. by constructor. Qed.
Lemma draws_disp p f s : p = tty_ptr (active_tty s) s -> draws p s (on_disp f s).
Proof. constructor; [by apply touches_disp|done]. Qed.

Lemma touches_upd p f s : touches p s (upd_term p f s).
Proof. constructor; try done. intros q Hq. rewrite term_upd. by case_z. Qed.
Lemma draws_upd p f s : (forall t, queues (f t) = queues t) -> draws p s (upd_term p f s).
Proof. intros Hf. constructor; [apply touches_upd|]. by rewrite term_upd, Z.eqb_refl, Hf. Qed.

(** ** Steps of an operation *)

Lemma tty_ptr_upd i p f s : tty_ptr i (upd_term p f s) = tty_ptr i s.
Proof. done. Qed.
Lemma tty_ptr_set i p t s : tty_ptr i (set_term p t s) = tty_ptr i s.
Proof. done. Qed.

(** Replacing terminal [id] by one with the same cells. *)
Lemma con_set id s t :
  con_except id s -> 0 <= id < TTY_COUNT -> buf_ok t ->
  (active_tty s = id -> cells t = cells (term (tty_ptr id s) s)) ->
  con_except id (set_term (tty_ptr id s) t s).
Proof.
  intros C Hid Hb Hc. pose proof C as []. constructor; auto.
  - intros i Hi. rewrite tty_ptr_set, term_set. case_z; auto.
  - intros i Hi Hn. rewrite tty_ptr_set, term_set, (ptr_eqb id) by done. case_z; [done|auto].
  - rewrite tty_ptr_set, term_set. change (active_tty (set_term (tty_ptr id s) t s)) with (active_tty s).
    rewrite (ptr_eqb id) by done. case_z; [|done]. change (disp (set_term _ _ _)) with (disp s).
    rewrite c_text0, Hc by done. congruence.
  - intros Hn. change (active_tty (set_term (tty_ptr id s) t s)) with (active_tty s) in *.
    rewrite tty_ptr_set, term_set, (ptr_eqb id) by done. case_z; [done|]. by apply c_pos0.
Qed.

Lemma con_upd id s f :
  con_except id s -> 0 <= id < TTY_COUNT ->
  (forall t, buf_ok t -> buf_ok (f t)) -> (forall t, cells (f t) = cells t) ->
  con_except id (upd_term (tty_ptr id s) f s).
Proof.
  intros C Hid Hb Hc. apply con_set; [done|done| |by rewrite Hc]. apply Hb. by apply (c_term _ _ C).
Qed.

Lemma buf_ok_cursor t x y : buf_ok t -> buf_ok (with_cursor t x y).
Proof. intros []. by constructor. Qed.
Lemma buf_ok_cells t c : buf_ok t -> length c = Z.to_nat TTY_CELL_COUNT -> buf_ok (with_cells t c).
Proof. intros [] ?. by constructor. Qed.

Lemma con_move id s x y :
  con_except id s -> 0 <= id < TTY_COUNT ->
  con_except id (upd_term (tty_ptr id s) (fun t => with_cursor t x y) s).
Proof. intros. apply con_upd; auto using buf_ok_cursor. Qed.

Lemma store_at_in i v a : 0 <= i < Z.of_nat (length a) -> store_at i v a = (<[Z.to_nat i := v]> a, true).
Proof. intros [H1 H2]. unfold store_at. by rewrite (proj2 (Z.leb_le _ _) H1), (proj2 (Z.ltb_lt _ _) H2). Qed.
Lemma length_store_at i v a : length (store_at i v a).1 = length a.
Proof. unfold store_at. destruct (_ && _); simpl; [apply length_insert|done]. Qed.

Lemma cell_index x y : 0 <= x < VGA_WIDTH -> 0 <= y < VGA_HEIGHT -> 0 <= y * VGA_WIDTH + x < TTY_CELL_COUNT.
Proof. unfold TTY_CELL_COUNT, VGA_WIDTH, VGA_HEIGHT. lia. Qed.

Lemma put_cell_eq id s x y c :
  con_except id s -> 0 <= id < TTY_COUNT -> 0 <= x < VGA_WIDTH -> 0 <= y < VGA_HEIGHT ->
  let p := tty_ptr id s in
  let i := Z.to_nat (y * VGA_WIDTH + x) in
  let s1 := upd_term p (fun t => with_cells t (<[i := cell_of c]> (cells t))) s in
  tty_put_cell p x y c s =
    if id =? active_tty s
    then on_disp (fun d => mkDisplay (<[i := cell_of c]> (text d)) (ports d) (wild d)) s1 else s1.
Proof.
  intros C Hid Hx Hy p i s1. unfold tty_put_cell.
  pose proof (cell_index x y Hx Hy) as Hi.
  pose proof (b_cells _ (c_term _ _ C id Hid)) as Lc.
  rewrite store_at_in by (unfold p; rewrite Lc; unfold TTY_CELL_COUNT, VGA_WIDTH, VGA_HEIGHT in *; lia).
  cbn [stray]. change (active_tty (upd_term p _ s)) with (active_tty s). rewrite tty_ptr_upd.
  change (p =? tty_ptr (active_tty s) s) with (tty_ptr id s =? tty_ptr (active_tty s) s).
  rewrite (ptr_eqb id) by (done || apply (c_active _ _ C)).
  destruct (id =? active_tty s); [|done].
  unfold on_disp, vga_put_char, vga_store. simpl. fold p i.
  rewrite store_at_in.
  - simpl. rewrite orb_false_r. reflexivity.
  - rewrite (c_text _ _ C), (b_cells _ (c_term _ _ C _ (c_active _ _ C))).
    unfold TTY_CELL_COUNT, VGA_WIDTH, VGA_HEIGHT in *. lia.
Qed.

Lemma term_disp f s p : term p (on_disp f s) = term p s.
Proof. done. Qed.

Lemma cursor_pos_text d t b : cursor_pos (mkDisplay t (ports d) b) = cursor_pos d.
Proof. done. Qed.

(** Replacing the cells of terminal [id], and the display's when it shows [id]. *)
Lemma con_redraw id s f d' :
  con_except id s -> 0 <= id < TTY_COUNT ->
  (forall t, buf_ok t -> buf_ok (f t)) ->
  wild d' = false ->
  text d' = (if id =? active_tty s then cells (f (term (tty_ptr id s) s)) else text (disp s)) ->
  (active_tty s <> id -> cursor_pos d' = cursor_pos (disp s)) ->
  con_except id (on_disp (fun _ => d') (upd_term (tty_ptr id s) f s)).
Proof.
  intros C Hid Hb Hw Ht Hp. pose proof C as []. constructor; auto.
  - intros i Hi. rewrite term_disp, term_upd. change (tty_ptr i (on_disp _ _)) with (tty_ptr i s). case_z; auto.
  - intros i Hi Hn. change (tty_ptr i (on_disp _ _)) with (tty_ptr i s).
    rewrite term_disp, term_upd, (ptr_eqb id) by done. case_z; [done|auto].
  - change (active_tty (on_disp _ _)) with (active_tty s). change (tty_ptr (active_tty s) (on_disp _ _)) with (tty_ptr (active_tty s) s).
    rewrite term_disp, term_upd, (ptr_eqb id) by done. change (disp (on_disp _ _)) with d'. rewrite Ht, Z.eqb_sym. by case_z.
  - change (active_tty (on_disp _ _)) with (active_tty s). change (tty_ptr (active_tty s) (on_disp _ _)) with (tty_ptr (active_tty s) s).
    intros Hn. rewrite term_disp, term_upd, (ptr_eqb id) by done. case_z; [done|]. change (disp (on_disp _ _)) with d'.
    rewrite Hp by done. by apply c_pos0.
Qed.

Lemma on_disp_same s : on_disp (fun _ => disp s) s = s.
Proof. by destruct s. Qed.

Lemma con_put_cell id s x y c :
  con_except id s -> 0 <= id < TTY_COUNT -> 0 <= x < VGA_WIDTH -> 0 <= y < VGA_HEIGHT ->
  let s' := tty_put_cell (tty_ptr id s) x y c s in
  con_except id s' /\ draws (tty_ptr id s) s s'
  /\ cur_x (term (tty_ptr id s) s') = cur_x (term (tty_ptr id s) s)
  /\ cur_y (term (tty_ptr id s) s') = cur_y (term (tty_ptr id s) s).
Proof.
  intros C Hid Hx Hy. cbv zeta. rewrite (put_cell_eq id) by done. cbv zeta.
  set (i := Z.to_nat (y * VGA_WIDTH + x)). set (g := fun t : tty_t => with_cells t (<[i := cell_of c]> (cells t))).
  assert (Hg : forall t, buf_ok t -> buf_ok (g t)).
  { intros t Hb. apply buf_ok_cells; [done|]. rewrite length_insert. by apply b_cells. }
  assert (Hd : draws (tty_ptr id s) s (upd_term (tty_ptr id s) g s)).
  { by apply draws_upd. }
  pose proof (con_redraw id s g) as R. destruct (Z.eqb_spec id (active_tty s)) as [E|E];
    (rewrite ?term_disp, term_upd, Z.eqb_refl; split; [|split; [|done]]).
  2: { etransitivity; [exact Hd|]; apply draws_disp; by rewrite E. }
  3: exact Hd.
  -
    apply (R (mkDisplay (<[i := cell_of c]> (text (disp s))) (ports (disp s)) (wild (disp s))));
      try done; [apply (c_wild _ _ C)|]. simpl. rewrite (c_text _ _ C). by rewrite E.
  - rewrite <- (on_disp_same (upd_term _ g s)). apply (R (disp s)); try done. apply (c_wild _ _ C).
Qed.

(** Drawing a full screen of cells. *)
Lemma draw_full cs d :
  length cs = Z.to_nat TTY_CELL_COUNT -> length (text d) = Z.to_nat TTY_CELL_COUNT ->
  vga_draw_buffer cs d = mkDisplay cs (ports d) (wild d).
Proof.
  intros Lc Lt. unfold vga_draw_buffer. change (Z.to_nat (VGA_WIDTH * VGA_HEIGHT)) with (Z.to_nat TTY_CELL_COUNT).
  rewrite (proj2 (Nat.leb_le _ (length cs))), (proj2 (Nat.leb_le _ (length (text d)))) by lia.
  by rewrite orb_false_r, take_ge, drop_ge, app_nil_r by lia.
Qed.

(** Drawing the active terminal. *)
Lemma render_eq id s :
  con_except id s -> active_tty s = id ->
  tty_render id s = on_disp (vga_move_cursor (cur_x (term (tty_ptr id s) s)) (cur_y (term (tty_ptr id s) s))) s.
Proof.
  intros C E. unfold tty_render. pose proof (c_active _ _ C) as Ha. rewrite E in Ha.
  destruct (Z.eqb_spec (tty_ptr id s) 0) as [Z0|_]; [by apply (c_ptr _ _ C) in Z0|].
  unfold on_disp. f_equal.
  pose proof (c_text _ _ C) as Ht. rewrite E in Ht. pose proof (b_cells _ (c_term _ _ C id Ha)) as Lc.
  rewrite draw_full by (done || by rewrite Ht). rewrite <- Ht. by destruct (disp s).
Qed.

Lemma con_cursor id s x y :
  con_except id s -> active_tty s = id -> con_except id (on_disp (vga_move_cursor x y) s).
Proof. intros [] E. constructor; auto. intros Hn. by simpl in Hn. Qed.

(** *** Scrolling *)

(** After rows 1 to [n] have been copied up. *)
Lemma copy_rows n : forall cs, length cs = 2000%nat -> (n <= 24)%nat ->
  foldl copy_row (cs, true) (seq 1 n) = (take (n * 80) (drop 80 cs) ++ drop (n * 80) cs, true).
Proof.
  induction n as [|n IH]; intros cs Hl Hn; [done|].
  rewrite seq_S, foldl_app. cbn [foldl]. rewrite (IH cs Hl) by lia.
  assert (Ln : length (take (n * 80) (drop 80 cs)) = (n * 80)%nat) by (rewrite length_take, length_drop; lia).
  unfold copy_row. replace ((1 + n - 1) * 80)%nat with (n * 80)%nat by lia. rewrite take_app_length' by done.
  rewrite length_app, Ln, length_drop, (proj2 (Nat.leb_le _ _)) by lia. f_equal.
  rewrite !(drop_app_ge _ _ ((1 + n) * 80)) by (rewrite Ln; lia). rewrite Ln.
  rewrite drop_drop. replace (n * 80 + ((1 + n) * 80 - n * 80))%nat with (80 + n * 80)%nat by lia.
  rewrite (app_assoc (take (n * 80) _)). f_equal.
  replace (S n * 80)%nat with (n * 80 + 80)%nat by lia.
  rewrite <- (take_take_drop (drop 80 cs) (n * 80) 80), drop_drop. reflexivity.
Qed.

(** The first [n] cells of the last row blanked. *)
Lemma fill_row n : forall cs, length cs = 2000%nat -> (n <= 80)%nat ->
  foldl blank_last (cs, true) (seqZ 0 (Z.of_nat n))
  = (take 1920 cs ++ replicate n blank ++ drop (1920 + n) cs, true).
Proof.
  induction n as [|n IH]; intros cs Hl Hn.
  - cbn [seqZ foldl]. change (seqZ 0 (Z.of_nat 0)) with (@nil Z). cbn [foldl replicate app].
    by rewrite Nat.add_0_r, take_drop.
  - replace (Z.of_nat (S n)) with (Z.of_nat n + 1) by lia. rewrite seqZ_app by lia.
    rewrite foldl_app, IH by lia. change (seqZ (0 + Z.of_nat n) 1) with [0 + (0 + Z.of_nat n)]. cbn [foldl].
    set (l := take 1920 cs ++ replicate n blank ++ drop (1920 + n) cs).
    assert (Lk : length (take 1920 cs) = 1920%nat) by (rewrite length_take; lia).
    assert (Ll : length l = 2000%nat).
    { unfold l. rewrite !length_app, length_replicate, length_drop. lia. }
    unfold blank_last. change ((VGA_HEIGHT - 1) * VGA_WIDTH) with (Z.of_nat 1920).
    rewrite store_at_in by lia. f_equal. unfold l.
    replace (Z.to_nat (Z.of_nat 1920 + (0 + (0 + Z.of_nat n)))) with (1920 + (n + 0))%nat by lia.
    rewrite <- Lk at 1. rewrite insert_app_r. f_equal.
    assert (Lr : length (replicate n blank) = n) by apply length_replicate.
    rewrite <- Lr at 1. rewrite insert_app_r.
    replace (1920 + S n)%nat with (S (1920 + n)) by lia.
    destruct (lookup_lt_is_Some_2 cs (1920 + n)%nat ltac:(lia)) as [v Hv].
    rewrite (drop_S _ _ _ Hv). cbn [insert list_insert]. by rewrite replicate_S_end, <- app_assoc.
Qed.

(** Scrolling drops the first row and appends a blank one, inside the array. *)
Lemma scroll_cells_eq cs : length cs = 2000%nat -> scroll_cells cs = (drop 80 cs ++ replicate 80 blank, true).
Proof.
  intros Hl. unfold scroll_cells. rewrite (copy_rows 24 cs Hl) by lia.
  set (l := take (24 * 80) (drop 80 cs) ++ drop (24 * 80) cs).
  assert (Ll : length l = 2000%nat).
  { unfold l. rewrite length_app, length_take, !length_drop. lia. }
  change VGA_WIDTH with (Z.of_nat 80). rewrite (fill_row 80 l Ll) by lia. f_equal.
  rewrite (drop_ge l) by lia. rewrite app_nil_r. unfold l.
  rewrite take_app_length' by (rewrite length_take, length_drop; lia).
  rewrite firstn_all2; [done|]. rewrite length_drop. lia.
Qed.

(** *** Redrawing after a change of terminal [id]: what [tty_scroll] and a form
    feed do. *)
Definition redraw (id : Z) (f : tty_t -> tty_t) (s : console) : console :=
  let s1 := upd_term (tty_ptr id s) f s in
  if id =? active_tty s then tty_render id s1 else s1.

Lemma con_redrawn id s f :
  con_except id s -> 0 <= id < TTY_COUNT -> (forall t, buf_ok t -> buf_ok (f t)) ->
  con_except id (redraw id f s) /\ touches (tty_ptr id s) s (redraw id f s)
  /\ term (tty_ptr id s) (redraw id f s) = f (term (tty_ptr id s) s).
Proof.
  intros C Hid Hf. unfold redraw. cbv zeta. pose proof (c_term _ _ C id Hid) as Hb.
  pose proof (con_redraw id s f) as R. destruct (Z.eqb_spec id (active_tty s)) as [E|E].
  - unfold tty_render. rewrite tty_ptr_upd, term_upd, Z.eqb_refl.
    destruct (Z.eqb_spec (tty_ptr id s) 0) as [Z0|_]; [by apply (c_ptr _ _ C) in Z0|].
    split; [|split].
    + apply (R (vga_move_cursor (cur_x (f (term (tty_ptr id s) s))) (cur_y (f (term (tty_ptr id s) s)))
                  (vga_draw_buffer (cells (f (term (tty_ptr id s) s))) (disp s)))); try done.
      * rewrite draw_full; [apply (c_wild _ _ C)|apply (Hf _ Hb)|]. rewrite (c_text _ _ C), <- E. apply Hb.
      * rewrite draw_full; [done|apply (Hf _ Hb)|]. rewrite (c_text _ _ C), <- E. apply Hb.
    + etransitivity; [apply touches_upd|]. apply touches_disp. by rewrite E.
    + rewrite term_disp, term_upd, Z.eqb_refl. done.
  - split; [|split; [apply touches_upd|rewrite term_upd, Z.eqb_refl; done]].
    rewrite <- (on_disp_same (upd_term _ f s)). apply (R (disp s)); try done. apply (c_wild _ _ C).
Qed.

Definition scrolled (t : tty_t) : tty_t :=
  with_cursor (with_cells t (drop 80 (cells t) ++ replicate 80 blank)) (cur_x t) (VGA_HEIGHT - 1).

Lemma tty_scroll_redraw id s :
  con_except id s -> 0 <= id < TTY_COUNT -> tty_scroll (tty_ptr id s) s = redraw id scrolled s.
Proof.
  intros C Hid. unfold tty_scroll, redraw.
  rewrite scroll_cells_eq by apply (b_cells _ (c_term _ _ C id Hid)). cbn [stray].
  change (upd_term (tty_ptr id s) (fun t => with_cursor _ (cur_x t) (VGA_HEIGHT - 1)) s)
    with (upd_term (tty_ptr id s) scrolled s).
  change (active_tty (upd_term _ _ s)) with (active_tty s). rewrite tty_ptr_upd, (ptr_eqb id) by (done || apply (c_active _ _ C)).
  by case_z; subst.
Qed.

Lemma buf_ok_scrolled t : buf_ok t -> buf_ok (scrolled t).
Proof.
  intros Hb. apply buf_ok_cursor, buf_ok_cells; [done|].
  pose proof (b_cells _ Hb) as Hl. change (Z.to_nat TTY_CELL_COUNT) with 2000%nat in *.
  rewrite length_app, length_replicate, length_drop. lia.
Qed.

Lemma buf_ok_clear t : buf_ok t -> buf_ok (tty_clear t).
Proof.
  intros []. constructor; try done; try (unfold TTY_INPUT_SIZE, TTY_LINE_SIZE in *; simpl; lia).
Qed.

(** *** Writing a character *)

Lemma tab_range x : 0 <= x < VGA_WIDTH -> 0 <= Z.land (x + 8) (Z.lnot 7) <= VGA_WIDTH.
Proof.
  unfold VGA_WIDTH. intros Hx. change 7 with (Z.ones 3). rewrite <- Z.ldiff_land, Z.ldiff_ones_r by lia.
  rewrite Z.shiftl_mul_pow2, Z.shiftr_div_pow2 by lia. change (2 ^ 3) with 8. zlia.
Qed.

(** The cursor may be one column or one row too far, not both. *)
Definition overrun (t : tty_t) : Prop :=
  0 <= cur_x t <= VGA_WIDTH /\ 0 <= cur_y t <= VGA_HEIGHT /\ (VGA_WIDTH <= cur_x t -> cur_y t < VGA_HEIGHT).

Lemma move_step id s x y :
  con_except id s -> 0 <= id < TTY_COUNT ->
  let s' := upd_term (tty_ptr id s) (fun t => with_cursor t x y) s in
  con_except id s' /\ draws (tty_ptr id s) s s' /\ cur_x (term (tty_ptr id s) s') = x /\ cur_y (term (tty_ptr id s) s') = y.
Proof.
  intros C Hid s'. split; [by apply con_move|]. split; [by apply draws_upd|].
  unfold s'. by rewrite term_upd, Z.eqb_refl.
Qed.

Lemma putc_step id s c :
  con_except id s -> 0 <= id < TTY_COUNT -> cursor_ok (term (tty_ptr id s) s) ->
  let s' := tty_putc id (tty_ptr id s) c s in
  con_except id s' /\ touches (tty_ptr id s) s s' /\ (c <> 12 -> draws (tty_ptr id s) s s')
  /\ overrun (term (tty_ptr id s) s').
Proof.
  intros C Hid [Hx Hy]. cbv zeta. unfold tty_putc, overrun. cbv zeta.
  pose proof (tab_range _ Hx) as Ht. unfold VGA_WIDTH, VGA_HEIGHT in *.
  set (x := cur_x (term (tty_ptr id s) s)) in *. set (y := cur_y (term (tty_ptr id s) s)) in *.
  destruct (Z.eqb_spec c 10); [|destruct (Z.eqb_spec c 13); [|destruct (Z.eqb_spec c 8);
    [|destruct (Z.eqb_spec c 9); [|destruct (Z.eqb_spec c 12)]]]].
  - destruct (move_step id s 0 (y + 1)) as (C1 & D1 & -> & ->); [done..|]. split_and!; try done; try lia. apply D1.
  - destruct (move_step id s 0 y) as (C1 & D1 & -> & ->); [done..|]. split_and!; try done; try lia. apply D1.
  - destruct (Z.ltb_spec 0 x) as [Hp|Hp]; [|split_and!; done || lia].
    destruct (move_step id s (x - 1) y) as (C1 & D1 & Ex & Ey); [done..|].
    set (s1 := upd_term _ _ s) in *.
    destruct (con_put_cell id s1 (x - 1) y 32) as (C2 & D2 & Ex2 & Ey2);
      [done|done|unfold VGA_WIDTH; lia|unfold VGA_HEIGHT; lia|].
    change (tty_ptr id s1) with (tty_ptr id s) in *. rewrite Ex2, Ey2, Ex, Ey.
    assert (draws (tty_ptr id s) s (tty_put_cell (tty_ptr id s) (x - 1) y 32 s1)) by (by etransitivity).
    split_and!; try done; try lia. by apply d_touches.
  - destruct (move_step id s (Z.land (x + 8) (Z.lnot 7)) y) as (C1 & D1 & -> & ->); [done..|].
    split_and!; try done; try lia. apply D1.
  - change (active_tty (upd_term _ tty_clear s)) with (active_tty s).
    destruct (con_redrawn id s tty_clear C Hid buf_ok_clear) as (C1 & T1 & E1).
    replace (if id =? active_tty s then _ else _) with (redraw id tty_clear s)
      by (unfold redraw; by case_z; subst). rewrite E1. simpl. split_and!; try done; try lia.
  - destruct (con_put_cell id s x y c) as (C2 & D2 & Ex2 & Ey2);
      [done|done|unfold VGA_WIDTH; lia|unfold VGA_HEIGHT; lia|].
    set (s1 := tty_put_cell _ _ _ _ s) in *. destruct D2 as [T2 Q2].
    assert (Ep : tty_ptr id s1 = tty_ptr id s) by (unfold tty_ptr; by rewrite (d_ttys _ _ _ T2)).
    destruct (move_step id s1 (x + 1) y C2 Hid) as (C3 & D3 & Ex3 & Ey3). rewrite Ep in *.
    rewrite Ex3, Ey3. assert (draws (tty_ptr id s) s (upd_term (tty_ptr id s) (fun t => with_cursor t (x + 1) y) s1))
      by (etransitivity; [by split|exact D3]).
    split_and!; try done; try lia. by apply d_touches.
Qed.

Lemma wrap_step id s :
  con_except id s -> 0 <= id < TTY_COUNT -> overrun (term (tty_ptr id s) s) ->
  let s' := tty_wrap (tty_ptr id s) s in
  con_except id s' /\ draws (tty_ptr id s) s s'
  /\ 0 <= cur_x (term (tty_ptr id s) s') < VGA_WIDTH /\ 0 <= cur_y (term (tty_ptr id s) s') <= VGA_HEIGHT.
Proof.
  intros C Hid (Hx & Hy & Ho). cbv zeta. unfold tty_wrap. case_z.
  - split; [by apply con_upd; auto using buf_ok_cursor|]. split; [by apply draws_upd|].
    rewrite term_upd, Z.eqb_refl. simpl. unfold VGA_WIDTH, VGA_HEIGHT in *. lia.
  - split; [done|]. split; [done|]. lia.
Qed.

(** Writing a character keeps the console well-formed and touches nothing but
    the display and that terminal. *)
Lemma tty_write_ok id c s :
  con_ok s -> 0 <= id < TTY_COUNT ->
  let s' := tty_write id c s in
  con_ok s' /\ touches (tty_ptr id s) s s' /\ (c <> 12 -> draws (tty_ptr id s) s s').
Proof.
  intros C0 Hid. cbv zeta. pose proof (con_ok_except id s C0) as C. unfold tty_write.
  rewrite (c_ready _ _ C). replace (tty_valid id) with true
    by (symmetry; unfold tty_valid; apply andb_true_intro; rewrite Z.leb_le, Z.ltb_lt; lia).
  rewrite (proj2 (Z.eqb_neq _ _) (c_ptr _ _ C id Hid)). cbn [negb orb].
  set (p := tty_ptr id s).
  destruct (putc_step id s c C Hid) as (C1 & T1 & D1 & O1); [apply (c_cursor _ _ C0); lia|]. fold p in C1, T1, D1, O1.
  set (s1 := tty_putc id p c s) in *.
  assert (P1 : tty_ptr id s1 = p) by (unfold tty_ptr; by rewrite (d_ttys _ _ _ T1)).
  destruct (wrap_step id s1 C1 Hid) as (C2 & D2 & Hx2 & Hy2); [by rewrite P1|]. rewrite P1 in C2, D2, Hx2, Hy2.
  set (s2 := tty_wrap p s1) in *.
  assert (P2 : tty_ptr id s2 = p) by (unfold tty_ptr; by rewrite (d_ttys _ _ _ D2)).
  assert (S3 : let s3 := if VGA_HEIGHT <=? cur_y (term p s2) then tty_scroll p s2 else s2 in
    con_except id s3 /\ draws p s2 s3 /\ cursor_ok (term p s3)).
  { cbv zeta. case_z; [|split_and!; try done; split; [done|lia]].
    rewrite <- P2. rewrite tty_scroll_redraw by done.
    destruct (con_redrawn id s2 scrolled C2 Hid buf_ok_scrolled) as (C3 & T3 & E3). split; [done|].
    split; [constructor; [done|by rewrite E3]|]. rewrite E3. split; simpl; rewrite ?P2; [done|unfold VGA_HEIGHT; lia]. }
  cbv zeta in S3. set (s3 := if VGA_HEIGHT <=? cur_y (term p s2) then _ else _) in *. destruct S3 as (C3 & D3 & K3).
  assert (P3 : tty_ptr id s3 = p) by (unfold tty_ptr; by rewrite (d_ttys _ _ _ D3)).
  assert (S4 : let s4 := if id =? active_tty s3 then on_disp (vga_move_cursor (cur_x (term p s3)) (cur_y (term p s3))) s3 else s3 in
    con_ok s4 /\ draws p s3 s4).
  { cbv zeta. destruct (Z.eqb_spec id (active_tty s3)) as [E|E].
    - split; [|apply draws_disp; by rewrite <- E]. apply (con_except_ok id).
      + by apply con_cursor.
      + intros _. change (tty_ptr id (on_disp _ s3)) with (tty_ptr id s3). by rewrite P3.
      + intros _. change (tty_ptr id (on_disp _ s3)) with (tty_ptr id s3). rewrite P3. cbv zeta. rewrite term_disp.
        apply cursor_moved; apply K3.
    - split; [|done]. apply (con_except_ok id); [done|by rewrite P3|by intros E']. }
  destruct S4 as [C4 D4]. split; [exact C4|]. split.
  - etransitivity; [exact T1|]. etransitivity; [apply D2|]. etransitivity; [apply D3|apply D4].
  - intros Hc. etransitivity; [by apply D1|]. etransitivity; [exact D2|]. etransitivity; [exact D3|exact D4].
Qed.

Lemma tty_valid_iff id : tty_valid id = true <-> 0 <= id < TTY_COUNT.
Proof. unfold tty_valid. rewrite andb_true_iff, Z.leb_le, Z.ltb_lt. lia. Qed.

Lemma tty_switch_ok id s : con_ok s -> con_ok (tty_switch id s).
Proof.
  intros C. unfold tty_switch. destruct (tty_valid id) eqn:V; [|done]. apply tty_valid_iff in V.
  destruct (Z.eqb_spec id (active_tty s)) as [E|E]; [done|]. cbn [negb orb].
  pose proof C as []. unfold tty_render. change (tty_ptr id (set_active id s)) with (tty_ptr id s).
  destruct (Z.eqb_spec (tty_ptr id s) 0) as [Z0|_]; [by apply c_ptr0 in Z0|].
  change (term (tty_ptr id s) (set_active id s)) with (term (tty_ptr id s) s).
  destruct (c_cursor0 id V) as [Hx Hy]; [lia|]. constructor; auto.
  1, 2: cbn [on_disp disp set_active vga_move_cursor outb text wild];
    rewrite draw_full; [done|apply (c_term0 id V)|rewrite c_text0; apply (c_term0 _ c_active0)].
  - intros _. apply cursor_moved; done.
Qed.

(** ** The input queue *)

(** The characters waiting in the ring, oldest first. *)
Definition pending (t : tty_t) : list Z :=
  map (fun k => default 0 (input t !! Z.to_nat ((input_tail t + k) mod TTY_INPUT_SIZE)))
      (seqZ 0 ((input_head t - input_tail t) mod TTY_INPUT_SIZE)).

Lemma pending_length t : length (pending t) = Z.to_nat ((input_head t - input_tail t) mod TTY_INPUT_SIZE).
Proof. unfold pending. rewrite length_map, length_seqZ. done. Qed.

Lemma push_pending t c :
  buf_ok t -> let '(t', ok) := tty_push_input t c in
  ok = true /\ buf_ok t' /\ pending t' = (if (length (pending t) =? 255)%nat then pending t else pending t ++ [c]).
Proof.
  intros Hb. pose proof Hb as []. unfold tty_push_input. rewrite pending_length.
  unfold TTY_INPUT_SIZE in *. set (h := input_head t) in *. set (tl := input_tail t) in *.
  rewrite (u16_small ((h + 1) mod 256)) by zlia.
  destruct (Z.eqb_spec ((h + 1) mod 256) tl) as [E|E].
  { split; [done|]. split; [done|]. destruct (Nat.eqb_spec (Z.to_nat ((h - tl) mod 256)) 255); [done|]. zlia. }
  rewrite (proj2 (Nat.eqb_neq _ _)), store_at_in by zlia.
  split; [done|]. split.
  { constructor; try done; cbn [with_input input input_head input_tail]; [by rewrite length_insert|unfold TTY_INPUT_SIZE; zlia]. }
  unfold pending, TTY_INPUT_SIZE. cbn [with_input input input_head input_tail fst]. fold h tl.
  set (n := (h - tl) mod 256). assert (Hn : ((h + 1) mod 256 - tl) mod 256 = n + 1) by (unfold n; zlia).
  rewrite Hn, seqZ_app by (unfold n; zlia). rewrite map_app. f_equal.
  - apply map_ext_in. intros k Hk. apply list_elem_of_In, elem_of_seqZ in Hk.
    rewrite list_lookup_insert_ne; [done|]. unfold n in Hk. zlia.
  - change (seqZ (0 + n) 1) with [0 + (0 + n)]. cbn [map]. f_equal. replace ((tl + (0 + (0 + n))) mod 256) with h by (unfold n; zlia).
    rewrite list_lookup_insert_eq; [done|]. lia.
Qed.

Lemma pop_pending t c rest :
  buf_ok t -> pending t = c :: rest ->
  tty_has_input t = true /\ default 0 (input t !! Z.to_nat (input_tail t)) = c
  /\ let t' := with_input t (input t) (input_head t) (u16 ((input_tail t + 1) mod TTY_INPUT_SIZE)) in
     buf_ok t' /\ pending t' = rest.
Proof.
  intros Hb E. pose proof Hb as []. pose proof (pending_length t) as L. rewrite E in L. simpl in L.
  unfold pending in E. unfold TTY_INPUT_SIZE in *. set (h := input_head t) in *. set (tl := input_tail t) in *.
  rewrite (u16_small ((tl + 1) mod 256)) by zlia.
  assert (Hn : (h - tl) mod 256 = 1 + ((h - tl) mod 256 - 1)) by lia.
  rewrite Hn, seqZ_app in E by zlia. change (seqZ 0 1) with [0 + 0] in E. cbn [map app] in E. injection E as E1 E2.
  split; [unfold tty_has_input; fold h tl; apply negb_true_iff, Z.eqb_neq; zlia|].
  split; [rewrite <- E1; do 3 f_equal; zlia|]. cbv zeta. split.
  { constructor; try done. cbn [with_input input_tail]. unfold TTY_INPUT_SIZE. zlia. }
  unfold pending, TTY_INPUT_SIZE. cbn [with_input input input_head input_tail]. fold h tl. rewrite <- E2.
  replace ((h - (tl + 1) mod 256) mod 256) with ((h - tl) mod 256 - 1) by zlia.
  replace (seqZ (0 + 1) _) with (map (Z.add 1) (seqZ 0 ((h - tl) mod 256 - 1))) by apply (fmap_add_seqZ 1 0).
  rewrite map_map.
  apply map_ext. intros k. do 3 f_equal. zlia.
Qed.

(** ** Keys and lines *)

(** Replacing a terminal by one that shows the same. *)
Lemma con_ok_set id s t :
  con_ok s -> 0 <= id < TTY_COUNT -> buf_ok t ->
  (let u := term (tty_ptr id s) s in cells t = cells u /\ cur_x t = cur_x u /\ cur_y t = cur_y u) ->
  con_ok (set_term (tty_ptr id s) t s).
Proof.
  intros C Hid Hb (Ec & Ex & Ey). apply (con_except_ok id).
  - apply con_set; auto. by apply con_ok_except.
  - intros _. rewrite tty_ptr_set, term_set, Z.eqb_refl. unfold cursor_ok. rewrite Ex, Ey. apply (c_cursor _ _ C); lia.
  - intros Ea. rewrite tty_ptr_set. cbv zeta. rewrite term_set, Z.eqb_refl, Ex, Ey.
    change (disp (set_term _ t s)) with (disp s). change (active_tty (set_term _ t s)) with (active_tty s) in Ea.
    rewrite <- Ea. apply (c_pos _ _ C). pose proof (c_active _ _ C). lia.
Qed.

(** A key of the keyboard: its scancode, not that of a terminal switch, and a
    character. *)
Definition press (k : Z * Z) : console -> console := tty_handle_key k.1 k.2.
Definition is_key (k : Z * Z) : Prop := ~ (59 <= k.1 <= 62) /\ k.2 <> 0.

Lemma press_eq k s :
  con_ok s -> is_key k ->
  press k s = wake_tty (tty_ptr (active_tty s) s)
    (upd_term (tty_ptr (active_tty s) s) (fun t => (tty_push_input t k.2).1) s).
Proof.
  intros C [Hs Hc]. unfold press, tty_handle_key. rewrite (c_ready _ _ C).
  rewrite (proj2 (Z.eqb_neq _ _) Hc). cbn [negb].
  pose proof (push_pending _ k.2 (c_term _ _ C _ (c_active _ _ C))) as P. unfold upd_term.
  destruct (tty_push_input _ k.2) as [t ok]. destruct P as (-> & _).
  destruct (Z.leb_spec 59 k.1), (Z.leb_spec k.1 62); try lia; done.
Qed.

Lemma push_shows t c : let u := (tty_push_input t c).1 in cells u = cells t /\ cur_x u = cur_x t /\ cur_y u = cur_y t
  /\ line u = line t /\ line_fill u = line_fill t /\ line_pos u = line_pos t.
Proof. unfold tty_push_input. case_z; [done|]. by destruct (store_at _ _ _). Qed.

Lemma press_ok k s :
  con_ok s -> is_key k ->
  let s' := press k s in
  con_ok s' /\ ttys s' = ttys s /\ active_tty s' = active_tty s
  /\ term (tty_ptr (active_tty s) s) s' = (tty_push_input (term (tty_ptr (active_tty s) s) s) k.2).1.
Proof.
  intros C K. cbv zeta. rewrite press_eq by done. pose proof (c_active _ _ C) as Ha.
  pose proof (push_shows (term (tty_ptr (active_tty s) s) s) k.2) as (E1 & E2 & E3 & _).
  pose proof (push_pending _ k.2 (c_term _ _ C _ Ha)) as P.
  split; [|split; [done|split; [done|]]].
  - assert (C' : con_ok (upd_term (tty_ptr (active_tty s) s) (fun t => (tty_push_input t k.2).1) s)).
    { apply con_ok_set; [done|done| |done]. destruct (tty_push_input _ k.2). apply P. }
    destruct C'. constructor; auto.
  - change (term ?p (wake_tty _ ?s')) with (term p s'). by rewrite term_upd, Z.eqb_refl.
Qed.

Lemma tty_handle_key_ok sc c s : con_ok s -> con_ok (tty_handle_key sc c s).
Proof.
  intros C. destruct (decide (is_key (sc, c))) as [K|K].
  - by apply (press_ok (sc, c)).
  - unfold tty_handle_key. rewrite (c_ready _ _ C). cbn [negb].
    destruct (Z.leb_spec 59 sc), (Z.leb_spec sc 62); cbn [andb]; try (by apply tty_switch_ok);
      (destruct (Z.eqb_spec c 0); [done|]; exfalso; apply K; split; simpl; [lia|done]).
Qed.

(** What reading a line amounts to: [edit_key] is the effect of one key other
    than newline on the line so far. *)
Definition edit_key (l : list Z) (c : Z) : list Z :=
  if (c =? 8) || (c =? 127) then take (length l - 1) l
  else if (32 <=? c) && (c <? 127) then if (length l <? 255)%nat then l ++ [c] else l
  else l.
Definition edited (ks : list Z) : list Z := foldl edit_key [] ks.
Definition newline (c : Z) : bool := (c =? 10) || (c =? 13).

Definition contents (t : tty_t) : list Z := take (Z.to_nat (line_fill t)) (line t).
Definition unread (t : tty_t) : list Z := drop (Z.to_nat (line_pos t)) (contents t).

Lemma contents_length t : buf_ok t -> length (contents t) = Z.to_nat (line_fill t).
Proof. intros []. unfold contents, TTY_LINE_SIZE in *. rewrite length_take. lia. Qed.

Lemma contents_store t c :
  buf_ok t -> line_fill t < TTY_LINE_SIZE ->
  let '(l, ok) := store_at (line_fill t) c (line t) in
  let t' := with_line t l (line_fill t + 1) (line_pos t) in
  ok = true /\ buf_ok t' /\ contents t' = contents t ++ [c].
Proof.
  intros Hb Hf. pose proof Hb as []. unfold TTY_LINE_SIZE in *. rewrite store_at_in by lia. split; [done|]. split.
  { constructor; try done; cbn [with_line line line_fill line_pos fst]; unfold TTY_LINE_SIZE; try lia. by rewrite length_insert. }
  unfold contents. cbn [with_line line line_fill line_pos fst]. rewrite Z2Nat.inj_add by lia.
  change (Z.to_nat 1) with 1%nat. rewrite Nat.add_1_r.
  rewrite (take_S_r _ _ c); [|apply list_lookup_insert_eq; lia]. by rewrite take_insert_ge by lia.
Qed.

(** What a step of the editor changes of the rest of the console. *)
Definition edits (p : Z) (s s' : console) : Prop :=
  con_ok s' /\ ttys s' = ttys s /\ active_tty s' = active_tty s
  /\ input (term p s') = input (term p s) /\ input_head (term p s') = input_head (term p s)
  /\ input_tail (term p s') = input_tail (term p s) /\ line_pos (term p s') = line_pos (term p s).

Lemma edits_pending p s s' : edits p s s' -> pending (term p s') = pending (term p s).
Proof. intros (_ & _ & _ & E1 & E2 & E3 & _). unfold pending. by rewrite E1, E2, E3. Qed.

Lemma draws_contents p s s' : draws p s s' -> contents (term p s') = contents (term p s).
Proof. intros [_ Q]. unfold queues in Q. injection Q as _ _ _ E1 E2 _. unfold contents. by rewrite E1, E2. Qed.

(** Setting the line of terminal [id], then echoing characters. *)
Lemma edits_echo id s l f cs :
  con_ok s -> 0 <= id < TTY_COUNT -> Forall (fun c => c <> 12) cs ->
  let p := tty_ptr id s in
  let t := with_line (term p s) l f (line_pos (term p s)) in
  buf_ok t ->
  let s' := foldl (fun s c => tty_write id c s) (set_term p t s) cs in
  edits p s s' /\ contents (term p s') = contents t.
Proof.
  intros C Hid Hcs p t Hb. assert (C1 : con_ok (set_term p t s)) by by apply con_ok_set.
  assert (E1 : edits p s (set_term p t s)).
  { split; [done|]. do 2 (split; [done|]). by rewrite term_set, Z.eqb_refl. }
  assert (E2 : contents (term p (set_term p t s)) = contents t) by by rewrite term_set, Z.eqb_refl.
  assert (P1 : tty_ptr id (set_term p t s) = p) by done.
  revert C1 E1 E2 P1. generalize (set_term p t s). induction Hcs as [|c cs Hc Hcs IH]; intros s1 C1 E1 E2 P1; [done|].
  cbn [foldl]. destruct (tty_write_ok id c s1 C1 Hid) as (C2 & _ & D2). specialize (D2 Hc). rewrite P1 in D2.
  apply IH; [done| |by rewrite (draws_contents _ _ _ D2)|unfold tty_ptr; rewrite (d_ttys _ _ _ D2); done].
  destruct E1 as (_ & Et & Ea & Ei & Eh & El & Ep). destruct D2 as [[] Q]. unfold queues in Q. injection Q as ? ? ? ? ? ?.
  split; [done|]. repeat split; congruence.
Qed.

Lemma tty_edit_newline id s c :
  con_ok s -> 0 <= id < TTY_COUNT -> newline c = true -> line_fill (term (tty_ptr id s) s) < TTY_LINE_SIZE ->
  exists s', tty_edit id (tty_ptr id s) c s = (true, s') /\ edits (tty_ptr id s) s s'
    /\ contents (term (tty_ptr id s) s') = contents (term (tty_ptr id s) s) ++ [10].
Proof.
  intros C Hid Hn Hf. set (t := term (tty_ptr id s) s) in *.
  pose proof (contents_store t 10 (c_term _ _ C id Hid) Hf) as Hs.
  destruct (store_at (line_fill t) 10 (line t)) as [l ok] eqn:Es. destruct Hs as (-> & Hb & Ec).
  pose proof (edits_echo id s _ _ [13; 10] C Hid ltac:(by repeat constructor) Hb) as [E1 E2]. cbv zeta in *.
  eexists. split; [|split; [exact E1|etransitivity; [exact E2|exact Ec]]]. unfold tty_edit, tty_append. fold t. rewrite (proj2 (Z.ltb_lt _ _) Hf), Es.
  unfold newline in Hn. destruct (Z.eqb_spec c 13) as [-> |]; [done|]. rewrite orb_false_r in Hn. rewrite Hn.
  apply Z.eqb_eq in Hn as ->. done.
Qed.

Lemma tty_edit_key id s c :
  con_ok s -> 0 <= id < TTY_COUNT -> newline c = false -> line_fill (term (tty_ptr id s) s) < TTY_LINE_SIZE ->
  exists s', tty_edit id (tty_ptr id s) c s = (false, s') /\ edits (tty_ptr id s) s s'
    /\ contents (term (tty_ptr id s) s') = edit_key (contents (term (tty_ptr id s) s)) c.
Proof.
  intros C Hid Hn Hf. set (t := term (tty_ptr id s) s) in *. pose proof (c_term _ _ C id Hid) as Hb. fold t in Hb.
  apply orb_false_iff in Hn as [N10 N13]. unfold tty_edit, tty_append, edit_key. fold t. rewrite N13, N10.
  pose proof (contents_length t Hb) as Lc. pose proof (b_fill _ Hb) as Bf.
  assert (Hsame : edits (tty_ptr id s) s s) by (split; [done|repeat split]).
  destruct ((c =? 8) || (c =? 127)).
  - case_z; [|exists s; split_and!; try done; fold t; rewrite take_ge by lia; done].
    set (l := line t). assert (Hb' : buf_ok (with_line t l (line_fill t - 1) (line_pos t))).
    { destruct Hb. constructor; try done. cbn [with_line line_fill]. lia. }
    pose proof (edits_echo id s _ _ [8; 32; 8] C Hid ltac:(by repeat constructor) Hb') as [E1 E2]. cbv zeta in *.
    eexists. split; [reflexivity|]. split; [exact E1|]. etransitivity; [exact E2|].
    rewrite Lc. unfold contents. cbn [with_line line line_fill]. rewrite take_take. f_equal. lia.
  - destruct ((32 <=? c) && (c <? 127)) eqn:Hp; [|by exists s]. rewrite Lc. unfold TTY_LINE_SIZE in *. case_z.
    + rewrite (proj2 (Nat.ltb_lt _ _)) by lia.
      pose proof (contents_store t c Hb ltac:(unfold TTY_LINE_SIZE; lia)) as Hs.
      destruct (store_at (line_fill t) c (line t)) as [l ok]. destruct Hs as (-> & Hb' & Ec).
      apply andb_true_iff in Hp as [Hp _]. apply Z.leb_le in Hp.
      pose proof (edits_echo id s _ _ [c] C Hid ltac:(repeat constructor; lia) Hb') as [E1 E2]. cbv zeta in *.
      eexists. split; [reflexivity|]. split; [exact E1|]. etransitivity; [exact E2|exact Ec].
    + rewrite (proj2 (Nat.ltb_ge _ _)) by lia. by exists s.
Qed.

(** ** Reading *)

(** The characters that reach terminal [p]: those in its queue, then those the
    keys still to be pressed give. *)
Definition stream (p : Z) (s : console) (typed : list (Z * Z)) : list Z := pending (term p s) ++ map snd typed.

(** What taking a character or a whole line leaves as it was. *)
Definition same_console (s s' : console) : Prop := con_ok s' /\ ttys s' = ttys s /\ active_tty s' = active_tty s.

Lemma pop_queued id s env c rest :
  con_ok s -> 0 <= id < TTY_COUNT -> pending (term (tty_ptr id s) s) = c :: rest ->
  exists s', tty_pop_input env (tty_ptr id s) s = Ret (c, env) s' /\ same_console s s'
    /\ pending (term (tty_ptr id s) s') = rest
    /\ contents (term (tty_ptr id s) s') = contents (term (tty_ptr id s) s)
    /\ line_pos (term (tty_ptr id s) s') = line_pos (term (tty_ptr id s) s).
Proof.
  intros C Hid E. destruct (pop_pending _ _ _ (c_term _ _ C id Hid) E) as (Hh & Hc & Hb & Hp). cbv zeta in *.
  eexists. split.
  - destruct env; cbn [tty_pop_input]; rewrite Hh, Hc; reflexivity.
  - rewrite term_set, Z.eqb_refl. split; [split; [by apply con_ok_set|done]|done].
Qed.

Lemma pending_nil t : buf_ok t -> pending t = [] -> tty_has_input t = false.
Proof.
  intros [] E. pose proof (pending_length t) as L. rewrite E in L. unfold tty_has_input, TTY_INPUT_SIZE in *.
  cbn [length] in L. apply negb_false_iff, Z.eqb_eq. zlia.
Qed.

Lemma pop_stream s typed c rest :
  let p := tty_ptr (active_tty s) s in
  con_ok s -> Forall is_key typed -> stream p s typed = c :: rest ->
  exists s' typed', tty_pop_input (map press typed) p s = Ret (c, map press typed') s'
    /\ same_console s s' /\ Forall is_key typed' /\ stream p s' typed' = rest
    /\ contents (term p s') = contents (term p s) /\ line_pos (term p s') = line_pos (term p s).
Proof.
  intros p C K E. pose proof (c_active _ _ C) as Ha. unfold stream in *.
  destruct (pending (term p s)) as [|d l] eqn:Ep.
  - destruct typed as [|k typed]; [done|]. cbn in E. injection E as E1 E2. inversion K as [|? ? K1 K2]; subst.
    destruct (press_ok k s C K1) as (C1 & Et & Ea & Em). fold p in Em.
    assert (P1 : tty_ptr (active_tty s) (press k s) = p) by (unfold tty_ptr; rewrite Et; done).
    assert (Pp : pending (term p (press k s)) = [k.2]).
    { pose proof (push_pending (term p s) k.2 (c_term _ _ C _ Ha)) as Pp. rewrite Em.
      destruct (tty_push_input _ k.2). destruct Pp as (_ & _ & Pp). by rewrite Ep in Pp. }
    destruct (pop_queued (active_tty s) (press k s) (map press typed) k.2 []) as (s' & R & (C2 & Et2 & Ea2) & Hp & Hc & Hl);
      rewrite ?P1 in *; [done|done|done|].
    exists s', typed. split; [cbn [map tty_pop_input]; rewrite pending_nil by (done || by apply (c_term _ _ C)); exact R|].
    split; [split; [done|split; congruence]|]. split; [done|]. split; [by rewrite Hp|].
    destruct (push_shows (term p s) k.2) as (_ & _ & _ & L1 & L2 & L3).
    rewrite Hc, Hl, Em. unfold contents. by rewrite L1, L2, L3.
  - cbn in E. injection E as -> <-.
    destruct (pop_queued (active_tty s) s (map press typed) c l) as (s' & R & Hs & Hp & Hc & Hl); [done..|].
    fold p in Hp, Hc, Hl. exists s', typed. split; [exact R|]. split; [done|]. split; [done|]. by rewrite Hp.
Qed.

Lemma edit_key_length l c : (length l <= 255)%nat -> (length (edit_key l c) <= 255)%nat.
Proof.
  intros Hl. unfold edit_key. destruct (_ || _); [rewrite length_take; lia|].
  destruct (_ && _); [|done]. destruct (Nat.ltb_spec (length l) 255); [rewrite length_app; simpl; lia|done].
Qed.

Lemma collect_stream ks : forall fuel s typed c rest,
  let p := tty_ptr (active_tty s) s in
  con_ok s -> Forall is_key typed -> stream p s typed = ks ++ c :: rest ->
  Forall (fun k => newline k = false) ks -> newline c = true ->
  (length (contents (term p s)) <= 255)%nat -> (length ks < fuel)%nat ->
  exists s' typed', tty_collect fuel (map press typed) (active_tty s) p s = Ret (map press typed') s'
    /\ same_console s s' /\ Forall is_key typed' /\ stream p s' typed' = rest
    /\ contents (term p s') = foldl edit_key (contents (term p s)) ks ++ [10]
    /\ line_pos (term p s') = line_pos (term p s).
Proof.
  induction ks as [|k ks IH]; intros fuel s typed c rest p C K E Hks Hc Hl Hf;
    (destruct fuel as [|fuel]; [simpl in Hf; lia|]); cbn [tty_collect].
  all: pose proof (c_active _ _ C) as Ha.
  all: edestruct (pop_stream s typed) as (s1 & typed1 & R1 & (C1 & Et1 & Ea1) & K1 & S1 & Ec1 & El1); [done|done|exact E|].
  all: fold p in R1, S1, Ec1, El1; rewrite R1.
  all: assert (P1 : tty_ptr (active_tty s) s1 = p) by (unfold tty_ptr; rewrite Et1; done).
  all: assert (F1 : line_fill (term p s1) < TTY_LINE_SIZE)
    by (rewrite <- Ec1, contents_length in Hl by (rewrite <- P1; apply (c_term _ _ C1); done); unfold TTY_LINE_SIZE;
        pose proof (b_fill _ (c_term _ _ C1 _ Ha)); rewrite P1 in *; lia).
  - destruct (tty_edit_newline (active_tty s) s1 c) as (s2 & E2 & D2 & Ec2); [done|done|done|by rewrite P1|]. rewrite P1 in *.
    rewrite E2. exists s2, typed1. split; [done|]. pose proof (edits_pending _ _ _ D2) as Ep2.
    destruct D2 as (C2 & Et2 & Ea2 & _ & _ & _ & El2). split; [split; [done|split; congruence]|]. split; [done|].
    split; [unfold stream in *; by rewrite Ep2|]. split; [rewrite Ec2, Ec1; done|congruence].
  - inversion Hks as [|? ? Hk Hks']; subst.
    destruct (tty_edit_key (active_tty s) s1 k) as (s2 & E2 & D2 & Ec2); [done|done|done|by rewrite P1|]. rewrite P1 in *.
    rewrite E2. pose proof (edits_pending _ _ _ D2) as Ep2. destruct D2 as (C2 & Et2 & Ea2 & _ & _ & _ & El2).
    assert (A2 : active_tty s2 = active_tty s) by congruence.
    assert (P2 : tty_ptr (active_tty s2) s2 = p) by (unfold tty_ptr; rewrite A2, Et2, Et1; done).
    edestruct (IH fuel s2 typed1 c rest) as (s3 & typed3 & R3 & (C3 & Et3 & Ea3) & K3 & S3 & Ec3 & El3);
      rewrite ?P2 in *; [done|done|unfold stream in *; by rewrite Ep2|done|done| |simpl in Hf; lia|].
    { rewrite Ec2, Ec1. by apply edit_key_length. }
    rewrite A2 in R3. exists s3, typed3. split; [exact R3|]. split; [split; [done|split; congruence]|].
    split; [done|]. split; [done|]. split; [rewrite Ec3, Ec2, Ec1; done|congruence].
Qed.

(** ** Any sequence of terminal operations *)

Definition keeps_ok (e : console -> console) : Prop := forall s, con_ok s -> con_ok (e s).

Lemma pop_ok id env : forall s c env' s',
  Forall keeps_ok env -> con_ok s -> 0 <= id < TTY_COUNT -> (forall e s, e ∈ env -> ttys (e s) = ttys s) ->
  tty_pop_input env (tty_ptr id s) s = Ret (c, env') s' ->
  con_ok s' /\ Forall keeps_ok env' /\ ttys s' = ttys s /\ (forall e, e ∈ env' -> e ∈ env).
Proof.
  induction env as [|e env IH]; intros s c env' s' K C Hid Ht; cbn [tty_pop_input].
  all: destruct (tty_has_input (term (tty_ptr id s) s)) eqn:Hh;
    [intros [= <- <- <-]; split; [|done]; apply con_ok_set; try done;
     destruct (c_term _ _ C id Hid); constructor; try done; cbn [with_input input_tail]; unfold TTY_INPUT_SIZE in *;
     rewrite u16_small by zlia; zlia|].
  - done.
  - inversion K as [|? ? K1 K2]; subst. intros R.
    assert (P : tty_ptr id (e s) = tty_ptr id s) by (unfold tty_ptr; rewrite Ht by set_solver; done).
    rewrite <- P in R. destruct (IH (e s) c env' s' K2 (K1 s C) Hid) as (C' & K' & T' & I');
      [intros; apply Ht; set_solver|exact R|].
    split; [done|]. split; [done|]. split; [rewrite T'; apply Ht; set_solver|set_solver].
Qed.

Lemma edit_ok id c s :
  con_ok s -> 0 <= id < TTY_COUNT ->
  con_ok (tty_edit id (tty_ptr id s) c s).2 /\ ttys (tty_edit id (tty_ptr id s) c s).2 = ttys s.
Proof.
  intros C Hid. set (t := term (tty_ptr id s) s). pose proof (b_fill _ (c_term _ _ C id Hid)) as Bf. fold t in Bf.
  destruct (Z.ltb_spec (line_fill t) TTY_LINE_SIZE) as [F|F].
  - destruct (newline c) eqn:N.
    + destruct (tty_edit_newline id s c C Hid N F) as (s' & -> & D & _). split; apply D.
    + destruct (tty_edit_key id s c C Hid N F) as (s' & -> & D & _). split; apply D.
  - unfold tty_edit. fold t. set (c' := if c =? 13 then 10 else c).
    rewrite (proj2 (Z.ltb_ge _ _) F). unfold TTY_LINE_SIZE in *.
    rewrite (proj2 (Z.ltb_ge (line_fill t) (256 - 1))) by lia.
    assert (Hb : buf_ok (with_line t (line t) (line_fill t - 1) (line_pos t))).
    { destruct (c_term _ _ C id Hid). constructor; try done. fold t in b_fill0. cbn [with_line line_fill]. unfold TTY_LINE_SIZE. lia. }
    pose proof (edits_echo id s _ _ [8; 32; 8] C Hid ltac:(by repeat constructor) Hb) as [E1 _].
    destruct ((c' =? 8) || (c' =? 127)); [destruct (Z.ltb_spec 0 (line_fill t)); [split; apply E1|lia]|].
    destruct (c' =? 10); [|by destruct ((32 <=? c') && (c' <? 127))]. cbn [snd].
    destruct (tty_write_ok id 13 s C Hid) as (C1 & T1 & _). destruct (tty_write_ok id 10 _ C1 Hid) as (C2 & T2 & _).
    split; [done|]. by rewrite (d_ttys _ _ _ T2), (d_ttys _ _ _ T1).
Qed.

Lemma collect_ok fuel : forall env id s env' s',
  Forall keeps_ok env -> con_ok s -> 0 <= id < TTY_COUNT -> (forall e s, e ∈ env -> ttys (e s) = ttys s) ->
  tty_collect fuel env id (tty_ptr id s) s = Ret env' s' ->
  con_ok s' /\ Forall keeps_ok env' /\ (forall e, e ∈ env' -> e ∈ env).
Proof.
  induction fuel as [|fuel IH]; intros env id s env' s' K C Hid Ht; cbn [tty_collect]; [done|].
  destruct (tty_pop_input env (tty_ptr id s) s) as [[c env1] s1| |] eqn:P; try done.
  destruct (pop_ok id env s c env1 s1 K C Hid Ht P) as (C1 & K1 & T1 & I1).
  assert (P1 : tty_ptr id s = tty_ptr id s1) by (unfold tty_ptr; by rewrite T1). rewrite P1.
  destruct (edit_ok id c s1 C1 Hid) as [C2 T2]. destruct (tty_edit id (tty_ptr id s1) c s1) as [b s2]. simpl in C2, T2.
  destruct b; [intros [= <- <-]; done|].
  assert (P2 : tty_ptr id s1 = tty_ptr id s2) by (unfold tty_ptr; by rewrite T2). rewrite P2. intros R.
  destruct (IH env1 id s2 env' s' K1 C2 Hid) as (C3 & K3 & I3); [intros; apply Ht; set_solver|exact R|].
  split; [done|]. split; [done|]. set_solver.
Qed.

Lemma read_ok rounds fuel : forall env id size ok s r s',
  Forall keeps_ok env -> con_ok s -> (forall e s, e ∈ env -> ttys (e s) = ttys s) ->
  tty_read rounds fuel env id size ok s = Ret r s' -> 0 <= size -> con_ok s'.
Proof.
  induction rounds as [|rounds IH]; intros env id size ok s r s' K C Ht R Hs; [done|]. cbn [tty_read] in R.
  destruct ok; [|by injection R as _ <-]. destruct (tty_valid id) eqn:V; [|by injection R as _ <-].
  apply tty_valid_iff in V. cbn [negb orb] in R.
  rewrite (proj2 (Z.eqb_neq _ _) (c_ptr _ _ C id V)) in R. pose proof (c_term _ _ C id V) as Hb.
  destruct (Z.ltb_spec (line_pos (term (tty_ptr id s) s)) (line_fill (term (tty_ptr id s) s))) as [L|L].
  - injection R as _ <-. apply con_ok_set; try done. destruct Hb. constructor; try done.
    cbn [with_line line_pos]. case_z; lia.
  - set (s1 := set_term _ _ s) in R. assert (C1 : con_ok s1).
    { apply con_ok_set; try done. destruct Hb. constructor; try done; cbn [with_line line_fill line_pos]; unfold TTY_LINE_SIZE; lia. }
    change (tty_ptr id s) with (tty_ptr id s1) in R.
    destruct (tty_collect fuel env id (tty_ptr id s1) s1) as [env1 s2| |] eqn:E; try done.
    destruct (collect_ok fuel env id s1 env1 s2 K C1 V Ht E) as (C2 & K2 & I2).
    eapply IH; [exact K2|exact C2| |exact R|done]. intros; apply Ht; set_solver.
Qed.

(** One terminal operation; while a reader sleeps, other tasks and interrupts
    only use the terminals through such operations. *)
Inductive con_step : console -> console -> Prop :=
| st_write id c s : tty_valid id = true -> con_step s (tty_write id c s)
| st_write_buf id buf s : con_step s (tty_write_buf id buf s).2
| st_switch id s : con_step s (tty_switch id s)
| st_key sc c s : con_step s (tty_handle_key sc c s)
| st_read rounds fuel env id size ok s r s' :
    Forall keeps_ok env -> (forall e s, e ∈ env -> ttys (e s) = ttys s) -> 0 <= size ->
    tty_read rounds fuel env id size ok s = Ret r s' -> con_step s s'.

Lemma write_buf_ok id bs : forall s,
  con_ok s -> 0 <= id < TTY_COUNT -> con_ok (foldl (fun s c => tty_write id c s) s bs).
Proof.
  induction bs as [|c bs IH]; intros s C Hid; [done|]. cbn [foldl]. apply IH; [|done]. by apply tty_write_ok.
Qed.

Lemma con_step_ok s s' : con_ok s -> con_step s s' -> con_ok s'.
Proof.
  intros C St. destruct St.
  - apply tty_write_ok; [done|by apply tty_valid_iff].
  - unfold tty_write_buf. destruct buf as [bs|]; [|done]. destruct (tty_valid id) eqn:V; [|done].
    apply write_buf_ok; [done|by apply tty_valid_iff].
  - by apply tty_switch_ok.
  - by apply tty_handle_key_ok.
  - by eapply read_ok.
Qed.

(** ** The keyboard *)

Record kb_ok (k : keyboard) : Prop := {
  k_con : con_ok (kcon k);
  k_buffer : length (keyboard_buffer k) = Z.to_nat KEYBOARD_BUFFER_SIZE;
  k_head : 0 <= keyboard_buffer_head k < KEYBOARD_BUFFER_SIZE;
  k_tail : 0 <= keyboard_buffer_tail k < KEYBOARD_BUFFER_SIZE
}.

Lemma kb_ok_con k c : kb_ok k -> con_ok c -> kb_ok (set_kcon c k).
Proof. intros [] Hc. by constructor. Qed.

Lemma next_index i : 0 <= u16 ((i + 1) mod KEYBOARD_BUFFER_SIZE) < KEYBOARD_BUFFER_SIZE.
Proof. unfold KEYBOARD_BUFFER_SIZE. rewrite u16_small by zlia. zlia. Qed.

Lemma buffer_key_ok c k : kb_ok k -> kb_ok (buffer_key c k).
Proof.
  intros K. pose proof K as []. unfold buffer_key. case_z; [done|].
  rewrite store_at_in by (rewrite k_buffer0; unfold KEYBOARD_BUFFER_SIZE in *; lia).
  constructor; cbn; try done; [by rewrite length_insert|apply next_index].
Qed.

Lemma keyboard_handler_ok past sc k : kb_ok k -> kb_ok (keyboard_handler past sc k).
Proof.
  intros K. unfold keyboard_handler. set (c := table_char _ _ _).
  do 4 (case_match; [by destruct K; constructor|]). case_match; [done|].
  case_match; [by apply kb_ok_con, tty_handle_key_ok, K|].
  case_match; [by apply buffer_key_ok, kb_ok_con, tty_handle_key_ok, K|done].
Qed.

Lemma read_key_ok env : forall k c k',
  Forall (fun e => forall k, kb_ok k -> kb_ok (e k)) env -> kb_ok k -> keyboard_read_key env k = Ret c k' -> kb_ok k'.
Proof.
  induction env as [|e env IH]; intros k c k' E K; cbn [keyboard_read_key];
    (destruct (keyboard_has_key k); [intros [= _ <-]; pose proof (next_index (keyboard_buffer_tail k)); by destruct K; constructor|]);
    [done|]. inversion E; subst. eauto.
Qed.

(** A terminal operation, a keyboard interrupt or a read of the key buffer. *)
Inductive kb_step : keyboard -> keyboard -> Prop :=
| kb_con k c : con_step (kcon k) c -> kb_step k (set_kcon c k)
| kb_irq past sc k : kb_step k (keyboard_handler past sc k)
| kb_read env k c k' :
    Forall (fun e => forall k, kb_ok k -> kb_ok (e k)) env -> keyboard_read_key env k = Ret c k' -> kb_step k k'.

Lemma kb_step_ok k k' : kb_ok k -> kb_step k k' -> kb_ok k'.
Proof.
  intros K St. destruct St; [|by apply keyboard_handler_ok|by eapply read_key_ok].
  apply kb_ok_con; [done|]. eapply con_step_ok; [apply K|done].
Qed.

Lemma kb_reach_ok k k' : kb_ok k -> rtc kb_step k k' -> kb_ok k'.
Proof. intros K St. induction St; [done|]. eauto using kb_step_ok. Qed.

Lemma irqs_reach past l : forall k, rtc kb_step k (foldl (fun k sc => keyboard_handler past sc k) k l).
Proof. induction l as [|sc l IH]; intros k; [done|]. eapply rtc_l; [apply kb_irq|apply IH]. Qed.

(** The keyboard's variables as the program starts. *)
Definition keyboard_start (c : console) : keyboard :=
  mkKeyboard false false (replicate (Z.to_nat KEYBOARD_BUFFER_SIZE) 0) 0 0 c.

Lemma keyboard_start_ok c : con_ok c -> kb_ok (keyboard_start c).
Proof. intros C. by constructor. Qed.

Section Boot.
Context `{KernelHeap}.

(** The first [i] terminals have been allocated and cleared. *)
Record made (i : nat) (al : list blk) (s : console) : Prop := {
  m_length : length (ttys s) = Z.to_nat TTY_COUNT;
  m_distinct : NoDup (take i (ttys s));
  m_each : forall p, p ∈ take i (ttys s) -> p <> 0 /\ terms s !! p = Some (tty_clear zero_tty) /\ exists sz, (p - 12, sz) ∈ al /\ 0 < sz
}.

Lemma made_next i al s p sz h :
  heap_inv h ((p - 12, sz) :: al) -> 0 < sz -> made i al s -> (i < 4)%nat ->
  made (S i) ((p - 12, sz) :: al) (set_term p (tty_clear zero_tty) (set_ttys (<[i := p]> (ttys s)) s)).
Proof.
  intros Hi Hs [] Hlt. change (Z.to_nat TTY_COUNT) with 4%nat in *.
  assert (Et : take (S i) (<[i:=p]> (ttys s)) = take i (ttys s) ++ [p]).
  { rewrite (take_S_r _ _ p) by (apply list_lookup_insert_eq; lia). by rewrite take_insert_ge. }
  assert (Hp : p ∉ take i (ttys s)).
  { intros Hin. destruct (m_each0 p Hin) as (_ & _ & sz' & Hal & Hs').
    pose proof (inv_disj _ _ Hi) as D. inversion D as [|? ? HF _]; subst. rewrite Forall_forall in HF.
    specialize (HF _ Hal). unfold disj, bend, sizeof_block_header_t in HF. simpl in HF. lia. }
  pose proof (inv_bounds _ _ (p - 12, sz) Hi (list_elem_of_here _ _)) as (B & _). simpl in B.
  constructor; cbn [set_term set_ttys ttys terms].
  - by rewrite length_insert.
  - rewrite Et. apply NoDup_app. split; [done|]. split; [set_solver|apply NoDup_singleton].
  - rewrite Et. intros q [Hq|Hq]%elem_of_app.
    + destruct (m_each0 q Hq) as (? & Hl & sz' & ? & ?). split; [done|]. split; [|exists sz'; set_solver].
      rewrite lookup_insert_ne; [done|]. intros ->. done.
    + apply list_elem_of_singleton in Hq as ->. split; [lia|]. split; [by rewrite lookup_insert_eq|exists sz; set_solver].
Qed.

Lemma init_loop_ok n : forall i h al s,
  heap_inv h al -> made i al s -> (i + n = 4)%nat ->
  ends (tty_init_loop n (Z.of_nat i) (h, s)) (fun ok hs => ok = true /\ exists al', made 4 al' hs.2 /\ disp hs.2 = disp s).
Proof.
  induction n as [|n IH]; intros i h al s Hi Hm Hn; cbn [tty_init_loop].
  - apply ends_ret. split; [done|]. exists al. by replace 4%nat with i by lia.
  - apply ends_bind. unfold zoom. cbn [fst].
    destruct (malloc_law h al sizeof_tty_t Hi ltac:(unfold sizeof_tty_t; lia)) as [(p & sz & h' & -> & Hsz & Hi' & _)| ->]; [|done].
    cbn [ends snd]. apply ends_bind. cbn [modify ends fst snd].
    pose proof (made_next i al s p sz h' Hi' ltac:(unfold sizeof_tty_t in *; lia) Hm ltac:(lia)) as M'.
    pose proof (inv_bounds _ _ (p - 12, sz) Hi' ltac:(set_solver)) as (B & _). simpl in B.
    destruct (Z.eqb_spec p 0); [lia|]. apply ends_bind. cbn [modify ends fst snd]. rewrite Nat2Z.id.
    replace (Z.of_nat i + 1) with (Z.of_nat (S i)) by lia. eapply ends_mono; [apply (IH (S i) h' _ _ Hi' M'); lia|].
    intros ok [h2 s2] (-> & al' & Hm' & Hd). simpl in *. eauto.
Qed.

Lemma made_ready al s :
  made 4 al s -> length (text (disp s)) = Z.to_nat TTY_CELL_COUNT -> wild (disp s) = false ->
  let c := set_ready s in con_ok (tty_render (active_tty c) c).
Proof.
  intros [] Ht Hw c. change (Z.to_nat TTY_COUNT) with 4%nat in m_length0. rewrite firstn_all2 in * by lia.
  assert (Hp : forall i, 0 <= i < TTY_COUNT -> tty_ptr i s ∈ ttys s).
  { intros i Hi. eapply list_elem_of_lookup_2, ptr_lookup; done. }
  assert (Hz : buf_ok (tty_clear zero_tty)) by by constructor.
  assert (Hterm : forall i, 0 <= i < TTY_COUNT -> term (tty_ptr i s) s = tty_clear zero_tty).
  { intros i Hi. unfold term. by destruct (m_each0 _ (Hp i Hi)) as (_ & -> & _). }
  assert (H0 : 0 <= 0 < TTY_COUNT) by (unfold TTY_COUNT; lia).
  unfold tty_render. change (active_tty c) with 0. change (tty_ptr 0 c) with (tty_ptr 0 s).
  change (term (tty_ptr 0 s) c) with (term (tty_ptr 0 s) s). rewrite (Hterm 0 H0).
  destruct (Z.eqb_spec (tty_ptr 0 s) 0) as [Z0|_]; [by apply (m_each0 _ (Hp 0 H0)) in Z0|].
  constructor; auto.
  - intros i Hi. apply (m_each0 _ (Hp i Hi)).
  - intros i Hi. change (term _ _) with (term (tty_ptr i s) s). by rewrite Hterm.
  - intros i Hi _. change (term _ _) with (term (tty_ptr i s) s). rewrite Hterm by done. by split.
  - change (term _ (on_disp _ _)) with (term (tty_ptr 0 s) s). rewrite Hterm by done.
    cbn [on_disp disp vga_move_cursor outb text]. by rewrite draw_full.
  - cbn [on_disp disp vga_move_cursor outb wild]. by rewrite draw_full.
  - intros _. change (term _ (on_disp _ _)) with (term (tty_ptr 0 s) s). rewrite Hterm by done.
    apply (cursor_moved 0 0); unfold VGA_WIDTH, VGA_HEIGHT; lia.
Qed.

(** C21: The screen shows the active terminal. From the moment [tty_init] returns,
    after any sequence of character and buffer writes to the four terminals,
    terminal switches, keyboard interrupts (with any scancode), reads of the key
    buffer and line reads, the VGA text memory is exactly the cell buffer of the
    active terminal and the hardware cursor is at that terminal's cursor, inside
    the screen; no operation has stored outside an array: the screen, a
    terminal's cells (scrolling included), its input queue and its line, and the
    keyboard's buffer all mark such a store in [wild]. *)
Theorem display_mirrors_active h al s0 :
  heap_inv h al -> ttys s0 = replicate (Z.to_nat TTY_COUNT) 0 ->
  length (text (disp s0)) = Z.to_nat TTY_CELL_COUNT -> wild (disp s0) = false ->
  ends (tty_init (h, s0)) (fun _ hs => forall k, rtc kb_step (keyboard_start hs.2) k ->
    let s := kcon k in
    let t := term (tty_ptr (active_tty s) s) s in
    text (disp s) = cells t /\ cursor_pos (disp s) = cur_y t * VGA_WIDTH + cur_x t
    /\ cursor_ok t /\ wild (disp s) = false).
Proof.
  intros Hi Ht Hl Hw. unfold tty_init.
  assert (Hm : made 0 al s0) by (constructor; [by rewrite Ht|apply NoDup_nil_2|set_solver]).
  eapply ends_seq; [apply (init_loop_ok 4 0 h al s0 Hi Hm); lia|].
  intros ok [h' s1] (-> & al' & Hm' & Hd). cbn [modify ends fst snd] in *.
  intros k R. apply kb_reach_ok in R; [|apply keyboard_start_ok, (made_ready al'); [done|by rewrite Hd..]].
  apply k_con in R. pose proof (c_active _ _ R) as Ha. cbv zeta.
  split_and!; [apply R|apply (c_pos _ _ R); lia|apply (c_cursor _ _ R); lia|apply R].
Qed.
End Boot.

(** C26: Reading is line editing. A read that finds no unfinished line waits for
    keys, in the order they were pressed, until a newline: it returns the line
    that erasing and the 255-character limit leave of those keys ([edited]), up
    to [size] characters; the rest of the line stays for the next reads, the keys
    after the newline stay in the queue, and two rounds of the recursion and one
    step per key are enough. *)
Theorem tty_read_line s typed ks c rest fuel size :
  let p := tty_ptr (active_tty s) s in
  con_ok s -> Forall is_key typed -> line_fill (term p s) <= line_pos (term p s) ->
  stream p s typed = ks ++ c :: rest -> Forall (fun k => newline k = false) ks -> newline c = true ->
  (length ks < fuel)%nat -> 0 <= size ->
  exists s' typed',
    tty_read 2 fuel (map press typed) (active_tty s) size true s
      = Ret (Some (take (Z.to_nat size) (edited ks ++ [10]))) s'
    /\ con_ok s' /\ unread (term p s') = drop (Z.to_nat size) (edited ks ++ [10])
    /\ stream p s' typed' = rest.
Proof.
  intros p C K Hl E Hks Hc Hf Hs. pose proof (c_active _ _ C) as Ha.
  cbn [tty_read]. rewrite (proj2 (tty_valid_iff _) Ha). cbn [negb orb]. fold p.
  rewrite (proj2 (Z.eqb_neq p 0) (c_ptr _ _ C _ Ha)), (proj2 (Z.ltb_ge _ _) Hl).
  set (t0 := with_line (term p s) (line (term p s)) 0 0). set (s1 := set_term p t0 s).
  assert (C1 : con_ok s1).
  { apply con_ok_set; try done. destruct (c_term _ _ C _ Ha). constructor; try done; cbn; unfold TTY_LINE_SIZE; lia. }
  assert (T1 : term p s1 = t0) by (unfold s1; by rewrite term_set, Z.eqb_refl).
  edestruct (collect_stream ks fuel s1 typed c rest) as (s2 & typed2 & R2 & (C2 & Et2 & Ea2) & K2 & S2 & Ec2 & El2);
    [done|done| |done|done| |done|].
  { change (tty_ptr (active_tty s1) s1) with p. unfold stream. rewrite T1. exact E. }
  { change (tty_ptr (active_tty s1) s1) with p. rewrite T1. simpl. lia. }
  change (tty_ptr (active_tty s1) s1) with p in *. change (active_tty s1) with (active_tty s) in *. rewrite R2.
  assert (P2 : tty_ptr (active_tty s) s2 = p) by (unfold tty_ptr; rewrite Et2; done). rewrite P2.
  pose proof (c_ptr _ _ C2 _ Ha) as N2. rewrite P2 in N2. rewrite (proj2 (Z.eqb_neq p 0) N2).
  pose proof (c_term _ _ C2 _ Ha) as B2. rewrite P2 in B2. pose proof (contents_length _ B2) as L2.
  rewrite Ec2 in L2.
  rewrite T1 in Ec2, El2, L2. change (foldl edit_key (contents t0) ks) with (edited ks) in *.
  rewrite length_app in L2. simpl in L2. rewrite El2. change (line_pos t0) with 0.
  pose proof (b_fill _ B2) as F2. destruct (Z.ltb_spec 0 (line_fill (term p s2))); [|lia].
  set (t2 := term p s2) in *. set (n := if line_fill t2 - 0 <? size then line_fill t2 - 0 else size).
  assert (Hn : forall l : list Z, length l = Z.to_nat (line_fill t2) -> take (Z.to_nat n) l = take (Z.to_nat size) l /\ drop (Z.to_nat n) l = drop (Z.to_nat size) l).
  { intros l Ll. unfold n. case_z; [|done]. rewrite !take_ge, !drop_ge by lia. done. }
  assert (Lc : length (edited ks ++ [10]) = Z.to_nat (line_fill t2)) by (rewrite length_app; simpl; lia).
  destruct (Hn _ Lc) as [Hn1 Hn2].
  assert (B3 : buf_ok (with_line t2 (line t2) (line_fill t2) n)).
  { destruct B2. constructor; try done. cbn [with_line line_pos]. unfold n. case_z; lia. }
  exists (set_term p (with_line t2 (line t2) (line_fill t2) n) s2), typed2. split_and!.
  - f_equal. f_equal. rewrite <- Hn1, <- Ec2. unfold contents. rewrite drop_0, take_take. f_equal. unfold n. case_z; lia.
  - rewrite <- P2. apply con_ok_set; try done; by rewrite P2.
  - rewrite term_set, Z.eqb_refl. unfold unread. cbn [with_line line_pos]. rewrite <- Hn2, <- Ec2. done.
  - unfold stream in *. by rewrite term_set, Z.eqb_refl.
Qed.

(** ** Concrete consoles *)

Definition demo_boot : console :=
  mkConsole (mkDisplay (replicate (Z.to_nat TTY_CELL_COUNT) 0) [] false) (replicate (Z.to_nat TTY_COUNT) 0) ∅ 0 false 0 0 [].

Definition demo_made : console :=
  mkConsole (mkDisplay (replicate (Z.to_nat TTY_CELL_COUNT) 0) [] false) [8192; 16384; 24576; 32768]
    (list_to_map (map (fun p => (p, tty_clear zero_tty)) [8192; 16384; 24576; 32768])) 0 false 0 0 [].
Definition demo_console : console := let c := set_ready demo_made in tty_render (active_tty c) c.

Lemma demo_console_ok : con_ok demo_console.
Proof.
  apply (made_ready (map (fun p => (p - 12, 4536)) [8192; 16384; 24576; 32768]) demo_made); [|done|done].
  constructor; [done|by apply (bool_decide_unpack _); vm_compute|].
  intros p Hp. cbn in Hp. repeat (apply elem_of_cons in Hp as [-> |Hp];
    [split; [done|]; split; [done|]; exists 4536; split; [set_solver|lia]|]). set_solver.
Qed.

Lemma display_mirrors_active_witness :
  heap_inv (mheap demo_mmu) [] /\ ttys demo_boot = replicate (Z.to_nat TTY_COUNT) 0 /\
  ends (tty_init (mheap demo_mmu, demo_boot)) (fun _ hs => forall k, rtc kb_step (keyboard_start hs.2) k ->
    let s := kcon k in
    let t := term (tty_ptr (active_tty s) s) s in
    text (disp s) = cells t /\ cursor_pos (disp s) = cur_y t * VGA_WIDTH + cur_x t
    /\ cursor_ok t /\ wild (disp s) = false).
Proof.
  split; [apply demo_mmu_inv|]. split; [done|].
  apply (display_mirrors_active (mheap demo_mmu) [] demo_boot); [apply demo_mmu_inv|done|done|done].
Defined.

(** Shift, a, release, Alt, F2, release, then the letter x written to the first
    terminal: the screen shows the second, and [A] waits in the first one's queue. *)
Example keys_and_switch :
  let k := foldl (fun k sc => keyboard_handler (fun _ => 0) sc k) (keyboard_start demo_console)
             [42; 30; 170; 56; 60; 184] in
  let k := set_kcon (tty_write 0 120 (kcon k)) k in
  rtc kb_step (keyboard_start demo_console) k /\ active_tty (kcon k) = 1
  /\ pending (term 8192 (kcon k)) = [65] /\ take 1 (cells (term 8192 (kcon k))) = [cell_of 120]
  /\ take 1 (text (disp (kcon k))) = [blank] /\ wild (disp (kcon k)) = false /\ take 1 (keyboard_buffer k) = [65].
Proof.
  intros k1 k. split; [|by vm_compute]. eapply rtc_r; [apply irqs_reach|]. by apply kb_con, st_write.
Qed.

(** The keys a, b, erase, c, newline: a read of one character returns [a] and
    leaves [c] and the newline. *)
Lemma tty_read_line_witness :
  let p := tty_ptr (active_tty demo_console) demo_console in
  let typed := [(30, 97); (48, 98); (14, 8); (46, 99); (28, 10)] in
  exists s' typed',
    tty_read 2 5 (map press typed) 0 1 true demo_console = Ret (Some [97]) s'
    /\ con_ok s' /\ unread (term p s') = [99; 10] /\ stream p s' typed' = [].
Proof.
  intros p typed. apply (tty_read_line demo_console typed [97; 98; 8; 99] 10 [] 5 1).
  - apply demo_console_ok.
  - repeat constructor; simpl; lia.
  - vm_compute. discriminate.
  - vm_compute. reflexivity.
  - repeat constructor.
  - reflexivity.
  - simpl; lia.
  - lia.
Defined.
