(* ===== verification/Disk.v ===== *)
(** ATA sector reads: stage2/dev/disk.c.

    The drive is seen through its ports ([AtaPorts]); [AtaDrive] states the part
    of the ATA protocol the driver relies on, and [drive] is a concrete drive
    that follows it. The destination buffer is the list of bytes transferred.
    [BlockDev] is what the file system is verified against; the driver running
    on a protocol-abiding drive is an instance. *)
From S2P Require Import Prelude.

(** Reads of the status register, writes to a register, and a transfer of 256
    words from the data port. *)
Class AtaPorts (D : Type) := {
  in_status : D -> Z * D;
  out_reg : Z -> Z -> D -> D;
  insw : D -> list Z * D
}.

Record disk (D : Type) := mkDisk { dev : D; disk_mutex : bool; wakes : nat }.
Arguments mkDisk {D}. Arguments dev {D}. Arguments disk_mutex {D}. Arguments wakes {D}.

Section Driver.
Context {D : Type} `{AtaPorts D}.

Definition set_dev (d : D) (s : disk D) : disk D := mkDisk d (disk_mutex s) (wakes s).

(** A contender runs the next element of the schedule and looks again. *)
Fixpoint disk_lock (env : list (disk D -> disk D)) (s : disk D) : res (disk D) unit :=
  if disk_mutex s then
    match env with
    | [] => NoFuel
    | e :: env' => disk_lock env' (e s)
    end
  else Ret tt (mkDisk (dev s) true (wakes s)).

Definition disk_unlock : M (disk D) unit := modify (fun s => mkDisk (dev s) false (S (wakes s))).

Definition inb_status : M (disk D) Z := fun s =>
  let '(v, d) := in_status (dev s) in Ret v (set_dev d s).
Definition outb (port v : Z) : M (disk D) unit := modify (fun s => set_dev (out_reg port (u8 v) (dev s)) s).
Definition insw256 : M (disk D) (list Z) := fun s =>
  let '(bs, d) := insw (dev s) in Ret bs (set_dev d s).

Fixpoint ata_wait_busy_clear (fuel : nat) : M (disk D) unit :=
  match fuel with
  | O => out_of_fuel
  | S fuel' => st ← inb_status; if negb (Z.land st 128 =? 0) then ata_wait_busy_clear fuel' else mret tt
  end.

Fixpoint ata_wait_drq_set (fuel : nat) : M (disk D) unit :=
  match fuel with
  | O => out_of_fuel
  | S fuel' => st ← inb_status; if Z.land st 8 =? 0 then ata_wait_drq_set fuel' else mret tt
  end.

(** The do loop that waits for a sector: whether it can be transferred. *)
Fixpoint ata_poll (fuel : nat) (timeout : Z) : M (disk D) bool :=
  match fuel with
  | O => out_of_fuel
  | S fuel' =>
      status ← inb_status;
      if negb (Z.land status 1 =? 0) then mret false
      else
        let timeout := u32 (timeout - 1) in
        if timeout =? 0 then mret false
        else if negb (Z.land status 136 =? 8) then ata_poll fuel' timeout
        else mret true
  end.

Definition ATA_TIMEOUT : Z := 10000000.

(** The sectors transferred, [n] of them being left. *)
Fixpoint ata_sectors (fuel n : nat) : M (disk D) (list Z) :=
  match n with
  | O => mret []
  | S n' =>
      ok ← ata_poll fuel ATA_TIMEOUT;
      if (ok : bool) then
        bs ← insw256;
        rest ← ata_sectors fuel n';
        mret (bs ++ rest)
      else mret []
  end.

Definition ata_lba_read (fuel : nat) (env : list (disk D -> disk D)) (lba sector_count drive : Z) : M (disk D) (list Z) :=
  (disk_lock env : M (disk D) unit) ;;
  let drive_select := if negb (Z.land drive 1 =? 0) then 240 else 224 in
  ata_wait_busy_clear fuel ;;
  outb 502 (Z.lor drive_select (Z.land (Z.shiftr lba 24) 15)) ;;
  outb 498 sector_count ;;
  outb 499 (u8 lba) ;;
  outb 500 (u8 (Z.shiftr lba 8)) ;;
  outb 501 (u8 (Z.shiftr lba 16)) ;;
  outb 503 32 ;;
  bs ← ata_sectors fuel (Z.to_nat (u8 sector_count));
  disk_unlock ;;
  mret bs.
End Driver.

(** ** The protocol *)

(** [idle] and [serving lba n] (a READ SECTORS command with [n] sectors from
    [lba] still to come) are states of the drive; [ready] is [serving] with the
    next sector in its buffer. *)
Class AtaDrive (D : Type) `{AtaPorts D} := {
  sector : D -> Z -> list Z;
  idle : D -> Prop;
  serving : D -> Z -> nat -> Prop;
  ready : D -> Z -> nat -> Prop;
  latency : nat;

  ata_latency : Z.of_nat latency < 10000000 - 1;
  ata_length : forall d lba, length (sector d lba) = 512%nat;
  ata_idle : forall d, idle d ->
    Z.land (in_status d).1 128 = 0 /\ idle (in_status d).2 /\ sector (in_status d).2 = sector d;
  ata_command : forall d lba n, idle d -> 0 <= lba < 268435456 -> 0 < n < 256 ->
    let d' := out_reg 503 32 (out_reg 501 (u8 (Z.shiftr lba 16)) (out_reg 500 (u8 (Z.shiftr lba 8))
                (out_reg 499 (u8 lba) (out_reg 498 n
                (out_reg 502 (u8 (Z.lor 224 (Z.land (Z.shiftr lba 24) 15))) d))))) in
    serving d' lba (Z.to_nat n) /\ sector d' = sector d;
  (** Within [latency] polls the status shows DRQ without BSY; no poll before
      that does, and none shows an error. *)
  ata_serving : forall d lba n, serving d lba (S n) -> exists k, (k <= latency)%nat /\
    (forall i, (i < k)%nat -> let st := (in_status (Nat.iter i (fun d => (in_status d).2) d)).1 in
       Z.land st 1 = 0 /\ Z.land st 136 <> 8) /\
    let r := in_status (Nat.iter k (fun d => (in_status d).2) d) in
    Z.land r.1 1 = 0 /\ Z.land r.1 136 = 8 /\ ready r.2 lba (S n) /\ sector r.2 = sector d;
  ata_ready : forall d lba n, ready d lba (S n) ->
    (insw d).1 = sector d lba /\ sector (insw d).2 = sector d
    /\ match n with O => idle (insw d).2 | S _ => serving (insw d).2 (lba + 1) n end
}.

(** The bytes of [n] consecutive sectors. *)
Definition sectors_from (f : Z -> list Z) (lba : Z) (n : nat) : list Z :=
  concat (map (fun i => f (lba + Z.of_nat i)) (seq 0 n)).

Section Reads.
Context {D : Type} `{AtaDrive D}.

Lemma in_status_inb (s : disk D) : inb_status s = Ret (in_status (dev s)).1 (set_dev (in_status (dev s)).2 s).
Proof. unfold inb_status. by destruct (in_status (dev s)). Qed.

Lemma insw_eq (s : disk D) : insw256 s = Ret (insw (dev s)).1 (set_dev (insw (dev s)).2 s).
Proof. unfold insw256. by destruct (insw (dev s)). Qed.

Lemma poll_ready k : forall fuel t (s : disk D),
  (k < fuel)%nat -> Z.of_nat k + 1 < t < 4294967296 ->
  (forall i, (i < k)%nat -> let st := (in_status (Nat.iter i (fun d => (in_status d).2) (dev s))).1 in
       Z.land st 1 = 0 /\ Z.land st 136 <> 8) ->
  let r := in_status (Nat.iter k (fun d => (in_status d).2) (dev s)) in
  Z.land r.1 1 = 0 -> Z.land r.1 136 = 8 ->
  ata_poll fuel t s = Ret true (set_dev r.2 s).
Proof.
  induction k as [|k IH]; intros fuel t s Hf Ht Hi r H1 H8; (destruct fuel as [|fuel]; [lia|]); cbn [ata_poll];
    erewrite bind_ret by apply in_status_inb.
  - simpl in r. fold r. rewrite H1, H8. cbn [negb Z.eqb]. rewrite u32_small by lia.
    rewrite (proj2 (Z.eqb_neq (t - 1) 0)) by lia. done.
  - destruct (Hi 0%nat ltac:(lia)) as [Z1 Z8]. simpl in Z1, Z8. rewrite Z1. cbn [negb Z.eqb].
    rewrite u32_small, (proj2 (Z.eqb_neq (t - 1) 0)), (proj2 (Z.eqb_neq _ _) Z8) by lia. cbn [negb].
    subst r. rewrite Nat.iter_succ_r in *. apply (IH fuel (t - 1) (set_dev _ s)); try done; try lia.
    intros i Hik. specialize (Hi (S i) ltac:(lia)). rewrite Nat.iter_succ_r in Hi. exact Hi.
Qed.

Lemma sectors_cons (f : Z -> list Z) lba n : sectors_from f lba (S n) = f lba ++ sectors_from f (lba + 1) n.
Proof.
  unfold sectors_from. cbn [seq map concat]. f_equal; [f_equal; lia|]. rewrite <- seq_shift, map_map.
  f_equal. apply map_ext. intros i. f_equal. lia.
Qed.

Lemma sectors_served n : forall fuel lba (s : disk D),
  (latency < fuel)%nat -> serving (dev s) lba (S n) ->
  exists d', ata_sectors fuel (S n) s = Ret (sectors_from (sector (dev s)) lba (S n)) (set_dev d' s)
    /\ idle d' /\ sector d' = sector (dev s).
Proof.
  induction n as [|n IH]; intros fuel lba s Hf Hs; cbn [ata_sectors]; pose proof ata_latency as HL;
    destruct (ata_serving _ _ _ Hs) as (k & Hk & Hi & H1 & H8 & Hr & Hsec);
    erewrite bind_ret by (apply (poll_ready k); [lia|unfold ATA_TIMEOUT; lia|done|done|done]);
    set (d1 := (in_status _).2) in *; destruct (ata_ready _ _ _ Hr) as (E & Hsec2 & Hn);
    erewrite bind_ret by apply insw_eq; cbn [set_dev dev];
    destruct (insw d1) as [bs d2]; cbn [fst snd] in *.
  - exists d2. split; [|split; [done|congruence]]. rewrite sectors_cons, E, Hsec. reflexivity.
  - destruct (IH fuel (lba + 1) (set_dev d2 (set_dev d1 s)) Hf Hn) as (d3 & R & Hid & Hsec3).
    cbn [set_dev dev] in *. erewrite bind_ret by exact R. exists d3. split; [|split; [done|congruence]].
    rewrite (sectors_cons _ lba), E, Hsec2, Hsec. reflexivity.
Qed.

Lemma lba_read_spec fuel env lba n (s : disk D) :
  idle (dev s) -> disk_mutex s = false -> 0 <= lba < 268435456 -> 0 < n < 256 -> (latency < fuel)%nat ->
  exists d', ata_lba_read fuel env lba n 0 s
      = Ret (sectors_from (sector (dev s)) lba (Z.to_nat n)) (mkDisk d' false (S (wakes s)))
    /\ idle d' /\ sector d' = sector (dev s).
Proof.
  intros Hi Hm Hl Hn Hf. unfold ata_lba_read. destruct (ata_idle _ Hi) as (B & Hi1 & Hs1).
  erewrite bind_ret by (destruct env; cbn [disk_lock]; rewrite Hm; reflexivity).
  destruct fuel as [|fuel]; [lia|].
  set (s1 := mkDisk (dev s) true (wakes s)). set (d1 := (in_status (dev s)).2) in *.
  assert (W : ata_wait_busy_clear (S fuel) s1 = Ret tt (set_dev d1 s1)).
  { cbn [ata_wait_busy_clear]. erewrite bind_ret by apply in_status_inb. cbn [s1 dev]. rewrite B. done. }
  cbv zeta. change (if negb (Z.land 0 1 =? 0) then 240 else 224) with 224.
  erewrite bind_ret by exact W.
  destruct (ata_command d1 lba n Hi1 Hl Hn) as [Hsv Hs2]. set (d2 := out_reg 503 32 _) in *.
  do 6 (erewrite bind_ret by reflexivity). cbn [set_dev dev disk_mutex wakes s1].
  rewrite !(u8_small (u8 (Z.shiftr lba _))), !(u8_small (u8 lba)), !(u8_small n), (u8_small 32) by first [apply u8_range|lia].
  fold d2. replace (Z.to_nat n) with (S (Z.to_nat n - 1)) in * by lia.
  destruct (sectors_served (Z.to_nat n - 1) (S fuel) lba (mkDisk d2 true (wakes s)) ltac:(lia) Hsv) as (d3 & R & Hi3 & Hs3).
  erewrite bind_ret by exact R. exists d3. cbn [dev] in *. rewrite Hs2, Hs1. split; [done|]. split; [done|congruence].
Qed.
End Reads.

(** ** What the file system relies on *)

(** Byte [a] of the medium. *)
Definition byte_of (f : Z -> list Z) (a : Z) : Z := default 0 (f (a / 512) !! Z.to_nat (a mod 512)).
Definition bytes_at (b : Z -> Z) (a : Z) (n : nat) : list Z := map (fun i => b (a + Z.of_nat i)) (seq 0 n).

Lemma length_bytes_at b a n : length (bytes_at b a n) = n.
Proof. unfold bytes_at. by rewrite length_map, length_seq. Qed.

Lemma lookup_bytes_at b a n i : (i < n)%nat -> bytes_at b a n !! i = Some (b (a + Z.of_nat i)).
Proof.
  intros Hi. unfold bytes_at. change (map ?f ?l) with (f <$> l). rewrite list_lookup_fmap, lookup_seq_lt by done. done.
Qed.

Lemma bytes_at_app b a n m : bytes_at b a (n + m) = bytes_at b a n ++ bytes_at b (a + Z.of_nat n) m.
Proof.
  unfold bytes_at. rewrite seq_app, map_app. f_equal. change (0 + n)%nat with n.
  replace (seq n m) with (Nat.add n <$> seq 0 m) by (rewrite fmap_add_seq; f_equal; lia). change (?f <$> ?l) with (map f l).
  rewrite map_map. apply map_ext. intros i. f_equal. lia.
Qed.

Lemma take_bytes_at b a n m : take n (bytes_at b a m) = bytes_at b a (n `min` m).
Proof.
  apply list_eq. intros i. destruct (Nat.lt_ge_cases i (n `min` m)) as [Hi|Hi].
  - rewrite lookup_take_lt, !lookup_bytes_at by lia. done.
  - rewrite !lookup_ge_None_2; [done|rewrite length_bytes_at; lia|rewrite length_take, length_bytes_at; lia].
Qed.

Lemma drop_bytes_at b a n m : drop n (bytes_at b a m) = bytes_at b (a + Z.of_nat n) (m - n).
Proof.
  apply list_eq. intros i. rewrite lookup_drop. destruct (Nat.lt_ge_cases (n + i) m) as [Hi|Hi].
  - rewrite !lookup_bytes_at by lia. do 2 f_equal. lia.
  - rewrite !lookup_ge_None_2; [done|rewrite length_bytes_at; lia|rewrite length_bytes_at; lia].
Qed.

Lemma sectors_bytes f n : forall lba, (forall l, length (f l) = 512%nat) -> 0 <= lba ->
  sectors_from f lba n = bytes_at (byte_of f) (lba * 512) (n * 512).
Proof.
  induction n as [|n IH]; intros lba Hf Hl; [done|].
  rewrite sectors_cons, IH by (done || lia). change (S n * 512)%nat with (512 + n * 512)%nat. rewrite bytes_at_app.
  f_equal; [|f_equal; lia]. apply list_eq. intros i. destruct (Nat.lt_ge_cases i 512) as [Hi|Hi].
  - rewrite lookup_bytes_at by done. unfold byte_of.
    replace ((lba * 512 + Z.of_nat i) / 512) with lba by zlia.
    replace (Z.to_nat ((lba * 512 + Z.of_nat i) mod 512)) with i by zlia.
    destruct (lookup_lt_is_Some_2 (f lba) i) as [v ->]; [by rewrite Hf|done].
  - rewrite !lookup_ge_None_2; [done|rewrite length_bytes_at; lia|rewrite Hf; lia].
Qed.

(** [ata_read lba n]: the bytes a read of [n] sectors of drive 0 stores. *)
Class BlockDev (D : Type) := {
  ata_read : Z -> Z -> M D (list Z);
  disk_inv : D -> Prop;
  image : D -> Z -> Z;
  image_law : forall d lba n, disk_inv d -> 0 <= lba < 268435456 -> 0 < n < 256 ->
    exists d', ata_read lba n d = Ret (bytes_at (image d) (lba * 512) (Z.to_nat n * 512)) d'
      /\ disk_inv d' /\ image d' = image d
}.

#[export, refine] Instance ata_blocks {D} `{AtaDrive D} : BlockDev (disk D) := {|
  ata_read lba n := ata_lba_read (S latency) [] lba n 0;
  disk_inv s := idle (dev s) /\ disk_mutex s = false;
  image s := byte_of (sector (dev s))
|}.
Proof.
  intros s lba n [Hi Hm] Hl Hn.
  destruct (lba_read_spec (S latency) [] lba n s Hi Hm Hl Hn ltac:(lia)) as (d' & R & Hi' & Hs').
  exists (mkDisk d' false (S (wakes s))). rewrite R, sectors_bytes by (apply ata_length || lia).
  split; [done|]. split; [done|]. simpl. by rewrite Hs'.
Defined.

(** ** A drive *)

Record drive := mkDrive {
  d_image : ram; r_count : Z; r_lba0 : Z; r_lba1 : Z; r_lba2 : Z; r_lba3 : Z;
  d_lba : Z; d_left : nat; d_wait : nat
}.

(** Every sector takes two polls to arrive. *)
Definition drive_wait : nat := 2.

Definition drive_status (d : drive) : Z * drive :=
  match d_left d, d_wait d with
  | O, _ => (80, d)
  | S _, O => (88, d)
  | S _, S w => (208, mkDrive (d_image d) (r_count d) (r_lba0 d) (r_lba1 d) (r_lba2 d) (r_lba3 d) (d_lba d) (d_left d) w)
  end.

Definition drive_out (port v : Z) (d : drive) : drive :=
  let '(mkDrive im c l0 l1 l2 l3 lba n w) := d in
  if port =? 498 then mkDrive im v l0 l1 l2 l3 lba n w
  else if port =? 499 then mkDrive im c v l1 l2 l3 lba n w
  else if port =? 500 then mkDrive im c l0 v l2 l3 lba n w
  else if port =? 501 then mkDrive im c l0 l1 v l3 lba n w
  else if port =? 502 then mkDrive im c l0 l1 l2 v lba n w
  else if (port =? 503) && (v =? 32) then
    mkDrive im c l0 l1 l2 l3 (l0 + 256 * l1 + 65536 * l2 + 16777216 * (l3 mod 16))
      (if c =? 0 then 256 else Z.to_nat c) drive_wait
  else d.

Definition drive_sector (d : drive) (lba : Z) : list Z := read_bytes_at 512 (lba * 512) (d_image d).

Definition drive_insw (d : drive) : list Z * drive :=
  match d_left d with
  | O => (replicate 512 0, d)
  | S n => (drive_sector d (d_lba d),
            mkDrive (d_image d) (r_count d) (r_lba0 d) (r_lba1 d) (r_lba2 d) (r_lba3 d) (d_lba d + 1) n drive_wait)
  end.

#[export] Instance drive_ports : AtaPorts drive :=
  {| in_status := drive_status; out_reg := drive_out; insw := drive_insw |}.

Lemma lba_parts lba :
  0 <= lba < 268435456 ->
  u8 lba + 256 * u8 (Z.shiftr lba 8) + 65536 * u8 (Z.shiftr lba 16)
  + 16777216 * (u8 (Z.lor 224 (Z.land (Z.shiftr lba 24) 15)) mod 16) = lba.
Proof.
  intros Hl. rewrite !Z.shiftr_div_pow2 by lia. change 15 with (Z.ones 4). rewrite Z.land_ones by lia.
  change (2 ^ 4) with 16. set (h := lba / 2 ^ 24). assert (Hh : 0 <= h < 16) by (unfold h; change (2 ^ 24) with 16777216; zlia).
  rewrite (Z.mod_small h) by lia. rewrite (lor_add_disjoint 224 h 5) by (done || change (2 ^ 5) with 32; lia).
  rewrite (u8_small (224 + h)) by lia. replace ((224 + h) mod 16) with h by zlia.
  unfold u8, h. change (2 ^ 8) with 256. change (2 ^ 16) with 65536. change (2 ^ 24) with 16777216. zlia.
Qed.

#[export, refine] Instance drive_protocol : AtaDrive drive := {|
  sector := drive_sector;
  idle d := d_left d = 0%nat;
  serving d lba n := d_lba d = lba /\ d_left d = n /\ d_wait d = drive_wait;
  ready d lba n := d_lba d = lba /\ d_left d = n;
  latency := drive_wait
|}.
Proof.
  - done.
  - intros d lba. apply length_read_bytes_at.
  - intros d Hd. cbn [in_status drive_ports]. unfold drive_status. by rewrite Hd.
  - intros [] lba n Hd Hl Hn. cbn [out_reg drive_ports drive_out Z.eqb Pos.eqb andb].
    cbn [d_lba d_left d_wait]. rewrite lba_parts by done. rewrite (proj2 (Z.eqb_neq n 0)) by lia. done.
  - intros [] lba n (H1 & H2 & H3). cbn in H1, H2, H3. subst. exists 2%nat. split; [done|]. split; [|done].
    intros [|[|]] Hi; [done|done|lia].
  - intros [] lba n (H1 & H2). cbn in H1, H2. subst. cbn [insw drive_ports]. unfold drive_insw. cbn [d_left].
    split; [done|]. split; [done|]. by destruct n.
Defined.

(** ** Errors and timeouts *)

Section Any.
Context {D : Type} `{AtaPorts D}.

(** What the driver does to the device changes neither the lock nor the wake-ups. *)
Definition same_lock (s s' : disk D) : Prop := disk_mutex s' = disk_mutex s /\ wakes s' = wakes s.

Lemma poll_returns fuel : forall t s,
  0 < t <= Z.of_nat fuel -> t < 4294967296 -> exists ok s', ata_poll fuel t s = Ret ok s' /\ same_lock s s'.
Proof.
  induction fuel as [|fuel IH]; intros t s Ht Hb; [lia|]. cbn [ata_poll]. erewrite bind_ret by apply in_status_inb.
  set (s1 := set_dev _ s). destruct (negb (Z.land _ 1 =? 0)); [by exists false, s1|]. rewrite u32_small by lia.
  destruct (Z.eqb_spec (t - 1) 0); [by exists false, s1|].
  destruct (negb (Z.land _ 136 =? 8)); [|by exists true, s1].
  destruct (IH (t - 1) s1) as (ok & s' & R & L1 & L2); [lia|lia|]. exists ok, s'. done.
Qed.

Lemma sectors_return n : forall fuel s,
  ATA_TIMEOUT <= Z.of_nat fuel -> exists bs s', ata_sectors fuel n s = Ret bs s' /\ same_lock s s'.
Proof.
  induction n as [|n IH]; intros fuel s Hf; [by exists [], s|]. cbn [ata_sectors].
  destruct (poll_returns fuel ATA_TIMEOUT s) as (ok & s1 & R1 & L1 & L2); [unfold ATA_TIMEOUT in *; lia|done|].
  erewrite bind_ret by exact R1. destruct ok; [|by exists [], s1].
  erewrite bind_ret by apply insw_eq. destruct (IH fuel (set_dev (insw (dev s1)).2 s1) Hf) as (bs & s2 & R2 & L3 & L4).
  erewrite bind_ret by exact R2. cbn [set_dev disk_mutex wakes] in *. eexists _, s2. split; [reflexivity|].
  split; congruence.
Qed.

(** C40: A disk read always returns and frees the lock. Whatever the drive
    answers afterwards (never ready, an error status, garbage), once it is not
    busy when the command is issued, [ata_lba_read] returns after at most ten
    million polls per sector, the lock is free again and its waiters have been
    woken. *)
Theorem ata_lba_read_returns fuel env lba n drv s :
  ATA_TIMEOUT <= Z.of_nat fuel -> disk_mutex s = false -> Z.land (in_status (dev s)).1 128 = 0 ->
  exists bs s', ata_lba_read fuel env lba n drv s = Ret bs s'
    /\ disk_mutex s' = false /\ wakes s' = S (wakes s).
Proof.
  intros Hf Hm Hb. unfold ata_lba_read. erewrite bind_ret by (destruct env; cbn [disk_lock]; rewrite Hm; reflexivity).
  cbv zeta. assert (W : ata_wait_busy_clear fuel (mkDisk (dev s) true (wakes s))
    = Ret tt (mkDisk (in_status (dev s)).2 true (wakes s))).
  { destruct fuel as [|fuel]; [unfold ATA_TIMEOUT in *; simpl in Hf; lia|]. cbn [ata_wait_busy_clear].
    erewrite bind_ret by apply in_status_inb. cbn [dev]. rewrite Hb. done. }
  erewrite bind_ret by exact W. do 6 (erewrite bind_ret by reflexivity). set (s1 := set_dev _ _).
  destruct (sectors_return (Z.to_nat (u8 n)) fuel s1 Hf) as (bs & s2 & R & L1 & L2).
  erewrite bind_ret by exact R. eexists bs, _. split; [reflexivity|]. cbn [disk_mutex wakes]. split; [done|].
  by rewrite L2.
Qed.
End Any.

Definition demo_drive : disk drive := mkDisk (mkDrive ∅ 0 0 0 0 0 0 0 0) false 0.

Lemma ata_lba_read_returns_witness :
  exists fuel bs s', ATA_TIMEOUT <= Z.of_nat fuel /\
  ata_lba_read fuel [] 7 2 0 demo_drive = Ret bs s' /\ disk_mutex s' = false /\ wakes s' = 1%nat.
Proof.
  exists (Z.to_nat ATA_TIMEOUT).
  assert (Hf : ATA_TIMEOUT <= Z.of_nat (Z.to_nat ATA_TIMEOUT)) by (rewrite Z2Nat.id; unfold ATA_TIMEOUT; lia).
  assert (Hb : Z.land (in_status (dev demo_drive)).1 128 = 0) by reflexivity.
  destruct (ata_lba_read_returns (Z.to_nat ATA_TIMEOUT) [] 7 2 0 demo_drive Hf eq_refl Hb) as (bs & s' & R).
  exists bs, s'. split; [exact Hf|exact R].
Defined.
