(* ===== verification/Fat16.v ===== *)
(** The read-only FAT16 file system: stage2/fat16.c.

    The disk is a [BlockDev]. Structures read from it are parsed from their
    bytes; buffers are lists of bytes, an allocation of zero bytes being the only
    one that yields a null pointer. A string is the list of the bytes from its
    address on. Cluster chains are followed with fuel; a zero cluster size makes
    the CPU fault on the division in [fat16_read] ([Halted]). *)
From S2P Require Import Prelude Utils Disk Net.

Definition DIR_ATTR_LFN : Z := 15.
Definition DIR_ATTR_DIRECTORY : Z := 16.
Definition SECTOR_SIZE : Z := 512.
Definition MAX_OPEN_FILES : nat := 8.
Definition sizeof_dir_t : Z := 32.
Definition sizeof_BPB_t : Z := 36.

Definition f32 (bs : list Z) (i : nat) : Z := f16 bs i + 65536 * f16 bs (i + 2).

Record fat16_file_t := mkFile {
  path : list Z; start_cluster : Z; fsize : Z; offset : Z; fused : bool; frefs : Z
}.
Definition zero_file : fat16_file_t := mkFile (replicate 256 0) 0 0 0 false 0.

(** The BIOS parameter block, without the fields nothing reads. *)
Record BPB_t := mkBPB {
  BytsPerSec : Z; SecPerClus : Z; RsvdSecCnt : Z; NumFATs : Z; RootEntCnt : Z; FATSz16 : Z
}.
Definition bpb_of (bs : list Z) : BPB_t :=
  mkBPB (f16 bs 11) (char_at bs 13) (f16 bs 14) (char_at bs 16) (f16 bs 17) (f16 bs 22).

Record dir_t := mkDir { Name : list Z; Attr : Z; FstClusLO : Z; FileSize : Z }.
Definition dir_of (bs : list Z) : dir_t :=
  mkDir (slice 0 11 bs) (char_at bs 11) (f16 bs 26) (f32 bs 28).

Record lfn_entry_t := mkLfn { Name1 : list Z; Name2 : list Z; Name3 : list Z }.
Definition units (bs : list Z) (off n : nat) : list Z := map (fun j => f16 bs (off + 2 * j)) (seq 0 n).
Definition lfn_of (bs : list Z) : lfn_entry_t := mkLfn (units bs 1 5) (units bs 14 6) (units bs 28 2).

Record fat (D : Type) := mkFat {
  g_bpb : BPB_t; g_part_offset : Z; open_files : list fat16_file_t; fdisk : D; registered : bool
}.
Arguments mkFat {D}. Arguments g_bpb {D}. Arguments g_part_offset {D}. Arguments open_files {D}.
Arguments fdisk {D}. Arguments registered {D}.

(** ** Addresses *)

Definition BPB_FAT_addr (b : BPB_t) : Z := u32 (RsvdSecCnt b * BytsPerSec b).
Definition BPB_Root_addr (b : BPB_t) : Z := u32 (BPB_FAT_addr b + NumFATs b * FATSz16 b * BytsPerSec b).
Definition BPB_Data_addr (b : BPB_t) : Z := u32 (BPB_Root_addr b + RootEntCnt b * 32).
Definition cluster_size (b : BPB_t) : Z := BytsPerSec b * SecPerClus b.

(** ** File names *)

(** One of the three loops of [get_lfn_name]: the name so far and whether the
    end was met. *)
Fixpoint lfn_field (us : list Z) (outsize : Z) (out : list Z) : list Z * bool :=
  match us with
  | [] => (out, false)
  | c :: us' =>
      if (c =? 0) || (c =? 65535) || (outsize - 1 <=? Z.of_nat (length out)) then (out, true)
      else lfn_field us' outsize (out ++ [u8 c])
  end.

(** The entries from the last one down. *)
Fixpoint lfn_loop (entries : list lfn_entry_t) (outsize : Z) (out : list Z) : list Z :=
  match entries with
  | [] => out
  | e :: rest =>
      let '(out, done) := lfn_field (Name1 e) outsize out in
      if (done : bool) then out
      else
        let '(out, done) := lfn_field (Name2 e) outsize out in
        if (done : bool) then out
        else
          let '(out, done) := lfn_field (Name3 e) outsize out in
          if (done : bool) then out else lfn_loop rest outsize out
  end.
Definition get_lfn_name (entries : list lfn_entry_t) (outsize : Z) : list Z := lfn_loop (rev entries) outsize [].

Definition drop_spaces (s : list Z) : list Z := map (fun c => if c =? 32 then 0 else c) s.
Definition cstr (s : list Z) : list Z := take (strlen s) s.

Definition get_file_name (d : dir_t) (entries : list lfn_entry_t) (outsize : Z) : list Z :=
  match entries with
  | _ :: _ => get_lfn_name entries outsize
  | [] =>
      let name := drop_spaces (take 8 (Name d)) in
      let ext := drop_spaces (take 3 (drop 8 (Name d))) in
      let room (out : list Z) := Z.to_nat (outsize - 1 - Z.of_nat (length out)) in
      let out := take (room []) (cstr name) in
      if negb (char_at ext 0 =? 0) && (Z.of_nat (length out) <? outsize - 1) then
        let out := out ++ [46] in out ++ take (room out) (cstr ext)
      else out
  end.

(** ** Reading the disk *)

Section Fat.
Context {D : Type} `{BlockDev D}.
Abbreviation FM := (M (fat D)).

Definition set_disk (d : D) (s : fat D) : fat D := mkFat (g_bpb s) (g_part_offset s) (open_files s) d (registered s).
Definition set_file (i : nat) (f : fat16_file_t) (s : fat D) : fat D :=
  mkFat (g_bpb s) (g_part_offset s) (<[i := f]> (open_files s)) (fdisk s) (registered s).

(** [None] is the result false; otherwise the bytes stored in [buf]. *)
Definition read_bytes (part_offset len : Z) : FM (option (list Z)) :=
  let start_lba := part_offset / SECTOR_SIZE in
  let end_lba := u32 (part_offset + len - 1) / SECTOR_SIZE in
  let size := u32 (u32 (end_lba - start_lba + 1) * SECTOR_SIZE) in
  if size =? 0 then mret None
  else
    bs ← zoom fdisk set_disk (ata_read start_lba (u8 (end_lba - start_lba + 1)));
    let tmp := bs ++ replicate (Z.to_nat size - length bs) 0 in
    mret (Some (take (Z.to_nat len) (drop (Z.to_nat (part_offset mod SECTOR_SIZE)) tmp))).

(** [stale] is what an uninitialised variable holds. *)
Definition get_next_cluster (stale part_offset : Z) (b : BPB_t) (cluster : Z) : FM Z :=
  r ← read_bytes (u32 (part_offset + BPB_FAT_addr b + cluster * 2)) 2;
  mret (match r with Some bs => f16 bs 0 | None => stale end).

Definition cluster_offset (cluster : Z) (s : fat D) : Z :=
  u32 (g_part_offset s + BPB_Data_addr (g_bpb s) + u32 ((cluster - 2) * cluster_size (g_bpb s))).

(** ** Directories *)

Definition entry_at (buffer : list Z) (i : nat) : list Z := slice (32 * i) 32 buffer.

(** The loop over the entries of one buffer: the first matching file. *)
Fixpoint scan_entries (buffer : list Z) (n i : nat) (lfn : list lfn_entry_t) (target : list Z) : option dir_t :=
  match n with
  | O => None
  | S n' =>
      let bs := entry_at buffer i in
      let dir := dir_of bs in
      if char_at bs 0 =? 0 then None
      else if char_at bs 0 =? 229 then scan_entries buffer n' (S i) [] target
      else if Attr dir =? DIR_ATTR_LFN then
        scan_entries buffer n' (S i) (if (length lfn <? 20)%nat then lfn ++ [lfn_of bs] else lfn) target
      else
        let name := get_file_name dir lfn 256 in
        if (Z.land (Attr dir) DIR_ATTR_DIRECTORY =? 0)
           && (strcasecmp (Some name) (Some target) =? 0)
        then Some dir
        else scan_entries buffer n' (S i) [] target
  end.

Fixpoint search_loop (fuel : nat) (stale start cluster : Z) (target : list Z) : FM (option dir_t) :=
  match fuel with
  | O => out_of_fuel
  | S fuel' => fun s =>
      let b := g_bpb s in
      let root_size := RootEntCnt b * sizeof_dir_t in
      let off := if cluster =? 0 then u32 (g_part_offset s + BPB_Root_addr b) else cluster_offset cluster s in
      let read_size := if cluster =? 0 then root_size else cluster_size b in
      (r ← read_bytes off read_size;
       match r with
       | None => mret None
       | Some buffer =>
           match scan_entries buffer (Z.to_nat (read_size / sizeof_dir_t)) 0 [] target with
           | Some d => mret (Some d)
           | None =>
               if start =? 0 then mret None
               else
                 c ← get_next_cluster stale (g_part_offset s) b cluster;
                 if c <? 65528 then search_loop fuel' stale start c target else mret None
           end
       end) s
  end.

Definition find_file_in_dir (fuel : nat) (stale start : Z) (target : list Z) : FM (option dir_t) := fun s =>
  let buffer_size := if start =? 0 then RootEntCnt (g_bpb s) * sizeof_dir_t else cluster_size (g_bpb s) in
  if buffer_size =? 0 then Ret None s else search_loop fuel stale start start target s.

(** *** The diagnostic listing *)

(** What [read_directory] logs. *)
Inductive listing := LDir (p : list Z) | LFile (p : list Z) (size cluster : Z).

Definition join_path (prefix name : list Z) : list Z :=
  let p := take 511 (cstr prefix) in
  let p := if (0 <? Z.of_nat (length p)) && (Z.of_nat (length p) <? 511) then p ++ [47] else p in
  p ++ take (511 - length p) (cstr name).

Definition fseventsd : list Z := [46; 102; 115; 101; 118; 101; 110; 116; 115; 100].
Definition skip_name (name : list Z) : bool :=
  (char_at name 0 =? 46) || ((strlen name =? 10)%nat && negb (strncmp name fseventsd 10)).

(** The loop over the entries of one cluster; [rec] lists a subdirectory. *)
Fixpoint list_entries (rec : Z -> list Z -> FM (list listing)) (buffer : list Z) (n i : nat)
    (lfn : list lfn_entry_t) (prefix : list Z) : FM (list listing) :=
  match n with
  | O => mret []
  | S n' =>
      let bs := entry_at buffer i in
      let dir := dir_of bs in
      if char_at bs 0 =? 0 then mret []
      else if char_at bs 0 =? 229 then list_entries rec buffer n' (S i) [] prefix
      else if Attr dir =? DIR_ATTR_LFN then
        list_entries rec buffer n' (S i) (if (length lfn <? 20)%nat then lfn ++ [lfn_of bs] else lfn) prefix
      else
        let name := get_file_name dir lfn 256 in
        let p := join_path prefix name in
        out ← (if skip_name name then mret []
               else if negb (Z.land (Attr dir) DIR_ATTR_DIRECTORY =? 0) then
                 sub ← rec (FstClusLO dir) p; mret (LDir p :: sub)
               else mret [LFile p (FileSize dir) (FstClusLO dir)]);
        rest ← list_entries rec buffer n' (S i) [] prefix;
        mret (out ++ rest)
  end.

(** The loop over the clusters of a directory. *)
Fixpoint list_chain (rec : Z -> list Z -> FM (list listing)) (chain : nat) (stale : Z) (b : BPB_t)
    (part_offset start cluster : Z) (prefix : list Z) : FM (list listing) :=
  match chain with
  | O => out_of_fuel
  | S chain' =>
      let off := if cluster =? 0 then u32 (part_offset + BPB_Root_addr b)
                 else u32 (part_offset + BPB_Data_addr b + u32 ((cluster - 2) * cluster_size b)) in
      r ← read_bytes off (cluster_size b);
      match r with
      | None => mret []
      | Some buffer =>
          out ← list_entries rec buffer (Z.to_nat (cluster_size b / sizeof_dir_t)) 0 [] prefix;
          if start =? 0 then mret out
          else
            c ← get_next_cluster stale part_offset b cluster;
            if c <? 65528 then
              rest ← list_chain rec chain' stale b part_offset start c prefix; mret (out ++ rest)
            else mret out
      end
  end.

(** [depth] bounds the nesting of directories, [chain] the clusters of one. *)
Fixpoint read_directory (depth chain : nat) (stale : Z) (b : BPB_t) (part_offset start : Z) (prefix : list Z) :
    FM (list listing) :=
  match depth with
  | O => out_of_fuel
  | S depth' =>
      if cluster_size b =? 0 then mret []
      else list_chain (read_directory depth' chain stale b part_offset) chain stale b part_offset start start prefix
  end.

(** ** Open files *)

(** The loop that skips leading slashes and [./]. *)
Fixpoint skip_slashes (s : list Z) : list Z :=
  match s with
  | c :: s1 =>
      if c =? 47 then skip_slashes s1
      else if c =? 46 then
        match s1 with
        | d :: s2 => if d =? 47 then skip_slashes s2 else s
        | [] => s
        end
      else s
  | [] => []
  end.

(** The loop over the table of open files. *)
Definition claim_file (fname : list Z) (dir : dir_t) : FM Z := fun s =>
  match find_free (fun f => negb (fused f)) 0 (open_files s) with
  | Some i =>
      Ret (Z.of_nat i) (set_file i (mkFile (map (char_at fname) (seq 0 255) ++ [0])
                          (FstClusLO dir) (FileSize dir) 0 true 1) s)
  | None => Ret (-1) s
  end.

(** [None] is a null path. *)
Definition fat16_open (fuel : nat) (stale : Z) (p : option (list Z)) : FM Z :=
  match p with
  | None => mret (-1)
  | Some p =>
      if char_at p 0 =? 0 then mret (-1)
      else
        let fname := skip_slashes p in
        r ← find_file_in_dir fuel stale 0 fname;
        match r with
        | None => mret (-1)
        | Some dir => claim_file fname dir
        end
  end.

(** [open_files[fd]] when [fd] is an open file. *)
Definition file_at (fd : Z) (s : fat D) : option fat16_file_t :=
  if (fd <? 0) || (Z.of_nat MAX_OPEN_FILES <=? fd) then None
  else match open_files s !! Z.to_nat fd with
       | Some f => if fused f then Some f else None
       | None => None
       end.

Definition with_frefs (f : fat16_file_t) (n : Z) (u : bool) : fat16_file_t :=
  mkFile (path f) (start_cluster f) (fsize f) (offset f) u n.
Definition with_offset (f : fat16_file_t) (o : Z) : fat16_file_t :=
  mkFile (path f) (start_cluster f) (fsize f) o (fused f) (frefs f).

Definition fat16_dup (fd : Z) : FM Z := fun s =>
  match file_at fd s with
  | None => Ret (-1) s
  | Some f => Ret fd (set_file (Z.to_nat fd) (with_frefs f (u32 (frefs f + 1)) true) s)
  end.

Definition fat16_close (fd : Z) : FM Z := fun s =>
  match file_at fd s with
  | None => Ret (-1) s
  | Some f =>
      let n := u32 (frefs f - 1) in
      Ret 0 (set_file (Z.to_nat fd) (with_frefs f n (0 <? n)) s)
  end.

(** ** Reading a file *)

(** The loop to the cluster that holds the offset; [None] when the chain ends. *)
Fixpoint skip_clusters (n : nat) (stale cluster : Z) : FM (option Z) :=
  match n with
  | O => mret (Some cluster)
  | S n' =>
      b ← gets g_bpb;
      po ← gets g_part_offset;
      c ← get_next_cluster stale po b cluster;
      if 65528 <=? c then mret None else skip_clusters n' stale c
  end.

(** The loop that copies cluster by cluster. *)
Fixpoint copy_clusters (fuel : nat) (stale cluster off to_read : Z) : FM (list Z) :=
  match fuel with
  | O => out_of_fuel
  | S fuel' => fun s =>
      let size := cluster_size (g_bpb s) in
      if (0 <? to_read) && (cluster <? 65528) then
        (r ← read_bytes (cluster_offset cluster s) size;
         match r with
         | None => mret []
         | Some tmp =>
             let copy := if to_read <? u32 (size - off) then to_read else u32 (size - off) in
             let bs := take (Z.to_nat copy) (drop (Z.to_nat off) tmp) in
             let to_read := to_read - copy in
             if 0 <? to_read then
               c ← get_next_cluster stale (g_part_offset s) (g_bpb s) cluster;
               rest ← copy_clusters fuel' stale c 0 to_read;
               mret (bs ++ rest)
             else mret bs
         end) s
      else Ret [] s
  end.

(** [None] is the result -1, otherwise the bytes stored in [buffer]. *)
Definition fat16_read (fuel : nat) (stale fd size : Z) : FM (option (list Z)) := fun s =>
  match file_at fd s with
  | None => Ret None s
  | Some f =>
      if size =? 0 then Ret (Some []) s
      else if fsize f <=? offset f then Ret (Some []) s
      else
        let csize := cluster_size (g_bpb s) in
        let remaining := fsize f - offset f in
        let size := if remaining <? size then remaining else size in
        if csize =? 0 then Halted s
        else
          (start ← skip_clusters (Z.to_nat (offset f / csize)) stale (start_cluster f);
           match start with
           | None => mret None
           | Some cluster =>
               bs ← copy_clusters fuel stale cluster (offset f mod csize) size;
               modify (set_file (Z.to_nat fd) (with_offset f (u32 (offset f + Z.of_nat (length bs))))) ;;
               mret (Some bs)
           end) s
  end.

Definition fat16_write (fd : Z) (bs : list Z) : FM Z := mret (-1).

Definition fat16_get_size (fd : Z) (s : fat D) : Z :=
  match open_files s !! Z.to_nat fd with Some f => i32 (fsize f) | None => 0 end.

(** ** Mounting *)

(** The start of the first FAT16 partition in the four entries from [i]. *)
Fixpoint find_partition (mbr : list Z) (n i : nat) : Z :=
  match n with
  | O => 0
  | S n' =>
      let entry := drop (446 + i * 16) mbr in
      let type := char_at entry 4 in
      if (type =? 4) || (type =? 6) || (type =? 14) then f32 entry 8
      else find_partition mbr n' (S i)
  end.

Definition fat16_init : FM unit :=
  modify (fun s => mkFat (g_bpb s) (g_part_offset s) (replicate MAX_OPEN_FILES zero_file) (fdisk s) (registered s)) ;;
  r ← read_bytes 0 SECTOR_SIZE;
  match r with
  | None => mret tt
  | Some mbr =>
      let start_lba := find_partition mbr 4 0 in
      if start_lba =? 0 then mret tt
      else
        let off := u32 (start_lba * SECTOR_SIZE) in
        modify (fun s => mkFat (g_bpb s) off (open_files s) (fdisk s) (registered s)) ;;
        r ← read_bytes off SECTOR_SIZE;
        match r with
        | None => mret tt
        | Some sector0 => modify (fun s => mkFat (bpb_of sector0) off (open_files s) (fdisk s) true)
        end
  end.
End Fat.
