(* ===== verification/Fat16Proofs.v ===== *)
(** Properties of the FAT16 file system: reading a file returns the bytes of its
    cluster chain, opening finds the entry with the name. *)
From S2P Require Import Prelude Utils Disk Net Fat16.

Section Proofs.
Context {D : Type} `{BlockDev D}.

(** ** Reading bytes *)

(** Only the disk's internal state changed. *)
Definition disk_only (s s' : fat D) : Prop :=
  exists d, s' = set_disk d s /\ disk_inv d /\ image d = image (fdisk s).

Lemma disk_only_trans s1 s2 s3 : disk_only s1 s2 -> disk_only s2 s3 -> disk_only s1 s3.
Proof.
  intros (d & -> & Hd & E) (d' & -> & Hd' & E'). exists d'. simpl in E'. split; [done|]. split; [done|congruence].
Qed.

Lemma read_bytes_spec s a len :
  disk_inv (fdisk s) -> 0 <= a -> 0 < len <= 130048 -> a + len <= 4294967296 ->
  exists s', read_bytes a len s = Ret (Some (bytes_at (image (fdisk s)) a (Z.to_nat len))) s' /\ disk_only s s'.
Proof.
  intros Hi Ha Hl Hb. unfold read_bytes, SECTOR_SIZE. rewrite (u32_small (a + len - 1)) by lia.
  set (lo := a / 512). set (hi := (a + len - 1) / 512).
  assert (Hn : 1 <= hi - lo + 1 <= 255) by (unfold lo, hi; zlia).
  assert (Hlo : 0 <= lo < 8388608) by (unfold lo; zlia).
  rewrite (u32_small (hi - lo + 1)), (u32_small ((hi - lo + 1) * 512)), (u8_small (hi - lo + 1)) by lia.
  rewrite (proj2 (Z.eqb_neq ((hi - lo + 1) * 512) 0)) by lia.
  destruct (image_law (fdisk s) lo (hi - lo + 1) Hi ltac:(lia) ltac:(lia)) as (d' & R & Hi' & Hm).
  exists (set_disk d' s). split; [|by exists d'].
  erewrite bind_ret by (unfold zoom; rewrite R; reflexivity).
  rewrite length_bytes_at. replace (Z.to_nat ((hi - lo + 1) * 512) - Z.to_nat (hi - lo + 1) * 512)%nat with 0%nat by lia.
  rewrite app_nil_r, drop_bytes_at, take_bytes_at. unfold mret, M_ret. do 2 f_equal.
  replace (lo * 512 + Z.of_nat (Z.to_nat (a mod 512))) with a by (unfold lo; zlia). f_equal. f_equal. unfold lo, hi in *. zlia.
Qed.

(** ** Volumes *)

(** The addresses of the FAT, the root directory and every cluster are inside
    the 32-bit range, and a cluster is at most 126 KiB. *)
Record volume (s : fat D) : Prop := {
  v_disk : disk_inv (fdisk s);
  v_part : 0 <= g_part_offset s;
  v_fields : 0 <= BytsPerSec (g_bpb s) /\ 0 <= SecPerClus (g_bpb s) /\ 0 <= RsvdSecCnt (g_bpb s)
             /\ 0 <= NumFATs (g_bpb s) /\ 0 <= RootEntCnt (g_bpb s) /\ 0 <= FATSz16 (g_bpb s);
  v_size : 0 < cluster_size (g_bpb s) <= 129024;
  v_fat : g_part_offset s + RsvdSecCnt (g_bpb s) * BytsPerSec (g_bpb s) + 131072 <= 4294967296;
  v_data : g_part_offset s + BPB_Data_addr (g_bpb s) + 65536 * cluster_size (g_bpb s) <= 4294967296
}.

Lemma volume_disk_only s s' : volume s -> disk_only s s' -> volume s'.
Proof. intros [] (d & -> & Hd & _). by constructor. Qed.

Definition fat_addr (s : fat D) : Z := g_part_offset s + RsvdSecCnt (g_bpb s) * BytsPerSec (g_bpb s).
(** The FAT entry of a cluster, and the bytes of a cluster. *)
Definition fat_entry (s : fat D) (c : Z) : Z :=
  image (fdisk s) (fat_addr s + c * 2) + 256 * image (fdisk s) (fat_addr s + c * 2 + 1).
Definition cluster_bytes (s : fat D) (c : Z) : list Z :=
  bytes_at (image (fdisk s)) (g_part_offset s + BPB_Data_addr (g_bpb s) + (c - 2) * cluster_size (g_bpb s))
    (Z.to_nat (cluster_size (g_bpb s))).

(** [cs] is a part of the cluster chain, from [c] on. *)
Fixpoint chain_from (s : fat D) (c : Z) (cs : list Z) : Prop :=
  match cs with
  | [] => True
  | c' :: rest => c = c' /\ 2 <= c < 65528 /\ match rest with [] => True | _ => chain_from s (fat_entry s c) rest end
  end.

(** All of this depends on the parameters of the volume and its bytes only. *)
Lemma same_view s s' c cs :
  g_bpb s' = g_bpb s -> g_part_offset s' = g_part_offset s -> image (fdisk s') = image (fdisk s) ->
  fat_entry s' c = fat_entry s c /\ cluster_bytes s' c = cluster_bytes s c /\ (chain_from s c cs -> chain_from s' c cs).
Proof.
  intros Eb Ep Ei. assert (Ef : forall c, fat_entry s' c = fat_entry s c).
  { intros x. unfold fat_entry, fat_addr. by rewrite Eb, Ep, Ei. }
  split; [done|]. split; [unfold cluster_bytes; by rewrite Eb, Ep, Ei|].
  revert c. induction cs as [|c' cs IH]; intros c; simpl; [done|].
  intros (-> & Hc & Hr). split; [done|]. split; [done|]. destruct cs; [done|]. rewrite Ef. by apply IH.
Qed.

Lemma same_disk s s' c cs :
  disk_only s s' -> fat_entry s' c = fat_entry s c /\ cluster_bytes s' c = cluster_bytes s c
    /\ (chain_from s c cs -> chain_from s' c cs).
Proof. intros (d & -> & _ & E). by apply same_view. Qed.

Lemma next_cluster_spec stale s c :
  volume s -> 0 <= c < 65536 ->
  exists s', get_next_cluster stale (g_part_offset s) (g_bpb s) c s = Ret (fat_entry s c) s' /\ disk_only s s'.
Proof.
  intros [] Hc. unfold get_next_cluster. destruct v_fields0 as (? & ? & ? & ? & ? & ?).
  assert (0 <= RsvdSecCnt (g_bpb s) * BytsPerSec (g_bpb s)) by (apply Z.mul_nonneg_nonneg; lia).
  unfold BPB_FAT_addr. rewrite (u32_small (RsvdSecCnt _ * _)), u32_small by lia. fold (fat_addr s).
  destruct (read_bytes_spec s (fat_addr s + c * 2) 2) as (s' & R & Hs); [done|unfold fat_addr; lia|lia|unfold fat_addr; lia|].
  exists s'. split; [|done]. erewrite bind_ret by exact R. unfold mret, M_ret. f_equal.
  unfold fat_entry, f16, char_at. rewrite !lookup_bytes_at by lia. cbn [default from_option id].
  change (Z.of_nat 0) with 0. by rewrite Z.add_0_r.
Qed.

Lemma cluster_read_spec s c :
  volume s -> 2 <= c < 65528 ->
  exists s', read_bytes (cluster_offset c s) (cluster_size (g_bpb s)) s = Ret (Some (cluster_bytes s c)) s' /\ disk_only s s'.
Proof.
  intros [] Hc. unfold cluster_offset. pose proof (u32_range (BPB_Root_addr (g_bpb s) + RootEntCnt (g_bpb s) * 32)) as Hd.
  fold (BPB_Data_addr (g_bpb s)) in Hd.
  assert (0 <= (c - 2) * cluster_size (g_bpb s) /\ (c - 2) * cluster_size (g_bpb s) + cluster_size (g_bpb s) <= 65536 * cluster_size (g_bpb s)) by nia.
  rewrite (u32_small ((c - 2) * _)), u32_small by lia. apply read_bytes_spec; try done; lia.
Qed.
(** ** Following a chain *)

Lemma skip_spec stale n : forall s c cs,
  volume s -> chain_from s c cs -> (n < length cs)%nat ->
  exists c' s', skip_clusters n stale c s = Ret (Some c') s' /\ disk_only s s' /\ chain_from s c' (drop n cs)
    /\ head (drop n cs) = Some c'.
Proof.
  induction n as [|n IH]; intros s c cs V Hc Hn.
  - destruct cs as [|c0 cs]; [simpl in Hn; lia|]. exists c, s. split; [done|].
    split; [exists (fdisk s); split; [by destruct s|split; [apply V|done]]|]. split; [done|]. simpl in Hc |- *. by destruct Hc as [-> _].
  - destruct cs as [|c0 [|c1 cs]]; simpl in Hn; try lia. cbn [chain_from] in Hc. destruct Hc as (-> & Hc & Hr).
    cbn [skip_clusters]. erewrite bind_ret by reflexivity. erewrite bind_ret by reflexivity.
    destruct (next_cluster_spec stale s c0 V ltac:(lia)) as (s1 & R & Hs). erewrite bind_ret by exact R.
    assert (Hb : fat_entry s c0 < 65528) by (destruct Hr as (-> & ? & _); lia).
    rewrite (proj2 (Z.leb_gt _ _) Hb).
    destruct (IH s1 (fat_entry s c0) (c1 :: cs)) as (c' & s2 & R2 & Hs2 & Hc2 & Hh2);
      [by eapply volume_disk_only|by apply (same_disk s s1)|simpl; lia|].
    exists c', s2. split; [exact R2|]. split; [by eapply disk_only_trans|].
    split; [|done]. cbn [drop]. destruct Hs as (d & -> & Hd & E), Hs2 as (d2 & -> & Hd2 & E2).
    apply (same_disk (set_disk d s) s); [|exact Hc2]. exists (fdisk s). split; [by destruct s|]. split; [apply V|].
    simpl. congruence.
Qed.

(** The bytes of a file in chain order. *)
Definition chain_bytes (s : fat D) (cs : list Z) : list Z := concat (map (cluster_bytes s) cs).

Lemma length_cluster_bytes s c : length (cluster_bytes s c) = Z.to_nat (cluster_size (g_bpb s)).
Proof. apply length_bytes_at. Qed.

Lemma length_chain_bytes s cs : length (chain_bytes s cs) = (length cs * Z.to_nat (cluster_size (g_bpb s)))%nat.
Proof.
  unfold chain_bytes. induction cs as [|c cs IH]; [done|]. cbn [map concat]. rewrite length_app, IH, length_cluster_bytes.
  simpl. lia.
Qed.

Lemma chain_bytes_disk s s' cs : disk_only s s' -> chain_bytes s' cs = chain_bytes s cs.
Proof.
  intros Hs. unfold chain_bytes. f_equal. apply map_ext. intros c. by apply (same_disk s s' c []).
Qed.

Lemma copy_spec stale fuel : forall s c cs off n,
  volume s -> chain_from s c cs -> (length cs <= fuel)%nat -> cs <> [] -> 0 <= off < cluster_size (g_bpb s) -> 0 < n ->
  off + n <= Z.of_nat (length cs) * cluster_size (g_bpb s) ->
  exists s', copy_clusters fuel stale c off n s = Ret (take (Z.to_nat n) (drop (Z.to_nat off) (chain_bytes s cs))) s'
    /\ disk_only s s'.
Proof.
  induction fuel as [|fuel IH]; intros s c cs off n V Hc Hf Hne Ho Hn Hl.
  { destruct cs; [done|simpl in Hf; lia]. }
  destruct cs as [|c0 cs]; [done|]. cbn [copy_clusters]. cbn [chain_from] in Hc. destruct Hc as (-> & Hc & Hr).
  rewrite (proj2 (Z.ltb_lt 0 n) Hn), (proj2 (Z.ltb_lt c0 65528)) by lia. cbn [andb].
  destruct (cluster_read_spec s c0 V Hc) as (s1 & R1 & Hs1). erewrite bind_ret by exact R1.
  pose proof (v_size _ V) as Hz. rewrite u32_small by lia. set (z := cluster_size (g_bpb s)) in *.
  assert (Lc : length (cluster_bytes s c0) = Z.to_nat z) by apply length_cluster_bytes.
  unfold chain_bytes. cbn [map concat]. fold (chain_bytes s cs).
  rewrite (drop_app_le (cluster_bytes s c0)) by lia.
  destruct (Z.ltb_spec n (z - off)) as [Hlt|Hge].
  - rewrite (proj2 (Z.ltb_ge 0 (n - n))) by lia. exists s1. split; [|done]. unfold mret, M_ret. f_equal.
    rewrite take_app_le by (rewrite length_drop; lia). done.
  - rewrite (take_ge (drop (Z.to_nat off) (cluster_bytes s c0))) by (rewrite length_drop; lia).
    destruct (Z.ltb_spec 0 (n - (z - off))) as [Hmore|Hend].
    + destruct cs as [|c1 cs]; [simpl in Hl; lia|].
      assert (V1 : volume s1) by by eapply volume_disk_only.
      assert (Eb : g_bpb s1 = g_bpb s /\ g_part_offset s1 = g_part_offset s) by (by destruct Hs1 as (d & -> & _)).
      destruct Eb as [Eb Ep]. rewrite <- Eb, <- Ep.
      destruct (next_cluster_spec stale s1 c0 V1 ltac:(lia)) as (s2 & R2 & Hs2). erewrite bind_ret by exact R2.
      replace (fat_entry s1 c0) with (fat_entry s c0) by (symmetry; by apply (same_disk s s1 c0 [])).
      assert (Hs02 : disk_only s s2) by by eapply disk_only_trans.
      assert (Eb2 : g_bpb s2 = g_bpb s) by (by destruct Hs02 as (d & -> & _)).
      destruct (IH s2 (fat_entry s c0) (c1 :: cs) 0 (n - (z - off))) as (s3 & R3 & Hs3);
        [by eapply volume_disk_only|by apply (same_disk s s2)|simpl in *; lia|done|rewrite Eb2; fold z; lia|lia| |].
      { rewrite Eb2. fold z. cbn [length] in Hl |- *. lia. }
      erewrite bind_ret by exact R3. exists s3. split; [|by eapply disk_only_trans]. unfold mret, M_ret. f_equal.
      rewrite (chain_bytes_disk s s2) by done. rewrite take_app_ge by (rewrite length_drop; lia).
      f_equal. change (Z.to_nat 0) with 0%nat. rewrite drop_0. f_equal. rewrite length_drop. lia.
    + exists s1. split; [|done]. unfold mret, M_ret. f_equal. rewrite take_app_le by (rewrite length_drop; lia).
      rewrite take_ge by (rewrite length_drop; lia). done.
Qed.

(** An open file and the clusters that hold it. *)
Record file_ok (s : fat D) (fd : Z) (f : fat16_file_t) (cs : list Z) : Prop := {
  f_open : file_at fd s = Some f;
  f_chain : chain_from s (start_cluster f) cs;
  f_fits : 0 <= fsize f < 4294967296 /\ fsize f <= Z.of_nat (length cs) * cluster_size (g_bpb s);
  f_offset : 0 <= offset f
}.
Definition file_bytes (s : fat D) (f : fat16_file_t) (cs : list Z) : list Z :=
  take (Z.to_nat (fsize f)) (chain_bytes s cs).

Lemma file_at_set fd (s : fat D) f f' :
  file_at fd s = Some f -> fused f' = true -> file_at fd (set_file (Z.to_nat fd) f' s) = Some f'.
Proof.
  unfold file_at. destruct (_ || _) eqn:E; [done|]. destruct (open_files s !! Z.to_nat fd) as [g|] eqn:L; [|done].
  intros _ U. simpl. rewrite list_lookup_insert_eq by (by eapply lookup_lt_Some). by rewrite U.
Qed.

Lemma file_at_used fd (s : fat D) f : file_at fd s = Some f -> fused f = true.
Proof.
  unfold file_at. destruct (_ || _); [done|]. destruct (open_files s !! Z.to_nat fd) as [g|]; [|done].
  destruct (fused g) eqn:U; [|done]. by intros [= <-].
Qed.

(** One read: the next bytes of the file, and the file ready for the rest. *)
Lemma fat16_read_spec fuel stale s fd f cs n :
  volume s -> file_ok s fd f cs -> (length cs <= fuel)%nat -> 0 <= n ->
  let bs := take (Z.to_nat n) (drop (Z.to_nat (offset f)) (file_bytes s f cs)) in
  exists s', fat16_read fuel stale fd n s = Ret (Some bs) s' /\ volume s'
    /\ file_ok s' fd (with_offset f (offset f + Z.of_nat (length bs))) cs
    /\ file_bytes s' f cs = file_bytes s f cs.
Proof.
  intros V F Hf Hn bs. pose proof F as [Ho Hc [Hz Hfit] Hoff]. unfold fat16_read. rewrite Ho.
  pose proof (v_size _ V) as Hcs. set (z := cluster_size (g_bpb s)) in *.
  assert (Lb : length (file_bytes s f cs) = Z.to_nat (fsize f)).
  { unfold file_bytes. rewrite length_take, length_chain_bytes. fold z. nia. }
  assert (Same : bs = [] -> with_offset f (offset f + Z.of_nat (length bs)) = f).
  { intros ->. simpl. rewrite Z.add_0_r. by destruct f. }
  destruct (Z.eqb_spec n 0) as [-> |N0].
  { exists s. assert (E : bs = []) by done. rewrite Same, E by done. done. }
  destruct (Z.leb_spec (fsize f) (offset f)) as [Hend|Hmore].
  { exists s. assert (E : bs = []) by (unfold bs; rewrite drop_ge by lia; by rewrite take_nil). rewrite Same, E by done. done. }
  rewrite (proj2 (Z.eqb_neq z 0)) by lia. set (m := if fsize f - offset f <? n then fsize f - offset f else n).
  assert (Hm : 0 < m /\ m <= fsize f - offset f /\ m <= n) by (unfold m; case_z; lia).
  assert (Hk : (Z.to_nat (offset f / z) < length cs)%nat).
  { apply Nat2Z.inj_lt. rewrite Z2Nat.id by (apply Z.div_pos; lia). apply Z.div_lt_upper_bound; lia. }
  destruct (skip_spec stale _ s _ cs V Hc Hk) as (c' & s1 & R1 & Hs1 & Hc1 & Hh1).
  erewrite bind_ret by exact R1. set (k := Z.to_nat (offset f / z)) in *.
  assert (Eb1 : g_bpb s1 = g_bpb s) by (by destruct Hs1 as (d & -> & _)).
  assert (Hdm : offset f = z * (offset f / z) + offset f mod z) by (apply Z.div_mod; lia).
  assert (Hk' : Z.of_nat k = offset f / z) by (unfold k; rewrite Z2Nat.id; [done|apply Z.div_pos; lia]).
  pose proof (Z.mod_pos_bound (offset f) z ltac:(lia)) as Hmod.
  destruct (copy_spec stale fuel s1 c' (drop k cs) (offset f mod z) m) as (s2 & R2 & Hs2);
    [by eapply volume_disk_only|by apply (same_disk s s1)|rewrite length_drop; lia|by destruct (drop k cs)|by rewrite Eb1|lia| |].
  { rewrite Eb1. fold z. rewrite length_drop. nia. }
  assert (Hs02 : disk_only s s2) by by eapply disk_only_trans.
  assert (Ebs : take (Z.to_nat m) (drop (Z.to_nat (offset f mod z)) (chain_bytes s1 (drop k cs))) = bs).
  { rewrite (chain_bytes_disk s s1) by done. unfold bs, file_bytes.
    rewrite <- (take_drop k cs) at 2. unfold chain_bytes. rewrite map_app, concat_app. fold (chain_bytes s (take k cs)) (chain_bytes s (drop k cs)).
    rewrite skipn_firstn_comm, take_take.
    assert (Lx : length (chain_bytes s (take k cs)) = (k * Z.to_nat z)%nat)
      by (rewrite length_chain_bytes, length_take; fold z; f_equal; lia).
    replace (Z.to_nat (offset f)) with (length (chain_bytes s (take k cs)) + Z.to_nat (offset f mod z))%nat by (rewrite Lx; nia).
    rewrite drop_app_add. f_equal. rewrite Lx. unfold m. case_z; nia. }
  erewrite bind_ret by exact R2. rewrite Ebs. erewrite bind_ret by reflexivity.
  assert (Lbs : Z.of_nat (length bs) = m).
  { unfold bs. rewrite length_take, length_drop, Lb. unfold m. case_z; lia. }
  rewrite u32_small by lia. eexists. split; [reflexivity|].
  set (f' := with_offset f _). destruct Hs02 as (d & -> & Hd & Ed).
  assert (V2 : volume (set_disk d s)) by (destruct V; by constructor).
  split; [destruct V2; by constructor|]. split; [|unfold file_bytes, chain_bytes, cluster_bytes; cbn [set_file set_disk fdisk g_bpb g_part_offset]; by rewrite Ed].
  constructor.
  - eapply (file_at_set fd (set_disk d s) f); [exact Ho|]. exact (file_at_used fd s f Ho).
  - by apply (same_view s).
  - done.
  - simpl. lia.
Qed.
(** Successive reads of the given sizes. *)
Fixpoint read_all (fuel : nat) (stale fd : Z) (sizes : list Z) : M (fat D) (option (list Z)) :=
  match sizes with
  | [] => mret (Some [])
  | n :: sizes' =>
      r ← fat16_read fuel stale fd n;
      match r with
      | None => mret None
      | Some bs => rest ← read_all fuel stale fd sizes'; mret (option_map (app bs) rest)
      end
  end.

Definition total_size (sizes : list Z) : nat := sum_list (map Z.to_nat sizes).

(** C22: Reading a file returns its contents. On a volume whose FAT links the
    clusters [cs] from the file's first cluster, any sequence of reads of any
    sizes returns, all together, the bytes of those clusters in chain order from
    the file's offset on, up to the file's size and the amount asked for; the
    chain is walked with at most one step per cluster, so the reads return. *)
Theorem fat16_read_contents fuel stale s fd f cs sizes :
  volume s -> file_ok s fd f cs -> (length cs <= fuel)%nat -> Forall (Z.le 0) sizes ->
  exists s', read_all fuel stale fd sizes s
      = Ret (Some (take (total_size sizes) (drop (Z.to_nat (offset f)) (file_bytes s f cs)))) s'
    /\ volume s'.
Proof.
  intros V F Hf Hs. revert s f V F. induction Hs as [|n sizes Hn Hs IH]; intros s f V F.
  - exists s. done.
  - cbn [read_all]. destruct (fat16_read_spec fuel stale s fd f cs n V F Hf Hn) as (s1 & R1 & V1 & F1 & E1).
    cbv zeta in *. erewrite bind_ret by exact R1. set (bs := take _ (drop _ (file_bytes s f cs))) in *.
    destruct (IH s1 _ V1 F1) as (s2 & R2 & V2). erewrite bind_ret by exact R2. exists s2. split; [|done].
    unfold mret, M_ret. cbn [option_map]. do 2 f_equal. cbn [with_offset offset].
    change (file_bytes s1 (with_offset f _) cs) with (file_bytes s1 f cs). rewrite E1.
    pose proof (f_offset _ _ _ _ F) as Ho. unfold total_size. cbn [map sum_list]. fold (total_size sizes).
    set (l := drop (Z.to_nat (offset f)) (file_bytes s f cs)) in *.
    replace (drop (Z.to_nat (offset f + Z.of_nat (length bs))) (file_bytes s f cs)) with (drop (length bs) l)
      by (unfold l; rewrite drop_drop; f_equal; lia).
    unfold bs. rewrite <- (take_take_drop l (Z.to_nat n)). f_equal. rewrite length_take.
    destruct (Nat.le_gt_cases (Z.to_nat n) (length l)); [by rewrite Nat.min_l|].
    rewrite Nat.min_r by lia. rewrite !drop_ge by lia. done.
Qed.
End Proofs.
