(* ===== verification/FatNames.v ===== *)
(** File names and directories of FAT16: the names [stage2/fat16.c] decodes are
    the names that were encoded, and opening a file finds its directory entry. *)
From S2P Require Import Prelude Utils Disk Net NetProofs Fat16 Fat16Proofs SocketProofs.

(** ** Long names *)

(** A name as the code units of its entries: 13 per entry, ended by a 0 and
    filled up with 0xFFFF unless it fills the last entry. *)
Definition lfn_units (name : list Z) : list Z :=
  let r := (length name mod 13)%nat in
  if (r =? 0)%nat then name else name ++ 0 :: replicate (12 - r) 65535.
Fixpoint chunks (k : nat) (us : list Z) : list lfn_entry_t :=
  match k with
  | O => []
  | S k' => mkLfn (take 5 us) (take 6 (drop 5 us)) (take 2 (drop 11 us)) :: chunks k' (drop 13 us)
  end.
(** In the order of the directory: the last part of the name comes first. *)
Definition lfn_encode (name : list Z) : list lfn_entry_t :=
  rev (chunks ((length name + 12) / 13) (lfn_units name)).

Lemma lfn_field_app a b m : forall out,
  lfn_field (a ++ b) m out = let '(o, d) := lfn_field a m out in if (d : bool) then (o, true) else lfn_field b m o.
Proof.
  induction a as [|c a IH]; intros out; [done|]. cbn [app lfn_field]. destruct (_ || _); [done|]. apply IH.
Qed.

Lemma lfn_loop_fields es m : forall out,
  lfn_loop es m out = (lfn_field (concat (map (fun e => Name1 e ++ Name2 e ++ Name3 e) es)) m out).1.
Proof.
  induction es as [|e es IH]; intros out; [done|]. cbn [lfn_loop map concat]. rewrite <- !app_assoc, lfn_field_app.
  destruct (lfn_field (Name1 e) m out) as [o1 [|]]; [done|]. rewrite lfn_field_app.
  destruct (lfn_field (Name2 e) m o1) as [o2 [|]]; [done|]. rewrite lfn_field_app.
  destruct (lfn_field (Name3 e) m o2) as [o3 [|]]; [done|]. apply IH.
Qed.

Lemma chunks_units k : forall us, length us = (13 * k)%nat ->
  concat (map (fun e => Name1 e ++ Name2 e ++ Name3 e) (chunks k us)) = us.
Proof.
  induction k as [|k IH]; intros us Hl; [by destruct us|]. cbn [chunks map concat Name1 Name2 Name3].
  rewrite IH by (rewrite length_drop; lia).
  rewrite <- !app_assoc. etransitivity; [|apply (take_drop 5 us)]. f_equal.
  etransitivity; [|apply (take_drop 6 (drop 5 us))]. rewrite !drop_drop. f_equal.
  etransitivity; [|apply (take_drop 2 (drop 11 us))]. rewrite drop_drop. done.
Qed.

Lemma field_name us m : forall out rest,
  cstring us -> Z.of_nat (length out + length us) <= m - 1 ->
  lfn_field (us ++ rest) m out = lfn_field rest m (out ++ us).
Proof.
  induction us as [|c us IH]; intros out rest Hu Hl; [by rewrite app_nil_r|]. inversion Hu as [|? ? Hc Hu']; subst.
  cbn [app lfn_field]. rewrite (proj2 (Z.eqb_neq c 0)), (proj2 (Z.eqb_neq c 65535)) by lia. cbn [length] in Hl.
  rewrite (proj2 (Z.leb_gt (m - 1) _)) by lia. cbn [orb]. rewrite IH; [|done|rewrite length_app; simpl; lia].
  by rewrite <- app_assoc, u8_small by lia.
Qed.

Lemma length_units name : length (lfn_units name) = (13 * ((length name + 12) / 13))%nat.
Proof.
  unfold lfn_units. pose proof (Nat.div_mod_eq (length name) 13). pose proof (Nat.mod_upper_bound (length name) 13 ltac:(lia)).
  destruct (Nat.eqb_spec (length name mod 13) 0) as [E|E].
  - replace ((length name + 12) / 13)%nat with (length name / 13)%nat; [lia|].
    apply (Nat.div_unique _ _ _ 12); lia.
  - rewrite length_app. cbn [length]. rewrite length_replicate.
    replace ((length name + 12) / 13)%nat with (length name / 13 + 1)%nat; [lia|].
    apply (Nat.div_unique _ _ _ (length name mod 13 - 1)); lia.
Qed.

(** Decoding a long name gives back the name that was encoded. *)
Lemma lfn_roundtrip name : cstring name -> (length name <= 255)%nat -> get_lfn_name (lfn_encode name) 256 = name.
Proof.
  intros Hn Hl. unfold get_lfn_name, lfn_encode. rewrite rev_involutive, lfn_loop_fields, chunks_units by apply length_units.
  unfold lfn_units. destruct (_ =? 0)%nat.
  - rewrite <- (app_nil_r name) at 1. by rewrite field_name by (done || simpl; lia).
  - by rewrite field_name by (done || simpl; lia).
Qed.

(** ** Short names *)

Definition pad (n : nat) (s : list Z) : list Z := s ++ replicate (n - length s) 32.
Definition plain (s : list Z) : Prop := Forall (fun c => 0 < c < 256 /\ c <> 32) s.
Definition short_name (base ext : list Z) : list Z := pad 8 base ++ pad 3 ext.
Definition dotted (base ext : list Z) : list Z := match ext with [] => base | _ => base ++ 46 :: ext end.

Lemma cstr_pad n s : plain s -> cstr (drop_spaces (pad n s)) = s.
Proof.
  unfold plain. intros Hs. unfold pad, drop_spaces, cstr. rewrite map_app.
  replace (map _ (replicate _ 32)) with (replicate (n - length s) 0) by (change (map ?f ?l) with (f <$> l); by rewrite fmap_replicate).
  assert (Em : map (fun c => if c =? 32 then 0 else c) s = s).
  { rewrite <- (map_id s) at 2. apply map_ext_in. intros c Hc. apply list_elem_of_In in Hc.
    rewrite Forall_forall in Hs. destruct (Hs _ Hc). by rewrite (proj2 (Z.eqb_neq c 32)). }
  rewrite Em. clear Em. induction Hs as [|c s Hc Hs IH]; cbn [app strlen].
  - generalize (n - length (@nil Z))%nat as k. by intros [|k].
  - rewrite (proj2 (Z.eqb_neq c 0)) by lia. cbn [take]. f_equal.
    replace (n - length (c :: s))%nat with (n - 1 - length s)%nat by (simpl; lia).
    clear IH. generalize (n - 1 - length s)%nat as k. clear n. intros k. induction Hs as [|d s Hd Hs IH]; cbn [app strlen].
    + by destruct k.
    + rewrite (proj2 (Z.eqb_neq d 0)) by lia. cbn [take]. by rewrite IH.
Qed.

Lemma length_pad n s : (length s <= n)%nat -> length (pad n s) = n.
Proof. intros. unfold pad. rewrite length_app, length_replicate. lia. Qed.

Lemma char0_pad n s : plain s -> (0 < n)%nat ->
  char_at (drop_spaces (pad n s)) 0 = match s with [] => 0 | c :: _ => c end.
Proof.
  unfold plain. intros Hs Hn. destruct Hs as [|c s Hc Hs]; unfold pad, char_at.
  - destruct n; [lia|]. done.
  - simpl. by rewrite (proj2 (Z.eqb_neq c 32)) by lia.
Qed.

(** An 8.3 name is decoded as base, dot and extension. *)
Lemma short_roundtrip base ext d :
  plain base -> plain ext -> (length base <= 8)%nat -> (length ext <= 3)%nat -> Name d = short_name base ext ->
  get_file_name d [] 256 = dotted base ext.
Proof.
  intros Hb He Lb Le E. unfold get_file_name. rewrite E. unfold short_name.
  rewrite take_app_length', drop_app_length' by (symmetry; by apply length_pad).
  rewrite (take_ge (pad 3 ext)) by (rewrite length_pad; lia). rewrite !cstr_pad by done.
  rewrite char0_pad by (done || lia). change (256 - 1 - Z.of_nat (length (@nil Z))) with 255.
  rewrite (take_ge base) by lia. unfold plain in He. destruct He as [|c ext Hc He]; [done|].
  rewrite (proj2 (Z.eqb_neq c 0)) by lia. rewrite (proj2 (Z.ltb_lt _ _)) by lia. cbn [negb andb dotted].
  rewrite <- app_assoc. rewrite take_ge; [done|]. rewrite length_app. simpl in *. lia.
Qed.

(** ** Directory entries on disk *)

Record dent := mkDent { d_name : list Z; d_attr : Z; d_times : list Z; d_clus : Z; d_size : Z }.
Definition dent_bytes (d : dent) : list Z :=
  d_name d ++ [d_attr d] ++ d_times d ++ le16 (d_clus d) ++ le16 (d_size d mod 65536) ++ le16 (d_size d / 65536).
Definition dent_ok (d : dent) : Prop :=
  length (d_name d) = 11%nat /\ length (d_times d) = 14%nat /\ in_u16 (d_clus d) /\ in_u32 (d_size d)
  /\ d_attr d <> DIR_ATTR_LFN /\ char_at (d_name d) 0 <> 0 /\ char_at (d_name d) 0 <> 229.

Definition lfn_bytes (o : Z) (e : lfn_entry_t) : list Z :=
  o :: concat (map le16 (Name1 e)) ++ [DIR_ATTR_LFN; 0; 0] ++ concat (map le16 (Name2 e)) ++ [0; 0]
    ++ concat (map le16 (Name3 e)).
Definition lfn_ok (e : lfn_entry_t) : Prop :=
  length (Name1 e) = 5%nat /\ length (Name2 e) = 6%nat /\ length (Name3 e) = 2%nat
  /\ Forall (fun c => in_u16 c) (Name1 e ++ Name2 e ++ Name3 e).

Lemma char_at_app_ge a b i : (length a <= i)%nat -> char_at (a ++ b) i = char_at b (i - length a).
Proof. intros. unfold char_at. by rewrite lookup_app_r by lia. Qed.

Lemma f16_app_ge a b i : (length a <= i)%nat -> f16 (a ++ b) i = f16 b (i - length a).
Proof. intros. unfold f16. rewrite !char_at_app_ge by lia. do 3 f_equal. lia. Qed.

Lemma dent_tail d k : dent_ok d ->
  f16 (dent_bytes d) (26 + k) = f16 (le16 (d_clus d) ++ le16 (d_size d mod 65536) ++ le16 (d_size d / 65536)) k.
Proof.
  intros (L1 & L2 & _). assert (L : length (d_name d ++ [d_attr d] ++ d_times d) = 26%nat)
    by (rewrite !length_app, L1, L2; done).
  replace (dent_bytes d) with ((d_name d ++ [d_attr d] ++ d_times d)
    ++ le16 (d_clus d) ++ le16 (d_size d mod 65536) ++ le16 (d_size d / 65536)) by (unfold dent_bytes; by rewrite <- !app_assoc).
  rewrite f16_app_ge by lia. f_equal. lia.
Qed.

Lemma dir_of_dent d : dent_ok d -> dir_of (dent_bytes d) = mkDir (d_name d) (d_attr d) (d_clus d) (d_size d).
Proof.
  intros Hd. pose proof Hd as (L1 & L2 & Hc & Hs & _). unfold dir_of. f_equal.
  - unfold slice. rewrite drop_0. by apply take_app_length'.
  - unfold dent_bytes. rewrite char_at_app_ge by lia. by rewrite L1.
  - etransitivity; [exact (dent_tail d 0 Hd)|]. unfold f16, char_at. cbn. by apply f16_le16.
  - unfold f32. pose proof (dent_tail d 2 Hd) as E2. pose proof (dent_tail d 4 Hd) as E4. cbn [Nat.add] in *. rewrite E2, E4.
    unfold f16, char_at. cbn. rewrite !f16_le16 by zlia. zlia.
Qed.

Lemma lfn_of_bytes o e : lfn_ok e -> lfn_of (lfn_bytes o e) = e.
Proof.
  destruct e as [n1 n2 n3]. intros (L1 & L2 & L3 & Hu). cbn [Name1 Name2 Name3] in *.
  do 6 (destruct n1 as [|? n1]; try discriminate L1). do 7 (destruct n2 as [|? n2]; try discriminate L2).
  do 3 (destruct n3 as [|? n3]; try discriminate L3). cbn [app] in Hu.
  repeat match goal with H : Forall _ (_ :: _) |- _ => inversion H; subst; clear H end.
  unfold lfn_of, units, lfn_bytes, f16, char_at. cbn. by rewrite !f16_le16 by done.
Qed.

Lemma lfn_bytes_length o e : lfn_ok e -> length (lfn_bytes o e) = 32%nat.
Proof.
  destruct e as [n1 n2 n3]. intros (L1 & L2 & L3 & _). cbn [Name1 Name2 Name3] in *.
  do 6 (destruct n1 as [|? n1]; try discriminate L1). do 7 (destruct n2 as [|? n2]; try discriminate L2).
  do 3 (destruct n3 as [|? n3]; try discriminate L3). done.
Qed.

Lemma lfn_bytes_attr o e : lfn_ok e -> Attr (dir_of (lfn_bytes o e)) = DIR_ATTR_LFN /\ char_at (lfn_bytes o e) 0 = o.
Proof.
  destruct e as [n1 n2 n3]. intros (L1 & L2 & L3 & _). cbn [Name1 Name2 Name3] in *.
  do 6 (destruct n1 as [|? n1]; try discriminate L1). done.
Qed.

Lemma dent_bytes_length d : dent_ok d -> length (dent_bytes d) = 32%nat.
Proof. intros (L1 & L2 & _). unfold dent_bytes. rewrite !length_app, L1, L2. done. Qed.

Lemma chunks_ok k : forall us, length us = (13 * k)%nat -> Forall (fun c => in_u16 c) us -> Forall lfn_ok (chunks k us).
Proof.
  induction k as [|k IH]; intros us Hl Hu; [constructor|]. cbn [chunks]. constructor.
  - unfold lfn_ok. cbn [Name1 Name2 Name3]. rewrite !length_take, !length_drop. split_and!; try lia.
    rewrite !Forall_app. split_and!; apply Forall_take; try apply Forall_drop; done.
  - apply IH; [rewrite length_drop; lia|by apply Forall_drop].
Qed.

Lemma lfn_encode_ok name : cstring name -> Forall lfn_ok (lfn_encode name) /\ length (lfn_encode name) = ((length name + 12) / 13)%nat.
Proof.
  intros Hn. unfold lfn_encode. split.
  - apply Forall_rev, chunks_ok; [apply length_units|]. unfold lfn_units.
    assert (Forall (fun c => in_u16 c) name) by (eapply Forall_impl; [exact Hn|]; simpl; lia).
    destruct (_ =? 0)%nat; [done|]. apply Forall_app. split; [done|]. constructor; [lia|]. apply Forall_replicate. lia.
  - rewrite length_rev. generalize ((length name + 12) / 13)%nat, (lfn_units name). intros k. induction k as [|k IH]; intros us; [done|].
    simpl. by rewrite IH.
Qed.

(** ** Directories *)

(** What a directory holds: erased entries, entries with an 8.3 name, entries
    with a long name (and the ordinal bytes of its name entries). *)
Inductive item :=
| IErased (bs : list Z)
| IShort (base ext : list Z) (d : dent)
| ILong (ords : list Z) (name : list Z) (d : dent).

Definition item_entries (it : item) : list (list Z) :=
  match it with
  | IErased bs => [bs]
  | IShort _ _ d => [dent_bytes d]
  | ILong ords name d => zip_with lfn_bytes ords (lfn_encode name) ++ [dent_bytes d]
  end.

Definition item_ok (it : item) : Prop :=
  match it with
  | IErased bs => length bs = 32%nat /\ char_at bs 0 = 229
  | IShort base ext d => dent_ok d /\ d_name d = short_name base ext /\ plain base /\ plain ext
      /\ (0 < length base <= 8)%nat /\ (length ext <= 3)%nat
  | ILong ords name d => dent_ok d /\ cstring name /\ (0 < length name <= 255)%nat
      /\ length ords = ((length name + 12) / 13)%nat /\ Forall (fun o => o <> 0 /\ o <> 229) ords
  end.

(** The file an item stands for: its name and its entry. *)
Definition item_file (it : item) : option (list Z * dent) :=
  match it with
  | IErased _ => None
  | IShort base ext d => if Z.land (d_attr d) DIR_ATTR_DIRECTORY =? 0 then Some (dotted base ext, d) else None
  | ILong _ name d => if Z.land (d_attr d) DIR_ATTR_DIRECTORY =? 0 then Some (name, d) else None
  end.

Definition same_name (a b : list Z) : bool := bool_decide (map tolower a = map tolower b).

(** The first file with the name, ignoring case. *)
Fixpoint lookup_file (items : list item) (target : list Z) : option dent :=
  match items with
  | [] => None
  | it :: rest =>
      match item_file it with
      | Some (name, d) => if same_name name target then Some d else lookup_file rest target
      | None => lookup_file rest target
      end
  end.

(** The loop of [find_file_in_dir] on the list of the entries. *)
Fixpoint scan_list (es : list (list Z)) (lfn : list lfn_entry_t) (target : list Z) : option dir_t :=
  match es with
  | [] => None
  | bs :: es' =>
      if char_at bs 0 =? 0 then None
      else if char_at bs 0 =? 229 then scan_list es' [] target
      else if Attr (dir_of bs) =? DIR_ATTR_LFN then
        scan_list es' (if (length lfn <? 20)%nat then lfn ++ [lfn_of bs] else lfn) target
      else if (Z.land (Attr (dir_of bs)) DIR_ATTR_DIRECTORY =? 0)
           && (strcasecmp (Some (get_file_name (dir_of bs) lfn 256)) (Some target) =? 0)
        then Some (dir_of bs)
        else scan_list es' [] target
  end.

Lemma scan_entries_list buffer n target : forall i lfn,
  scan_entries buffer n i lfn target = scan_list (map (entry_at buffer) (seq i n)) lfn target.
Proof.
  induction n as [|n IH]; intros i lfn; [done|]. cbn [scan_entries seq map scan_list]. by rewrite !IH.
Qed.

Lemma entries_concat es : forall tail k, Forall (fun e => length e = 32%nat) es ->
  map (entry_at (concat es ++ tail)) (seq 0 (length es + k)) = es ++ map (entry_at tail) (seq 0 k).
Proof.
  induction es as [|e es IH]; intros tail k He; [done|]. inversion He as [|? ? Le He']; subst.
  cbn [length Nat.add seq map concat app]. f_equal.
  - unfold entry_at, slice. rewrite Nat.mul_0_r, drop_0, <- app_assoc. by apply take_app_length'.
  - rewrite <- seq_shift, map_map. rewrite <- (IH tail k He'). apply map_ext. intros i. unfold entry_at, slice.
    f_equal. rewrite <- app_assoc. replace (32 * S i)%nat with (length e + 32 * i)%nat by lia. apply drop_app_add.
Qed.

Lemma strcasecmp_nul a b junk : cstring a -> strcasecmp_loop a (b ++ 0 :: junk) = strcasecmp_loop a b.
Proof.
  intros Ha. revert b. induction Ha as [|x a Hx Ha IH]; intros [|y b]; cbn [app strcasecmp_loop].
  - done.
  - done.
  - rewrite (proj2 (Z.eqb_neq x 0)) by lia. done.
  - by rewrite IH.
Qed.

Lemma same_name_spec name target junk : cstring name -> cstring target ->
  (strcasecmp (Some name) (Some (target ++ 0 :: junk)) =? 0) = same_name name target.
Proof.
  intros Hn Ht. unfold strcasecmp, same_name. rewrite strcasecmp_nul by done.
  pose proof (strcasecmp_loop_eq name target Hn Ht) as E. case_bool_decide as B.
  - apply Z.eqb_eq. by apply E.
  - apply Z.eqb_neq. by rewrite E.
Qed.

Lemma scan_lfn es target rest : forall ords acc,
  Forall lfn_ok es -> length ords = length es -> Forall (fun o => o <> 0 /\ o <> 229) ords -> (length acc + length es <= 20)%nat ->
  scan_list (zip_with lfn_bytes ords es ++ rest) acc target = scan_list rest (acc ++ es) target.
Proof.
  induction es as [|e es IH]; intros [|o ords] acc He Lo Ho Hl; try discriminate Lo; cbn [zip_with app].
  - by rewrite app_nil_r.
  - inversion He; subst. inversion Ho as [|? ? [O1 O2] Ho']; subst. destruct (lfn_bytes_attr o e) as [A C]; [done|].
    cbn [scan_list length] in *. rewrite A, C, (proj2 (Z.eqb_neq o 0) O1), (proj2 (Z.eqb_neq o 229) O2), lfn_of_bytes by done.
    cbn [Z.eqb DIR_ATTR_LFN Pos.eqb]. rewrite (proj2 (Nat.ltb_lt _ _)) by lia.
    rewrite IH; [by rewrite <- app_assoc|done|simpl in Lo; lia|done|rewrite length_app; simpl; lia].
Qed.

Definition as_dir (d : dent) : dir_t := mkDir (d_name d) (d_attr d) (d_clus d) (d_size d).

Lemma scan_dent d lfn name target junk rest :
  dent_ok d -> get_file_name (as_dir d) lfn 256 = name -> cstring name -> cstring target ->
  scan_list (dent_bytes d :: rest) lfn (target ++ 0 :: junk) =
    if (Z.land (d_attr d) DIR_ATTR_DIRECTORY =? 0) && same_name name target then Some (as_dir d)
    else scan_list rest [] (target ++ 0 :: junk).
Proof.
  intros Hd Hg Hn Ht. cbn [scan_list]. rewrite dir_of_dent by done. fold (as_dir d). rewrite Hg, same_name_spec by done.
  destruct Hd as (L1 & _ & _ & _ & Ha & C0 & C1).
  assert (Ec : char_at (dent_bytes d) 0 = char_at (d_name d) 0).
  { unfold dent_bytes, char_at. by rewrite lookup_app_l by lia. }
  rewrite Ec, (proj2 (Z.eqb_neq _ 0) C0), (proj2 (Z.eqb_neq _ 229) C1). cbn [as_dir Attr].
  by rewrite (proj2 (Z.eqb_neq _ _) Ha).
Qed.

Lemma plain_cstring s : plain s -> cstring s.
Proof. unfold plain, cstring. intros Hs. eapply Forall_impl; [exact Hs|]. simpl. lia. Qed.

Lemma dotted_cstring base ext : plain base -> plain ext -> cstring (dotted base ext).
Proof.
  intros Hb%plain_cstring He%plain_cstring. unfold dotted. destruct ext as [|c ext]; [done|].
  apply Forall_app. split; [done|]. constructor; [lia|done].
Qed.

Lemma scan_item it target junk rest :
  item_ok it -> cstring target ->
  scan_list (item_entries it ++ rest) [] (target ++ 0 :: junk) =
    match item_file it with
    | Some (name, d) => if same_name name target then Some (as_dir d) else scan_list rest [] (target ++ 0 :: junk)
    | None => scan_list rest [] (target ++ 0 :: junk)
    end.
Proof.
  intros Hi Ht. destruct it as [bs|base ext d|ords name d]; cbn [item_entries item_file app].
  - destruct Hi as [_ E]. cbn [scan_list]. by rewrite E.
  - destruct Hi as (Hd & En & Hb & He & Lb & Le).
    rewrite (scan_dent d [] (dotted base ext)); [by destruct (_ =? 0)|done| |by apply dotted_cstring|done].
    apply short_roundtrip; done || lia.
  - destruct Hi as (Hd & Hn & Ln & Lo & Ho). destruct (lfn_encode_ok name Hn) as [He Le].
    assert (((length name + 12) / 13 <= 20)%nat) by (apply (Nat.Div0.div_le_mono (length name + 12) 267 13); lia).
    assert (((length name + 12) / 13 <> 0)%nat) by (intros E%Nat.div_small_iff; lia).
    rewrite <- app_assoc, (scan_lfn _ _ _ ords []) by (done || simpl; lia). cbn [app].
    rewrite (scan_dent d (lfn_encode name) name); [by destruct (_ =? 0)|done| |done|done].
    unfold get_file_name. destruct (lfn_encode name) as [|e es] eqn:E; [cbn [length] in Le; lia|]. rewrite <- E. apply lfn_roundtrip; [done|lia].
Qed.

Lemma scan_items items target junk rest :
  Forall item_ok items -> cstring target ->
  scan_list (concat (map item_entries items) ++ rest) [] (target ++ 0 :: junk) =
    match lookup_file items target with
    | Some d => Some (as_dir d)
    | None => scan_list rest [] (target ++ 0 :: junk)
    end.
Proof.
  intros Hi Ht. induction Hi as [|it items Hit Hi IH]; [done|]. cbn [map concat lookup_file].
  rewrite <- app_assoc, scan_item by done. destruct (item_file it) as [[name d]|]; [|done]. by destruct (same_name name target).
Qed.

(** ** Opening a file *)

Section Open.
Context {D : Type} `{BlockDev D}.

(** The root directory of the volume holds [items], then free entries. *)
Record root_holds (s : fat D) (items : list item) : Prop := {
  r_disk : disk_inv (fdisk s);
  r_part : 0 <= g_part_offset s;
  r_count : 0 < RootEntCnt (g_bpb s) <= 4064;
  r_fits : g_part_offset s + BPB_Root_addr (g_bpb s) + RootEntCnt (g_bpb s) * 32 <= 4294967296;
  r_items : Forall item_ok items;
  r_bytes : exists tail,
    bytes_at (image (fdisk s)) (g_part_offset s + BPB_Root_addr (g_bpb s)) (Z.to_nat (RootEntCnt (g_bpb s) * 32))
      = concat (concat (map item_entries items)) ++ tail /\ char_at tail 0 = 0
}.

Lemma item_entries_length it : item_ok it -> Forall (fun e => length e = 32%nat) (item_entries it).
Proof.
  destruct it as [bs|base ext d|ords name d]; cbn [item_entries item_ok].
  - intros [L _]. by repeat constructor.
  - intros [Hd _]. repeat constructor. by apply dent_bytes_length.
  - intros (Hd & Hn & _ & Lo & _). apply Forall_app. split; [|repeat constructor; by apply dent_bytes_length].
    destruct (lfn_encode_ok name Hn) as [He _]. clear -He. revert ords.
    induction He as [|e es He Hes IH]; intros [|o ords]; try constructor; [by apply lfn_bytes_length|apply IH].
Qed.

Lemma scan_tail tail k target : char_at tail 0 = 0 -> scan_list (map (entry_at tail) (seq 0 k)) [] target = None.
Proof.
  intros Ht. destruct k as [|k]; [done|]. cbn [seq map scan_list].
  replace (char_at (entry_at tail 0) 0) with (char_at tail 0); [by rewrite Ht|].
  unfold entry_at, slice, char_at. rewrite Nat.mul_0_r, drop_0. by destruct tail.
Qed.

Lemma find_spec fuel stale s items target junk :
  root_holds s items -> cstring target -> (0 < fuel)%nat ->
  exists s', find_file_in_dir fuel stale 0 (target ++ 0 :: junk) s = Ret (option_map as_dir (lookup_file items target)) s'
    /\ disk_only s s'.
Proof.
  intros [] Ht Hf. destruct r_bytes0 as (tail & Eb & Et). unfold find_file_in_dir, sizeof_dir_t. cbn [Z.eqb].
  rewrite (proj2 (Z.eqb_neq (RootEntCnt (g_bpb s) * 32) 0)) by lia.
  destruct fuel as [|fuel]; [lia|]. cbn [search_loop Z.eqb]. unfold sizeof_dir_t.
  pose proof (u32_range (BPB_FAT_addr (g_bpb s) + NumFATs (g_bpb s) * FATSz16 (g_bpb s) * BytsPerSec (g_bpb s))) as Hr.
  fold (BPB_Root_addr (g_bpb s)) in Hr. rewrite u32_small by lia.
  destruct (read_bytes_spec s (g_part_offset s + BPB_Root_addr (g_bpb s)) (RootEntCnt (g_bpb s) * 32)) as (s' & R & Hs); [done|lia|lia|lia|].
  erewrite bind_ret by exact R. exists s'. split; [|done]. rewrite Eb, scan_entries_list.
  set (es := concat (map item_entries items)).
  assert (He : Forall (fun e => length e = 32%nat) es).
  { unfold es. apply Forall_concat, Forall_fmap. eapply Forall_impl; [exact r_items0|]. intros it. apply item_entries_length. }
  assert (Ln : exists k, Z.to_nat (RootEntCnt (g_bpb s) * 32 / 32) = (length es + k)%nat).
  { pose proof (f_equal length Eb) as L. fold es in L. rewrite length_bytes_at, length_app in L.
    assert (Lc : length (concat es) = (32 * length es)%nat).
    { clear -He. induction He as [|e es E He IH]; [done|]. cbn [concat length]. rewrite length_app, E, IH. lia. }
    rewrite Z.div_mul by lia. exists (Z.to_nat (RootEntCnt (g_bpb s)) - length es)%nat. lia. }
  destruct Ln as [k ->]. rewrite entries_concat by done. unfold es. rewrite scan_items, scan_tail by done.
  by destruct (lookup_file items target).
Qed.

(** C28: Opening a file by name. When the root directory holds [items] (erased
    entries, subdirectories, and files with 8.3 or long names in any order), then
    [fat16_open] on a path that is [target] behind any leading slashes returns -1
    when no file has that name, ignoring case, or when the table of open files is
    full; otherwise it takes an unused slot, whose file starts at the cluster and
    has the size recorded in the first such entry, with offset 0 and one
    reference. *)
Theorem fat16_open_finds fuel stale s items p target junk :
  root_holds s items -> cstring target -> (0 < fuel)%nat ->
  char_at p 0 <> 0 -> skip_slashes p = target ++ 0 :: junk -> length (open_files s) = MAX_OPEN_FILES ->
  exists s1, disk_only s s1 /\
  match lookup_file items target with
  | None => fat16_open fuel stale (Some p) s = Ret (-1) s1
  | Some d =>
      (Forall (fun f => fused f = true) (open_files s) /\ fat16_open fuel stale (Some p) s = Ret (-1) s1)
      \/ exists i f, fat16_open fuel stale (Some p) s = Ret (Z.of_nat i) (set_file i f s1)
           /\ (exists g, open_files s !! i = Some g /\ fused g = false)
           /\ file_at (Z.of_nat i) (set_file i f s1) = Some f
           /\ start_cluster f = d_clus d /\ fsize f = d_size d /\ offset f = 0 /\ frefs f = 1
  end.
Proof.
  intros Hr Ht Hf Hp Hs Lf. destruct (find_spec fuel stale s items target junk Hr Ht Hf) as (s1 & R & Hd).
  exists s1. split; [done|]. unfold fat16_open. rewrite (proj2 (Z.eqb_neq _ _) Hp), Hs.
  assert (Eo : open_files s1 = open_files s) by (by destruct Hd as (d & -> & _)).
  destruct (lookup_file items target) as [d|]; cbn [option_map] in R; erewrite bind_ret by exact R; [|done].
  unfold claim_file. rewrite Eo. destruct (find_free _ 0 (open_files s)) as [i|] eqn:Ef.
  - right. destruct (find_free_Some _ _ _ _ Ef) as (j & g & -> & L & U). cbn [Nat.add] in *. apply negb_true_iff in U.
    eexists j, _. split; [reflexivity|]. split; [by exists g|]. split; [|done].
    pose proof (lookup_lt_Some _ _ _ L) as Lt. unfold file_at. rewrite Nat2Z.id.
    rewrite (proj2 (Z.ltb_ge _ _)), (proj2 (Z.leb_gt _ _)) by lia. cbn [orb set_file open_files].
    rewrite Eo, list_lookup_insert_eq by done. done.
  - left. split; [|done]. eapply Forall_impl; [exact (find_free_None _ _ _ Ef)|]. intros f Hu. by apply negb_false_iff in Hu.
Qed.
End Open.

(** ** A small volume *)

Definition demo_bpb : BPB_t := mkBPB 512 1 1 1 16 1.
Definition demo_hello : dent := mkDent (short_name [72; 69; 76; 76; 79] [84; 88; 84]) 32 (replicate 14 0) 2 700.
Definition demo_items : list item :=
  [IErased (229 :: replicate 31 7); ILong [65] [72; 101; 108; 108; 111; 46; 116; 120; 116] demo_hello].
Definition demo_image : ram :=
  write_bytes (512 + 4) [3; 0; 255; 255] (write_bytes 1024 (concat (concat (map item_entries demo_items)))
    (write_bytes 1536 [1; 2; 3] (write_bytes 2048 [4; 5; 6] ∅))).
Definition demo_fat : fat (disk drive) :=
  mkFat demo_bpb 0 (replicate MAX_OPEN_FILES zero_file) (mkDisk (mkDrive demo_image 0 0 0 0 0 0 0 0) false 0) true.

Lemma demo_root : root_holds demo_fat demo_items.
Proof.
  constructor.
  - split; reflexivity.
  - change (0 <= 0). lia.
  - change (0 < 16 <= 4064). lia.
  - change (0 + 1024 + 16 * 32 <= 4294967296). lia.
  - constructor; [split; reflexivity|]. constructor; [|constructor]. split.
    { split_and!; try reflexivity; try (vm_compute; split; congruence); vm_compute; congruence. }
    split; [repeat constructor; lia|]. split; [simpl; lia|]. split; [reflexivity|]. repeat constructor; lia.
  - eexists (drop 96 (bytes_at (image (fdisk demo_fat)) 1024 512)). split; [|by vm_compute]. vm_compute. reflexivity.
Qed.

(** [/hello.TXT] opens slot 0 with the cluster and size of the entry. *)
Lemma fat16_open_finds_witness :
  exists s1, disk_only demo_fat s1 /\
  match lookup_file demo_items [104; 101; 108; 108; 111; 46; 84; 88; 84] with
  | None => fat16_open 1 0 (Some [47; 104; 101; 108; 108; 111; 46; 84; 88; 84; 0]) demo_fat = Ret (-1) s1
  | Some d =>
      (Forall (fun f => fused f = true) (open_files demo_fat)
       /\ fat16_open 1 0 (Some [47; 104; 101; 108; 108; 111; 46; 84; 88; 84; 0]) demo_fat = Ret (-1) s1)
      \/ exists i f, fat16_open 1 0 (Some [47; 104; 101; 108; 108; 111; 46; 84; 88; 84; 0]) demo_fat
             = Ret (Z.of_nat i) (set_file i f s1)
           /\ (exists g, open_files demo_fat !! i = Some g /\ fused g = false)
           /\ file_at (Z.of_nat i) (set_file i f s1) = Some f
           /\ start_cluster f = d_clus d /\ fsize f = d_size d /\ offset f = 0 /\ frefs f = 1
  end.
Proof.
  apply (fat16_open_finds 1 0 demo_fat demo_items _ _ []); [apply demo_root| | |done|done|done].
  - repeat constructor; lia.
  - lia.
Defined.

Definition demo_open : fat (disk drive) := set_file 0 (mkFile (replicate 256 0) 2 700 0 true 1) demo_fat.

Lemma demo_volume : volume demo_open.
Proof.
  constructor.
  - split; reflexivity.
  - change (0 <= 0). lia.
  - cbn. lia.
  - change (0 < 512 <= 129024). lia.
  - change (0 + 1 * 512 + 131072 <= 4294967296). lia.
  - change (0 + 1536 + 65536 * 512 <= 4294967296). lia.
Qed.

(** Three reads of the 700-byte file in clusters 2 and 3. *)
Lemma fat16_read_contents_witness :
  volume demo_open /\ file_ok demo_open 0 (mkFile (replicate 256 0) 2 700 0 true 1) [2; 3] /\
  exists s', read_all 2 0 0 [3; 600; 1000] demo_open
      = Ret (Some (take (total_size [3; 600; 1000]) (drop 0 (file_bytes demo_open (mkFile (replicate 256 0) 2 700 0 true 1) [2; 3])))) s'
    /\ volume s'.
Proof.
  assert (F : file_ok demo_open 0 (mkFile (replicate 256 0) 2 700 0 true 1) [2; 3]).
  { constructor; [reflexivity| |change (0 <= 700 < 4294967296 /\ 700 <= 2 * 512); lia|simpl; lia].
    split; [reflexivity|]. split; [simpl; lia|]. split; [vm_compute; reflexivity|]. split; [vm_compute; split; congruence|exact I]. }
  split; [apply demo_volume|]. split; [exact F|].
  apply (fat16_read_contents 2 0 demo_open 0 _ [2; 3] [3; 600; 1000] demo_volume F); [simpl; lia|repeat constructor; lia].
Defined.
