(* ===== verification/Vfs.v ===== *)
(** Descriptors: stage2/vfs.c.

    The state joins the backends a handle can name: the network stack and its
    sockets, the terminals, the file-system driver (a record of operations on
    its own state, as [vfs_driver_t] is) and the small devices of this file; and
    what the scheduler says of the current task, its descriptor table (absent
    before the scheduler runs) and its terminal. Calls that wait run against a
    schedule for the terminals or the network. A read returns the bytes it
    stored, [None] being -1; of the buffers of a UDP terminal the valid part is
    kept. *)
From S2P Require Import Prelude Utils Disk Net Socket Sched Tty Fat16.

Definition MAX_FDS_PER_PROCESS : nat := 16.
Definition VFS_EMPTY_HANDLE : Z := -1.
Definition VFS_DEV_NULL : Z := -2.
Definition VFS_DEV_ZERO : Z := -3.
Definition VFS_DEV_FULL : Z := -4.
Definition VFS_DEV_CPUINFO_BASE : Z := -8.
Definition VFS_DEV_TTY_BASE : Z := -32.
Definition VFS_DEV_UDP_BASE : Z := -1024.
Definition CPUINFO_OPEN_FILES : nat := 4.
Definition UDP_TTY_MAX_PORTS : nat := 8.
Definition UDP_TTY_BUF_SIZE : Z := 1472.
Definition UDP_TTY_OUT_SIZE : Z := 2048.

Record udp_tty_t := mkUdpTty {
  ut_port : Z; ut_bound : bool; ut_has_peer : bool; ut_peer_ip : list Z; ut_peer_port : Z;
  ut_inbuf : list Z; ut_in_pos : Z; ut_outbuf : list Z
}.
Definition zero_udp_tty : udp_tty_t := mkUdpTty 0 false false [0; 0; 0; 0] 0 [] 0 [].

Record cpuinfo_file_t := mkCpuinfo { ci_used : bool; ci_refs : Z; ci_offset : Z }.
Definition zero_cpuinfo : cpuinfo_file_t := mkCpuinfo false 0 0.

(** Null function pointers are [None]. *)
Record vfs_driver_t (F : Type) := mkDriver {
  open_file : option (option (list Z) -> M F Z);
  close_file : option (Z -> M F Z);
  read_file : option (Z -> Z -> M F (option (list Z)));
  write_file : option (Z -> list Z -> M F Z);
  dup_file : option (Z -> M F Z)
}.
Arguments mkDriver {F}. Arguments open_file {F}. Arguments close_file {F}. Arguments read_file {F}.
Arguments write_file {F}. Arguments dup_file {F}.

Record vfs (N F : Type) := mkVfs {
  v_net : net N; v_con : console; v_fs : F; current_driver : option (vfs_driver_t F);
  cpuinfo_files : list cpuinfo_file_t; udp_ttys : list udp_tty_t; cpuinfo_text : list Z;
  v_fds : option (list Z); v_tty : Z
}.
Arguments mkVfs {N F}. Arguments v_net {N F}. Arguments v_con {N F}. Arguments v_fs {N F}.
Arguments current_driver {N F}. Arguments cpuinfo_files {N F}. Arguments udp_ttys {N F}.
Arguments cpuinfo_text {N F}. Arguments v_fds {N F}. Arguments v_tty {N F}.

(** ** Paths *)

Definition normalize_path (p : option (list Z)) : option (list Z) := option_map skip_slashes p.

Fixpoint path_eq_loop (a b : list Z) : bool :=
  match a, b with
  | x :: a', y :: b' =>
      if negb (x =? 0) && negb (y =? 0) && (x =? y) then path_eq_loop a' b' else (x =? 0) && (y =? 0)
  | x :: _, [] => x =? 0
  | [], y :: _ => y =? 0
  | [], [] => true
  end.
Definition path_eq (a : option (list Z)) (b : list Z) : bool :=
  match a with Some a => path_eq_loop a b | None => false end.

Fixpoint prefix_loop (path prefix : list Z) : bool :=
  match prefix with
  | [] => true
  | c :: prefix' =>
      match path with
      | d :: path' => if d =? c then prefix_loop path' prefix' else false
      | [] => false
      end
  end.
Definition path_has_prefix (p : option (list Z)) (prefix : list Z) : bool :=
  match p with Some p => prefix_loop p prefix | None => false end.

Definition s_dev : list Z := [100; 101; 118; 47].
Definition s_null : list Z := s_dev ++ [110; 117; 108; 108].
Definition s_zero : list Z := s_dev ++ [122; 101; 114; 111].
Definition s_full : list Z := s_dev ++ [102; 117; 108; 108].
Definition s_tty : list Z := s_dev ++ [116; 116; 121].
Definition s_udp : list Z := s_dev ++ [117; 100; 112].
Definition s_cpuinfo : list Z := s_dev ++ [99; 112; 117; 105; 110; 102; 111].

(** The loop of [parse_uint16]: the value, or [None] on overflow. *)
Fixpoint parse_digits (s : list Z) (value digits : Z) : option (Z * Z * list Z) :=
  match s with
  | c :: s' =>
      if (48 <=? c) && (c <=? 57) then
        let value := u32 (value * 10 + (c - 48)) in
        if 65535 <? value then None else parse_digits s' value (digits + 1)
      else Some (value, digits, s)
  | [] => Some (value, digits, [])
  end.
(** [None] is -1, otherwise the number stored. *)
Definition parse_uint16 (s : list Z) : option Z :=
  match parse_digits s 0 0 with
  | Some (value, digits, rest) =>
      if (digits =? 0) || negb (char_at rest 0 =? 0) then None else Some (u16 value)
  | None => None
  end.

(** ** Handles *)

Definition udp_tty_handle_port (handle : Z) : Z :=
  if handle <=? VFS_DEV_UDP_BASE then VFS_DEV_UDP_BASE - handle else -1.
Definition cpuinfo_handle_id (handle : Z) : Z :=
  if (handle <=? VFS_DEV_CPUINFO_BASE) && (VFS_DEV_CPUINFO_BASE - Z.of_nat CPUINFO_OPEN_FILES <? handle)
  then VFS_DEV_CPUINFO_BASE - handle else -1.
Definition tty_handle_id (handle : Z) : Z :=
  if (handle <=? VFS_DEV_TTY_BASE) && (VFS_DEV_TTY_BASE - TTY_COUNT <? handle)
  then VFS_DEV_TTY_BASE - handle else -1.

Section Vfs.
Context {N F : Type} `{Nic N}.
Context (fuel polls : nat) (call_handler : Z -> list Z -> Z -> list Z -> Z -> list Z -> net N -> net N).
Abbreviation V := (vfs N F).
Abbreviation VM := (M V).

Definition set_net (n : net N) (s : V) : V :=
  mkVfs n (v_con s) (v_fs s) (current_driver s) (cpuinfo_files s) (udp_ttys s) (cpuinfo_text s) (v_fds s) (v_tty s).
Definition set_con (c : console) (s : V) : V :=
  mkVfs (v_net s) c (v_fs s) (current_driver s) (cpuinfo_files s) (udp_ttys s) (cpuinfo_text s) (v_fds s) (v_tty s).
Definition set_fs (f : F) (s : V) : V :=
  mkVfs (v_net s) (v_con s) f (current_driver s) (cpuinfo_files s) (udp_ttys s) (cpuinfo_text s) (v_fds s) (v_tty s).
Definition set_driver (d : option (vfs_driver_t F)) (s : V) : V :=
  mkVfs (v_net s) (v_con s) (v_fs s) d (cpuinfo_files s) (udp_ttys s) (cpuinfo_text s) (v_fds s) (v_tty s).
Definition set_cpuinfo (l : list cpuinfo_file_t) (s : V) : V :=
  mkVfs (v_net s) (v_con s) (v_fs s) (current_driver s) l (udp_ttys s) (cpuinfo_text s) (v_fds s) (v_tty s).
Definition set_udp_ttys (l : list udp_tty_t) (s : V) : V :=
  mkVfs (v_net s) (v_con s) (v_fs s) (current_driver s) (cpuinfo_files s) l (cpuinfo_text s) (v_fds s) (v_tty s).
Definition set_fds (t : option (list Z)) (s : V) : V :=
  mkVfs (v_net s) (v_con s) (v_fs s) (current_driver s) (cpuinfo_files s) (udp_ttys s) (cpuinfo_text s) t (v_tty s).

Definition on_net {A} (c : M (net N) A) : VM A := zoom v_net set_net c.
Definition on_con {A} (c : M console A) : VM A := zoom v_con set_con c.
Definition on_fs {A} (c : M F A) : VM A := zoom v_fs set_fs c.

Definition register_vfs_driver (d : vfs_driver_t F) : VM unit := modify (set_driver (Some d)).

(** ** Devices *)

Definition tty_path_id (name : option (list Z)) (s : V) : Z :=
  if path_eq name s_tty then v_tty s
  else if negb (path_has_prefix name s_tty) then -1
  else
    let name := default [] name in
    let n := char_at name 7 in
    if (n <? 49) || (48 + TTY_COUNT <? n) || negb (char_at name 8 =? 0) then -1 else n - 49.

(** The index of the terminal of a port, a new one if none has it. *)
Definition udp_tty_for_port (port : Z) : VM (option nat) := fun s =>
  match find_free (fun t => ut_bound t && (ut_port t =? port)) 0 (udp_ttys s) with
  | Some i => Ret (Some i) s
  | None =>
      match find_free (fun t => negb (ut_bound t)) 0 (udp_ttys s) with
      | Some i => Ret (Some i) (set_udp_ttys (<[i := mkUdpTty port true false [0; 0; 0; 0] 0 [] 0 []]> (udp_ttys s)) s)
      | None => Ret None s
      end
  end.

Definition udp_tty (i : nat) (s : V) : udp_tty_t := default zero_udp_tty (udp_ttys s !! i).
Definition upd_udp_tty (i : nat) (f : udp_tty_t -> udp_tty_t) (s : V) : V :=
  set_udp_ttys (alter f i (udp_ttys s)) s.
Definition with_uin (t : udp_tty_t) (bs : list Z) (pos : Z) : udp_tty_t :=
  mkUdpTty (ut_port t) (ut_bound t) (ut_has_peer t) (ut_peer_ip t) (ut_peer_port t) bs pos (ut_outbuf t).
Definition with_upeer (t : udp_tty_t) (ip : list Z) (port : Z) : udp_tty_t :=
  mkUdpTty (ut_port t) (ut_bound t) true ip port (ut_inbuf t) (ut_in_pos t) (ut_outbuf t).
Definition with_uout (t : udp_tty_t) (bs : list Z) : udp_tty_t :=
  mkUdpTty (ut_port t) (ut_bound t) (ut_has_peer t) (ut_peer_ip t) (ut_peer_port t) (ut_inbuf t) (ut_in_pos t) bs.

Definition udp_tty_flush_output (i : nat) : VM unit := fun s =>
  let t := udp_tty i s in
  if negb (ut_has_peer t) || (length (ut_outbuf t) =? 0)%nat then Ret tt s
  else
    (r ← on_net (udp_send_local call_handler fuel polls (ut_port t) (ut_peer_ip t) (ut_peer_port t) (ut_outbuf t));
     if r =? 0 then modify (upd_udp_tty i (fun t => with_uout t [])) else mret tt) s.

Definition udp_tty_open (name : option (list Z)) : VM Z :=
  if negb (path_has_prefix name s_udp) then mret VFS_EMPTY_HANDLE
  else
    match parse_uint16 (drop 7 (default [] name)) with
    | None => mret VFS_EMPTY_HANDLE
    | Some port =>
        t ← udp_tty_for_port port;
        match t with
        | None => mret VFS_EMPTY_HANDLE
        | Some _ =>
            r ← on_net (udp_server_bind port);
            mret (if r <? 0 then VFS_EMPTY_HANDLE else VFS_DEV_UDP_BASE - port)
        end
    end.

Definition cpuinfo_open (name : option (list Z)) : VM Z := fun s =>
  if negb (path_eq name s_cpuinfo) then Ret VFS_EMPTY_HANDLE s
  else
    match find_free (fun f => negb (ci_used f)) 0 (cpuinfo_files s) with
    | Some i => Ret (VFS_DEV_CPUINFO_BASE - Z.of_nat i) (set_cpuinfo (<[i := mkCpuinfo true 1 0]> (cpuinfo_files s)) s)
    | None => Ret VFS_EMPTY_HANDLE s
    end.

Definition device_open (p : option (list Z)) : VM Z :=
  let name := normalize_path p in
  if path_eq name s_null then mret VFS_DEV_NULL
  else if path_eq name s_zero then mret VFS_DEV_ZERO
  else if path_eq name s_full then mret VFS_DEV_FULL
  else
    cpuinfo ← cpuinfo_open name;
    if negb (cpuinfo =? VFS_EMPTY_HANDLE) then mret cpuinfo
    else
      tty ← gets (tty_path_id name);
      if 0 <=? tty then mret (VFS_DEV_TTY_BASE - tty)
      else udp_tty_open name.

(** The open cpuinfo file a handle names. *)
Definition cpuinfo_at (handle : Z) (s : V) : option (nat * cpuinfo_file_t) :=
  let id := cpuinfo_handle_id handle in
  if id <? 0 then None
  else match cpuinfo_files s !! Z.to_nat id with
       | Some f => if ci_used f then Some (Z.to_nat id, f) else None
       | None => None
       end.

Definition cpuinfo_read (handle size : Z) (dst_ok : bool) : VM (option (list Z)) := fun s =>
  match cpuinfo_at handle s with
  | None => Ret None s
  | Some (i, f) =>
      if negb dst_ok then Ret None s
      else if size =? 0 then Ret (Some []) s
      else
        let len := Z.of_nat (length (cpuinfo_text s)) in
        if len <=? ci_offset f then Ret (Some []) s
        else
          let remaining := len - ci_offset f in
          let n := if size <? remaining then size else remaining in
          Ret (Some (take (Z.to_nat n) (drop (Z.to_nat (ci_offset f)) (cpuinfo_text s))))
            (set_cpuinfo (<[i := mkCpuinfo true (ci_refs f) (ci_offset f + n)]> (cpuinfo_files s)) s)
  end.

(** The busy wait of a UDP terminal for unread bytes. *)
Fixpoint udp_tty_wait (env : list (net N -> net N)) (i : nat) : VM unit := fun s =>
  let t := udp_tty i s in
  if Z.of_nat (length (ut_inbuf t)) <=? ut_in_pos t then
    (modify (upd_udp_tty i (fun t => with_uin t [] 0)) ;;
     d ← on_net (udp_server_recv (ut_port t) UDP_TTY_BUF_SIZE);
     match d with
     | Some (ip, port, payload) =>
         modify (upd_udp_tty i (fun t => with_upeer (with_uin t payload 0) ip port)) ;;
         udp_tty_flush_output i
     | None =>
         match env with
         | [] => out_of_fuel
         | e :: env' => on_net (modify e) ;; udp_tty_wait env' i
         end
     end) s
  else Ret tt s.

Definition udp_tty_take (i : nat) (size : Z) : VM (option (list Z)) := fun s =>
  let t := udp_tty i s in
  let available := u16 (Z.of_nat (length (ut_inbuf t)) - ut_in_pos t) in
  let n := if size <? available then size else available in
  Ret (Some (take (Z.to_nat n) (drop (Z.to_nat (ut_in_pos t)) (ut_inbuf t))))
    (upd_udp_tty i (fun t => with_uin t (ut_inbuf t) (u16 (ut_in_pos t + n))) s).

Definition device_read (tenv : schedule) (nenv : list (net N -> net N)) (handle size : Z) (dst_ok : bool) :
    VM (option (list Z)) :=
  if handle =? VFS_DEV_NULL then mret (Some [])
  else if (handle =? VFS_DEV_ZERO) || (handle =? VFS_DEV_FULL) then mret (Some (replicate (Z.to_nat size) 0))
  else
    let tty := tty_handle_id handle in
    if 0 <=? tty then on_con (tty_read 2 fuel tenv tty size dst_ok)
    else if 0 <=? cpuinfo_handle_id handle then cpuinfo_read handle size dst_ok
    else
      let port := udp_tty_handle_port handle in
      if 0 <=? port then
        t ← udp_tty_for_port (u16 port);
        match t with
        | None => mret None
        | Some i => if negb dst_ok then mret None else udp_tty_wait nenv i ;; udp_tty_take i size
        end
      else mret None.

Definition cpuinfo_close (handle : Z) : VM Z := fun s =>
  match cpuinfo_at handle s with
  | None => Ret (-1) s
  | Some (i, f) =>
      let refs := ci_refs f - 1 in
      let f := if refs <=? 0 then mkCpuinfo false refs 0 else mkCpuinfo true refs (ci_offset f) in
      Ret 0 (set_cpuinfo (<[i := f]> (cpuinfo_files s)) s)
  end.

Definition cpuinfo_dup (handle : Z) : VM Z := fun s =>
  match cpuinfo_at handle s with
  | None => Ret (-1) s
  | Some (i, f) => Ret 0 (set_cpuinfo (<[i := mkCpuinfo true (ci_refs f + 1) (ci_offset f)]> (cpuinfo_files s)) s)
  end.

Definition device_close (handle : Z) : VM Z :=
  if 0 <=? cpuinfo_handle_id handle then cpuinfo_close handle else mret 0.
Definition device_dup (handle : Z) : VM Z :=
  if 0 <=? cpuinfo_handle_id handle then cpuinfo_dup handle else mret 0.

(** [src] is the buffer, [None] when null; [size] its length. *)
Definition device_write (handle : Z) (src : option (list Z)) (size : Z) : VM Z :=
  if (handle =? VFS_DEV_NULL) || (handle =? VFS_DEV_ZERO) then mret (i32 size)
  else if handle =? VFS_DEV_FULL then mret (-1)
  else
    let tty := tty_handle_id handle in
    if 0 <=? tty then on_con (fun c => let '(r, c') := tty_write_buf tty src c in Ret r c')
    else
      let port := udp_tty_handle_port handle in
      if 0 <=? port then
        t ← udp_tty_for_port (u16 port);
        match t, src with
        | Some i, Some bs =>
            t ← gets (udp_tty i);
            if ut_has_peer t then
              r ← on_net (udp_send_local call_handler fuel polls (ut_port t) (ut_peer_ip t) (ut_peer_port t)
                            (take (Z.to_nat (u16 size)) bs));
              mret (if r =? 0 then i32 size else -1)
            else
              let room := UDP_TTY_OUT_SIZE - Z.of_nat (length (ut_outbuf t)) in
              let n := if size <? room then size else room in
              modify (upd_udp_tty i (fun t => with_uout t (ut_outbuf t ++ take (Z.to_nat n) bs))) ;;
              mret (i32 size)
        | _, _ => mret (-1)
        end
      else mret (-1).

(** ** Handles of any backend *)

(** A driver operation, or its failure value when there is no driver or the
    driver does not have it. *)
Definition with_driver {A B} (op : vfs_driver_t F -> option A) (fail : B) (call : A -> M F B) : VM B := fun s =>
  match current_driver s with
  | Some d => match op d with Some f => on_fs (call f) s | None => Ret fail s end
  | None => Ret fail s
  end.

Definition is_socket (handle : Z) (s : V) : bool := socket_handle_valid handle (v_net s).

Definition file_open (p : option (list Z)) : VM Z :=
  device ← device_open p;
  if negb (device =? VFS_EMPTY_HANDLE) then mret device
  else with_driver open_file (-1) (fun f => f p).

Definition file_close (handle : Z) : VM Z :=
  sk ← gets (is_socket handle);
  if (sk : bool) then on_net (socket_close handle)
  else if handle <? VFS_EMPTY_HANDLE then device_close handle
  else with_driver close_file (-1) (fun f => f handle).

Definition file_read (tenv : schedule) (nenv : list (net N -> net N)) (handle size : Z) (dst_ok : bool) :
    VM (option (list Z)) :=
  sk ← gets (is_socket handle);
  if (sk : bool) then on_net (socket_read fuel polls call_handler nenv handle dst_ok size)
  else if handle <? VFS_EMPTY_HANDLE then device_read tenv nenv handle size dst_ok
  else with_driver read_file None (fun f => f handle size).

Definition file_write (handle : Z) (src : option (list Z)) (size : Z) : VM Z :=
  sk ← gets (is_socket handle);
  if (sk : bool) then on_net (socket_write fuel polls call_handler handle src)
  else if handle <? VFS_EMPTY_HANDLE then device_write handle src size
  else with_driver write_file (-1) (fun f => f handle (default [] src)).

(** ** Descriptors of the current task *)

Definition vfs_attach_handle (handle : Z) : VM Z := fun s =>
  match v_fds s with
  | None => Ret (-1) s
  | Some t =>
      match find_free (fun h => h =? VFS_EMPTY_HANDLE) 0 t with
      | Some i => Ret (Z.of_nat i) (set_fds (Some (<[i := handle]> t)) s)
      | None => Ret (-1) s
      end
  end.

Definition vfs_open (p : option (list Z)) : VM Z :=
  handle ← file_open p;
  if handle =? VFS_EMPTY_HANDLE then mret (-1)
  else
    fd ← vfs_attach_handle handle;
    if fd <? 0 then file_close handle ;; mret fd else mret fd.

(** [table->handle[fd]] when [fd] is an open descriptor, else [VFS_EMPTY_HANDLE]. *)
Definition vfs_fd_handle (fd : Z) (s : V) : Z :=
  match v_fds s with
  | None => VFS_EMPTY_HANDLE
  | Some t =>
      if (fd <? 0) || (Z.of_nat MAX_FDS_PER_PROCESS <=? fd) then VFS_EMPTY_HANDLE
      else default VFS_EMPTY_HANDLE (t !! Z.to_nat fd)
  end.

Definition vfs_read (tenv : schedule) (nenv : list (net N -> net N)) (fd size : Z) (dst_ok : bool) :
    VM (option (list Z)) :=
  handle ← gets (vfs_fd_handle fd);
  if handle =? VFS_EMPTY_HANDLE then mret None else file_read tenv nenv handle size dst_ok.

Definition vfs_write (fd : Z) (src : option (list Z)) (size : Z) : VM Z :=
  handle ← gets (vfs_fd_handle fd);
  if handle =? VFS_EMPTY_HANDLE then mret (-1) else file_write handle src size.

Definition set_fd (fd handle : Z) (s : V) : V := set_fds (option_map (<[Z.to_nat fd := handle]>) (v_fds s)) s.

Definition vfs_close (fd : Z) : VM Z :=
  handle ← gets (vfs_fd_handle fd);
  if handle =? VFS_EMPTY_HANDLE then mret (-1)
  else
    result ← file_close handle;
    if result =? 0 then modify (set_fd fd VFS_EMPTY_HANDLE) ;; mret result else mret result.

(** One more reference to what a handle names. *)
Definition dup_handle (handle : Z) : VM unit :=
  sk ← gets (is_socket handle);
  if (sk : bool) then on_net (socket_dup handle) ;; mret tt
  else if handle <? VFS_EMPTY_HANDLE then device_dup handle ;; mret tt
  else if 0 <=? handle then with_driver dup_file (-1) (fun f => f handle) ;; mret tt
  else mret tt.

Definition vfs_dup2 (oldfd newfd : Z) : VM Z := fun s =>
  let h := vfs_fd_handle oldfd s in
  if (newfd <? 0) || (Z.of_nat MAX_FDS_PER_PROCESS <=? newfd) || (h =? VFS_EMPTY_HANDLE) then Ret (-1) s
  else if oldfd =? newfd then Ret newfd s
  else if (newfd <=? 2) && (0 <=? tty_handle_id h) && negb (tty_handle_id h =? v_tty s) then Ret (-1) s
  else
    ((if negb (vfs_fd_handle newfd s =? VFS_EMPTY_HANDLE) then vfs_close newfd ;; mret tt else mret tt) ;;
     modify (fun s => set_fd newfd (vfs_fd_handle oldfd s) s) ;;
     (h ← gets (vfs_fd_handle newfd); dup_handle h) ;;
     mret newfd) s.

(** ** Descriptor tables of tasks *)

Definition bind_fds (table : list Z) (tty : Z) : list Z :=
  let handle := VFS_DEV_TTY_BASE - (if tty_valid tty then tty else 0) in
  <[0%nat := handle]> (<[1%nat := handle]> (<[2%nat := handle]> table)).

Definition init_fds (tty : Z) : list Z :=
  bind_fds (replicate MAX_FDS_PER_PROCESS VFS_EMPTY_HANDLE) (if tty_valid tty then tty else 0).

(** The copies and references for the handles of the parent's table. *)
Fixpoint fork_loop (parent : list Z) : VM (list Z) :=
  match parent with
  | [] => mret []
  | h :: rest => dup_handle h ;; child ← fork_loop rest; mret (h :: child)
  end.
Definition fork_fds (parent : list Z) : VM (list Z) := fork_loop parent.

Fixpoint exit_loop (table : list Z) : VM (list Z) :=
  match table with
  | [] => mret []
  | h :: rest =>
      sk ← gets (is_socket h);
      h' ← (if (sk : bool) then on_net (socket_close h) ;; mret VFS_EMPTY_HANDLE
            else if 0 <=? h then with_driver close_file (-1) (fun f => f h) ;; mret VFS_EMPTY_HANDLE
            else if h <? VFS_EMPTY_HANDLE then device_close h ;; mret VFS_EMPTY_HANDLE
            else mret h);
      rest' ← exit_loop rest;
      mret (h' :: rest')
  end.
Definition exit_fds (table : list Z) : VM (list Z) := fun s =>
  match current_driver s with
  | Some d => match close_file d with Some _ => exit_loop table s | None => Ret table s end
  | None => Ret table s
  end.

(** The interface of the scheduler. The loops of a driver that returns always
    return; were one to halt the machine, the table stays as it was. *)
Definition run_fds (table : list Z) (c : VM (list Z)) (s : V) : list Z * V :=
  match c s with Ret t s' => (t, s') | Halted s' => (table, s') | NoFuel => (table, s) end.

#[export] Instance vfs_backend : FdBackend V := {|
  Sched.vfs_init_fds := init_fds;
  Sched.vfs_bind_tty := bind_fds;
  Sched.vfs_fork_fds parent s := run_fds parent (fork_fds parent) s;
  Sched.vfs_exit_fds table s := run_fds table (exit_fds table) s
|}.
End Vfs.

(** The driver [fat16_init] registers. *)
Definition fat16_driver {D} `{BlockDev D} (fuel : nat) (stale : Z) : vfs_driver_t (fat D) :=
  mkDriver (Some (fat16_open fuel stale)) (Some fat16_close) (Some (fat16_read fuel stale))
    (Some fat16_write) (Some fat16_dup).
