(* ===== verification/VfsProofs.v ===== *)
(** Properties of the descriptor layer: reference counts are exact, a child's
    exit undoes what its creation did, device names and handles. *)
From S2P Require Import Prelude Utils Disk Net UdpQueue NetProofs Socket SocketProofs Sched Tty TtyProofs Fat16 Fat16Proofs FatNames Vfs.

(** ** Counting *)

Fixpoint zcount (x : Z) (t : list Z) : Z :=
  match t with
  | [] => 0
  | h :: rest => (if h =? x then 1 else 0) + zcount x rest
  end.

Lemma zcount_insert t : forall i a b x, t !! i = Some a ->
  zcount x (<[i := b]> t) = zcount x t - (if a =? x then 1 else 0) + (if b =? x then 1 else 0).
Proof.
  induction t as [|h t IH]; intros [|i] a b x; try done; simpl.
  - intros [= ->]. lia.
  - intros L. rewrite (IH i a b x L). lia.
Qed.

Lemma zcount_pos x t : 0 <= zcount x t.
Proof. induction t as [|h t IH]; simpl; [lia|]. case_z; lia. Qed.
Lemma zcount_elem x t i : t !! i = Some x -> 1 <= zcount x t.
Proof.
  revert i. induction t as [|h t IH]; intros [|i]; try done; simpl.
  - intros [= ->]. rewrite Z.eqb_refl. pose proof (zcount_pos x t). lia.
  - intros L%IH. case_z; lia.
Qed.

(** References held by a slot of a table; none when it is not in use. *)
Definition slot_refs {A} (u : A -> bool) (r : A -> Z) (l : list A) (i : nat) : Z :=
  match l !! i with Some x => if u x then r x else 0 | None => 0 end.

Lemma slot_refs_insert {A} (u : A -> bool) (r : A -> Z) l i x j :
  (i < length l)%nat ->
  slot_refs u r (<[i := x]> l) j = if (j =? i)%nat then (if u x then r x else 0) else slot_refs u r l j.
Proof.
  intros Hi. unfold slot_refs. destruct (Nat.eqb_spec j i) as [-> |Hn].
  - by rewrite list_lookup_insert_eq.
  - by rewrite list_lookup_insert_ne.
Qed.

Section Counts.
Context {N D : Type} `{Nic N} `{BlockDev D}.
Context (ffuel : nat) (stale : Z).
Abbreviation V := (vfs N (fat D)).

Definition refcount (s : V) (h : Z) : Z :=
  if 0 <=? h then slot_refs fused frefs (open_files (v_fs s)) (Z.to_nat h)
  else if 0 <=? socket_index_from_handle h
  then slot_refs used refs (sockets (v_net s)) (Z.to_nat (socket_index_from_handle h))
  else if 0 <=? cpuinfo_handle_id h then slot_refs ci_used ci_refs (cpuinfo_files s) (Z.to_nat (cpuinfo_handle_id h))
  else 0.

(** Handles of objects with a reference count: disk files, sockets, cpuinfo. *)
Definition counted (h : Z) : Prop :=
  0 <= h < 8 \/ -4112 < h <= -4096 \/ -12 < h <= -8.
(** Handles of devices without one. *)
Definition device (h : Z) : Prop :=
  h = VFS_DEV_NULL \/ h = VFS_DEV_ZERO \/ h = VFS_DEV_FULL \/ (-36 < h <= -32)
  \/ (-66560 < h <= -1024 /\ ~ (-4112 < h <= -4096)).
Definition entry_ok (h : Z) : Prop := h = VFS_EMPTY_HANDLE \/ counted h \/ device h.

Lemma socket_index_eq h :
  socket_index_from_handle h = if (h <=? -4096) && (-4112 <? h) then -4096 - h else -1.
Proof.
  unfold socket_index_from_handle, SOCKET_HANDLE_BASE, SOCKET_MAX.
  destruct (Z.ltb_spec (-4096 - h) 0), (Z.leb_spec (Z.of_nat 16) (-4096 - h)), (Z.leb_spec h (-4096)), (Z.ltb_spec (-4112) h);
    simpl; lia.
Qed.
Lemma cpuinfo_id_eq h : cpuinfo_handle_id h = if (h <=? -8) && (-12 <? h) then -8 - h else -1.
Proof. done. Qed.

(** The tables have their sizes and the FAT16 driver is registered. *)
Record vfs_wf (s : V) : Prop := {
  w_sockets : length (sockets (v_net s)) = SOCKET_MAX;
  w_cpuinfo : length (cpuinfo_files s) = CPUINFO_OPEN_FILES;
  w_files : length (open_files (v_fs s)) = MAX_OPEN_FILES;
  w_driver : current_driver s = Some (fat16_driver ffuel stale)
}.

(** [h] gained [d] references; the descriptors did not change. *)
Record moved (h d : Z) (s s' : V) : Prop := {
  mv_fds : v_fds s' = v_fds s;
  mv_tty : v_tty s' = v_tty s;
  mv_wf : vfs_wf s';
  mv_refs : forall x, counted x -> refcount s' x = refcount s x + (if x =? h then d else 0)
}.

Lemma refcount_of_file s x : 0 <= x -> refcount s x = slot_refs fused frefs (open_files (v_fs s)) (Z.to_nat x).
Proof. intros Hx. unfold refcount. by rewrite (proj2 (Z.leb_le 0 x) Hx). Qed.
Lemma refcount_of_socket s x : -4112 < x <= -4096 ->
  refcount s x = slot_refs used refs (sockets (v_net s)) (Z.to_nat (-4096 - x)).
Proof.
  intros Hx. unfold refcount. rewrite (proj2 (Z.leb_gt 0 x)), socket_index_eq by lia.
  rewrite (proj2 (Z.leb_le x (-4096))), (proj2 (Z.ltb_lt (-4112) x)) by lia. cbn [andb].
  by rewrite (proj2 (Z.leb_le 0 (-4096 - x))) by lia.
Qed.
Lemma refcount_of_cpuinfo s x : -12 < x <= -8 ->
  refcount s x = slot_refs ci_used ci_refs (cpuinfo_files s) (Z.to_nat (-8 - x)).
Proof.
  intros Hx. unfold refcount. rewrite (proj2 (Z.leb_gt 0 x)), socket_index_eq, cpuinfo_id_eq by lia.
  rewrite (proj2 (Z.leb_gt x (-4096))), (proj2 (Z.leb_le x (-8))), (proj2 (Z.ltb_lt (-12) x)) by lia. cbn [andb Z.leb Z.compare].
  by rewrite (proj2 (Z.leb_le 0 (-8 - x))) by lia.
Qed.

(** Splits [counted x] and rewrites the counts of the three kinds. *)
Ltac by_kind H :=
  destruct H as [H|[H|H]];
  rewrite ?(refcount_of_file _ _ (proj1 H)), ?(refcount_of_socket _ _ H), ?(refcount_of_cpuinfo _ _ H).

Lemma refcount_socket i k s x :
  vfs_wf s -> (i < SOCKET_MAX)%nat -> counted x ->
  refcount (set_net (set_socket i k (v_net s)) s) x =
    if x =? -4096 - Z.of_nat i then (if used k then refs k else 0) else refcount s x.
Proof.
  intros [] Hi Hc. unfold SOCKET_MAX in *. by_kind Hc; try (destruct (Z.eqb_spec x (-4096 - Z.of_nat i)); [lia|done]).
  cbn [set_net v_net set_socket set_sockets sockets]. rewrite slot_refs_insert by lia.
  destruct (Nat.eqb_spec (Z.to_nat (-4096 - x)) i), (Z.eqb_spec x (-4096 - Z.of_nat i)); try lia; done.
Qed.

Lemma refcount_cpuinfo i f s x :
  vfs_wf s -> (i < CPUINFO_OPEN_FILES)%nat -> counted x ->
  refcount (set_cpuinfo (<[i := f]> (cpuinfo_files s)) s) x =
    if x =? -8 - Z.of_nat i then (if ci_used f then ci_refs f else 0) else refcount s x.
Proof.
  intros [] Hi Hc. unfold CPUINFO_OPEN_FILES in *. by_kind Hc; try (destruct (Z.eqb_spec x (-8 - Z.of_nat i)); [lia|done]).
  cbn [set_cpuinfo cpuinfo_files]. rewrite slot_refs_insert by lia.
  destruct (Nat.eqb_spec (Z.to_nat (-8 - x)) i), (Z.eqb_spec x (-8 - Z.of_nat i)); try lia; done.
Qed.

Lemma refcount_file i f d s x :
  vfs_wf s -> (i < MAX_OPEN_FILES)%nat -> counted x ->
  refcount (set_fs (set_file i f (set_disk d (v_fs s))) s) x =
    if x =? Z.of_nat i then (if fused f then frefs f else 0) else refcount s x.
Proof.
  intros [] Hi Hc. unfold MAX_OPEN_FILES in *. by_kind Hc; try (destruct (Z.eqb_spec x (Z.of_nat i)); [lia|done]).
  cbn [set_fs v_fs set_file set_disk open_files]. rewrite slot_refs_insert by lia.
  destruct (Nat.eqb_spec (Z.to_nat x) i), (Z.eqb_spec x (Z.of_nat i)); try lia; done.
Qed.

(** A slot with references is in use. *)
Lemma slot_refs_used {A} (u : A -> bool) (r : A -> Z) l i :
  1 <= slot_refs u r l i -> exists x, l !! i = Some x /\ u x = true /\ r x = slot_refs u r l i.
Proof.
  unfold slot_refs. destruct (l !! i) as [x|]; [|lia]. destruct (u x) eqn:U; [|lia]. eauto.
Qed.

Lemma is_socket_used h (s : V) k :
  -4112 < h <= -4096 -> sockets (v_net s) !! Z.to_nat (-4096 - h) = Some k -> used k = true ->
  socket_from_handle h (v_net s) = Some (Z.to_nat (-4096 - h), k).
Proof.
  intros Hh L U. unfold socket_from_handle. rewrite socket_index_eq.
  rewrite (proj2 (Z.leb_le h (-4096))), (proj2 (Z.ltb_lt (-4112) h)) by lia. cbn [andb].
  rewrite (proj2 (Z.ltb_ge (-4096 - h) 0)) by lia. by rewrite L, U.
Qed.

Lemma is_socket_no h (s : V) : ~ (-4112 < h <= -4096) -> is_socket h s = false.
Proof.
  intros Hh. unfold is_socket, socket_handle_valid, socket_from_handle. rewrite socket_index_eq.
  destruct (Z.leb_spec h (-4096)), (Z.ltb_spec (-4112) h); try lia; done.
Qed.

Lemma wf_socket i k s : vfs_wf s -> vfs_wf (set_net (set_socket i k (v_net s)) s).
Proof. intros []. constructor; try done. cbn. by rewrite length_insert. Qed.
Lemma wf_cpuinfo i f s : vfs_wf s -> vfs_wf (set_cpuinfo (<[i := f]> (cpuinfo_files s)) s).
Proof. intros []. constructor; try done. cbn. by rewrite length_insert. Qed.
Lemma wf_file i f d s : vfs_wf s -> vfs_wf (set_fs (set_file i f (set_disk d (v_fs s))) s).
Proof. intros []. constructor; try done. cbn. by rewrite length_insert. Qed.

Lemma cpuinfo_at_used h (s : V) f :
  -12 < h <= -8 -> cpuinfo_files s !! Z.to_nat (-8 - h) = Some f -> ci_used f = true ->
  cpuinfo_at h s = Some (Z.to_nat (-8 - h), f).
Proof.
  intros Hh L U. unfold cpuinfo_at. rewrite cpuinfo_id_eq.
  rewrite (proj2 (Z.leb_le h (-8))), (proj2 (Z.ltb_lt (-12) h)) by lia. cbn [andb].
  rewrite (proj2 (Z.ltb_ge (-8 - h) 0)) by lia. by rewrite L, U.
Qed.

Lemma file_at_slot h (s : V) f :
  0 <= h < 8 -> open_files (v_fs s) !! Z.to_nat h = Some f -> fused f = true -> file_at h (v_fs s) = Some f.
Proof.
  intros Hh L U. unfold file_at, MAX_OPEN_FILES. rewrite (proj2 (Z.ltb_ge h 0)), (proj2 (Z.leb_gt _ _)) by lia.
  cbn [orb]. by rewrite L, U.
Qed.

Lemma set_disk_same (f : fat D) : set_disk (fdisk f) f = f.
Proof. by destruct f. Qed.

Lemma device_no_cpuinfo h : device h -> (0 <=? cpuinfo_handle_id h) = false.
Proof.
  intros Hd. rewrite cpuinfo_id_eq. destruct (Z.leb_spec h (-8)), (Z.ltb_spec (-12) h); try done; cbn [andb].
  exfalso. unfold device, VFS_DEV_NULL, VFS_DEV_ZERO, VFS_DEV_FULL in Hd. lia.
Qed.

Lemma moved_none h d s : vfs_wf s -> ~ counted h -> moved h d s s.
Proof. intros W Hn. constructor; try done. intros x Hx. destruct (Z.eqb_spec x h) as [-> |]; [done|lia]. Qed.

(** Taking one more reference. *)
Lemma dup_moved h s :
  vfs_wf s -> entry_ok h -> (counted h -> 1 <= refcount s h < 4294967295) ->
  exists s', dup_handle h s = Ret tt s' /\ moved h 1 s s'.
Proof.
  intros W He Hr. unfold dup_handle. erewrite bind_ret by reflexivity.
  destruct He as [-> |[[Hf|[Hk|Hc]]|Hd]].
  - rewrite is_socket_no by (unfold VFS_EMPTY_HANDLE; lia). exists s. split; [done|]. apply moved_none; [done|].
    unfold counted, VFS_EMPTY_HANDLE. lia.
  - specialize (Hr (or_introl Hf)). rewrite refcount_of_file in Hr by lia. destruct (slot_refs_used _ _ _ _ ltac:(apply Hr)) as (f & L & U & E).
    rewrite <- E in Hr. rewrite is_socket_no by lia. unfold VFS_EMPTY_HANDLE.
    rewrite (proj2 (Z.ltb_ge h (-1))), (proj2 (Z.leb_le 0 h)) by lia.
    eexists. split.
    { unfold with_driver, mbind, M_bind. rewrite (w_driver _ W). cbn [fat16_driver dup_file on_fs]. unfold on_fs, zoom, fat16_dup.
      rewrite (file_at_slot h s f) by done. reflexivity. }
    rewrite <- (set_disk_same (v_fs s)) at 1. constructor; try done; [by apply wf_file|]. intros x Hx.
    rewrite refcount_file; [|done|unfold MAX_OPEN_FILES; lia|done]. cbn [with_frefs fused frefs]. rewrite Z2Nat.id by lia.
    destruct (Z.eqb_spec x h) as [-> |]; [|lia]. rewrite u32_small by lia. rewrite refcount_of_file by lia. lia.
  - specialize (Hr (or_intror (or_introl Hk))). rewrite refcount_of_socket in Hr by lia.
    destruct (slot_refs_used _ _ _ _ ltac:(apply Hr)) as (k & L & U & E). pose proof (is_socket_used h s k Hk L U) as Es.
    unfold is_socket, socket_handle_valid. rewrite Es. eexists. split.
    { unfold mbind, M_bind, on_net, zoom, socket_dup. rewrite Es. reflexivity. }
    constructor; try done; [by apply wf_socket|]. intros x Hx. rewrite refcount_socket; [|done|unfold SOCKET_MAX; lia|done].
    replace (-4096 - Z.of_nat (Z.to_nat (-4096 - h))) with h by lia. cbn [with_refs used refs].
    destruct (Z.eqb_spec x h) as [-> |]; [|lia]. rewrite U, refcount_of_socket by lia. lia.
  - specialize (Hr (or_intror (or_intror Hc))). rewrite refcount_of_cpuinfo in Hr by lia.
    destruct (slot_refs_used _ _ _ _ ltac:(apply Hr)) as (f & L & U & E). rewrite is_socket_no by lia. unfold VFS_EMPTY_HANDLE.
    rewrite (proj2 (Z.ltb_lt h (-1))) by lia. unfold device_dup. rewrite cpuinfo_id_eq.
    rewrite (proj2 (Z.leb_le h (-8))), (proj2 (Z.ltb_lt (-12) h)) by lia. cbn [andb].
    rewrite (proj2 (Z.leb_le 0 (-8 - h))) by lia. eexists. split.
    { unfold mbind, M_bind, cpuinfo_dup. rewrite (cpuinfo_at_used h s f Hc L U). reflexivity. }
    constructor; try done; [by apply wf_cpuinfo|]. intros x Hx. rewrite refcount_cpuinfo; [|done|unfold CPUINFO_OPEN_FILES; lia|done].
    replace (-8 - Z.of_nat (Z.to_nat (-8 - h))) with h by lia. cbn [ci_used ci_refs].
    destruct (Z.eqb_spec x h) as [-> |]; [|lia]. rewrite refcount_of_cpuinfo by lia. lia.
  - assert (~ counted h /\ h < -1) as [Hn Hl] by (unfold device, counted, VFS_DEV_NULL, VFS_DEV_ZERO, VFS_DEV_FULL in *; lia).
    rewrite is_socket_no by (unfold counted in Hn; lia). unfold VFS_EMPTY_HANDLE. rewrite (proj2 (Z.ltb_lt h (-1))) by lia.
    unfold device_dup. rewrite device_no_cpuinfo by done. exists s. split; [done|by apply moved_none].
Qed.
(** Giving one back; the object goes with the last. *)
Lemma close_moved h s :
  vfs_wf s -> entry_ok h -> h <> VFS_EMPTY_HANDLE -> (counted h -> 1 <= refcount s h < 4294967296) ->
  exists s', file_close h s = Ret 0 s' /\ moved h (-1) s s'.
Proof.
  intros W He Hne Hr. unfold file_close. erewrite bind_ret by reflexivity.
  destruct He as [-> |[[Hf|[Hk|Hc]]|Hd]]; [done| | | |].
  - specialize (Hr (or_introl Hf)). rewrite refcount_of_file in Hr by lia. destruct (slot_refs_used _ _ _ _ ltac:(apply Hr)) as (f & L & U & E).
    rewrite <- E in Hr. rewrite is_socket_no by lia. unfold VFS_EMPTY_HANDLE. rewrite (proj2 (Z.ltb_ge h (-1))) by lia.
    eexists. split.
    { unfold with_driver. rewrite (w_driver _ W). cbn [fat16_driver close_file]. unfold on_fs, zoom, fat16_close.
      rewrite (file_at_slot h s f) by done. reflexivity. }
    rewrite <- (set_disk_same (v_fs s)) at 1. constructor; try done; [by apply wf_file|]. intros x Hx.
    rewrite refcount_file; [|done|unfold MAX_OPEN_FILES; lia|done]. cbn [with_frefs fused frefs]. rewrite Z2Nat.id by lia.
    rewrite u32_small by lia. destruct (Z.eqb_spec x h) as [-> |]; [|lia]. rewrite refcount_of_file by lia. case_z; lia.
  - specialize (Hr (or_intror (or_introl Hk))). rewrite refcount_of_socket in Hr by lia.
    destruct (slot_refs_used _ _ _ _ ltac:(apply Hr)) as (k & L & U & E). pose proof (is_socket_used h s k Hk L U) as Es.
    rewrite <- E in Hr. unfold is_socket, socket_handle_valid. rewrite Es. eexists. split.
    { unfold on_net, zoom, socket_close. rewrite Es. reflexivity. }
    constructor; try done; [by apply wf_socket|]. intros x Hx. rewrite refcount_socket; [|done|unfold SOCKET_MAX; lia|done].
    replace (-4096 - Z.of_nat (Z.to_nat (-4096 - h))) with h by lia. rewrite (proj2 (Z.ltb_lt 0 (refs k))) by lia.
    cbn [with_refs refs]. destruct (Z.eqb_spec x h) as [-> |]; [|lia]. rewrite refcount_of_socket by lia.
    destruct (Z.eqb_spec (refs k - 1) 0); cbn [zero_socket with_refs used refs]; [lia|]. rewrite U. lia.
  - specialize (Hr (or_intror (or_intror Hc))). rewrite refcount_of_cpuinfo in Hr by lia.
    destruct (slot_refs_used _ _ _ _ ltac:(apply Hr)) as (f & L & U & E). rewrite <- E in Hr.
    rewrite is_socket_no by lia. unfold VFS_EMPTY_HANDLE.
    rewrite (proj2 (Z.ltb_lt h (-1))) by lia. unfold device_close. rewrite cpuinfo_id_eq.
    rewrite (proj2 (Z.leb_le h (-8))), (proj2 (Z.ltb_lt (-12) h)) by lia. cbn [andb].
    rewrite (proj2 (Z.leb_le 0 (-8 - h))) by lia. eexists. split.
    { unfold cpuinfo_close. rewrite (cpuinfo_at_used h s f Hc L U). reflexivity. }
    constructor; try done; [by apply wf_cpuinfo|]. intros x Hx. rewrite refcount_cpuinfo; [|done|unfold CPUINFO_OPEN_FILES; lia|done].
    replace (-8 - Z.of_nat (Z.to_nat (-8 - h))) with h by lia. destruct (Z.eqb_spec x h) as [-> |]; [|lia].
    rewrite refcount_of_cpuinfo by lia. case_z; cbn [ci_used ci_refs]; lia.
  - assert (~ counted h /\ h < -1) as [Hn Hl] by (unfold device, counted, VFS_DEV_NULL, VFS_DEV_ZERO, VFS_DEV_FULL in *; lia).
    rewrite is_socket_no by (unfold counted in Hn; lia). unfold VFS_EMPTY_HANDLE. rewrite (proj2 (Z.ltb_lt h (-1))) by lia.
    unfold device_close. rewrite device_no_cpuinfo by done. exists s. split; [done|by apply moved_none].
Qed.

(** ** The descriptor table *)

(** Every descriptor is empty or names an object of a backend, and the reference
    count of every object is exactly the number of descriptors that name it:
    those of this task and [others], those of the other tasks. *)
Record fds_ok (others : Z -> Z) (s : V) : Prop := {
  o_wf : vfs_wf s;
  o_table : exists t, v_fds s = Some t /\ length t = MAX_FDS_PER_PROCESS /\ Forall entry_ok t
    /\ forall h, counted h -> refcount s h = zcount h t + others h
}.

Lemma fd_entry fd (s : V) t :
  v_fds s = Some t -> length t = MAX_FDS_PER_PROCESS -> vfs_fd_handle fd s <> VFS_EMPTY_HANDLE ->
  0 <= fd < 16 /\ t !! Z.to_nat fd = Some (vfs_fd_handle fd s).
Proof.
  unfold vfs_fd_handle, MAX_FDS_PER_PROCESS. intros -> L Hne.
  destruct (Z.ltb_spec fd 0); [done|]. destruct (Z.leb_spec (Z.of_nat 16) fd); [done|]. cbn [orb] in *.
  split; [lia|]. destruct (lookup_lt_is_Some_2 t (Z.to_nat fd)) as [h ->]; [lia|]. done.
Qed.

Lemma fd_lookup fd (s : V) t : v_fds s = Some t -> 0 <= fd < 16 -> length t = MAX_FDS_PER_PROCESS ->
  t !! Z.to_nat fd = Some (vfs_fd_handle fd s).
Proof.
  unfold vfs_fd_handle, MAX_FDS_PER_PROCESS. intros -> Hf L. rewrite (proj2 (Z.ltb_ge fd 0)), (proj2 (Z.leb_gt _ _)) by lia.
  cbn [orb]. destruct (lookup_lt_is_Some_2 t (Z.to_nat fd)) as [h ->]; [lia|done].
Qed.

Lemma zcount_length x t : zcount x t <= Z.of_nat (length t).
Proof. induction t as [|h t IH]; cbn [zcount length]; [lia|]. case_z; lia. Qed.

Lemma refcount_fds t s h : refcount (set_fds t s) h = refcount s h.
Proof. done. Qed.

Lemma wf_fds t s : vfs_wf s -> vfs_wf (set_fds t s).
Proof. intros []. by constructor. Qed.

(** Writing a descriptor whose reference has been accounted for. *)
Lemma fds_write others (s s' : V) fd h old t :
  v_fds s = Some t -> length t = MAX_FDS_PER_PROCESS -> Forall entry_ok t -> 0 <= fd < 16 -> t !! Z.to_nat fd = Some old ->
  entry_ok h -> v_fds s' = v_fds s -> vfs_wf s' ->
  (forall x, counted x -> refcount s' x = zcount x t + others x - (if old =? x then 1 else 0) + (if h =? x then 1 else 0)) ->
  fds_ok others (set_fd fd h s').
Proof.
  intros Ht L Ha Hf Ho He Ev W Hr. constructor; [by apply wf_fds|]. exists (<[Z.to_nat fd := h]> t).
  unfold set_fd. rewrite Ev, Ht. split; [done|]. split; [by rewrite length_insert|].
  split; [by apply Forall_insert|]. intros x Hx. rewrite refcount_fds, Hr by done. rewrite (zcount_insert t _ old) by done. lia.
Qed.

Lemma vfs_close_ok others s fd :
  fds_ok others s -> (forall h, 0 <= others h < 2147483648) ->
  exists r s', vfs_close fd s = Ret r s' /\ fds_ok others s' /\ v_tty s' = v_tty s
    /\ (forall fd', fd' <> fd -> vfs_fd_handle fd' s' = vfs_fd_handle fd' s)
    /\ (vfs_fd_handle fd s = VFS_EMPTY_HANDLE -> r = -1 /\ s' = s)
    /\ (vfs_fd_handle fd s <> VFS_EMPTY_HANDLE -> r = 0 /\ vfs_fd_handle fd s' = VFS_EMPTY_HANDLE
         /\ (forall x, counted x -> refcount s' x = refcount s x - (if x =? vfs_fd_handle fd s then 1 else 0))).
Proof.
  intros O Hb. pose proof O as [W (t & Ht & L & Ha & Hr)]. unfold vfs_close. erewrite bind_ret by reflexivity.
  set (h := vfs_fd_handle fd s). destruct (Z.eqb_spec h VFS_EMPTY_HANDLE) as [E|E].
  { exists (-1), s. split_and!; try done. }
  destruct (fd_entry fd s t Ht L E) as [Hf Hl]. fold h in Hl.
  assert (He : entry_ok h) by (by eapply Forall_lookup_1).
  destruct (close_moved h s W He E) as (s1 & R & [Ef Et W1 M1]).
  { intros Hc. rewrite Hr by done. pose proof (zcount_elem _ _ _ Hl). pose proof (zcount_length h t). rewrite L in *.
    unfold MAX_FDS_PER_PROCESS in *. pose proof (Hb h). lia. }
  erewrite bind_ret by exact R. cbn [Z.eqb]. exists 0, (set_fd fd VFS_EMPTY_HANDLE s1). split; [done|].
  split; [|split; [done|split; [|split; [done|]]]].
  - apply (fds_write others s s1 fd VFS_EMPTY_HANDLE h t); try done; [by left|]. intros x Hx. rewrite M1, Hr by done.
    destruct (Z.eqb_spec x h), (Z.eqb_spec h x), (Z.eqb_spec VFS_EMPTY_HANDLE x); try lia.
    unfold counted, VFS_EMPTY_HANDLE in *; lia.
  - intros fd' Hn. unfold vfs_fd_handle, set_fd. cbn [set_fds v_fds]. rewrite Ef, Ht. cbn [option_map].
    destruct (_ || _) eqn:B; [done|]. apply orb_false_iff in B as [B _]. apply Z.ltb_ge in B.
    rewrite list_lookup_insert_ne by lia. done.
  - intros _. split; [done|]. split.
    + unfold vfs_fd_handle, set_fd. cbn [set_fds v_fds]. rewrite Ef, Ht. cbn [option_map].
      destruct (_ || _); [done|]. rewrite list_lookup_insert_eq by (rewrite L; unfold MAX_FDS_PER_PROCESS; lia). done.
    + intros x Hx. unfold set_fd. rewrite refcount_fds, M1 by done. case_z; lia.
Qed.
Lemma dup2_copy others s fd h t :
  fds_ok others s -> v_fds s = Some t -> (forall h, 0 <= others h < 2147483648) ->
  0 <= fd < 16 -> vfs_fd_handle fd s = VFS_EMPTY_HANDLE -> entry_ok h -> (counted h -> 1 <= zcount h t) ->
  exists s', dup_handle h (set_fd fd h s) = Ret tt s' /\ fds_ok others s' /\ vfs_fd_handle fd s' = h /\ v_tty s' = v_tty s.
Proof.
  intros [W (t' & Ht' & L & Ha & Hr)] Ht Hb Hf Hv He Hc. rewrite Ht in Ht'. injection Ht' as <-.
  destruct (dup_moved h (set_fd fd h s)) as (s2 & R & [Ef Et W2 M2]); [by apply wf_fds|done| |].
  { intros Hk. unfold set_fd. rewrite refcount_fds, Hr by done. pose proof (zcount_length h t). rewrite L in *.
    unfold MAX_FDS_PER_PROCESS in *. specialize (Hc Hk). pose proof (Hb h). lia. }
  exists s2. split; [exact R|]. pose proof (fd_lookup fd s t Ht Hf L) as Hl. rewrite Hv in Hl.
  unfold set_fd in Ef. cbn [set_fds v_fds] in Ef. rewrite Ht in Ef. cbn [option_map] in Ef.
  split.
  - constructor; [done|]. exists (<[Z.to_nat fd := h]> t). split; [done|]. split; [by rewrite length_insert|].
    split; [by apply Forall_insert|]. intros x Hx. rewrite M2 by done. unfold set_fd. rewrite refcount_fds, Hr by done.
    rewrite (zcount_insert t _ _ _ _ Hl). destruct (Z.eqb_spec VFS_EMPTY_HANDLE x); [unfold counted, VFS_EMPTY_HANDLE in *; lia|].
    rewrite (Z.eqb_sym x h). lia.
  - split; [|done]. unfold vfs_fd_handle. rewrite Ef. rewrite (proj2 (Z.ltb_ge fd 0)), (proj2 (Z.leb_gt _ _)) by (unfold MAX_FDS_PER_PROCESS; lia).
    cbn [orb]. rewrite list_lookup_insert_eq by (rewrite L; unfold MAX_FDS_PER_PROCESS; lia). done.
Qed.

Lemma vfs_dup2_ok others s oldfd newfd :
  fds_ok others s -> (forall h, 0 <= others h < 2147483648) ->
  exists r s', vfs_dup2 oldfd newfd s = Ret r s' /\ fds_ok others s' /\ v_tty s' = v_tty s
    /\ (r = -1 /\ s' = s \/ r = newfd /\ vfs_fd_handle newfd s' = vfs_fd_handle oldfd s).
Proof.
  intros O Hb. unfold vfs_dup2. set (h := vfs_fd_handle oldfd s).
  destruct (Z.ltb_spec newfd 0); [exists (-1), s; split_and!; auto|].
  destruct (Z.leb_spec (Z.of_nat MAX_FDS_PER_PROCESS) newfd); [exists (-1), s; split_and!; auto|]. cbn [orb].
  destruct (Z.eqb_spec h VFS_EMPTY_HANDLE) as [E|E]; [exists (-1), s; split_and!; auto|].
  destruct (Z.eqb_spec oldfd newfd) as [-> |Hne]; [exists newfd, s; split_and!; auto|].
  destruct (_ && _ && _); [exists (-1), s; split_and!; auto|].
  pose proof O as [W (t & Ht & L & Ha & Hr)]. destruct (fd_entry oldfd s t Ht L E) as [Hof Hol]. fold h in Hol.
  assert (He : entry_ok h) by (by eapply Forall_lookup_1). unfold MAX_FDS_PER_PROCESS in *.
  (* the descriptor replaced is closed first *)
  assert (C : exists s1, (if negb (vfs_fd_handle newfd s =? VFS_EMPTY_HANDLE) then vfs_close newfd ;; mret tt else mret tt) s = Ret tt s1
    /\ fds_ok others s1 /\ vfs_fd_handle newfd s1 = VFS_EMPTY_HANDLE /\ vfs_fd_handle oldfd s1 = h /\ v_tty s1 = v_tty s).
  { destruct (Z.eqb_spec (vfs_fd_handle newfd s) VFS_EMPTY_HANDLE) as [Ez|Ez]; cbn [negb]; [by exists s|].
    destruct (vfs_close_ok others s newfd O Hb) as (r & s1 & R & O1 & Hy & Hot & _ & Hcl). destruct (Hcl Ez) as (-> & Hz & _).
    exists s1. split; [by erewrite bind_ret by exact R|]. split; [done|]. split; [done|]. split; [by apply Hot|done]. }
  destruct C as (s1 & R1 & O1 & Hz1 & Hh1 & Hy1). pose proof O1 as [_ (t1 & Ht1 & L1 & Ha1 & _)].
  destruct (fd_entry oldfd s1 t1 Ht1 L1) as [_ Hol1]; [by rewrite Hh1|]. rewrite Hh1 in Hol1.
  destruct (dup2_copy others s1 newfd h t1 O1 Ht1 Hb) as (s2 & R2 & O2 & Hh2 & Hy2); [lia|done|done|intros _; by eapply zcount_elem|].
  exists newfd, s2. split; [|split; [done|split; [congruence|right; by split]]].
  erewrite bind_ret by exact R1. erewrite bind_ret by reflexivity. rewrite Hh1.
  erewrite bind_ret; [reflexivity|]. erewrite bind_ret by reflexivity.
  assert (Hn : vfs_fd_handle newfd (set_fd newfd h s1) = h).
  { unfold vfs_fd_handle, set_fd. cbn [set_fds v_fds]. rewrite Ht1. cbn [option_map].
    rewrite (proj2 (Z.ltb_ge newfd 0)), (proj2 (Z.leb_gt _ _)) by (unfold MAX_FDS_PER_PROCESS; lia). cbn [orb].
    rewrite list_lookup_insert_eq by (rewrite L1; unfold MAX_FDS_PER_PROCESS; lia). done. }
  rewrite Hn. exact R2.
Qed.

(** ** Opening *)

Lemma read_bytes_frame a n (f f' : fat D) r : read_bytes a n f = Ret r f' -> exists d, f' = set_disk d f.
Proof.
  unfold read_bytes. destruct (_ =? 0); [intros [= _ <-]; exists (fdisk f); by rewrite set_disk_same|].
  intros (bs & f1 & E1 & E2)%bind_inv. injection E2 as _ <-. unfold zoom in E1. destruct (ata_read _ _ _) as [x d| |]; try done.
  injection E1 as _ <-. by exists d.
Qed.

Lemma set_disk_twice d d' (f : fat D) : set_disk d' (set_disk d f) = set_disk d' f.
Proof. done. Qed.

Lemma search_frame fuel' : forall start c target (f f' : fat D) r,
  search_loop fuel' stale start c target f = Ret r f' -> exists d, f' = set_disk d f.
Proof.
  induction fuel' as [|fuel' IH]; intros start c target f f' r; [done|]. cbn [search_loop].
  intros (rb & f1 & E1 & E2)%bind_inv. apply read_bytes_frame in E1 as [d1 ->].
  destruct rb as [buffer|]; [|injection E2 as _ <-; by exists d1].
  destruct (scan_entries _ _ _ _ _); [injection E2 as _ <-; by exists d1|].
  destruct (start =? 0); [injection E2 as _ <-; by exists d1|].
  apply bind_inv in E2 as (c2 & f2 & E2 & E3). unfold get_next_cluster in E2. apply bind_inv in E2 as (r2 & f3 & E2 & E4).
  apply read_bytes_frame in E2 as [d2 ->]. injection E4 as _ <-. rewrite set_disk_twice in *.
  destruct (c2 <? 65528); [|injection E3 as _ <-; by exists d2]. apply IH in E3 as [d3 ->]. by exists d3.
Qed.

(** Opening a disk file changes at most one unused slot. *)
Lemma fat16_open_frame p (f f' : fat D) r :
  fat16_open ffuel stale p f = Ret r f' ->
  exists d, (r = -1 /\ f' = set_disk d f)
    \/ exists i g file, r = Z.of_nat i /\ open_files f !! i = Some g /\ fused g = false
         /\ f' = set_file i file (set_disk d f) /\ fused file = true /\ frefs file = 1.
Proof.
  assert (Same : r = -1 -> f' = f -> exists d, (r = -1 /\ f' = set_disk d f)
    \/ exists i g file, r = Z.of_nat i /\ open_files f !! i = Some g /\ fused g = false
         /\ f' = set_file i file (set_disk d f) /\ fused file = true /\ frefs file = 1).
  { intros -> ->. exists (fdisk f). left. by rewrite set_disk_same. }
  unfold fat16_open. destruct p as [p|]; [|intros [= <- <-]; by apply Same].
  destruct (_ =? 0); [intros [= <- <-]; by apply Same|].
  intros (x & f1 & E1 & E2)%bind_inv. assert (exists d, f1 = set_disk d f) as [d ->].
  { unfold find_file_in_dir in E1. destruct (_ =? 0) in E1; [injection E1 as _ <-; exists (fdisk f); by rewrite set_disk_same|].
    by eapply search_frame. }
  destruct x as [dir|]; [|injection E2 as <- <-; exists d; by left]. unfold claim_file in E2. cbn [set_disk open_files] in E2.
  destruct (find_free _ 0 (open_files f)) as [i|] eqn:Ef; injection E2 as <- <-; exists d; [right|by left].
  destruct (find_free_Some _ _ _ _ Ef) as (j & g & -> & Lg & U). apply negb_true_iff in U. cbn [Nat.add].
  eexists j, g, _. split_and!; try done.
Qed.

(** Ports whose terminal has the handle of a socket. *)
Definition no_collision (p : option (list Z)) : Prop :=
  forall port, path_has_prefix (normalize_path p) s_udp = true ->
    parse_uint16 (drop 7 (default [] (normalize_path p))) = Some port -> ~ (3072 <= port < 3088).

Lemma moved_same h s s' :
  vfs_wf s -> v_fds s' = v_fds s -> v_tty s' = v_tty s -> v_fs s' = v_fs s -> cpuinfo_files s' = cpuinfo_files s ->
  current_driver s' = current_driver s -> sockets (v_net s') = sockets (v_net s) -> ~ counted h -> moved h 1 s s'.
Proof.
  intros [] E1 E2 E3 E4 E5 E6 Hn. constructor; [done|done|constructor; congruence|].
  intros x Hx. destruct (Z.eqb_spec x h) as [-> |]; [done|]. unfold refcount. rewrite E3, E4, E6. lia.
Qed.

Lemma udp_open_moved p s r s' :
  vfs_wf s -> no_collision p -> udp_tty_open (normalize_path p) s = Ret r s' -> entry_ok r /\ moved r 1 s s'.
Proof.
  intros W Hnc. unfold udp_tty_open.
  assert (None' : forall s2, v_fds s2 = v_fds s -> v_tty s2 = v_tty s -> v_fs s2 = v_fs s -> cpuinfo_files s2 = cpuinfo_files s ->
    current_driver s2 = current_driver s -> sockets (v_net s2) = sockets (v_net s) ->
    entry_ok VFS_EMPTY_HANDLE /\ moved VFS_EMPTY_HANDLE 1 s s2).
  { intros s2 ? ? ? ? ? ?. split; [by left|]. apply moved_same; try done. unfold counted, VFS_EMPTY_HANDLE. lia. }
  destruct (path_has_prefix (normalize_path p) s_udp) eqn:Ep; cbn [negb]; [|intros [= <- <-]; by apply None'].
  destruct (parse_uint16 _) as [port|] eqn:Eq; [|intros [= <- <-]; by apply None'].
  specialize (Hnc port Ep Eq). assert (Hp : in_u16 port).
  { unfold parse_uint16 in Eq. destruct (parse_digits _ 0 0) as [[[v d] rest]|]; [|done].
    destruct (_ || _); [done|]. injection Eq as <-. apply u16_range. }
  intros (ti & s1 & E1 & E2)%bind_inv.
  assert (S1 : exists l, s1 = set_udp_ttys l s).
  { unfold udp_tty_for_port in E1. destruct (find_free _ 0 (udp_ttys s)); [injection E1 as _ <-; exists (udp_ttys s); by destruct s|].
    destruct (find_free _ 0 (udp_ttys s)); injection E1 as _ <-; [by eexists|exists (udp_ttys s); by destruct s]. }
  destruct S1 as [l ->]. destruct ti as [i|]; [|injection E2 as <- <-; by apply None'].
  apply bind_inv in E2 as (b & s2 & E2 & E3). injection E3 as <- <-.
  assert (S2 : exists sv, s2 = set_net (set_servers sv (v_net s)) (set_udp_ttys l s)).
  { unfold on_net, zoom, udp_server_bind in E2. cbn [set_udp_ttys v_net] in E2.
    destruct (udp_find_server port (v_net s)); [injection E2 as _ <-; exists (udp_servers (v_net s)); by destruct s as [[] ? ? ? ? ? ? ? ?]|].
    destruct (find_free _ 0 (udp_servers (v_net s))); injection E2 as _ <-;
      [by eexists|exists (udp_servers (v_net s)); by destruct s as [[] ? ? ? ? ? ? ? ?]]. }
  destruct S2 as [sv ->]. case_z; [by apply None'|]. unfold VFS_DEV_UDP_BASE. split.
  - right. right. unfold device, VFS_DEV_NULL, VFS_DEV_ZERO, VFS_DEV_FULL. lia.
  - apply moved_same; try done. unfold counted. lia.
Qed.
Lemma moved_after h s s1 r s2 : ~ counted h -> moved h 1 s s1 -> moved r 1 s1 s2 -> moved r 1 s s2.
Proof.
  intros Hn [E1 E2 W1 M1] [E3 E4 W2 M2]. constructor; [congruence|congruence|done|].
  intros x Hx. rewrite M2, M1 by done. destruct (Z.eqb_spec x h) as [-> |]; [done|]. lia.
Qed.

Lemma not_counted_empty : ~ counted VFS_EMPTY_HANDLE.
Proof. unfold counted, VFS_EMPTY_HANDLE. lia. Qed.

Lemma device_open_moved p s r s' :
  vfs_wf s -> no_collision p -> v_tty s < TTY_COUNT -> device_open p s = Ret r s' -> entry_ok r /\ moved r 1 s s'.
Proof.
  intros W Hnc Ht. unfold device_open.
  assert (Dev : forall h, device h -> entry_ok h /\ moved h 1 s s).
  { intros h Hd. split; [by right; right|]. apply moved_same; try done.
    unfold device, counted, VFS_DEV_NULL, VFS_DEV_ZERO, VFS_DEV_FULL in *. lia. }
  destruct (path_eq _ s_null); [intros [= <- <-]; apply Dev; by left|].
  destruct (path_eq _ s_zero); [intros [= <- <-]; apply Dev; by right; left|].
  destruct (path_eq _ s_full); [intros [= <- <-]; apply Dev; by do 2 right; left|].
  intros (c & s1 & E1 & E2)%bind_inv. unfold cpuinfo_open in E1.
  destruct (negb (path_eq _ s_cpuinfo)) eqn:Ec; [injection E1 as <- <-; cbn [Z.eqb negb VFS_EMPTY_HANDLE Pos.eqb] in E2|].
  2: destruct (find_free _ 0 (cpuinfo_files s)) as [i|] eqn:Ef; injection E1 as <- <-.
  2: { destruct (find_free_Some _ _ _ _ Ef) as (j & g & -> & L & U). apply negb_true_iff in U. cbn [Nat.add] in *.
       pose proof (lookup_lt_Some _ _ _ L) as Hj. rewrite (w_cpuinfo _ W) in Hj. unfold CPUINFO_OPEN_FILES, VFS_DEV_CPUINFO_BASE in *.
       rewrite (proj2 (Z.eqb_neq _ VFS_EMPTY_HANDLE)) in E2 by (unfold VFS_EMPTY_HANDLE; lia). injection E2 as <- <-.
       split; [right; left; unfold counted; lia|]. constructor; try done; [by apply wf_cpuinfo|]. intros x Hx.
       rewrite refcount_cpuinfo; [|done|unfold CPUINFO_OPEN_FILES; lia|done]. cbn [ci_used ci_refs].
       destruct (Z.eqb_spec x (-8 - Z.of_nat j)) as [-> |]; [|lia]. rewrite refcount_of_cpuinfo by lia.
       unfold slot_refs. replace (Z.to_nat (-8 - (-8 - Z.of_nat j))) with j by lia. by rewrite L, U. }
  all: cbn [Z.eqb negb VFS_EMPTY_HANDLE Pos.eqb] in E2; apply bind_inv in E2 as (tty & s2 & E2 & E3); injection E2 as <- <-.
  all: destruct (Z.leb_spec 0 (tty_path_id (normalize_path p) s)) as [H0'|H0']; [|by apply (udp_open_moved p)].
  all: injection E3 as <- <-; apply Dev; do 3 right; left; unfold VFS_DEV_TTY_BASE, TTY_COUNT in *.
  all: assert (tty_path_id (normalize_path p) s < 4); [|lia].
  all: unfold tty_path_id, TTY_COUNT in *; cbv zeta in *; destruct (path_eq _ s_tty); [done|]; destruct (path_has_prefix _ s_tty); cbn [negb]; [|lia];
    destruct (Z.ltb_spec (char_at (default [] (normalize_path p)) 7) 49); [simpl; lia|];
    destruct (Z.ltb_spec (48 + 4) (char_at (default [] (normalize_path p)) 7)); [simpl; lia|];
    cbn [orb]; destruct (char_at _ 8 =? 0); cbn [negb]; lia.
Qed.

Lemma file_open_moved p s r s' :
  vfs_wf s -> no_collision p -> v_tty s < TTY_COUNT -> file_open p s = Ret r s' -> entry_ok r /\ moved r 1 s s'.
Proof.
  intros W Hnc Ht. unfold file_open. intros (d & s1 & E1 & E2)%bind_inv.
  destruct (device_open_moved p s d s1 W Hnc Ht E1) as [He M].
  destruct (Z.eqb_spec d VFS_EMPTY_HANDLE) as [-> |]; cbn [negb] in E2; [|by injection E2 as <- <-].
  pose proof (mv_wf _ _ _ _ M) as W1. unfold with_driver in E2. rewrite (w_driver _ W1) in E2. cbn [fat16_driver open_file] in E2.
  unfold on_fs, zoom in E2. destruct (fat16_open ffuel stale p (v_fs s1)) as [r' f'| |] eqn:Eo; try done. injection E2 as <- <-.
  destruct (fat16_open_frame p (v_fs s1) f' r' Eo) as (dk & [[-> ->]|(i & g & fl & -> & L & U & -> & Uf & Rf)]).
  - split; [by left|]. eapply moved_after; [apply not_counted_empty|exact M|]. constructor; try done; [destruct W1; by constructor|].
    intros x Hx. destruct (Z.eqb_spec x (-1)) as [-> |]; [by apply not_counted_empty in Hx|]. unfold refcount. simpl. lia.
  - pose proof (lookup_lt_Some _ _ _ L) as Hi. rewrite (w_files _ W1) in Hi. unfold MAX_OPEN_FILES in Hi.
    split; [right; left; unfold counted; lia|]. eapply moved_after; [apply not_counted_empty|exact M|].
    constructor; try done; [by apply wf_file|]. intros x Hx. rewrite refcount_file; [|done|unfold MAX_OPEN_FILES; lia|done].
    rewrite Uf, Rf. destruct (Z.eqb_spec x (Z.of_nat i)) as [-> |]; [|lia]. rewrite refcount_of_file by lia.
    unfold slot_refs. rewrite Nat2Z.id, L, U. done.
Qed.

Lemma vfs_open_ok others p s r s' :
  fds_ok others s -> (forall h, 0 <= others h < 2147483648) -> no_collision p -> v_tty s < TTY_COUNT ->
  vfs_open p s = Ret r s' -> fds_ok others s' /\ v_tty s' = v_tty s.
Proof.
  intros O Hb Hnc Ht. pose proof O as [W (t & Et & L & Ha & Hr)]. unfold vfs_open.
  intros (h & s1 & E1 & E2)%bind_inv. destruct (file_open_moved p s h s1 W Hnc Ht E1) as [He [Ef Ey W1 M1]].
  destruct (Z.eqb_spec h VFS_EMPTY_HANDLE) as [-> |Hne].
  - injection E2 as <- <-. split; [|done]. constructor; [done|]. exists t. split; [congruence|]. split; [done|]. split; [done|].
    intros x Hx. rewrite M1, Hr by done. destruct (Z.eqb_spec x VFS_EMPTY_HANDLE) as [-> |]; [by apply not_counted_empty in Hx|lia].
  - apply bind_inv in E2 as (fd & s2 & E2 & E3). unfold vfs_attach_handle in E2. rewrite Ef, Et in E2.
    destruct (find_free _ 0 t) as [i|] eqn:Efr; injection E2 as <- <-.
    + destruct (find_free_Some _ _ _ _ Efr) as (j & g & -> & Lg & Eg). cbn [Nat.add] in *. apply Z.eqb_eq in Eg as ->.
      pose proof (lookup_lt_Some _ _ _ Lg) as Hj. rewrite L in Hj. unfold MAX_FDS_PER_PROCESS in Hj.
      rewrite (proj2 (Z.ltb_ge _ 0)) in E3 by lia. injection E3 as <- <-. split; [|done].
      replace (set_fds (Some (<[j:=h]> t)) s1) with (set_fd (Z.of_nat j) h s1)
        by (unfold set_fd; rewrite Ef, Et, Nat2Z.id; done).
      apply (fds_write others s s1 (Z.of_nat j) h VFS_EMPTY_HANDLE t); try done; [lia|by rewrite Nat2Z.id|].
      intros x Hx. rewrite M1, Hr by done. destruct (Z.eqb_spec VFS_EMPTY_HANDLE x) as [<- |]; [by apply not_counted_empty in Hx|].
      rewrite (Z.eqb_sym x h). lia.
    + cbn [Z.ltb Z.compare] in E3. destruct (close_moved h s1 W1 He Hne) as (s3 & R3 & [Ef3 Ey3 W3 M3]).
      { intros Hc. rewrite M1, Hr, Z.eqb_refl by done. pose proof (zcount_pos h t). pose proof (zcount_length h t). rewrite L in *.
        unfold MAX_FDS_PER_PROCESS in *. pose proof (Hb h). lia. }
      rewrite (bind_ret _ _ _ _ _ R3) in E3. injection E3 as <- <-. split; [|congruence]. constructor; [done|].
      exists t. split; [congruence|]. split; [done|]. split; [done|]. intros x Hx. rewrite M3, M1, Hr by done. case_z; lia.
Qed.

(** ** Fork and exit *)

Lemma fork_refs t : forall s, vfs_wf s -> Forall entry_ok t ->
  (forall h, counted h -> h ∈ t -> 1 <= refcount s h) ->
  (forall h, counted h -> refcount s h + Z.of_nat (length t) < 4294967295) ->
  exists s', fork_loop t s = Ret t s' /\ vfs_wf s' /\ v_fds s' = v_fds s /\ v_tty s' = v_tty s
    /\ forall x, counted x -> refcount s' x = refcount s x + zcount x t.
Proof.
  induction t as [|h t IH]; intros s W He Hl Hb; cbn [fork_loop].
  - exists s. split_and!; try done. intros x _. cbn. lia.
  - inversion He as [|? ? He1 He2]; subst. destruct (dup_moved h s W He1) as (s1 & R1 & [Ef Ey W1 M1]).
    { intros Hc. split; [apply Hl; [done|set_solver]|]. specialize (Hb h Hc). cbn [length] in Hb. lia. }
    erewrite bind_ret by exact R1. destruct (IH s1 W1 He2) as (s2 & R2 & W2 & Ef2 & Ey2 & M2).
    + intros x Hx Hin. rewrite M1 by done. specialize (Hl x Hx ltac:(set_solver)). case_z; lia.
    + intros x Hx. rewrite M1 by done. specialize (Hb x Hx). cbn [length] in Hb. case_z; lia.
    + erewrite bind_ret by exact R2. exists s2. split; [done|]. split; [done|]. split; [congruence|]. split; [congruence|].
      intros x Hx. rewrite M2, M1 by done. cbn [zcount]. rewrite (Z.eqb_sym x h). lia.
Qed.

Lemma exit_refs t : forall s, vfs_wf s -> Forall entry_ok t ->
  (forall h, counted h -> zcount h t <= refcount s h < 4294967296) ->
  exists s', exit_loop t s = Ret (map (fun _ => VFS_EMPTY_HANDLE) t) s' /\ vfs_wf s' /\ v_fds s' = v_fds s /\ v_tty s' = v_tty s
    /\ forall x, counted x -> refcount s' x = refcount s x - zcount x t.
Proof.
  induction t as [|h t IH]; intros s W He Hb; cbn [exit_loop].
  - exists s. split_and!; try done. intros x _. cbn. lia.
  - inversion He as [|? ? He1 He2]; subst. erewrite bind_ret by reflexivity.
    assert (S1 : exists s1, (if is_socket h s then on_net (socket_close h) ;; mret VFS_EMPTY_HANDLE
            else if 0 <=? h then with_driver close_file (-1) (fun f => f h) ;; mret VFS_EMPTY_HANDLE
            else if h <? VFS_EMPTY_HANDLE then device_close h ;; mret VFS_EMPTY_HANDLE
            else mret h) s = Ret VFS_EMPTY_HANDLE s1 /\ moved h (-1) s s1).
    { destruct (Z.eq_dec h VFS_EMPTY_HANDLE) as [-> |Hne].
      - rewrite is_socket_no by (unfold VFS_EMPTY_HANDLE; lia). exists s. split; [done|]. apply moved_none; [done|apply not_counted_empty].
      - destruct (close_moved h s W He1 Hne) as (s1 & R1 & M1).
        { intros Hc. specialize (Hb h Hc). cbn [zcount] in Hb. rewrite Z.eqb_refl in Hb. pose proof (zcount_pos h t). lia. }
        exists s1. split; [|done]. unfold file_close in R1. erewrite bind_ret in R1 by reflexivity.
        destruct (is_socket h s); [by erewrite bind_ret by exact R1|].
        unfold VFS_EMPTY_HANDLE in *. destruct (Z.leb_spec 0 h).
        + rewrite (proj2 (Z.ltb_ge h (-1))) in R1 by lia. by erewrite bind_ret by exact R1.
        + destruct (Z.ltb_spec h (-1)); [by erewrite bind_ret by exact R1|lia]. }
    destruct S1 as (s1 & R1 & [Ef Ey W1 M1]). erewrite bind_ret by exact R1.
    destruct (IH s1 W1 He2) as (s2 & R2 & W2 & Ef2 & Ey2 & M2).
    { intros x Hx. rewrite M1 by done. specialize (Hb x Hx). cbn [zcount] in Hb. rewrite (Z.eqb_sym x h). case_z; lia. }
    erewrite bind_ret by exact R2. exists s2. split; [done|]. split; [done|]. split; [congruence|]. split; [congruence|].
    intros x Hx. rewrite M2, M1 by done. cbn [zcount]. rewrite (Z.eqb_sym x h). case_z; lia.
Qed.
(** ** Sequences of operations *)

(** The descriptors of the other tasks, and the state. *)
Record sys := mkSys { others : Z -> Z; sys_vfs : V }.

Definition few (o : Z -> Z) : Prop := forall h, 0 <= o h < 2147483648.

(** Operations of the current task, and of other tasks on exit: a child made by
    fork holds a copy of the table; a task that exits with table [u] gives its
    descriptors back. *)
Inductive fd_step : sys -> sys -> Prop :=
| f_open_step o s p r s' : no_collision p -> vfs_open p s = Ret r s' -> fd_step (mkSys o s) (mkSys o s')
| f_close_step o s fd r s' : vfs_close fd s = Ret r s' -> fd_step (mkSys o s) (mkSys o s')
| f_dup2_step o s a b r s' : vfs_dup2 a b s = Ret r s' -> fd_step (mkSys o s) (mkSys o s')
| f_fork_step o s t s' : v_fds s = Some t -> few (fun h => o h + zcount h t) -> fork_fds t s = Ret t s' ->
    fd_step (mkSys o s) (mkSys (fun h => o h + zcount h t) s')
| f_exit_step o s u e s' : Forall entry_ok u -> (forall h, counted h -> zcount h u <= o h) ->
    exit_fds u s = Ret e s' ->
    fd_step (mkSys o s) (mkSys (fun h => if decide (zcount h u <= o h) then o h - zcount h u else o h) s').

Record sys_ok (y : sys) : Prop := {
  so_fds : fds_ok (others y) (sys_vfs y);
  so_few : few (others y);
  so_tty : v_tty (sys_vfs y) < TTY_COUNT
}.

Lemma refcount_small o s t h :
  fds_ok o s -> few o -> v_fds s = Some t -> counted h -> zcount h t <= refcount s h <= 16 + o h /\ 0 <= o h < 2147483648.
Proof.
  intros [W (t' & Ht & L & Ha & Hr)] Hf Et Hc. rewrite Et in Ht. injection Ht as <-. rewrite Hr by done.
  pose proof (zcount_length h t). rewrite L in *. unfold MAX_FDS_PER_PROCESS in *. specialize (Hf h). lia.
Qed.

Lemma step_ok y y' : sys_ok y -> fd_step y y' -> sys_ok y'.
Proof.
  intros [O F T] St. destruct St as [o s p r s' Hn E|o s fd r s' E|o s a b r s' E|o s t s' Et Hf E|o s u e s' Hu Hc E]; cbn [others sys_vfs] in *.
  - destruct (vfs_open_ok o p s r s' O F Hn T E) as [O' Et]. by constructor; cbn; rewrite ?Et.
  - destruct (vfs_close_ok o s fd O F) as (r' & s2 & E2 & O' & Et & _). rewrite E in E2. injection E2 as <- <-. by constructor; cbn; rewrite ?Et.
  - destruct (vfs_dup2_ok o s a b O F) as (r' & s2 & E2 & O' & Et & _). rewrite E in E2. injection E2 as <- <-.
    by constructor; cbn; rewrite ?Et.
  - pose proof O as [W (t' & Ht & L & Ha & Hr)]. rewrite Et in Ht. injection Ht as <-.
    destruct (fork_refs t s W Ha) as (s2 & E2 & W2 & Ef & Ey & M).
    { intros h Hh Hin. apply list_elem_of_lookup in Hin as [i Hi]. pose proof (zcount_elem _ _ _ Hi).
      destruct (refcount_small o s t h O F Et Hh). lia. }
    { intros h Hh. destruct (refcount_small o s t h O F Et Hh). rewrite L. unfold MAX_FDS_PER_PROCESS. lia. }
    unfold fork_fds in E. rewrite E in E2. injection E2 as <-. constructor; cbn [others sys_vfs]; [|done|by rewrite Ey].
    constructor; [done|]. exists t. split; [congruence|]. split; [done|]. split; [done|]. intros h Hh. rewrite M, Hr by done. lia.
  - pose proof O as [W (t & Et & L & Ha & Hr)].
    destruct (exit_refs u s W Hu) as (s2 & E2 & W2 & Ef & Ey & M).
    { intros h Hh. specialize (Hc h Hh). destruct (refcount_small o s t h O F Et Hh). rewrite Hr in * by done. pose proof (zcount_pos h t). lia. }
    unfold exit_fds in E. rewrite (w_driver _ W) in E. cbn [fat16_driver close_file] in E. rewrite E in E2. injection E2 as -> <-.
    constructor; cbn [others sys_vfs]; [| |by rewrite Ey].
    + constructor; [done|]. exists t. split; [congruence|]. split; [done|]. split; [done|]. intros h Hh. rewrite M, Hr by done.
      rewrite decide_True by (by apply Hc). lia.
    + intros h. specialize (F h). pose proof (zcount_pos h u). case_decide; lia.
Qed.

(** Duplicating the descriptors of a task for its child succeeds. *)
Lemma fork_returns o s t : sys_ok (mkSys o s) -> v_fds s = Some t -> exists s', fork_fds t s = Ret t s'.
Proof.
  intros [O F _] Et. cbn [others sys_vfs] in O, F. pose proof O as [W (t' & Ht & L & Ha & Hr)]. rewrite Et in Ht. injection Ht as <-.
  destruct (fork_refs t s W Ha) as (s2 & E2 & _).
  { intros h Hh Hin. apply list_elem_of_lookup in Hin as [i Hi]. pose proof (zcount_elem _ _ _ Hi).
    destruct (refcount_small o s t h O F Et Hh). lia. }
  { intros h Hh. destruct (refcount_small o s t h O F Et Hh). rewrite L. unfold MAX_FDS_PER_PROCESS. lia. }
  exists s2. unfold fork_fds. exact E2.
Qed.

(** A run of all of them: the cpuinfo device is opened, descriptor 3 duplicated to
    7, a child forked, descriptor 3 closed, and the child exits; [t] is its table. *)
Definition sample_ops : M V (list Z) :=
  vfs_open (Some s_cpuinfo) ;;
  vfs_dup2 3 7 ;;
  t ← gets (fun s => default [] (v_fds s));
  fork_fds t ;;
  vfs_close 3 ;;
  exit_fds t ;;
  mret t.

Lemma sample_ops_reach o s t s' : sys_ok (mkSys o s) -> (forall h, o h < 1000) -> sample_ops s = Ret t s' ->
  exists o', rtc fd_step (mkSys o s) (mkSys o' s').
Proof.
  intros O0 Ho E. unfold sample_ops in E. pose proof (so_few _ O0) as F0. cbn [others] in F0.
  apply bind_Ret in E as (r1 & s1 & E1 & E). assert (St1 : fd_step (mkSys o s) (mkSys o s1)).
  { eapply f_open_step; [|exact E1]. intros port Hpre. discriminate Hpre. }
  apply bind_Ret in E as (r2 & s2 & E2 & E). assert (St2 : fd_step (mkSys o s1) (mkSys o s2)) by by eapply f_dup2_step.
  pose proof (step_ok _ _ (step_ok _ _ O0 St1) St2) as O2. pose proof (so_fds _ O2) as [_ (t' & Et & L & Ha & _)].
  cbn [sys_vfs] in Et. apply bind_Ret in E as (t2 & s2' & Eg & E). injection Eg as <- <-.
  rewrite Et in E. cbn [default from_option id] in E.
  assert (Hz : forall h, 0 <= zcount h t' <= 16) by (intros h; pose proof (zcount_length h t'); pose proof (zcount_pos h t'); rewrite L in *; unfold MAX_FDS_PER_PROCESS in *; lia).
  assert (Hfew : few (fun h => o h + zcount h t')) by (intros h; specialize (Hz h); specialize (Ho h); specialize (F0 h); lia).
  destruct (fork_returns _ _ _ O2 Et) as (s3 & E3).
  apply bind_Ret in E as (t3 & s3' & E3' & E). rewrite E3 in E3'. injection E3' as <- <-.
  apply bind_Ret in E as (r4 & s4 & E4 & E). apply bind_Ret in E as (e & s5 & E5 & E). injection E as <- <-.
  eexists. eapply rtc_l; [exact St1|]. eapply rtc_l; [exact St2|]. eapply rtc_l; [by apply f_fork_step|].
  eapply rtc_l; [by eapply f_close_step|]. eapply rtc_once, f_exit_step; [exact Ha| |exact E5].
  intros h _. specialize (F0 h). lia.
Qed.

(** C9: Descriptors are well typed and reference counts are exact. Starting from
    such a state, after any sequence of opening paths other than those of the UDP
    terminals of ports 3072 to 3087, closing and duplicating descriptors, forking
    children and exits of other tasks, every descriptor of the task is empty or
    names a device or a live file, socket or cpuinfo object, and the reference
    count of each such object is the number of descriptors, of this and all other
    tasks, that name it. (The handles of the excluded terminals are those of
    sockets: [udp_terminal_aliases_socket].) *)
Theorem vfs_descriptors_typed y y' :
  sys_ok y -> rtc fd_step y y' ->
  exists t, v_fds (sys_vfs y') = Some t /\ length t = MAX_FDS_PER_PROCESS
    /\ (forall fd h, t !! fd = Some h ->
           h = VFS_EMPTY_HANDLE \/ device h \/ (counted h /\ 1 <= refcount (sys_vfs y') h))
    /\ (forall h, counted h -> refcount (sys_vfs y') h = zcount h t + others y' h).
Proof.
  intros O St. assert (O' : sys_ok y') by (induction St; eauto using step_ok).
  destruct O' as [[W (t & Et & L & Ha & Hr)] F _]. exists t. split; [done|]. split; [done|]. split; [|done].
  intros fd h Hl. destruct (Forall_lookup_1 _ _ _ _ Ha Hl) as [? |[Hc|Hd]]; [by left|right; right|by right; left].
  split; [done|]. rewrite Hr by done. pose proof (zcount_elem _ _ _ Hl). specialize (F h). lia.
Qed.

(** A child's exit undoes its creation. When a task forks and the child
    exits with the descriptors it inherited, the reference count of every file,
    socket and cpuinfo object is what it was before, so the parent's descriptors
    stay usable, and the child's table is left empty. *)
Theorem vfs_fork_exit_balanced o s t :
  fds_ok o s -> few o -> v_fds s = Some t ->
  exists s1 s2, vfs_fork_fds t s = (t, s1) /\ vfs_exit_fds t s1 = (replicate MAX_FDS_PER_PROCESS VFS_EMPTY_HANDLE, s2)
    /\ (forall h, counted h -> refcount s1 h = refcount s h + zcount h t)
    /\ (forall h, counted h -> refcount s2 h = refcount s h)
    /\ fds_ok o s2.
Proof.
  intros O F Et. pose proof O as [W (t' & Ht & L & Ha & Hr)]. rewrite Et in Ht. injection Ht as <-.
  destruct (fork_refs t s W Ha) as (s1 & E1 & W1 & Ef1 & Ey1 & M1).
  { intros h Hh Hin. apply list_elem_of_lookup in Hin as [i Hi]. pose proof (zcount_elem _ _ _ Hi).
    destruct (refcount_small o s t h O F Et Hh). lia. }
  { intros h Hh. destruct (refcount_small o s t h O F Et Hh). rewrite L. unfold MAX_FDS_PER_PROCESS. lia. }
  destruct (exit_refs t s1 W1 Ha) as (s2 & E2 & W2 & Ef2 & Ey2 & M2).
  { intros h Hh. rewrite M1 by done. destruct (refcount_small o s t h O F Et Hh). pose proof (zcount_length h t). rewrite L in *.
    unfold MAX_FDS_PER_PROCESS in *. pose proof (zcount_pos h t). lia. }
  assert (Er : map (fun _ => VFS_EMPTY_HANDLE) t = replicate MAX_FDS_PER_PROCESS VFS_EMPTY_HANDLE).
  { rewrite <- L. clear. induction t as [|h t IH]; [done|]. cbn. by rewrite IH. }
  assert (M12 : forall h, counted h -> refcount s2 h = refcount s h) by (intros h Hh; rewrite M2, M1 by done; lia).
  exists s1, s2. cbn [vfs_fork_fds vfs_exit_fds vfs_backend]. unfold run_fds, fork_fds, exit_fds. rewrite E1. split; [done|].
  rewrite (w_driver _ W1). cbn [fat16_driver close_file]. rewrite E2, Er. split; [done|]. split; [done|]. split; [done|].
  constructor; [done|]. exists t. split; [congruence|]. split; [done|]. split; [done|]. intros h Hh. rewrite M12 by done. by apply Hr.
Qed.

(** UDP terminals of ports 3072 to 3087 share their handles with sockets.
    The handle [udp_tty_open] gives for port [3072 + i] is the handle of socket
    [i]; while that socket is in use, closing the terminal's descriptor closes
    the socket, and reading and writing it reads and writes the socket. *)
Theorem udp_terminal_aliases_socket fuel polls call_handler i k (s : V) tenv nenv size ok src :
  (i < SOCKET_MAX)%nat -> sockets (v_net s) !! i = Some k -> used k = true ->
  let h := VFS_DEV_UDP_BASE - (3072 + Z.of_nat i) in
  h = socket_handle_from_index (Z.of_nat i)
  /\ file_close h s = on_net (socket_close h) s
  /\ file_read fuel polls call_handler tenv nenv h size ok s = on_net (socket_read fuel polls call_handler nenv h ok size) s
  /\ file_write fuel polls call_handler h src size s = on_net (socket_write fuel polls call_handler h src) s.
Proof.
  intros Hi L U h. unfold SOCKET_MAX in Hi.
  assert (Eh : h = -4096 - Z.of_nat i) by (unfold h, VFS_DEV_UDP_BASE; lia).
  assert (Es : is_socket h s = true).
  { unfold is_socket, socket_handle_valid. rewrite (is_socket_used h s k); [done|lia| |done].
    by replace (Z.to_nat (-4096 - h)) with i by lia. }
  split; [exact Eh|].
  split_and!; [unfold file_close|unfold file_read|unfold file_write]; erewrite bind_ret by reflexivity; by rewrite Es.
Qed.
End Counts.

(** ** A concrete system *)

Definition demo_table : list Z := [-32; -32; -32; -4096; 0; -8] ++ replicate 10 (-1).
Definition demo_vfs : vfs wire (fat (disk drive)) :=
  mkVfs demo_sockets demo_console demo_open (Some (fat16_driver 2 0))
    (mkCpuinfo true 1 0 :: replicate 3 zero_cpuinfo) (replicate 8 zero_udp_tty) [] (Some demo_table) 0.
Definition demo_others (h : Z) : Z := if h =? -4096 then refs demo_socket - 1 else 0.

Lemma demo_fds_ok : fds_ok 2 0 demo_others demo_vfs.
Proof.
  constructor; [by constructor|]. exists demo_table. split; [done|]. split; [done|]. split.
  - unfold demo_table. cbn [app replicate].
    repeat (apply Forall_cons; split;
      [unfold entry_ok, counted, device, VFS_EMPTY_HANDLE, VFS_DEV_NULL, VFS_DEV_ZERO, VFS_DEV_FULL; lia|]). apply Forall_nil_2.
  - intros h Hc. apply Z.eqb_eq. revert h Hc.
    assert (B : forallb (fun h => refcount demo_vfs h =? zcount h demo_table + demo_others h)
      (seqZ 0 8 ++ seqZ (-4111) 16 ++ seqZ (-11) 4) = true) by (vm_compute; reflexivity).
    rewrite forallb_forall in B. intros h Hc. apply B, list_elem_of_In.
    rewrite !elem_of_app, !elem_of_seqZ. unfold counted in Hc. lia.
Qed.

Lemma demo_few : few demo_others.
Proof. intros h. unfold demo_others. case_z; [vm_compute; split; congruence|lia]. Qed.

Lemma demo_sys_ok : sys_ok 2 0 (mkSys demo_others demo_vfs).
Proof. constructor; [apply demo_fds_ok|apply demo_few|done]. Qed.

(** After the run the task has the socket at descriptor 7 and a second cpuinfo
    object at 6, and every count is right. *)
Lemma vfs_descriptors_typed_witness : exists o' s' t,
  rtc fd_step (mkSys demo_others demo_vfs) (mkSys o' s') /\
  v_fds s' = Some t /\ t = [-32; -32; -32; -1; 0; -8; -9; -4096] ++ replicate 8 (-1) /\
  (forall h, counted h -> refcount s' h = zcount h t + o' h).
Proof.
  assert (E : match sample_ops demo_vfs with
    | Ret _ s' => bool_decide (v_fds s' = Some ([-32; -32; -32; -1; 0; -8; -9; -4096] ++ replicate 8 (-1)))
    | _ => false end = true) by (vm_compute; reflexivity).
  destruct (sample_ops demo_vfs) as [t s'| |] eqn:Eo; [|done|done]. apply bool_decide_eq_true in E.
  destruct (sample_ops_reach 2 0 demo_others demo_vfs t s' demo_sys_ok) as (o' & R); [|exact Eo|].
  { intros h. unfold demo_others. case_z; [change (refs demo_socket) with 1|]; lia. }
  destruct (vfs_descriptors_typed 2 0 _ _ demo_sys_ok R) as (t' & Et & _ & _ & Hr). cbn [sys_vfs others] in Et, Hr.
  rewrite E in Et. injection Et as <-. exists o', s'. eexists. split; [exact R|]. split; [exact E|]. split; [done|exact Hr].
Defined.
Lemma vfs_fork_exit_balanced_witness :
  exists s1 s2, vfs_fork_fds demo_table demo_vfs = (demo_table, s1)
    /\ vfs_exit_fds demo_table s1 = (replicate MAX_FDS_PER_PROCESS VFS_EMPTY_HANDLE, s2)
    /\ (forall h, counted h -> refcount s1 h = refcount demo_vfs h + zcount h demo_table)
    /\ (forall h, counted h -> refcount s2 h = refcount demo_vfs h)
    /\ fds_ok 2 0 demo_others s2.
Proof. apply (vfs_fork_exit_balanced 2 0 demo_others demo_vfs demo_table demo_fds_ok demo_few eq_refl). Defined.

Lemma udp_terminal_aliases_socket_witness :
  exists k, sockets (v_net demo_vfs) !! 0%nat = Some k /\ used k = true /\
  VFS_DEV_UDP_BASE - (3072 + Z.of_nat 0) = socket_handle_from_index (Z.of_nat 0)
  /\ file_close (-4096) demo_vfs = on_net (socket_close (-4096)) demo_vfs.
Proof.
  exists demo_socket. split; [reflexivity|]. split; [reflexivity|].
  destruct (udp_terminal_aliases_socket 0 0 (fun _ _ _ _ _ _ n => n) 0 demo_socket demo_vfs [] [] 0 true None) as (E & C & _);
    [unfold SOCKET_MAX; lia|reflexivity|reflexivity|]. split; [exact E|exact C].
Defined.
