(* ===== verification/ElfVfs.v ===== *)
(** The file layer of stage2/vfs.c over the FAT16 driver, as the [FileStore] of
    the program loader, and the loader run on it. *)
From S2P Require Import Prelude Disk Fat16 Net Tty Vfs Elf.

Section Store.
Context {N D : Type} `{Nic N} `{BlockDev D}.
Context (fuel polls : nat) (call_handler : Z -> list Z -> Z -> list Z -> Z -> list Z -> net N -> net N).

(** Handles of files are not negative, so reading one of them never blocks: the
    schedules of [file_read] are empty. *)
#[export] Instance vfs_store : FileStore (vfs N (fat D)) := {|
  store_open path := file_open path;
  store_size fd s := fat16_get_size fd (v_fs s);
  store_read fd size := file_read fuel polls call_handler [] [] fd size true;
  store_close fd := file_close fd
|}.
End Store.
