(* ===== verification/Frames.v ===== *)
(** What the operations of the network, the file system and the descriptor layer
    leave alone: no packet, read, write or address resolution changes which
    sockets, files and cpuinfo objects are in use or how many references they
    have.

    [stays I r] says that [I] holds of the state a computation returned with. *)
From S2P Require Import Prelude Utils Checksum Net Socket SocketProofs Sched Disk Fat16 Tty Vfs VfsProofs.

Definition stays {S A} (I : S -> Prop) (r : res S A) : Prop :=
  match r with Ret _ s => I s | _ => True end.

Lemma stays_seq {S A B} (I J : S -> Prop) (c : M S A) (f : A -> M S B) s :
  stays I (c s) -> (forall a s', I s' -> stays J (f a s')) -> stays J ((c ≫= f) s).
Proof. unfold mbind, M_bind. destruct (c s) as [a s'| |]; cbn [stays]; auto. Qed.
Lemma stays_bind {S A B} (I : S -> Prop) (c : M S A) (f : A -> M S B) s :
  stays I (c s) -> (forall a s', I s' -> stays I (f a s')) -> stays I ((c ≫= f) s).
Proof. apply stays_seq. Qed.
Lemma stays_bind_eq {S A B} (J : S -> Prop) (c : M S A) (f : A -> M S B) s :
  (forall a s', c s = Ret a s' -> stays J (f a s')) -> stays J ((c ≫= f) s).
Proof. unfold mbind, M_bind. destruct (c s) as [a s'| |]; cbn [stays]; auto. Qed.
Lemma stays_mono {S A} (I J : S -> Prop) (r : res S A) : stays I r -> (forall s, I s -> J s) -> stays J r.
Proof. destruct r; cbn; auto. Qed.

Lemma stays_zoom {S T A} (get : T -> S) (put : S -> T -> T) (I : S -> Prop) (J : T -> Prop) (c : M S A) t :
  stays I (c (get t)) -> (forall s, I s -> J (put s t)) -> stays J (zoom get put c t).
Proof. unfold zoom, stays. destruct (c (get t)); auto. Qed.

Lemma stays_get {S A} (I : S -> Prop) (f : S -> A) s : I s -> stays I (gets f s).
Proof. done. Qed.
Lemma stays_mret {S A} (I : S -> Prop) (a : A) s : I s -> stays I ((mret a : M S A) s).
Proof. done. Qed.

Create HintDb stays discriminated.
#[export] Hint Resolve stays_get stays_mret : stays.

(** Case analysis on whatever the computation is stuck on. *)
Ltac stays_case :=
  match goal with
  | |- stays _ ((_ ≫= _) _) => apply stays_bind; [|intros]
  | |- stays _ (Ret _ _) => cbn [stays]
  | |- stays _ (out_of_fuel _) => exact Logic.I
  | |- stays _ NoFuel => exact Logic.I
  | |- stays _ (Halted _) => exact Logic.I
  | |- stays _ (modify _ _) => cbn [stays modify]
  | |- stays _ ((let (_, _) := ?x in _) _) => destruct x
  | |- stays _ ((if ?b then _ else _) _) => destruct b
  | |- stays _ (if ?b then _ else _) => destruct b
  | |- stays _ ((match ?x with _ => _ end) _) => destruct x
  | |- stays _ (match ?x with _ => _ end) => destruct x eqn:?
  | |- _ (match ?x with _ => _ end) => destruct x eqn:?
  end.
Ltac stays := repeat (solve [auto with stays] || stays_case); auto with stays.

(** ** Sockets *)

Section NetFrame.
Context {N : Type} `{Nic N}.
Context (call_handler : Z -> list Z -> Z -> list Z -> Z -> list Z -> net N -> net N).

(** Which sockets are in use, and their reference counts. *)
Definition sock_refs (n : net N) : list (bool * Z) := map (fun k => (used k, refs k)) (sockets n).
(** Callbacks and interrupts that do not create or release sockets. *)
Definition keeps_sockets (e : net N -> net N) : Prop := forall n, sock_refs (e n) = sock_refs n.
Context (handlers_keep : forall f sip sport dip dport bs, keeps_sockets (call_handler f sip sport dip dport bs)).
Variable rs : list (bool * Z).
Definition same_refs (n : net N) : Prop := sock_refs n = rs.
Abbreviation I := same_refs.

Lemma refs_set_nic (n : net N) x : I n -> I (set_nic x n). Proof. done. Qed.
Lemma refs_set_arp (n : net N) x : I n -> I (set_arp x n). Proof. done. Qed.
Lemma refs_set_servers (n : net N) x : I n -> I (set_servers x n). Proof. done. Qed.
Lemma refs_set_ident (n : net N) x : I n -> I (set_ident x n). Proof. done. Qed.
Lemma refs_wake (n : net N) w : I n -> I (wake_object w n). Proof. done. Qed.
Lemma refs_set_socket (n : net N) i k :
  I n -> rs !! i = Some (used k, refs k) -> I (set_socket i k n).
Proof.
  unfold same_refs. intros Hn Hi. rewrite <- Hn. unfold set_socket, sock_refs in *. cbn [sockets set_sockets].
  change (map ?f ?l) with (f <$> l) in *. rewrite list_fmap_insert. apply list_insert_id. by rewrite Hn.
Qed.
Lemma refs_lookup (n : net N) i k : I n -> sockets n !! i = Some k -> rs !! i = Some (used k, refs k).
Proof. intros Hn E. rewrite <- Hn. unfold sock_refs. change (map ?f ?l) with (f <$> l). by rewrite list_lookup_fmap, E. Qed.
Lemma refs_from_handle (n : net N) h i k :
  I n -> socket_from_handle h n = Some (i, k) -> rs !! i = Some (used k, refs k).
Proof.
  intros Hn E. unfold socket_from_handle in E. destruct (_ <? 0); [done|].
  destruct (sockets n !! _) as [k'|] eqn:L; [|done]. destruct (used k'); [|done]. injection E as <- <-.
  by apply (refs_lookup n).
Qed.
#[local] Hint Resolve refs_set_nic refs_set_arp refs_set_servers refs_set_ident refs_wake : stays.
#[local] Hint Extern 1 (I (set_socket _ _ _)) => apply refs_set_socket; [|cbn [used refs with_in with_out with_peer with_bound with_sequence]] : stays.
#[local] Hint Extern 2 (rs !! _ = Some _) => eapply refs_lookup; [|eassumption] : stays.
#[local] Hint Extern 2 (rs !! _ = Some _) => eapply refs_from_handle; [|eassumption] : stays.

Lemma keep_e1k_send f (n : net N) : I n -> stays I (e1k_send f n).
Proof. intros Hn. unfold e1k_send. stays. Qed.
#[local] Hint Resolve keep_e1k_send : stays.

Lemma keep_arp_process d (n : net N) : I n -> stays I (arp_process_packet d n).
Proof. intros Hn. unfold arp_process_packet, arp_update_cache, arp_send_reply, e1k_get_mac. stays. Qed.
#[local] Hint Resolve keep_arp_process : stays.

Lemma keep_udp_process h d (n : net N) : I n -> stays I (udp_process_packet call_handler h d n).
Proof.
  intros Hn. unfold udp_process_packet, udp_server_enqueue. stays. unfold same_refs. by rewrite handlers_keep.
Qed.
Lemma keep_icmp_process h d (n : net N) : I n -> stays I (icmp_process_packet h d n).
Proof. intros Hn. unfold icmp_process_packet, socket_icmp_rx. stays. Qed.
#[local] Hint Resolve keep_udp_process keep_icmp_process : stays.

Lemma keep_eth_process d (n : net N) : I n -> stays I (eth_process_packet call_handler d n).
Proof. intros Hn. unfold eth_process_packet, ipv4_process_packet. stays. Qed.
#[local] Hint Resolve keep_eth_process : stays.

Lemma keep_drain_rx f : forall n : net N, I n -> stays I (drain_rx call_handler f n).
Proof. induction f as [|f IH]; intros n Hn; cbn [drain_rx]; stays. Qed.
#[local] Hint Resolve keep_drain_rx : stays.

Lemma keep_arp_poll f p tip : forall n : net N, I n -> stays I (arp_poll call_handler f p tip n).
Proof. induction p as [|p IH]; intros n Hn; cbn [arp_poll]; stays. Qed.
#[local] Hint Resolve keep_arp_poll : stays.
Lemma keep_arp_rounds f r p tip : forall n : net N, I n -> stays I (arp_rounds call_handler f r p tip n).
Proof. induction r as [|r IH]; intros n Hn; cbn [arp_rounds]; stays. Qed.
#[local] Hint Resolve keep_arp_rounds : stays.

Lemma keep_arp_resolve f p tip (n : net N) : I n -> stays I (arp_resolve call_handler f p tip n).
Proof. intros Hn. unfold arp_resolve, arp_send_request, e1k_get_mac. stays. Qed.
#[local] Hint Resolve keep_arp_resolve : stays.

Lemma keep_icmp_send f p sip dip i q (n : net N) : I n -> stays I (icmp_send_echo call_handler f p sip dip i q n).
Proof. intros Hn. unfold icmp_send_echo, ipv4_send_packet, e1k_get_mac. stays. Qed.
Lemma keep_udp_send f p sport dip dport bs (n : net N) : I n -> stays I (udp_send_local call_handler f p sport dip dport bs n).
Proof. intros Hn. unfold udp_send_local, udp_send, udp_transmit, ipv4_send_packet, e1k_get_mac. stays. Qed.
Lemma keep_server_bind port (n : net N) : I n -> stays I (udp_server_bind port n).
Proof. intros Hn. unfold udp_server_bind. stays. Qed.
Lemma keep_server_recv port len (n : net N) : I n -> stays I (udp_server_recv port len n).
Proof. intros Hn. unfold udp_server_recv. stays. Qed.
#[local] Hint Resolve keep_icmp_send keep_udp_send keep_server_bind keep_server_recv : stays.

Lemma keep_flush f p i (n : net N) : I n -> stays I (socket_flush_output f p call_handler i n).
Proof. intros Hn. unfold socket_flush_output. stays. Qed.
#[local] Hint Resolve keep_flush : stays.

Lemma keep_bind h a l (n : net N) : I n -> stays I (socket_bind h a l n).
Proof. intros Hn. unfold socket_bind. stays. Qed.
Lemma keep_write f p h bs (n : net N) : I n -> stays I (socket_write f p call_handler h bs n).
Proof. intros Hn. unfold socket_write. stays. Qed.
Lemma keep_sendto f p h bs a l (n : net N) : I n -> stays I (socket_sendto f p call_handler h bs a l n).
Proof. intros Hn. unfold socket_sendto. stays. Qed.

Lemma keep_poll f p i (n : net N) : I n -> stays I (socket_read_poll f p call_handler i n).
Proof. intros Hn. unfold socket_read_poll. stays. Qed.
Lemma keep_raw_poll i (n : net N) : I n -> stays I (raw_poll i n).
Proof. intros Hn. unfold raw_poll. stays. Qed.
Lemma keep_wait_loop poll env : Forall keeps_sockets env -> (forall n, I n -> stays I (poll n)) ->
  forall n : net N, I n -> stays I (wait_loop poll env n).
Proof.
  intros He Hp. induction He as [|e env He _ IH]; intros n Hn; cbn [wait_loop]; stays.
  unfold same_refs. by rewrite He.
Qed.
Lemma keep_recv_loop i len env : Forall keeps_sockets env -> forall n : net N, I n -> stays I (recv_loop i len env n).
Proof.
  intros He. induction He as [|e env He _ IH]; intros n Hn; cbn [recv_loop]; stays.
  unfold same_refs. by rewrite He.
Qed.
Lemma keep_take i len (n : net N) : I n -> stays I (take_input i len n).
Proof. intros Hn. unfold take_input. stays. Qed.
#[local] Hint Resolve keep_poll keep_raw_poll keep_wait_loop keep_recv_loop keep_take : stays.

Lemma keep_read f p env h ok len (n : net N) :
  Forall keeps_sockets env -> I n -> stays I (socket_read f p call_handler env h ok len n).
Proof. intros He Hn. unfold socket_read. stays. Qed.
Lemma keep_recvfrom f p env h ok len a l (n : net N) :
  Forall keeps_sockets env -> I n -> stays I (socket_recvfrom f p call_handler env h ok len a l n).
Proof. intros He Hn. unfold socket_recvfrom. stays. Qed.
End NetFrame.

(** ** Open files *)

Section FatFrame.
Context {D : Type} `{BlockDev D}.
Definition file_refs (f : fat D) : list (bool * Z) := map (fun x => (fused x, frefs x)) (open_files f).
Variable fs : list (bool * Z).
Definition same_files (f : fat D) : Prop := file_refs f = fs.
Abbreviation I := same_files.

Lemma keep_read_bytes a n (f : fat D) : I f -> stays I (read_bytes a n f).
Proof. intros Hf. unfold read_bytes. stays. by eapply stays_zoom with (I := fun _ => True); [destruct (ata_read _ _ _)|]. Qed.
#[local] Hint Resolve keep_read_bytes : stays.
Lemma keep_next_cluster st po b c (f : fat D) : I f -> stays I (get_next_cluster st po b c f).
Proof. intros Hf. unfold get_next_cluster. stays. Qed.
#[local] Hint Resolve keep_next_cluster : stays.
Lemma keep_skip n st : forall c (f : fat D), I f -> stays I (skip_clusters n st c f).
Proof. induction n as [|n IH]; intros c f Hf; cbn [skip_clusters]; stays. Qed.
Lemma keep_copy fuel st : forall c o n (f : fat D), I f -> stays I (copy_clusters fuel st c o n f).
Proof. induction fuel as [|fuel IH]; intros c o n f Hf; cbn [copy_clusters]; stays. Qed.
#[local] Hint Resolve keep_skip keep_copy : stays.

Lemma files_set_file i x (f : fat D) : I f -> fs !! i = Some (fused x, frefs x) -> I (set_file i x f).
Proof.
  unfold same_files, file_refs. intros Hf Hi. cbn [set_file open_files]. rewrite <- Hf in Hi |- *.
  change (map ?g ?l) with (g <$> l) in *. rewrite list_fmap_insert. by apply list_insert_id.
Qed.
Lemma keep_fat16_read fuel st fd size (f : fat D) : I f -> stays I (fat16_read fuel st fd size f).
Proof.
  intros Hf. unfold fat16_read. destruct (file_at fd f) as [x|] eqn:E; [|done]. stays.
  apply files_set_file; [done|]. unfold file_at in E. destruct (_ || _); [done|].
  destruct (open_files f !! _) as [y|] eqn:L; [|done]. destruct (fused y); [|done]. injection E as <-.
  rewrite <- Hf. unfold file_refs. change (map ?g ?l) with (g <$> l). by rewrite list_lookup_fmap, L.
Qed.
End FatFrame.

(** ** The descriptor layer *)

Section VfsFrame.
Context {N D : Type} `{Nic N} `{BlockDev D}.
Context (fuel polls : nat) (call_handler : Z -> list Z -> Z -> list Z -> Z -> list Z -> net N -> net N).
Context (handlers_keep : forall f sip sport dip dport bs, keeps_sockets (call_handler f sip sport dip dport bs)).
Context (ffuel : nat) (stale : Z).
Abbreviation V := (vfs N (fat D)).

(** The objects in use with their references, the driver, and the current task's
    table and terminal. *)
Record obj_refs := mkRefs {
  o_socks : list (bool * Z); o_files : list (bool * Z); o_cpuinfo : list (bool * Z); o_fds : option (list Z); o_tty : Z
}.
Definition refs_of (s : V) : obj_refs :=
  mkRefs (sock_refs (v_net s)) (file_refs (v_fs s)) (map (fun c => (ci_used c, ci_refs c)) (cpuinfo_files s))
    (v_fds s) (v_tty s).
Variable x : obj_refs.
Definition same_objs (s : V) : Prop := refs_of s = x /\ current_driver s = Some (fat16_driver ffuel stale).
Abbreviation I := same_objs.

Lemma keep_on_net {A} (c : M (net N) A) (s : V) :
  (forall rs n, same_refs rs n -> stays (same_refs rs) (c n)) -> I s -> stays I (on_net c s).
Proof.
  intros Hc [<- Hd]. eapply stays_zoom; [by apply Hc|]. intros n Hn. split; [|done]. unfold refs_of, set_net. cbn. by rewrite Hn.
Qed.
Lemma keep_on_con {A} (c : M console A) (s : V) : I s -> stays I (on_con c s).
Proof. intros [<- Hd]. eapply stays_zoom with (I := fun _ => True); [by destruct (c _)|done]. Qed.
Lemma keep_on_fs {A} (c : M (fat D) A) (s : V) :
  (forall fs f, same_files fs f -> stays (same_files fs) (c f)) -> I s -> stays I (on_fs c s).
Proof.
  intros Hc [<- Hd]. eapply stays_zoom; [by apply Hc|]. intros f Hf. split; [|done]. unfold refs_of, set_fs. cbn. by rewrite Hf.
Qed.
Lemma keep_with_driver {A B} (op : vfs_driver_t (fat D) -> option A) (g : A) (e : B) call (s : V) :
  op (fat16_driver ffuel stale) = Some g -> (forall fs f, same_files fs f -> stays (same_files fs) (call g f)) ->
  I s -> stays I (with_driver op e call s).
Proof. intros Eg Hc Hs. unfold with_driver. rewrite (proj2 Hs), Eg. by apply keep_on_fs. Qed.
Lemma objs_set_udp (s : V) l : I s -> I (set_udp_ttys l s).
Proof. done. Qed.
Lemma objs_set_net (s : V) n : I s -> sock_refs n = sock_refs (v_net s) -> I (set_net n s).
Proof. intros [<- Hd] E. split; [|done]. unfold refs_of, set_net. cbn. by rewrite E. Qed.
Lemma objs_set_cpuinfo (s : V) i f g : I s -> cpuinfo_files s !! i = Some f -> ci_used g = ci_used f -> ci_refs g = ci_refs f ->
  I (set_cpuinfo (<[i := g]> (cpuinfo_files s)) s).
Proof.
  intros [E Hd] L U R. split; [|done]. rewrite <- E. unfold refs_of. cbn. f_equal. change (map ?h ?l) with (h <$> l).
  rewrite list_fmap_insert. apply list_insert_id. by rewrite list_lookup_fmap, L, U, R.
Qed.
#[local] Hint Resolve objs_set_udp keep_on_con : stays.

Lemma keep_udp_send' sport dip dport bs (s : V) :
  I s -> stays I (on_net (udp_send_local call_handler fuel polls sport dip dport bs) s).
Proof. intros Hs. apply keep_on_net; [|done]. intros. by apply keep_udp_send. Qed.
Lemma keep_recv' port len (s : V) : I s -> stays I (on_net (udp_server_recv port len) s).
Proof. intros Hs. apply keep_on_net; [|done]. intros. by apply keep_server_recv. Qed.
#[local] Hint Resolve keep_udp_send' keep_recv' : stays.

Lemma keep_udp_flush i (s : V) : I s -> stays I (udp_tty_flush_output fuel polls call_handler i s).
Proof. intros Hs. unfold udp_tty_flush_output. stays. Qed.
#[local] Hint Resolve keep_udp_flush : stays.

Lemma keep_udp_wait i env : Forall keeps_sockets env -> forall s : V, I s -> stays I (udp_tty_wait fuel polls call_handler env i s).
Proof.
  intros He. induction He as [|e env He _ IH]; intros s Hs; cbn [udp_tty_wait]; stays.
  apply keep_on_net; [|done]. intros rs n Hn. cbn. unfold same_refs. by rewrite He.
Qed.
#[local] Hint Resolve keep_udp_wait : stays.

Lemma keep_for_port p (s : V) : I s -> stays I (udp_tty_for_port p s).
Proof. intros Hs. unfold udp_tty_for_port. stays. Qed.
#[local] Hint Resolve keep_for_port : stays.

Lemma keep_cpuinfo_read h n ok (s : V) : I s -> stays I (cpuinfo_read h n ok s).
Proof.
  intros Hs. unfold cpuinfo_read. destruct (cpuinfo_at h s) as [[i f]|] eqn:E; [|done]. stays.
  unfold cpuinfo_at in E. destruct (_ <? 0); [done|]. destruct (cpuinfo_files s !! _) as [g|] eqn:L; [|done].
  destruct (ci_used g) eqn:U; [|done]. injection E as <- <-. by eapply objs_set_cpuinfo.
Qed.
#[local] Hint Resolve keep_cpuinfo_read : stays.

Lemma keep_file_read tenv nenv h n ok (s : V) :
  Forall keeps_sockets nenv -> I s -> stays I (file_read fuel polls call_handler tenv nenv h n ok s).
Proof.
  intros He Hs. unfold file_read, device_read, udp_tty_take. stays.
  - apply keep_on_net; [|done]. intros. by apply keep_read.
  - eapply keep_with_driver; [done| |done]. intros. by apply keep_fat16_read.
Qed.

Lemma keep_vfs_read tenv nenv fd n ok (s : V) :
  Forall keeps_sockets nenv -> I s -> stays I (vfs_read fuel polls call_handler tenv nenv fd n ok s).
Proof. intros He Hs. unfold vfs_read. stays. by apply keep_file_read. Qed.

Lemma keep_vfs_write fd src n (s : V) : I s -> stays I (vfs_write fuel polls call_handler fd src n s).
Proof.
  intros Hs. unfold vfs_write, file_write, device_write. stays.
  - apply keep_on_net; [|done]. intros. by apply keep_write.
  - by eapply keep_with_driver.
Qed.
End VfsFrame.

(** The references of an object depend on [refs_of] only. *)
Section Quiet.
Context {N D : Type} `{Nic N} `{BlockDev D}.
Context (ffuel : nat) (stale : Z).
Abbreviation V := (vfs N (fat D)).

Lemma slot_refs_map {A} (u : A -> bool) (r : A -> Z) l i :
  slot_refs u r l i = match map (fun x => (u x, r x)) l !! i with Some (true, n) => n | _ => 0 end.
Proof.
  unfold slot_refs. change (map ?g ?l) with (g <$> l). rewrite list_lookup_fmap.
  destruct (l !! i) as [x|]; [cbn; by destruct (u x)|done].
Qed.

Lemma refcount_same (s s' : V) h : refs_of s' = refs_of s -> refcount s' h = refcount s h.
Proof.
  intros E. pose proof (f_equal o_socks E) as E1. pose proof (f_equal o_files E) as E2. pose proof (f_equal o_cpuinfo E) as E3.
  cbn in E1, E2, E3. unfold sock_refs in E1. unfold file_refs in E2. unfold refcount. by rewrite !slot_refs_map, E1, E2, E3.
Qed.

Lemma wf_same (s s' : V) : vfs_wf ffuel stale s -> same_objs ffuel stale (refs_of s) s' -> vfs_wf ffuel stale s'.
Proof.
  intros [L1 L2 L3 _] [E Hd]. pose proof (f_equal (length ∘ o_socks) E) as E1.
  pose proof (f_equal (length ∘ o_files) E) as E2. pose proof (f_equal (length ∘ o_cpuinfo) E) as E3.
  cbn in E1, E2, E3. unfold sock_refs in E1. unfold file_refs in E2. rewrite !length_map in *. constructor; congruence.
Qed.

Lemma quiet_fds_ok o (s s' : V) :
  fds_ok ffuel stale o s -> same_objs ffuel stale (refs_of s) s' -> fds_ok ffuel stale o s'.
Proof.
  intros [W (t & Et & L & F & Hr)] Hs. constructor; [by eapply wf_same|]. exists t.
  split; [by rewrite <- Et; apply (f_equal o_fds (proj1 Hs))|]. split; [done|]. split; [done|].
  intros h Hc. rewrite (refcount_same s s' h (proj1 Hs)). by apply Hr.
Qed.

Lemma quiet_run {A} (c : M V A) o s a s' :
  (forall x s, same_objs ffuel stale x s -> stays (same_objs ffuel stale x) (c s)) ->
  fds_ok ffuel stale o s -> c s = Ret a s' -> fds_ok ffuel stale o s'.
Proof.
  intros Hk O E. apply (quiet_fds_ok o s s' O). specialize (Hk (refs_of s) s). rewrite E in Hk.
  apply Hk. split; [done|]. by destruct (o_wf _ _ _ _ O).
Qed.
End Quiet.
