(* ===== verification/Syscall.v ===== *)
(** System calls: [syscall_dispatch] of stage2/cpu/interrupts/idt.c, over the
    scheduler, the descriptors, the sockets and the program loader.

    The kernel is the scheduler's state with the descriptor layer as its file
    backend. A call runs with the address [r] of the caller's saved frame; the
    frame, paths, buffers and socket addresses are in the caller's address space
    and are read and written through the current page directory. What
    [scheduler_wake] is called for while the network works is recorded by the
    network and applied to the run list when the call returns to the dispatcher.
    Bytes mirrored to the serial line are collected in [serial_out]; log lines
    are left out.

    Calls that wait take what happens meanwhile as arguments: [tenv] and [nenv]
    are what interrupts do to the terminals and the network, [sleep] is what runs
    between a blocking [waitpid] and its resumption. *)
From S2P Require Import Prelude Utils Mem HeapSpec Paging Disk Net Socket Sched Tty Fat16 Vfs Elf ElfVfs.

Definition TIOCSCTTY : Z := 21518.

(** Offsets in [registers_t]. *)
Definition R_EDI : Z := 0.
Definition R_ESI : Z := 4.
Definition R_EDX : Z := 12.
Definition R_ECX : Z := 16.
Definition R_EBX : Z := 20.
Definition R_EAX : Z := 24.

(** Bytes stored at a virtual address. *)
Fixpoint vwrite (pd v : Z) (bs : list Z) (m : ram) : ram :=
  match bs with
  | [] => m
  | b :: bs' => vwrite pd (v + 1) bs' (vst8 pd v b m)
  end.

(** [struct sockaddr_in]: family, port and address; eight bytes of zeros. *)
Definition sockaddr_at (bs : list Z) : sockaddr_in :=
  mkAddr (f16 bs 0) (f16 bs 2) (f16 bs 4 + 65536 * f16 bs 6).
Definition sockaddr_bytes (a : sockaddr_in) : list Z :=
  le16 (sin_family a) ++ le16 (sin_port a) ++ le16 (s_addr a) ++ le16 (s_addr a / 65536) ++ replicate 8 0.

Section Syscall.
Context {N D : Type} `{Nic N} `{BlockDev D} `{KernelHeap}.
Context (fuel polls : nat) (call_handler : Z -> list Z -> Z -> list Z -> Z -> list Z -> net N -> net N).
(** The address of a socket object, as a wait object. *)
Context (socket_addr : nat -> Z).
Abbreviation V := (vfs N (fat D)).
Abbreviation K := (kern V).
#[local] Existing Instance vfs_backend.
#[local] Instance call_store : FileStore V := vfs_store fuel polls call_handler.

(** ** The descriptor layer of the current task *)

Definition with_fds (t : tcb_t) (f : list Z) : tcb_t :=
  mkTcb (esp t) (state t) (pid t) (stack_base t) (tcr3 t) (tty t) f (wait_obj t) (exit_code t) (next t).

(** [scheduler_current_fds] and [scheduler_current_tty] as the layer sees them. *)
Definition task_vfs (k : K) : V :=
  let v := files k in
  mkVfs (v_net v) (v_con v) (v_fs v) (current_driver v) (cpuinfo_files v) (udp_ttys v) (cpuinfo_text v)
    (scheduler_current_fds k) (scheduler_current_tty k).
Definition put_vfs (v : V) (k : K) : K :=
  match v_fds v with
  | Some t => set_task (current_task k) (with_fds (current k) t) (set_files v k)
  | None => set_files v k
  end.

Definition wake_addr (w : Net.wait_obj) : Z :=
  match w with WPort p => p | WSocket i => socket_addr i end.
Fixpoint deliver (ws : list Net.wait_obj) : M K unit :=
  match ws with
  | [] => mret tt
  | w :: ws' => scheduler_wake fuel (wake_addr w) ;; deliver ws'
  end.

(** An operation of the descriptor layer, called by the current task. *)
Definition on_vfs {A} (c : M V A) : M K A :=
  n ← gets (fun k : K => length (woken (v_net (files k))));
  a ← zoom task_vfs put_vfs c;
  ws ← gets (fun k : K => drop n (woken (v_net (files k))));
  deliver ws ;;
  mret a.

(** ** The caller's memory *)

Definition kram (k : K) : ram := hram (mheap (kmmu k)).
Definition kpd (k : K) : Z := paging_get_directory (kmmu k).
Definition reg (r off : Z) (k : K) : Z := vld32 (kram k) (kpd k) (r + off).
Definition set_eax (r v : Z) : M K unit := fun k => on_ram (vst32 (kpd k) (r + R_EAX) v) k.
Definition user_write (v : Z) (bs : list Z) : M K unit := fun k => on_ram (vwrite (kpd k) v bs) k.
Definition user_bytes (v n : Z) (k : K) : list Z := vread (Z.to_nat n) (kram k) (kpd k) v.

(** A pointer to a string, [None] when null. *)
Definition user_string (v : Z) : M K (option (list Z)) := fun k =>
  if v =? 0 then Ret None k
  else match vstrlen fuel (kram k) (kpd k) v with
       | None => NoFuel
       | Some len => Ret (Some (user_bytes v len k)) k
       end.
Definition user_buffer (v n : Z) (k : K) : option (list Z) :=
  if v =? 0 then None else Some (user_bytes v n k).
Definition user_sockaddr (v : Z) (k : K) : option sockaddr_in :=
  option_map sockaddr_at (user_buffer v 16 k).

(** The bytes a read returned, or -1. *)
Definition read_result (bs : option (list Z)) : Z :=
  match bs with Some bs => Z.of_nat (length bs) | None => -1 end.

(** ** The dispatcher *)

Record sysm := mkSysm { sk : K; serial_out : list Z }.
Abbreviation SM := (M sysm).
Definition on_kern {A} (c : M K A) : SM A := zoom sk (fun k s => mkSysm k (serial_out s)) c.
Definition write_serial (bs : list Z) : SM unit := modify (fun s => mkSysm (sk s) (serial_out s ++ bs)).

(** [ret >= 0 ? (uint32_t)ret : 0xFFFFFFFFU] for a result of type [int]. *)
Definition or_minus_one (x : Z) : Z := if 0 <=? x then u32 x else 4294967295.

Definition sys_exit (r : Z) : SM Z :=
  on_kern (code ← gets (reg r R_EBX); scheduler_exit_current fuel (i32 code) ;; mret r).

Definition sys_fork (r : Z) : SM Z :=
  on_kern (p ← fork_current r; set_eax r (or_minus_one p) ;; mret r).

Definition sys_read (tenv : schedule) (nenv : list (net N -> net N)) (r : Z) : SM Z :=
  on_kern (
    fd ← gets (reg r R_EBX);
    size ← gets (reg r R_EDX);
    dst ← gets (reg r R_ECX);
    bs ← on_vfs (vfs_read fuel polls call_handler tenv nenv (i32 fd) size (negb (dst =? 0)));
    user_write dst (default [] bs) ;;
    set_eax r (u32 (read_result bs)) ;;
    mret r).

Definition sys_write (r : Z) : SM Z :=
  on_kern (
    fd ← gets (reg r R_EBX);
    len ← gets (reg r R_EDX);
    src ← gets (reg r R_ECX);
    buf ← gets (user_buffer src len);
    n ← on_vfs (vfs_write fuel polls call_handler (i32 fd) buf len);
    set_eax r (u32 n)) ;;
  eax ← on_kern (gets (reg r R_EAX));
  ecx ← on_kern (gets (reg r R_ECX));
  (if (0 <? i32 eax) && negb (ecx =? 0)
   then bs ← on_kern (gets (user_bytes ecx eax)); write_serial bs else mret tt) ;;
  mret r.

Definition sys_open (r : Z) : SM Z :=
  on_kern (
    p ← gets (reg r R_EBX);
    path ← user_string p;
    fd ← on_vfs (vfs_open path);
    set_eax r (u32 fd) ;;
    mret r).

Definition sys_close (r : Z) : SM Z :=
  on_kern (
    fd ← gets (reg r R_EBX);
    (if 2 <? i32 fd then result ← on_vfs (vfs_close (i32 fd)); set_eax r (u32 result) else set_eax r 0) ;;
    mret r).

(** [frame] is the frame that [scheduler_switch] pushes when the caller blocks. *)
Definition sys_waitpid (frame : Z) (sleep : M K unit) (r : Z) : SM Z :=
  on_kern (
    p ← gets (reg r R_EBX);
    ret ← scheduler_wait_pid fuel frame sleep (i32 p);
    set_eax r (or_minus_one ret) ;;
    mret r).

(** [char *default_argv[] = {pathname, NULL}], at [locals] on the caller's stack. *)
Definition default_argv (locals pathname : Z) : M K unit := fun k =>
  on_ram (fun m => vst32 (kpd k) (locals + 4) 0 (vst32 (kpd k) locals pathname m)) k.

(** The loader opens the file as the current task. *)
Definition sys_exec (locals r : Z) : SM Z :=
  on_kern (
    p ← gets (reg r R_EBX);
    argv ← gets (reg r R_ECX);
    argc ← gets (reg r R_EDX);
    tty ← gets (reg r R_ESI);
    default_argv locals p ;;
    path ← user_string p;
    modify (fun k => set_files (task_vfs k) k) ;;
    let default := (argv =? 0) || (i32 argc <=? 0) in
    let argv := if default then locals else argv in
    let argc := if default then 1 else i32 argc in
    new_sp ← exec_elf fuel path argc argv (i32 tty) r;
    if negb (new_sp =? 0) then mret new_sp
    else set_eax r 4294967295 ;; mret r).

Definition sys_ioctl (r : Z) : SM Z :=
  on_kern (
    request ← gets (reg r R_ECX);
    arg ← gets (reg r R_EDX);
    (if request =? TIOCSCTTY
     then ret ← scheduler_set_tty (i32 arg); set_eax r (u32 ret)
     else set_eax r 4294967295) ;;
    mret r).

Definition sys_dup2 (r : Z) : SM Z :=
  on_kern (
    oldfd ← gets (reg r R_EBX);
    newfd ← gets (reg r R_ECX);
    ret ← on_vfs (vfs_dup2 (i32 oldfd) (i32 newfd));
    set_eax r (u32 ret) ;;
    mret r).

(** The work of [sys_socket] on the descriptor layer, and its result. *)
Definition socket_fd (dom ty proto : Z) : M V Z :=
  handle ← on_net (socket_create dom ty proto);
  valid ← gets (is_socket handle);
  eax ← (if (valid : bool) then vfs_attach_handle handle else mret (-1));
  valid ← gets (is_socket handle);
  (if (eax <? 0) && valid then on_net (socket_close handle) ;; mret tt else mret tt) ;;
  mret eax.
Definition sys_socket (r : Z) : SM Z :=
  on_kern (
    dom ← gets (reg r R_EBX);
    ty ← gets (reg r R_ECX);
    proto ← gets (reg r R_EDX);
    fd ← on_vfs (socket_fd (i32 dom) (i32 ty) (i32 proto));
    set_eax r (u32 fd) ;;
    mret r).

Definition sys_bind (r : Z) : SM Z :=
  on_kern (
    fd ← gets (reg r R_EBX);
    a ← gets (reg r R_ECX);
    addrlen ← gets (reg r R_EDX);
    addr ← gets (user_sockaddr a);
    ret ← on_vfs (handle ← gets (vfs_fd_handle (i32 fd)); on_net (socket_bind handle addr addrlen));
    set_eax r (u32 ret) ;;
    mret r).

Definition sys_sendto (r : Z) : SM Z :=
  on_kern (
    fd ← gets (reg r R_EBX);
    buf ← gets (fun k => user_buffer (reg r R_ECX k) (reg r R_EDX k) k);
    dest ← gets (fun k => user_sockaddr (reg r R_ESI k) k);
    addrlen ← gets (reg r R_EDI);
    ret ← on_vfs (handle ← gets (vfs_fd_handle (i32 fd));
                  on_net (socket_sendto fuel polls call_handler handle buf dest addrlen));
    set_eax r (u32 ret) ;;
    mret r).

(** [*addrlen], when the pointer is not null. *)
Definition user_len (v : Z) (k : K) : option Z := if v =? 0 then None else Some (vld32 (kram k) (kpd k) v).

Definition sys_recvfrom (nenv : list (net N -> net N)) (r : Z) : SM Z :=
  on_kern (
    fd ← gets (reg r R_EBX);
    dst ← gets (reg r R_ECX);
    size ← gets (reg r R_EDX);
    src ← gets (reg r R_ESI);
    plen ← gets (reg r R_EDI);
    addrlen ← gets (user_len plen);
    d ← on_vfs (handle ← gets (vfs_fd_handle (i32 fd));
                on_net (socket_recvfrom fuel polls call_handler nenv handle (negb (dst =? 0)) size
                          (negb (src =? 0)) addrlen));
    match d with
    | None => set_eax r 4294967295
    | Some (bs, from) =>
        user_write dst bs ;;
        match from with
        | Some a => user_write src (sockaddr_bytes a) ;; user_write plen [16; 0; 0; 0]
        | None => mret tt
        end ;;
        set_eax r (u32 (Z.of_nat (length bs)))
    end ;;
    mret r).

(** What happens while a call waits, and where its stack is. *)
Record waits := mkWaits {
  w_tty : schedule; w_net : list (net N -> net N); w_frame : Z; w_sleep : M K unit; w_locals : Z
}.

(** The result is the address of the frame to restore. *)
Definition syscall_dispatch (w : waits) (r : Z) : SM Z :=
  eax ← on_kern (gets (reg r R_EAX));
  if eax =? 1 then sys_exit r
  else if eax =? 2 then sys_fork r
  else if eax =? 3 then sys_read (w_tty w) (w_net w) r
  else if eax =? 4 then sys_write r
  else if eax =? 5 then sys_open r
  else if eax =? 6 then sys_close r
  else if eax =? 7 then sys_waitpid (w_frame w) (w_sleep w) r
  else if eax =? 11 then sys_exec (w_locals w) r
  else if eax =? 54 then sys_ioctl r
  else if eax =? 63 then sys_dup2 r
  else if eax =? 300 then sys_socket r
  else if eax =? 301 then sys_bind r
  else if eax =? 302 then sys_sendto r
  else if eax =? 303 then sys_recvfrom (w_net w) r
  else on_kern (set_eax r 4294967295 ;; mret r).
End Syscall.
