(* ===== verification/SyscallProofs.v ===== *)
(** System calls keep the descriptors of all tasks valid: the invariant of the
    whole kernel, its preservation by every call, by the timer and by device
    interrupts. *)
From S2P Require Import Prelude Utils Mem HeapSpec Paging Disk Net NetProofs Socket SocketProofs Sched Tty Fat16 Vfs VfsProofs Elf ElfVfs Frames Syscall.

(** Descriptors of all tasks that name [h]. *)
Definition total (h : Z) (m : gmap Z tcb_t) : Z := map_fold (fun _ t n => zcount h (fds t) + n) 0 m.

Lemma total_delete h m p t : m !! p = Some t -> total h m = zcount h (fds t) + total h (delete p m).
Proof. intros L. unfold total. rewrite (map_fold_delete_L _ _ p t m); [done| |done]. intros. lia. Qed.

Lemma total_insert_new h m p t : m !! p = None -> total h (<[p := t]> m) = zcount h (fds t) + total h m.
Proof. intros L. unfold total. rewrite map_fold_insert_L; [done| |done]. intros. lia. Qed.

Lemma total_insert h m p t t0 :
  m !! p = Some t0 -> total h (<[p := t]> m) = total h m - zcount h (fds t0) + zcount h (fds t).
Proof.
  intros L. rewrite <- insert_delete_eq, total_insert_new by apply lookup_delete_eq. rewrite (total_delete h m p t0 L). lia.
Qed.

Lemma total_nonneg h m : 0 <= total h m.
Proof.
  unfold total. apply (map_fold_weak_ind (fun n _ => 0 <= n)); [lia|]. intros p t m' n _ Hn. pose proof (zcount_pos h (fds t)). lia.
Qed.

Lemma total_lookup h m p t : m !! p = Some t -> zcount h (fds t) <= total h m.
Proof. intros L. rewrite (total_delete h m p t L). pose proof (total_nonneg h (delete p m)). lia. Qed.

(** A task's table is full-sized, its entries name devices or objects, and its
    terminal exists. *)
Record task_ok (t : tcb_t) : Prop := {
  t_len : length (fds t) = MAX_FDS_PER_PROCESS;
  t_entries : Forall entry_ok (fds t);
  t_tty : tty t < TTY_COUNT
}.

Lemma bind_fds_ok t y : length t = MAX_FDS_PER_PROCESS -> Forall entry_ok t ->
  length (bind_fds t y) = MAX_FDS_PER_PROCESS /\ Forall entry_ok (bind_fds t y)
  /\ forall h, counted h -> zcount h (bind_fds t y) <= zcount h t.
Proof.
  intros L F. unfold bind_fds. set (d := VFS_DEV_TTY_BASE - _).
  assert (Hd : -36 < d <= -32).
  { unfold d, VFS_DEV_TTY_BASE, tty_valid, TTY_COUNT. destruct (Z.leb_spec 0 y), (Z.ltb_spec y 4); cbn; lia. }
  assert (He : entry_ok d) by (right; right; unfold device; lia).
  assert (Z1 : forall h i u, counted h -> zcount h (<[i := d]> u) <= zcount h u).
  { intros h i u Hc. destruct (u !! i) as [a|] eqn:Li.
    - rewrite (zcount_insert u i a) by done. destruct (Z.eqb_spec d h) as [E|_]; [unfold counted in Hc; lia|]. case_z; lia.
    - rewrite list_insert_ge by (by apply lookup_ge_None_1). lia. }
  split; [by rewrite !length_insert|]. split; [by repeat apply Forall_insert|].
  intros h Hc. pose proof (Z1 h 0%nat (<[1%nat := d]> (<[2%nat := d]> t)) Hc).
  pose proof (Z1 h 1%nat (<[2%nat := d]> t) Hc). pose proof (Z1 h 2%nat t Hc). lia.
Qed.

Section Kernel.
Context {N D : Type} `{Nic N} `{BlockDev D} `{KernelHeap}.
Context (fuel polls : nat) (call_handler : Z -> list Z -> Z -> list Z -> Z -> list Z -> net N -> net N).
Context (handlers_keep : forall f sip sport dip dport bs, keeps_sockets (call_handler f sip sport dip dport bs)).
Context (socket_addr : nat -> Z) (ffuel : nat) (stale : Z).
Abbreviation V := (vfs N (fat D)).
Abbreviation K := (kern V).
#[local] Existing Instance vfs_backend.
#[local] Instance file_layer : FileStore V := call_store fuel polls call_handler.

(** No descriptor dangles: an object has at least as many references as there
    are descriptors that name it, and [x] more that the kernel itself holds. *)
Record kernel_ok (x : Z -> Z) (k : K) : Prop := {
  ko_zero : tasks k !! 0 = None;
  ko_current : is_Some (tasks k !! current_task k);
  ko_idle : is_Some (tasks k !! idle_task k);
  ko_next : map_Forall (fun _ t => is_Some (tasks k !! next t)) (tasks k);
  ko_tasks : map_Forall (fun _ t => task_ok t) (tasks k);
  ko_wf : vfs_wf ffuel stale (files k);
  ko_refs : forall h, counted h -> total h (tasks k) + x h <= refcount (files k) h
}.

Lemma task_lookup (k : K) p : is_Some (tasks k !! p) -> tasks k !! p = Some (task p k).
Proof. intros [t E]. unfold task. by rewrite E. Qed.

Lemma ok_current x k : kernel_ok x k -> tasks k !! current_task k = Some (current k).
Proof. intros O. apply task_lookup, O. Qed.

Lemma current_nonnull x k : kernel_ok x k -> (current_task k =? 0) = false.
Proof. intros O. apply Z.eqb_neq. intros E. destruct (ko_current _ _ O) as [t Et]. rewrite E, (ko_zero _ _ O) in Et. done. Qed.

(** Changing a control block and the descriptor layer together. *)
Lemma ok_replace x x' k p t t0 v :
  kernel_ok x k -> tasks k !! p = Some t0 -> is_Some (tasks k !! next t) -> task_ok t -> vfs_wf ffuel stale v ->
  (forall h, counted h -> total h (tasks k) + x h <= refcount (files k) h ->
     total h (tasks k) - zcount h (fds t0) + zcount h (fds t) + x' h <= refcount v h) ->
  kernel_ok x' (set_task p t (set_files v k)).
Proof.
  intros [] L Hn Ht W Hz.
  assert (Hs : forall q, is_Some (tasks k !! q) -> is_Some (<[p := t]> (tasks k) !! q)).
  { intros q Hq. destruct (decide (p = q)) as [-> |]; [rewrite lookup_insert_eq; eauto|by rewrite lookup_insert_ne]. }
  constructor; cbn [tasks set_task set_tasks set_files current_task idle_task files]; auto.
  - rewrite lookup_insert_ne; [done|]. intros ->. congruence.
  - apply map_Forall_insert_2; [auto|]. intros q u Hq. apply Hs. by apply (ko_next0 q).
  - by apply map_Forall_insert_2.
  - intros h Hc. rewrite (total_insert h _ _ _ t0) by done. by apply Hz, ko_refs0.
Qed.

(** Changing a control block, its table not gaining references. *)
Lemma ok_set_task x k p t t0 :
  kernel_ok x k -> tasks k !! p = Some t0 -> is_Some (tasks k !! next t) -> task_ok t ->
  (forall h, counted h -> zcount h (fds t) <= zcount h (fds t0)) -> kernel_ok x (set_task p t k).
Proof.
  intros O L Hn Ht Hz. replace k with (set_files (files k) k) by (by destruct k).
  apply (ok_replace x x k p t t0 (files k)); try done; [apply O|]. intros h Hc Hr. specialize (Hz h Hc). lia.
Qed.

Lemma ok_same_fds x k p t :
  kernel_ok x k -> is_Some (tasks k !! p) -> next t = next (task p k) -> fds t = fds (task p k) -> tty t = tty (task p k) ->
  kernel_ok x (set_task p t k).
Proof.
  intros O L%task_lookup En Ef Ey. apply (ok_set_task x k p t (task p k) O L).
  - rewrite En. by apply (ko_next _ _ O p).
  - destruct (ko_tasks _ _ O _ _ L). constructor; congruence.
  - intros h _. by rewrite Ef.
Qed.

Lemma ok_set_mmu x k m : kernel_ok x k -> kernel_ok x (set_mmu m k).
Proof. intros []. by constructor. Qed.
Lemma ok_set_next_pid x k n : kernel_ok x k -> kernel_ok x (set_next_pid n k).
Proof. intros []. by constructor. Qed.
Lemma ok_set_current x k p : kernel_ok x k -> is_Some (tasks k !! p) -> kernel_ok x (set_current p k).
Proof. intros [] Hp. by constructor. Qed.
Lemma ok_set_files x x' k v :
  kernel_ok x k -> vfs_wf ffuel stale v -> (forall h, counted h -> refcount (files k) h - x h <= refcount v h - x' h) ->
  kernel_ok x' (set_files v k).
Proof. intros [] W Hr. constructor; try done. intros h Hc. specialize (ko_refs0 h Hc). specialize (Hr h Hc). cbn. lia. Qed.

Lemma keep_on_mmu {A} x (c : M mmu A) k : kernel_ok x k -> stays (kernel_ok x) (on_mmu c k).
Proof. intros O. eapply stays_zoom with (I := fun _ => True); [by destruct (c _)|]. intros m _. by apply ok_set_mmu. Qed.
Lemma keep_on_heap {A} x (c : M heap A) k : kernel_ok x k -> stays (kernel_ok x) (on_heap c k).
Proof. apply keep_on_mmu. Qed.
Lemma keep_on_ram x f k : kernel_ok x k -> stays (kernel_ok x) (on_ram f k).
Proof. apply keep_on_heap. Qed.
#[local] Hint Resolve ok_set_mmu ok_set_next_pid keep_on_mmu keep_on_heap keep_on_ram : stays.

Lemma keep_set_eax x r v k : kernel_ok x k -> stays (kernel_ok x) (set_eax r v k).
Proof. apply keep_on_ram. Qed.
Lemma keep_user_write x a bs k : kernel_ok x k -> stays (kernel_ok x) (user_write a bs k).
Proof. apply keep_on_ram. Qed.
Lemma keep_user_string x a k : kernel_ok x k -> stays (kernel_ok x) (user_string fuel a k).
Proof. intros O. unfold user_string. stays. Qed.
#[local] Hint Resolve keep_set_eax keep_user_write keep_user_string : stays.

(** ** The scheduler *)

Lemma keep_wake_loop x f w stop : forall t k, kernel_ok x k -> stays (kernel_ok x) (wake_loop f w t stop k).
Proof.
  induction f as [|f IH]; intros t k O; cbn [wake_loop]; [done|]. cbv zeta.
  assert (O1 : kernel_ok x (if decide (state (task t k) = TASK_BLOCKED /\ wait_obj (task t k) = w)
                 then set_task t (with_state (task t k) TASK_READY) k else k)).
  { case_decide as E; [|done]. apply ok_same_fds; try done. unfold task in E. destruct (tasks k !! t); [eauto|by destruct E]. }
  stays.
Qed.
Lemma keep_wake x w k : kernel_ok x k -> stays (kernel_ok x) (scheduler_wake fuel w k).
Proof. intros O. unfold scheduler_wake. stays. by apply keep_wake_loop. Qed.
#[local] Hint Resolve keep_wake : stays.

Lemma keep_deliver x ws : forall k, kernel_ok x k -> stays (kernel_ok x) (deliver fuel socket_addr ws k).
Proof. induction ws as [|w ws IH]; intros k O; cbn [deliver]; stays. Qed.
#[local] Hint Resolve keep_deliver : stays.

Lemma pick_next_in x k cur : kernel_ok x k -> forall f nx r, is_Some (tasks k !! nx) ->
  pick_next f nx cur k = Some r -> is_Some (tasks k !! r).
Proof.
  intros O. induction f as [|f IH]; intros nx r Hn; cbn [pick_next]; [done|]. cbv zeta.
  assert (Hx : is_Some (tasks k !! next (task nx k))) by (apply (ko_next _ _ O nx), task_lookup, Hn).
  destruct (_ || _); [by intros [= <-]|]. by apply IH.
Qed.

Lemma keep_schedule x k : kernel_ok x k -> stays (kernel_ok x) (scheduler_schedule fuel k).
Proof.
  intros O. unfold scheduler_schedule. cbv zeta. rewrite (current_nonnull x k O).
  destruct (pick_next _ _ _ _) as [nx|] eqn:E; [|done].
  assert (Hn : is_Some (tasks k !! nx)) by (eapply pick_next_in; [done| |done]; apply O).
  assert (O1 : kernel_ok x (if negb (nx =? current_task k)
     then set_task nx (with_state (task nx k) TASK_RUNNING) (set_current nx k)
     else if decide (state (task (current_task k) k) = TASK_BLOCKED)
          then set_task (current_task k) (with_state (task (current_task k) k) TASK_RUNNING) k else k)).
  { destruct (negb _); [|case_decide; [|done]; apply ok_same_fds; try done; apply O].
    apply (ok_same_fds x (set_current nx k)); try done. by apply ok_set_current. }
  stays.
Qed.
#[local] Hint Resolve keep_schedule : stays.

Lemma keep_tick x r k : kernel_ok x k -> stays (kernel_ok x) (scheduler_tick fuel r k).
Proof.
  intros O. unfold scheduler_tick. rewrite (current_nonnull x k O). cbv zeta. apply stays_bind; [|by intros; apply stays_get].
  apply keep_schedule. apply ok_same_fds; [done|apply O| | |]; by case_decide.
Qed.

Lemma keep_block x w f k : kernel_ok x k -> stays (kernel_ok x) (scheduler_block fuel w f k).
Proof.
  intros O. unfold scheduler_block, scheduler_perform_switch.
  set (k1 := set_task (current_task k) (with_wait (current k) w) k).
  assert (O1 : kernel_ok x k1) by (apply ok_same_fds; try done; apply O).
  apply stays_bind; [|by intros; apply stays_get]. apply keep_schedule. apply ok_same_fds; try done. apply O1.
Qed.

Lemma keep_set_tty x y k : kernel_ok x k -> stays (kernel_ok x) (scheduler_set_tty y k).
Proof.
  intros O. unfold scheduler_set_tty. destruct (current_task k =? 0); [done|]. destruct (tty_valid y) eqn:Ey; [|done]. cbn [negb stays].
  pose proof (ok_current x k O) as L. destruct (ko_tasks _ _ O _ _ L) as [Ln Fe Ty].
  destruct (bind_fds_ok (fds (current k)) y Ln Fe) as (L1 & F1 & Z1).
  apply (ok_set_task x k _ _ (current k) O L); [by apply (ko_next _ _ O _ _ L)| |done].
  constructor; [done|done|]. unfold tty_valid in Ey. cbn. lia.
Qed.
#[local] Hint Resolve keep_block keep_set_tty : stays.

(** ** Operations of the descriptor layer *)

Definition none (h : Z) : Z := 0.
(** No object has 2^31 references. *)
Definition few_refs (k : K) : Prop := forall h, refcount (files k) h < 2147483648.

(** The references that are not descriptors of the current task. *)
Definition others_of (k : K) (h : Z) : Z := Z.max 0 (refcount (files k) h - zcount h (fds (current k))).

Lemma others_counted k h : kernel_ok none k -> counted h -> others_of k h = refcount (files k) h - zcount h (fds (current k)).
Proof.
  intros O Hc. pose proof (ko_refs _ _ O h Hc). pose proof (total_lookup h _ _ _ (ok_current _ k O)).
  unfold others_of, none in *. lia.
Qed.

Lemma fds_ok_of_kernel k : kernel_ok none k -> few_refs k ->
  fds_ok ffuel stale (others_of k) (task_vfs k) /\ few (others_of k) /\ v_tty (task_vfs k) < TTY_COUNT.
Proof.
  intros O F. pose proof (ko_tasks _ _ O _ _ (ok_current _ k O)) as [L E T]. split; [|split].
  - constructor; [by destruct (ko_wf _ _ O)|]. exists (fds (current k)).
    split; [cbn; unfold scheduler_current_fds; by rewrite (current_nonnull _ k O)|]. split; [done|]. split; [done|].
    intros h Hc. change (refcount (task_vfs k) h) with (refcount (files k) h). rewrite others_counted by done. lia.
  - intros h. unfold others_of. specialize (F h). pose proof (zcount_pos h (fds (current k))). lia.
  - cbn. unfold scheduler_current_tty. by rewrite (current_nonnull _ k O).
Qed.

Lemma ok_put_vfs k v : kernel_ok none k -> fds_ok ffuel stale (others_of k) v -> kernel_ok none (put_vfs v k).
Proof.
  intros O [W (t & Et & L & E & Hr)]. unfold put_vfs. rewrite Et. pose proof (ok_current _ k O) as Lc.
  apply (ok_replace none none k _ _ (current k) v); try done.
  - by apply (ko_next _ _ O _ _ Lc).
  - by destruct (ko_tasks _ _ O _ _ Lc).
  - intros h Hc Hk. rewrite Hr, others_counted by done. cbn. unfold none in *. lia.
Qed.

Lemma keep_on_vfs {A} (c : M V A) k : kernel_ok none k -> few_refs k ->
  (forall o s a s', fds_ok ffuel stale o s -> few o -> v_tty s < TTY_COUNT -> c s = Ret a s' -> fds_ok ffuel stale o s') ->
  stays (kernel_ok none) (on_vfs fuel socket_addr c k).
Proof.
  intros O F Hc. unfold on_vfs. destruct (fds_ok_of_kernel k O F) as (Of & Fo & T).
  erewrite bind_ret by reflexivity. apply stays_bind; [|intros; stays].
  apply stays_zoom with (I := fds_ok ffuel stale (others_of k)); [|intros v Hv; by apply ok_put_vfs].
  destruct (c (task_vfs k)) as [a v| |] eqn:E; [|done|done]. by eapply Hc.
Qed.

Lemma keep_quiet {A} (c : M V A) k : kernel_ok none k -> few_refs k ->
  (forall x s, same_objs ffuel stale x s -> stays (same_objs ffuel stale x) (c s)) ->
  stays (kernel_ok none) (on_vfs fuel socket_addr c k).
Proof. intros O F Hc. apply keep_on_vfs; [done|done|]. intros o s a s' Of _ _ E. by eapply quiet_run. Qed.

Lemma keep_net_call {A} (h : V -> Z) (c : Z -> M (net N) A) k : kernel_ok none k -> few_refs k ->
  (forall h rs n, same_refs rs n -> stays (same_refs rs) (c h n)) ->
  stays (kernel_ok none) (on_vfs fuel socket_addr (handle ← gets h; on_net (c handle)) k).
Proof.
  intros O F Hc. apply keep_quiet; [done|done|]. intros x s Hs. stays. apply keep_on_net; [|done]. intros. by apply Hc.
Qed.

Lemma socket_create_cases dom ty proto (n : net N) h n' :
  socket_create dom ty proto n = Ret h n' ->
  (h = -1 /\ n' = n) \/ exists i k, sockets n !! i = Some k /\ used k = false /\ h = -4096 - Z.of_nat i
    /\ n' = set_socket i (new_socket i dom ty proto) n.
Proof.
  unfold socket_create. repeat (case_match; [intros [= <- <-]; by left|]). case_match eqn:E; intros [= <- <-]; [right|by left].
  destruct (find_free_Some _ _ _ _ E) as (i & k & -> & L & U). exists i, k. cbn [Nat.add]. split; [done|].
  split; [by destruct (used k)|done].
Qed.

Lemma is_socket_in_range h (s : V) : is_socket h s = true -> -4112 < h <= -4096.
Proof. intros E. destruct (decide (-4112 < h <= -4096)); [done|]. by rewrite is_socket_no in E. Qed.

(** What [sys_socket] does to the descriptor layer: with no result of its own it
    leaves everything as it was; otherwise a descriptor that was empty names a
    socket that was not in use and has one reference. *)
Definition socket_fd_spec (o : Z -> Z) (s : V) (a : Z) (s' : V) : Prop :=
  fds_ok ffuel stale o s' /\ v_tty s' = v_tty s /\
  ((a = -1 /\ v_fds s' = v_fds s /\ forall x, counted x -> refcount s' x = refcount s x)
   \/ exists t h, v_fds s = Some t /\ 0 <= a < 16 /\ t !! Z.to_nat a = Some VFS_EMPTY_HANDLE
        /\ v_fds s' = Some (<[Z.to_nat a := h]> t) /\ -4112 < h <= -4096
        /\ is_socket h s = false /\ is_socket h s' = true /\ refcount s' h = 1
        /\ forall x, counted x -> x <> h -> refcount s' x = refcount s x).

Lemma socket_fd_cases o dom ty proto (s : V) :
  fds_ok ffuel stale o s -> exists a s', socket_fd dom ty proto s = Ret a s' /\ socket_fd_spec o s a s'.
Proof.
  intros O. pose proof O as [W (t & Et & L & Fe & Hr)]. unfold socket_fd.
  assert (Ec : exists h n, socket_create dom ty proto (v_net s) = Ret h n)
    by (unfold socket_create; repeat case_match; eauto). destruct Ec as (h & n & Ec).
  assert (E1 : on_net (socket_create dom ty proto) s = Ret h (set_net n s)) by (unfold on_net, zoom; by rewrite Ec).
  rewrite (bind_ret _ _ _ _ _ E1). erewrite bind_ret by reflexivity.
  destruct (socket_create_cases _ _ _ _ _ _ Ec) as [[-> ->]|(i & k & Lk & U & -> & ->)].
  - rewrite !is_socket_no by lia. erewrite bind_ret by reflexivity. erewrite bind_ret by reflexivity.
    rewrite is_socket_no, andb_false_r by lia. erewrite bind_ret by reflexivity.
    eexists _, _. split; [reflexivity|]. replace (set_net (v_net s) s) with s by (by destruct s). split; [done|]. split; [done|by left].
  - set (s1 := set_net _ s) in *. set (h := -4096 - Z.of_nat i) in *.
    pose proof (lookup_lt_Some _ _ _ Lk) as Hi. rewrite (w_sockets _ _ _ W) in Hi.
    assert (W1 : vfs_wf ffuel stale s1) by (by apply wf_socket).
    assert (Hh : -4112 < h <= -4096) by (unfold SOCKET_MAX in Hi; lia).
    assert (R0 : refcount s h = 0).
    { rewrite refcount_of_socket by done. unfold slot_refs. replace (Z.to_nat (-4096 - h)) with i by lia. by rewrite Lk, U. }
    assert (Hno : is_socket h s = false).
    { unfold is_socket, socket_handle_valid, socket_from_handle. rewrite socket_index_eq.
      rewrite (proj2 (Z.leb_le h (-4096))), (proj2 (Z.ltb_lt (-4112) h)) by lia. cbn [andb].
      rewrite (proj2 (Z.ltb_ge (-4096 - h) 0)) by lia. replace (Z.to_nat (-4096 - h)) with i by lia. by rewrite Lk, U. }
    assert (R1 : forall x, counted x -> refcount s1 x = refcount s x + (if h =? x then 1 else 0)).
    { intros x Hx. unfold s1. rewrite (refcount_socket ffuel stale) by done. rewrite (Z.eqb_sym h x). unfold h. case_z; [|lia].
      subst x. fold h. rewrite R0. cbn. by destruct (ty =? SOCK_RAW). }
    assert (Hsk : is_socket h s1 = true).
    { unfold is_socket, socket_handle_valid. rewrite (is_socket_used h s1 (new_socket i dom ty proto)); [done|done| |by cbn].
      replace (Z.to_nat (-4096 - h)) with i by lia. cbn. rewrite list_lookup_insert_eq; [done|]. by rewrite (w_sockets _ _ _ W). }
    rewrite Hsk. set (att := vfs_attach_handle h). assert (EA : att s1 = vfs_attach_handle h s1) by done.
    unfold vfs_attach_handle in EA. change (v_fds s1) with (v_fds s) in EA. rewrite Et in EA.
    destruct (find_free _ 0 t) as [j|] eqn:Ef; rewrite (bind_ret _ _ _ _ _ EA); erewrite bind_ret by reflexivity.
    + destruct (find_free_Some _ _ _ _ Ef) as (j' & g & -> & Lg & Eg). cbn [Nat.add] in *. apply Z.eqb_eq in Eg as ->.
      pose proof (lookup_lt_Some _ _ _ Lg) as Hj. rewrite L in Hj. unfold MAX_FDS_PER_PROCESS in Hj.
      rewrite (proj2 (Z.ltb_ge _ 0)) by lia. cbn [andb]. erewrite bind_ret by reflexivity.
      eexists _, _. split; [reflexivity|].
      assert (Es : set_fds (Some (<[j' := h]> t)) s1 = set_fd (Z.of_nat j') h s1)
        by (unfold set_fd; change (v_fds s1) with (v_fds s); by rewrite Et, Nat2Z.id).
      split; [|split; [done|right; exists t, h; rewrite Nat2Z.id; split_and!; try done; try lia]].
      * rewrite Es. apply (fds_write ffuel stale o s s1 (Z.of_nat j') h VFS_EMPTY_HANDLE t); try done; [lia|by rewrite Nat2Z.id|right; left; unfold counted; lia|].
        intros x Hx. rewrite R1, Hr by done. destruct (Z.eqb_spec VFS_EMPTY_HANDLE x) as [<- |]; [by apply not_counted_empty in Hx|]. lia.
      * rewrite refcount_fds, R1, R0, Z.eqb_refl by (unfold counted; lia). done.
      * intros x Hx Hne. rewrite refcount_fds, R1 by done. case_z; [done|lia].
    + rewrite Hsk. cbn [Z.ltb Z.compare andb].
      destruct (close_moved ffuel stale h s1 W1) as (s3 & R3 & [Ef3 Ey3 W3 M3]); [right; left; unfold counted; lia|unfold VFS_EMPTY_HANDLE; lia| |].
      { intros Hc. rewrite R1, R0, Z.eqb_refl by done. lia. }
      unfold file_close in R3. erewrite bind_ret in R3 by reflexivity. rewrite Hsk in R3.
      erewrite bind_ret by (rewrite (bind_ret _ _ _ _ _ R3); reflexivity).
      assert (M : forall x, counted x -> refcount s3 x = refcount s x).
      { intros x Hx. rewrite M3, R1 by done. rewrite (Z.eqb_sym x h). case_z; lia. }
      eexists _, _. split; [reflexivity|]. split; [|split; [done|left; done]].
      constructor; [done|]. exists t. split; [by rewrite Ef3|]. split; [done|]. split; [done|]. intros x Hx. rewrite M by done. by apply Hr.
Qed.

Lemma socket_fd_ok o dom ty proto (s : V) a s' :
  fds_ok ffuel stale o s -> socket_fd dom ty proto s = Ret a s' -> fds_ok ffuel stale o s'.
Proof. intros O E. destruct (socket_fd_cases o dom ty proto s O) as (a' & s2 & E2 & Of & _). rewrite E in E2. by injection E2 as <- <-. Qed.

(** ** Exit, fork and wait *)

Lemma keep_exit code k : kernel_ok none k -> few_refs k -> stays (kernel_ok none) (scheduler_exit_current fuel code k).
Proof.
  intros O F. unfold scheduler_exit_current. destruct (_ || _); [done|]. cbn [vfs_exit_fds vfs_backend]. unfold run_fds, exit_fds.
  pose proof (ok_current _ k O) as Lc. destruct (ko_tasks _ _ O _ _ Lc) as [L E T]. pose proof (ko_wf _ _ O) as W.
  rewrite (w_driver _ _ _ W). cbn [fat16_driver close_file].
  destruct (exit_refs ffuel stale (fds (current k)) (files k) W E) as (v & Ev & Wv & _ & _ & Hr).
  { intros h Hc. specialize (F h). pose proof (total_lookup h _ _ _ Lc). pose proof (ko_refs _ _ O h Hc). unfold none in *. lia. }
  rewrite Ev. apply keep_wake. apply (ok_replace none none k _ _ (current k) v); try done.
  - by apply (ko_next _ _ O _ _ Lc).
  - constructor; cbn [fds tty with_exit]; [by rewrite length_map| |done].
    apply Forall_forall. intros h Hh. apply list_elem_of_fmap in Hh as (? & -> & _). by left.
  - intros h Hc Hk. rewrite Hr by done. cbn [fds with_exit].
    assert (Ez : forall t : list Z, zcount h (map (fun _ => VFS_EMPTY_HANDLE) t) = 0).
    { induction t as [|a t IH]; [done|]. cbn [map zcount]. rewrite IH.
      destruct (Z.eqb_spec VFS_EMPTY_HANDLE h) as [<- |]; [by apply not_counted_empty in Hc|done]. }
    rewrite Ez. unfold none in *. lia.
Qed.

Lemma on_heap_inv {A} (c : M heap A) (k : K) a k' : on_heap c k = Ret a k' -> exists m, k' = set_mmu m k.
Proof. unfold on_heap, on_mmu, zoom. destruct (c _); intros [= _ <-]; eauto. Qed.

(** The call added a control block, at a new address. *)
Definition task_added (k k' : K) : Prop := tasks k' !! 0 = None /\ (size (tasks k) < size (tasks k'))%nat.

Lemma size_link {A} (m : gmap Z A) i c a b : is_Some (m !! i) -> is_Some (m !! c) -> size (<[i := a]> (<[c := b]> m)) = size m.
Proof.
  intros [u Hu] [w Hw].
  assert (Hi : exists x, <[c := b]> m !! i = Some x).
  { destruct (decide (c = i)) as [-> |]; [rewrite lookup_insert_eq; eauto|rewrite lookup_insert_ne by done; eauto]. }
  destruct Hi as [x Hx]. rewrite !map_size_insert_Some; eauto.
Qed.

Lemma ok_link k p t v :
  kernel_ok none k -> p <> 0 -> tasks k !! p = None -> task_ok t -> vfs_wf ffuel stale v ->
  (forall h, counted h -> refcount (files k) h + zcount h (fds t) <= refcount v h) ->
  kernel_ok none (link_task p t (set_files v k)).
Proof.
  intros O Hp Hn Ht W Hr. pose proof (task_lookup k _ (ko_idle _ _ O)) as Li.
  assert (Hne : idle_task k <> p) by congruence. pose proof (ko_next _ _ O _ _ Li) as Hni.
  set (t1 := with_next t (next (task (idle_task k) k))).
  assert (O1 : kernel_ok none (set_tasks (<[p := t1]> (tasks k)) (set_files v k))).
  { pose proof O as []. assert (Hs : forall q, is_Some (tasks k !! q) -> is_Some (<[p := t1]> (tasks k) !! q)).
    { intros q [u Hq]. rewrite lookup_insert_ne by congruence. eauto. }
    constructor; cbn [tasks set_tasks set_files current_task idle_task files]; auto.
    - by rewrite lookup_insert_ne.
    - apply map_Forall_insert_2; [by apply Hs|]. intros q u Hq. by apply Hs, (ko_next0 q).
    - apply map_Forall_insert_2; [by destruct Ht|done].
    - intros h Hc. rewrite total_insert_new by done. specialize (Hr h Hc). specialize (ko_refs0 h Hc). cbn. lia. }
  change (link_task p t (set_files v k)) with
    (set_task (idle_task k) (with_next (task (idle_task k) k) p) (set_tasks (<[p := t1]> (tasks k)) (set_files v k))).
  apply (ok_set_task none _ _ _ (task (idle_task k) k) O1).
  - cbn [tasks set_tasks set_files]. by rewrite lookup_insert_ne.
  - cbn [tasks set_tasks set_files next with_next]. rewrite lookup_insert_eq. eauto.
  - by destruct (ko_tasks _ _ O _ _ Li).
  - done.
Qed.

Lemma keep_fork r k p k' :
  kernel_ok none k -> few_refs k -> fork_current r k = Ret p k' ->
  (current_task k <> idle_task k -> task_added k k') -> kernel_ok none k'.
Proof.
  intros O F E Hadd. unfold fork_current in E. rewrite (current_nonnull _ k O) in E. cbn [orb] in E.
  destruct (Z.eqb_spec (current_task k) (idle_task k)) as [|Hne]; [by injection E as <- <-|]. specialize (Hadd Hne).
  apply bind_inv in E as (kp & k0 & [= <- <-] & E).
  apply bind_inv in E as (dir & k1 & [m1 ->]%on_heap_inv & E). apply bind_inv in E as (child & k2 & [m2 ->]%on_heap_inv & E).
  apply bind_inv in E as (cf & k3 & [= <- <-] & E). apply bind_inv in E as (pd & k4 & [= <- <-] & E).
  apply bind_inv in E as ([] & k5 & [m5 ->]%on_heap_inv & E). apply bind_inv in E as ([] & k6 & [m6 ->]%on_heap_inv & E).
  apply bind_inv in E as ([] & k7 & [= <-] & [= _ <-]).
  change (current (set_mmu m6 _)) with (current k) in *. change (files (set_mmu m6 _)) with (files k) in *.
  pose proof (ok_current _ k O) as Lc. destruct (ko_tasks _ _ O _ _ Lc) as [L Fe T]. pose proof (ko_wf _ _ O) as W.
  destruct (fork_refs ffuel stale (fds (current k)) (files k) W Fe) as (v & Ev & Wv & _ & _ & Hr).
  { intros h Hc Hin. apply list_elem_of_lookup in Hin as [i Hi]. pose proof (zcount_elem _ _ _ Hi).
    pose proof (total_lookup h _ _ _ Lc). pose proof (ko_refs _ _ O h Hc). unfold none in *. lia. }
  { intros h Hc. specialize (F h). rewrite L. unfold MAX_FDS_PER_PROCESS. lia. }
  cbn [vfs_fork_fds vfs_backend] in *. unfold run_fds, fork_fds in *. rewrite Ev in *. apply ok_set_next_pid.
  destruct Hadd as [Hz Hsz]. cbn [tasks link_task set_tasks set_files set_mmu set_next_pid] in Hz, Hsz.
  set (k6 := set_mmu m6 _) in *.
  assert (O6 : kernel_ok none k6) by (unfold k6; repeat apply ok_set_mmu; done).
  change (idle_task (set_files v k6)) with (idle_task k) in *.
  assert (Hi0 : idle_task k <> 0) by (intros Ei; destruct (ko_idle _ _ O) as [u Hu]; rewrite Ei, (ko_zero _ _ O) in Hu; done).
  assert (Hn : tasks k !! child = None).
  { destruct (tasks k !! child) as [u|] eqn:Eu; [exfalso|done]. rewrite size_link in Hsz; [lia|apply O|eauto]. }
  apply ok_link; try done.
  - intros ->. rewrite lookup_insert_ne, lookup_insert_eq in Hz by done. done.
  - intros h Hc. rewrite Hr by done. apply Z.le_refl.
Qed.

Lemma keep_find x p k : kernel_ok x k -> stays (kernel_ok x) (scheduler_find_by_pid fuel p k).
Proof.
  intros O. unfold scheduler_find_by_pid. destruct (_ || _); [done|].
  assert (G : forall f t q k, kernel_ok x k -> stays (kernel_ok x) (walk_find f (fun t => i32 (pid t) =? p) t q k)).
  { induction f as [|f IH]; intros t q k1 O1; cbn [walk_find]; [done|]. cbv zeta. stays. }
  by apply G.
Qed.
#[local] Hint Resolve keep_find : stays.

Lemma keep_wait_pid frame sleep p k :
  (forall k u k', kernel_ok none k -> sleep k = Ret u k' -> kernel_ok none k') ->
  kernel_ok none k -> stays (kernel_ok none) (scheduler_wait_pid fuel frame sleep p k).
Proof.
  intros Hs O. unfold scheduler_wait_pid, wait_pid_check, wait_pid_resume. stays.
  destruct (sleep s'0) as [u k1| |] eqn:E; [|done|done]. by eapply Hs.
Qed.

(** ** Exec *)

(** The invariant, with the current task fixed. *)
Definition running (cur : Z) (x : Z -> Z) (k : K) : Prop := kernel_ok x k /\ current_task k = cur.

Lemma run_on_mmu {A} cur x (c : M mmu A) k : running cur x k -> stays (running cur x) (on_mmu c k).
Proof.
  intros [O E]. eapply stays_zoom with (I := fun _ => True); [by destruct (c _)|]. intros m _. split; [by apply ok_set_mmu|done].
Qed.
Lemma run_on_heap {A} cur x (c : M heap A) k : running cur x k -> stays (running cur x) (on_heap c k).
Proof. apply run_on_mmu. Qed.
Lemma run_on_ram cur x f k : running cur x k -> stays (running cur x) (on_ram f k).
Proof. apply run_on_heap. Qed.
#[local] Hint Resolve run_on_mmu run_on_heap run_on_ram : stays.

Lemma run_set_task cur x k t : running cur x k -> next t = next (current k) -> fds t = fds (current k) -> tty t = tty (current k) ->
  running cur x (set_task cur t k).
Proof. intros [O <-] En Ef Ey. split; [|done]. apply ok_same_fds; try done. apply O. Qed.

Lemma run_exec_replace cur x e segs argc argv y r k : y < TTY_COUNT ->
  running cur x k -> stays (running cur x) (scheduler_exec_replace fuel e segs argc argv y r k).
Proof.
  intros Hy R. pose proof R as [_ Ec]. unfold scheduler_exec_replace. rewrite Ec. cbv zeta. destruct (_ || _); [done|].
  destruct segs as [|sg segs]; [done|]. destruct (image_span _ _ _) as [base end_]. stays.
  - by apply run_set_task.
  - match goal with |- running _ _ (set_task _ (if _ then with_tty ?t _ _ else _) ?s1) =>
      assert (R1 : running cur x (set_task cur t s1)) by (by apply run_set_task) end.
    destruct (Z.leb_spec 0 y); [|done].
    match goal with Hs : running cur x ?s1 |- running _ _ (set_task _ (with_tty ?t _ _) ?s1) => destruct Hs as [O1 E1] end.
    split; [|done]. rewrite <- E1. pose proof (ok_current _ _ O1) as L. destruct (ko_tasks _ _ O1 _ _ L) as [Ln Fe Ty].
    cbn [fds with_image vfs_bind_tty vfs_backend].
    match goal with |- context [bind_fds (fds (current ?s1)) y] => destruct (bind_fds_ok (fds (current s1)) y Ln Fe) as (L2 & F2 & Z2) end.
    eapply ok_set_task; [done|exact L|by apply (ko_next _ _ O1 _ _ L)|by constructor|done].
Qed.

Lemma ok_weaken x k : (forall h, 0 <= x h) -> kernel_ok x k -> kernel_ok none k.
Proof. intros Hx []. constructor; try done. intros h Hc. specialize (ko_refs0 h Hc). specialize (Hx h). unfold none. lia. Qed.

(** While the loader holds the open file [f]. *)
Definition one (f h : Z) : Z := if h =? f then 1 else 0.
Definition loading (f : Z) (k : K) : Prop := kernel_ok (one f) k /\ refcount (files k) f <= 2147483648.

Lemma loading_ok f k : loading f k -> kernel_ok none k.
Proof. intros [O _]. apply (ok_weaken (one f)); [|done]. intros h. unfold one. case_z; lia. Qed.
Lemma load_on_heap {A} f (c : M heap A) k : loading f k -> stays (loading f) (on_heap c k).
Proof.
  intros [O E]. eapply stays_zoom with (I := fun _ => True); [by destruct (zoom _ _ c _)|]. intros m _. split; [by apply ok_set_mmu|done].
Qed.
Lemma load_on_ram f g k : loading f k -> stays (loading f) (on_ram g k).
Proof. apply load_on_heap. Qed.
Lemma load_read f size k : loading f k -> stays (loading f) (on_files (store_read f size) k).
Proof.
  intros [O E]. eapply stays_zoom with (I := same_objs ffuel stale (refs_of (files k))).
  - apply keep_file_read; [done|done|]. split; [done|apply O].
  - intros v Hv. pose proof (refcount_same (files k) v) as Hr. assert (Hr' := fun h => Hr h (proj1 Hv)). clear Hr.
    split; [|cbn; by rewrite Hr']. apply (ok_set_files (one f)); [done|apply (wf_same ffuel stale (files k)); [apply O|done]|].
    intros h _. rewrite Hr'. lia.
Qed.
Lemma load_close f k : 0 <= f -> entry_ok f -> loading f k -> stays (kernel_ok none) (on_files (store_close f) k).
Proof.
  intros Hf He [O E]. unfold on_files, zoom. cbn [store_close file_layer call_store vfs_store].
  destruct (close_moved ffuel stale f (files k)) as (v & Ev & [_ _ W Hr]).
  - apply O.
  - done.
  - unfold VFS_EMPTY_HANDLE. lia.
  - intros Hc. pose proof (ko_refs _ _ O f Hc) as Hk. pose proof (total_nonneg f (tasks k)). unfold one in Hk. rewrite Z.eqb_refl in Hk. lia.
  - rewrite Ev. apply (ok_set_files (one f)); [done|done|]. intros h Hc. rewrite Hr by done. unfold one, none. case_z; lia.
Qed.
#[local] Hint Resolve load_on_heap load_on_ram load_read load_close : stays.

Lemma keep_exec path argc argv y r k :
  kernel_ok none k -> few_refs k -> v_tty (files k) < TTY_COUNT -> no_collision path -> y < TTY_COUNT ->
  stays (kernel_ok none) (exec_elf fuel path argc argv y r k).
Proof.
  intros O F Ht Hp Hy. unfold exec_elf. apply stays_bind_eq. intros f k0 E.
  unfold on_files, zoom in E. cbn [store_open file_layer call_store vfs_store] in E.
  destruct (file_open path (files k)) as [f' v|v|] eqn:Eo; try done. injection E as -> <-. rename Eo into E.
  destruct (file_open_moved ffuel stale path (files k) f v (ko_wf _ _ O) Hp Ht E) as [He [_ _ W Hr]].
  destruct (Z.ltb_spec f 0) as [Hneg|Hf].
  { cbn. apply (ok_set_files none none k v O W). intros h Hc. rewrite Hr by done. unfold none. case_z; lia. }
  assert (Hcf : counted f) by (unfold entry_ok, counted, device, VFS_EMPTY_HANDLE, VFS_DEV_NULL, VFS_DEV_ZERO, VFS_DEV_FULL in *; lia).
  assert (L : loading f (set_files v k)).
  { split; [|cbn; rewrite Hr, Z.eqb_refl by done; specialize (F f); lia].
    apply (ok_set_files none (one f) k v O W). intros h Hc. rewrite Hr by done. unfold none, one. lia. }
  assert (Hend : forall e segs k1, kernel_ok none k1 ->
    stays (kernel_ok none) (scheduler_exec_replace fuel e segs argc argv y r k1)).
  { intros e segs k1 O1. eapply stays_mono; [apply (run_exec_replace (current_task k1) none); [done|by split]|]. by intros ? [? _]. }
  assert (Hread : forall size buf k1, loading f k1 -> stays (loading f) (read_into f size buf k1)) by (intros; unfold read_into; stays).
  eapply stays_seq with (I := loading f); [done|]. intros size k1 L1.
  eapply stays_seq with (I := loading f); [stays|]. intros buf k2 L2.
  destruct (buf =? 0); [stays|]. eapply stays_seq with (I := loading f); [by apply Hread|]. intros [] k3 L3. stays.
Qed.

(** ** Every call *)

Definition sysm_ok (s : sysm (N := N) (D := D)) : Prop := kernel_ok none (sk s).

Lemma keep_on_kern {A} (c : M K A) s : stays (kernel_ok none) (c (sk s)) -> stays sysm_ok (on_kern c s).
Proof. intros Hc. by apply stays_zoom with (I := kernel_ok none). Qed.

(** The path of a call that opens a file, as the kernel reads it. *)
Definition call_path (w : waits (N := N) (D := D)) (r : Z) : M K (option (list Z)) :=
  eax ← gets (reg r R_EAX);
  p ← gets (reg r R_EBX);
  (if eax =? 11 then default_argv (w_locals w) p else mret tt) ;;
  user_string fuel p.

(** What the calls rely on: counters below 2^31, no path of a UDP terminal whose
    handle is that of a socket, an existing terminal for exec, and interrupts that
    neither create nor release sockets. *)
Record call_ok (w : waits) (r : Z) (k : K) : Prop := {
  c_few : few_refs k;
  c_path : (reg r R_EAX k = 5 \/ reg r R_EAX k = 11) -> forall path k', call_path w r k = Ret path k' -> no_collision path;
  c_tty : reg r R_EAX k = 11 -> i32 (reg r R_ESI k) < TTY_COUNT;
  c_net : Forall keeps_sockets (w_net w)
}.

Lemma keep_sys_exec locals r k : kernel_ok none k -> few_refs k -> i32 (reg r R_ESI k) < TTY_COUNT ->
  (forall path k', (default_argv locals (reg r R_EBX k) ;; user_string fuel (reg r R_EBX k)) k = Ret path k' -> no_collision path) ->
  forall o, stays sysm_ok (sys_exec fuel polls call_handler locals r (mkSysm k o)).
Proof.
  intros O F Hy Hp o. apply keep_on_kern. cbn [sk]. do 4 erewrite bind_ret by reflexivity.
  apply stays_bind_eq. intros [] k1 E1.
  assert (E1' : exists m, k1 = set_mmu m k) by (unfold default_argv in E1; by eapply on_heap_inv).
  destruct E1' as [m Em]. apply stays_bind_eq. intros path k2 E2.
  assert (Ek : k2 = k1) by (unfold user_string in E2; destruct (_ =? 0); [by injection E2|]; destruct (vstrlen _ _ _ _); by inversion E2).
  subst k2. specialize (Hp path k1). erewrite bind_ret in Hp by exact E1. specialize (Hp E2).
  erewrite bind_ret by reflexivity. subst k1. set (k1 := set_mmu m k).
  assert (O1 : kernel_ok none k1) by (by apply ok_set_mmu).
  destruct (fds_ok_of_kernel k1 O1 F) as (Of & _ & T).
  cbv zeta. apply stays_bind; [|intros sp k3 O3; stays].
  apply keep_exec; try done. apply (ok_set_files none); [done|by destruct (o_wf _ _ _ _ Of)|]. intros h _. apply Z.le_refl.
Qed.

(** Reading registers and the caller's memory changes nothing. *)
Ltac skip_gets := repeat match goal with |- stays _ ((gets _ ≫= _) _) => erewrite bind_ret by reflexivity end.
Ltac kern_call := apply keep_on_kern; cbn [sk]; skip_gets.

Lemma dispatch_ok w r k o x s' :
  kernel_ok none k -> call_ok w r k ->
  (forall k u k', kernel_ok none k -> w_sleep w k = Ret u k' -> kernel_ok none k') ->
  syscall_dispatch fuel polls call_handler socket_addr w r (mkSysm k o) = Ret x s' ->
  (reg r R_EAX k = 2 -> current_task k <> idle_task k -> task_added k (sk s')) -> sysm_ok s'.
Proof.
  intros O [F Hp Hy Hn] Hs E Hadd. unfold syscall_dispatch in E. erewrite bind_ret in E by reflexivity. cbn [sk serial_out] in E.
  assert (Hk : forall c : res (sysm (N := N) (D := D)) Z, c = Ret x s' -> stays sysm_ok c -> sysm_ok s') by (intros c -> Hc; exact Hc).
  unfold call_path in Hp. do 2 erewrite bind_ret in Hp by reflexivity.
  destruct (Z.eqb_spec (reg r R_EAX k) 1).
  { apply (Hk _ E). kern_call. apply stays_bind; [by apply keep_exit|]. intros. stays. }
  destruct (Z.eqb_spec (reg r R_EAX k) 2) as [E2|].
  { unfold sys_fork, on_kern, zoom in E. cbn [sk] in E.
    destruct ((p ← fork_current r; set_eax r (or_minus_one p) ;; mret r) k) as [y k'| |] eqn:Ef; try done. injection E as <- <-.
    apply bind_inv in Ef as (p & k1 & Ef & E3). apply bind_inv in E3 as ([] & k2 & [m ->]%on_heap_inv & [= <- <-]).
    apply ok_set_mmu. apply (keep_fork r k p k1 O F Ef). exact (Hadd E2). }
  destruct (Z.eqb_spec (reg r R_EAX k) 3).
  { apply (Hk _ E). kern_call. apply stays_bind; [|intros; stays]. apply keep_quiet; [done|done|]. intros. by apply keep_vfs_read. }
  destruct (Z.eqb_spec (reg r R_EAX k) 4).
  { apply (Hk _ E). unfold sys_write. apply stays_bind; [|intros; stays].
    kern_call. apply stays_bind; [|intros; stays]. apply keep_quiet; [done|done|]. intros. by apply keep_vfs_write. }
  destruct (Z.eqb_spec (reg r R_EAX k) 5) as [E5|].
  { apply (Hk _ E). kern_call. apply stays_bind_eq. intros path k1 E1. rewrite E5 in Hp. cbn [Z.eqb Pos.eqb] in Hp.
    specialize (Hp (or_introl eq_refl)). erewrite bind_ret in Hp by reflexivity. specialize (Hp path k1 E1).
    assert (Ek : k1 = k) by (unfold user_string in E1; destruct (_ =? 0); [by injection E1|]; destruct (vstrlen _ _ _ _); by inversion E1).
    subst k1. apply stays_bind; [|intros; stays]. apply keep_on_vfs; [done|done|]. intros o' v a v' Of Fo T Ev.
    by apply (vfs_open_ok ffuel stale o' path v a v'). }
  destruct (Z.eqb_spec (reg r R_EAX k) 6).
  { apply (Hk _ E). kern_call. apply stays_bind; [|intros; stays]. destruct (2 <? _); [|intros; stays]. apply stays_bind; [|intros; stays].
    apply keep_on_vfs; [done|done|]. intros o' v a v' Of Fo T Ev.
    destruct (vfs_close_ok ffuel stale o' v (i32 (reg r R_EBX k)) Of Fo) as (? & ? & Ev' & Of' & _). rewrite Ev in Ev'. by injection Ev' as <- <-. }
  destruct (Z.eqb_spec (reg r R_EAX k) 7).
  { apply (Hk _ E). kern_call. apply stays_bind; [|intros; stays]. by apply keep_wait_pid. }
  destruct (Z.eqb_spec (reg r R_EAX k) 11) as [E11|].
  { apply (Hk _ E). apply keep_sys_exec; [done|done|by apply Hy|]. rewrite E11 in Hp. exact (Hp (or_intror eq_refl)). }
  destruct (Z.eqb_spec (reg r R_EAX k) 54).
  { apply (Hk _ E). kern_call. stays. }
  destruct (Z.eqb_spec (reg r R_EAX k) 63).
  { apply (Hk _ E). kern_call. apply stays_bind; [|intros; stays]. apply keep_on_vfs; [done|done|]. intros o' v a v' Of Fo T Ev.
    destruct (vfs_dup2_ok ffuel stale o' v (i32 (reg r R_EBX k)) (i32 (reg r R_ECX k)) Of Fo) as (? & ? & Ev' & Of' & _).
    rewrite Ev in Ev'. by injection Ev' as <- <-. }
  destruct (Z.eqb_spec (reg r R_EAX k) 300).
  { apply (Hk _ E). kern_call. apply stays_bind; [|intros; stays]. apply keep_on_vfs; [done|done|]. intros o' v a v' Of _ _ Ev. by eapply socket_fd_ok. }
  destruct (Z.eqb_spec (reg r R_EAX k) 301).
  { apply (Hk _ E). kern_call. apply stays_bind; [|intros; stays]. apply keep_net_call; [done|done|]. intros. by apply keep_bind. }
  destruct (Z.eqb_spec (reg r R_EAX k) 302).
  { apply (Hk _ E). kern_call. apply stays_bind; [|intros; stays]. apply keep_net_call; [done|done|]. intros. by apply keep_sendto. }
  destruct (Z.eqb_spec (reg r R_EAX k) 303).
  { apply (Hk _ E). kern_call. apply stays_bind; [|intros; stays]. apply keep_net_call; [done|done|]. intros. by apply keep_recvfrom. }
  apply (Hk _ E). kern_call. stays.
Qed.

(** ** Runs of the machine *)

(** A system call of the current task, a timer tick, a wake-up, or a device
    interrupt, which leaves the objects in use and their references alone. What a
    task that waits for another is suspended for is itself a run. A call of fork
    links its control block at an address no other task has. *)
Inductive sys_step : K -> K -> Prop :=
| call_step w r k o x s' :
    call_ok w r k -> (forall k1 u k2, w_sleep w k1 = Ret u k2 -> sys_run k1 k2) ->
    syscall_dispatch fuel polls call_handler socket_addr w r (mkSysm k o) = Ret x s' ->
    (reg r R_EAX k = 2 -> current_task k <> idle_task k -> task_added k (sk s')) -> sys_step k (sk s')
| tick_step r x k k' : scheduler_tick fuel r k = Ret x k' -> sys_step k k'
| wake_step obj k k' : scheduler_wake fuel obj k = Ret tt k' -> sys_step k k'
| interrupt_step k v : same_objs ffuel stale (refs_of (files k)) v -> sys_step k (set_files v k)
with sys_run : K -> K -> Prop :=
| run_done k : sys_run k k
| run_step k1 k2 k3 : sys_step k1 k2 -> sys_run k2 k3 -> sys_run k1 k3.

Scheme step_run_ind := Minimality for sys_step Sort Prop
  with run_step_ind := Minimality for sys_run Sort Prop.

Lemma run_ok k k' : sys_run k k' -> kernel_ok none k -> kernel_ok none k'.
Proof.
  revert k k'. apply (run_step_ind (fun k k' => kernel_ok none k -> kernel_ok none k') (fun k k' => kernel_ok none k -> kernel_ok none k')).
  - intros w r k o x s' Hc _ Hs E Hf O. apply (dispatch_ok w r k o x s' O Hc); [|exact E|exact Hf]. intros k1 u k2 O1 E1. by eapply Hs.
  - intros r x k k' E O. pose proof (keep_tick none r k O) as Hk. by rewrite E in Hk.
  - intros w k k' E O. pose proof (keep_wake none w k O) as Hk. by rewrite E in Hk.
  - intros k v Hv O. apply (ok_set_files none); [done|apply (wf_same ffuel stale (files k)); [apply O|done]|].
    intros h _. rewrite (refcount_same (files k) v h (proj1 Hv)). lia.
  - done.
  - auto.
Qed.


(** C23: [sys_socket] is all or nothing. The call always returns; either it answers
    -1 and leaves the descriptors and the references of every object as they were,
    also when the socket was created and the table turned out to be full, or it
    answers a descriptor that was empty and now names a socket that was not in use
    before and has exactly one reference, and changes nothing else. *)
Theorem sys_socket_all_or_nothing o dom ty proto (s : V) :
  fds_ok ffuel stale o s ->
  exists a s', socket_fd dom ty proto s = Ret a s' /\ socket_fd_spec o s a s'.
Proof. apply socket_fd_cases. Qed.

(** ** Where references are lost *)

(** Rebinding the terminal overwrites descriptors 0 to 2 without releasing what
    they name: the descriptor is gone and the reference stays. *)
Lemma set_tty_leaks k y h r k' :
  kernel_ok none k -> tty_valid y = true -> fds (current k) !! 1%nat = Some h -> counted h ->
  scheduler_set_tty y k = Ret r k' ->
  refcount (files k') h = refcount (files k) h /\ total h (tasks k') < total h (tasks k).
Proof.
  intros O Hy Lh Hc. unfold scheduler_set_tty. rewrite (current_nonnull _ k O), Hy. cbn [negb]. intros [= _ <-].
  split; [done|]. pose proof (ok_current _ k O) as L. cbn [tasks set_task set_tasks].
  rewrite (total_insert h _ _ _ _ L). cbn [fds with_tty vfs_bind_tty vfs_backend].
  destruct (ko_tasks _ _ O _ _ L) as [Ln Fe _]. unfold bind_fds. set (d := VFS_DEV_TTY_BASE - _).
  assert (Hd : d <> h) by (unfold d, VFS_DEV_TTY_BASE; rewrite Hy; unfold tty_valid, TTY_COUNT, counted in *; lia).
  assert (Z1 : forall i u, zcount h (<[i := d]> u) <= zcount h u).
  { intros i u. destruct (u !! i) as [a|] eqn:Li; [rewrite (zcount_insert u i a) by done; repeat case_z; lia|].
    rewrite list_insert_ge by (by apply lookup_ge_None_1). lia. }
  pose proof (Z1 0%nat (<[1%nat := d]> (<[2%nat := d]> (fds (current k))))). pose proof (Z1 2%nat (fds (current k))).
  rewrite (zcount_insert _ 1%nat h) in * by (by rewrite list_lookup_insert_ne).
  rewrite Z.eqb_refl in *. destruct (Z.eqb_spec d h); [done|lia].
Qed.

(** Executing the cpuinfo device opens it and never closes it. *)
Lemma exec_cpuinfo_leaks argc argv y r k :
  kernel_ok none k -> Exists (fun f => ci_used f = false) (cpuinfo_files (files k)) ->
  exists k' h, exec_elf fuel (Some s_cpuinfo) argc argv y r k = Ret 0 k' /\ counted h
    /\ refcount (files k') h = refcount (files k) h + 1 /\ tasks k' = tasks k.
Proof.
  intros O Hf. destruct (find_free (fun f => negb (ci_used f)) 0 (cpuinfo_files (files k))) as [i|] eqn:Ef.
  2: { apply find_free_None in Ef. apply Exists_exists in Hf as (f & Hin & Hu). rewrite Forall_forall in Ef.
       specialize (Ef f Hin). by rewrite Hu in Ef. }
  pose proof (find_free_Some _ _ _ _ Ef) as (j & f & -> & Lf & Uf). cbn [Nat.add] in *.
  pose proof (lookup_lt_Some _ _ _ Lf) as Hj. rewrite (w_cpuinfo _ _ _ (ko_wf _ _ O)) in Hj. unfold CPUINFO_OPEN_FILES in Hj.
  set (v := set_cpuinfo (<[j := mkCpuinfo true 1 0]> (cpuinfo_files (files k))) (files k)).
  assert (Eo : file_open (Some s_cpuinfo) (files k) = Ret (-8 - Z.of_nat j) v).
  { unfold file_open, device_open. cbn [normalize_path option_map].
    change (skip_slashes s_cpuinfo) with s_cpuinfo.
    change (path_eq (Some s_cpuinfo) s_null) with false. change (path_eq (Some s_cpuinfo) s_zero) with false.
    change (path_eq (Some s_cpuinfo) s_full) with false. cbv iota.
    assert (Ec : cpuinfo_open (Some s_cpuinfo) (files k) = Ret (-8 - Z.of_nat j) v).
    { unfold cpuinfo_open. change (path_eq (Some s_cpuinfo) s_cpuinfo) with true. cbn [negb]. by rewrite Ef. }
    assert (Ed : (cpuinfo ← cpuinfo_open (Some s_cpuinfo); if negb (cpuinfo =? VFS_EMPTY_HANDLE) then mret cpuinfo
        else tty ← gets (tty_path_id (Some s_cpuinfo));
             if 0 <=? tty then mret (VFS_DEV_TTY_BASE - tty) else udp_tty_open (Some s_cpuinfo)) (files k) = Ret (-8 - Z.of_nat j) v).
    { rewrite (bind_ret _ _ _ _ _ Ec). unfold VFS_EMPTY_HANDLE. rewrite (proj2 (Z.eqb_neq _ _)) by lia. done. }
    rewrite (bind_ret _ _ _ _ _ Ed). unfold VFS_EMPTY_HANDLE. rewrite (proj2 (Z.eqb_neq _ _)) by lia. done. }
  exists (set_files v k), (-8 - Z.of_nat j). split; [|split; [unfold counted; lia|split; [|done]]].
  - unfold exec_elf. erewrite bind_ret by (unfold on_files, zoom; cbn [store_open file_layer call_store vfs_store]; rewrite Eo; reflexivity).
    rewrite (proj2 (Z.ltb_lt _ 0)) by lia. done.
  - cbn [files set_files]. unfold v. rewrite (refcount_cpuinfo ffuel stale) by (first [apply O|unfold CPUINFO_OPEN_FILES; lia|unfold counted; lia]).
    rewrite Z.eqb_refl. cbn. rewrite refcount_of_cpuinfo by lia. unfold slot_refs.
    replace (Z.to_nat (-8 - (-8 - Z.of_nat j))) with j by lia. rewrite Lf. by destruct (ci_used f).
Qed.

(** A terminal number taken over unchecked by exec makes the handle of [/dev/tty]
    that of socket 0. *)
Lemma unchecked_tty_names_socket (s : V) : v_tty s = 4064 ->
  device_open (Some s_tty) s = Ret (socket_handle_from_index 0) s.
Proof.
  intros Ht. unfold device_open. cbn [normalize_path option_map]. change (skip_slashes s_tty) with s_tty.
  change (path_eq (Some s_tty) s_null) with false. change (path_eq (Some s_tty) s_zero) with false.
  change (path_eq (Some s_tty) s_full) with false. cbv iota. erewrite bind_ret by reflexivity.
  cbn [negb Z.eqb VFS_EMPTY_HANDLE Pos.eqb]. erewrite bind_ret by reflexivity. unfold tty_path_id. change (path_eq (Some s_tty) s_tty) with true. cbv iota. by rewrite Ht.
Qed.
End Kernel.

(** * A machine that runs calls *)

(** The directory at 4096 maps the first 4 MiB to themselves; a task with the
    table of [demo_table] asks for a socket with a frame at 8192. *)
Definition demo_call (eax ebx ecx edx : Z) : ram :=
  st32 (8192 + R_EAX) eax (st32 (8192 + R_EBX) ebx (st32 (8192 + R_ECX) ecx (st32 (8192 + R_EDX) edx (st32 4096 131 ∅)))).
Definition demo_machine (m : ram) : kern (vfs wire (fat (disk drive))) :=
  mkKern (mkMmu (mkHeap 0 0 0 0 m) 4096 0 4096 0)
    (<[8 := mkTcb 0 TASK_READY 0 0 4096 0 (init_fds 0) 0 0 16]>
      (<[16 := mkTcb 0 TASK_RUNNING 1 0 4096 0 demo_table 0 0 8]> ∅)) 16 8 2 demo_vfs.
Definition demo_waits : waits (N := wire) (D := disk drive) := mkWaits [] [] 0 (mret tt) 0.
Definition no_handler (f : Z) (sip : list Z) (sport : Z) (dip : list Z) (dport : Z) (bs : list Z) (n : net wire) : net wire := n.
Abbreviation demo_dispatch m :=
  (syscall_dispatch 10 0 no_handler (fun _ => 0) demo_waits 8192 (mkSysm (demo_machine m) [])).

(** The new descriptor is 6, for socket 1, and [eax] of the frame holds it. *)
Example demo_socket_call :
  match demo_dispatch (demo_call 300 2 2 0) with
  | Ret x s => (x, reg 8192 R_EAX (sk s), option_map fds (tasks (sk s) !! 16))
  | _ => (0, 0, None)
  end = (8192, 6, Some (<[6%nat := -4097]> demo_table)).
Proof. vm_compute. reflexivity. Qed.

(** Unknown numbers answer -1; closing a standard descriptor answers 0. *)
Example demo_other_calls :
  (match demo_dispatch (demo_call 99 0 0 0) with Ret x s => (x, reg 8192 R_EAX (sk s)) | _ => (0, 0) end,
   match demo_dispatch (demo_call 6 1 0 0) with Ret x s => (x, reg 8192 R_EAX (sk s)) | _ => (0, 1) end,
   match demo_dispatch (demo_call 6 3 0 0) with
   | Ret x s => (reg 8192 R_EAX (sk s), option_map fds (tasks (sk s) !! 16)) | _ => (1, None) end)
  = ((8192, 4294967295), (8192, 0), (0, Some (<[3%nat := -1]> demo_table))).
Proof. vm_compute. reflexivity. Qed.

(** A write of three bytes to [/dev/null] is answered 3 and mirrored to serial. *)
Example demo_write_call :
  match demo_dispatch (write_bytes 12288 [104; 105; 10] (demo_call 63 3 4 0)) with
  | Ret _ s =>
      let k := sk s in
      let k := set_task 16 (mkTcb 0 TASK_RUNNING 1 0 4096 0 (<[5%nat := VFS_DEV_NULL]> demo_table) 0 0 8) k in
      let k := set_mmu (mkMmu (mkHeap 0 0 0 0 (write_bytes 12288 [104; 105; 10] (demo_call 4 5 12288 3))) 4096 0 4096 0) k in
      match syscall_dispatch 10 0 no_handler (fun _ => 0) demo_waits 8192 (mkSysm k []) with
      | Ret _ s => (reg 8192 R_EAX (sk s), serial_out s)
      | _ => (0, [])
      end
  | _ => (0, [])
  end = (3, [104; 105; 10]).
Proof. vm_compute. reflexivity. Qed.

Lemma slot_refs_below {A} (u : A -> bool) (r : A -> Z) (l : list A) i b :
  0 < b -> forallb (fun x => r x <? b) l = true -> slot_refs u r l i < b.
Proof.
  intros Hb Hf. unfold slot_refs. destruct (l !! i) as [x|] eqn:L; [|done]. destruct (u x); [|done].
  rewrite forallb_forall in Hf. apply Z.ltb_lt, Hf, list_elem_of_In. by eapply list_elem_of_lookup_2.
Qed.

Lemma demo_few_refs m : few_refs (demo_machine m).
Proof.
  intros h. unfold refcount. repeat case_match; try lia; apply slot_refs_below; try lia; vm_compute; reflexivity.
Qed.

Lemma zcount_init h y : counted h -> zcount h (init_fds y) = 0.
Proof.
  intros Hc. unfold init_fds. set (y' := if tty_valid y then y else 0).
  destruct (bind_fds_ok (replicate MAX_FDS_PER_PROCESS VFS_EMPTY_HANDLE) y') as (_ & _ & Z1);
    [done|apply Forall_replicate; by left|]. specialize (Z1 h Hc).
  assert (Z2 : forall n, zcount h (replicate n VFS_EMPTY_HANDLE) = 0).
  { induction n as [|n IH]; [done|]. cbn [replicate zcount]. rewrite IH.
    destruct (Z.eqb_spec VFS_EMPTY_HANDLE h) as [<- |]; [by apply not_counted_empty in Hc|done]. }
  rewrite Z2 in Z1. pose proof (zcount_pos h (bind_fds (replicate MAX_FDS_PER_PROCESS VFS_EMPTY_HANDLE) y')). lia.
Qed.

Lemma demo_total m h : counted h -> total h (tasks (demo_machine m)) = zcount h demo_table.
Proof.
  intros Hc. unfold demo_machine. cbn [tasks]. rewrite total_insert_new, total_insert_new by reflexivity.
  cbn [fds]. rewrite zcount_init by done. unfold total. rewrite map_fold_empty. lia.
Qed.

Lemma demo_machine_ok m : kernel_ok 2 0 none (demo_machine m).
Proof.
  pose proof demo_fds_ok as [W (t & Et & L & Fe & Hr)]. injection Et as <-.
  constructor.
  - reflexivity.
  - eexists. reflexivity.
  - eexists. reflexivity.
  - intros p u Hp. unfold demo_machine in *. cbn [tasks] in *. rewrite !lookup_insert_Some, lookup_empty in Hp.
    destruct Hp as [[<- <-]|(_ & [[<- <-]|(_ & Hp)])]; [eexists; reflexivity..|done].
  - intros p u Hp. unfold demo_machine in *. cbn [tasks] in *. rewrite !lookup_insert_Some, lookup_empty in Hp.
    destruct Hp as [[<- <-]|(_ & [[<- <-]|(_ & Hp)])]; [| |done].
    + constructor; [done| |done]. cbn [fds]. unfold init_fds. apply bind_fds_ok; [done|]. apply Forall_replicate. by left.
    + by constructor.
  - done.
  - intros h Hc. rewrite demo_total by done. change (files (demo_machine m)) with demo_vfs. rewrite Hr by done.
    pose proof (demo_few h) as [Hf _]. unfold none. lia.
Qed.

Lemma demo_eax : reg 8192 R_EAX (demo_machine (demo_call 300 2 2 0)) = 300.
Proof. vm_compute. reflexivity. Qed.
Lemma demo_call_ok : call_ok 10 demo_waits 8192 (demo_machine (demo_call 300 2 2 0)).
Proof. constructor; [apply demo_few_refs| | |constructor]; rewrite demo_eax; [intros [E5|E5]; discriminate E5|intros E5; discriminate E5]. Qed.
Lemma demo_sleep k1 u k2 : w_sleep demo_waits k1 = Ret u k2 -> sys_run 10 0 no_handler (fun _ => 0) 2 0 k1 k2.
Proof. intros E1. injection E1 as _ <-. apply run_done. Qed.
(** The call is a step of the system. *)
Lemma demo_call_runs x s : demo_dispatch (demo_call 300 2 2 0) = Ret x s ->
  sys_run 10 0 no_handler (fun _ => 0) 2 0 (demo_machine (demo_call 300 2 2 0)) (sk s).
Proof.
  intros E. eapply run_step; [|apply run_done]. eapply call_step; [exact demo_call_ok|exact demo_sleep|exact E|].
  rewrite demo_eax. intros E2. discriminate E2.
Qed.


Lemma sys_socket_all_or_nothing_witness : exists a s', socket_fd 2 2 0 demo_vfs = Ret a s' /\ a = 6 /\ v_fds s' = Some (<[6%nat := -4097]> demo_table).
Proof.
  destruct (sys_socket_all_or_nothing 2 0 demo_others 2 2 0 demo_vfs demo_fds_ok) as (a & s' & E & _).
  exists a, s'. split; [exact E|].
  assert (B : match socket_fd 2 2 0 demo_vfs with
    | Ret a s' => (a =? 6) && bool_decide (v_fds s' = Some (<[6%nat := -4097]> demo_table)) | _ => false end = true) by (vm_compute; reflexivity).
  rewrite E in B. apply andb_true_iff in B as [B1%Z.eqb_eq B2%bool_decide_eq_true]. by split.
Defined.
