(* ===== verification/Ports.v ===== *)
(** Port I/O, stage2/io.c (its functions are single machine instructions): what
    the drivers see of the devices behind the ports. The devices are the class
    [Ports]; each driver's file states what it relies on of its own device. *)
From S2P Require Import Prelude.

Class Ports (P : Type) := {
  port_outb : Z -> Z -> P -> P;
  port_inb : Z -> P -> Z * P;
  port_outl : Z -> Z -> P -> P;
  port_inl : Z -> P -> Z * P
}.

Section Io.
Context {P : Type} `{Ports P}.

(** Port numbers have 16 bits. *)
Definition outb (port value : Z) : M P unit := modify (port_outb (u16 port) (u8 value)).
Definition inb (port : Z) : M P Z := fun p => let '(v, p') := port_inb (u16 port) p in Ret (u8 v) p'.
Definition outl (port value : Z) : M P unit := modify (port_outl (u16 port) (u32 value)).
Definition inl (port : Z) : M P Z := fun p => let '(v, p') := port_inl (u16 port) p in Ret (u32 v) p'.
End Io.
