(* ===== verification/Rtc.v ===== *)
(** Real-time clock: stage2/dev/rtc.c. The clock's registers are behind an address
    and a data port; [Cmos] states that, for registers that do not change while they
    are read (the driver does not guard against an update in between). *)
From S2P Require Import Prelude Utils Mem HeapSpec Ports.

Definition RTC_ADDRESS_PORT : Z := 112.
Definition RTC_DATA_PORT : Z := 113.
Definition RTC_TIME_STR_SIZE : Z := 32.

Record rtc_time_t := mkTime { second : Z; minute : Z; hour : Z; day : Z; month : Z; year : Z }.

(** [itoa_time(value, buf, digits)]: digits from the right, then a terminator. *)
Fixpoint itoa_loop (n : nat) (value buf : Z) (m : ram) : ram :=
  match n with
  | O => m
  | S n' => itoa_loop n' (value / 10) buf (st8 (u32 (buf + Z.of_nat n')) (48 + value mod 10) m)
  end.
Definition itoa_time (value buf : Z) (digits : nat) (m : ram) : ram :=
  st8 (u32 (buf + Z.of_nat digits)) 0 (itoa_loop digits value buf m).

Record rtc (P : Type) := mkRtc { r_io : P; r_heap : heap; time_str : Z }.
Arguments mkRtc {P}. Arguments r_io {P}. Arguments r_heap {P}. Arguments time_str {P}.

Section Rtc.
Context {P : Type} `{Ports P} `{KernelHeap}.
Abbreviation RM := (M (rtc P)).

Definition get_rtc_register (reg : Z) : M P Z := outb RTC_ADDRESS_PORT reg ;; inb RTC_DATA_PORT.

Definition rtc_time : M P rtc_time_t :=
  second ← get_rtc_register 0;
  minute ← get_rtc_register 2;
  hour ← get_rtc_register 4;
  day ← get_rtc_register 7;
  month ← get_rtc_register 8;
  year ← get_rtc_register 9;
  mret (mkTime (bcd_to_bin second) (bcd_to_bin minute) (bcd_to_bin hour) (bcd_to_bin day) (bcd_to_bin month) (2000 + bcd_to_bin year)).

Definition write_time (t : rtc_time_t) (p : Z) (m : ram) : ram :=
  itoa_time (second t) (u32 (p + 17)) 2 (st8 (u32 (p + 16)) 58
    (itoa_time (minute t) (u32 (p + 14)) 2 (st8 (u32 (p + 13)) 58
      (itoa_time (hour t) (u32 (p + 11)) 2 (st8 (u32 (p + 10)) 32
        (itoa_time (day t) (u32 (p + 8)) 2 (st8 (u32 (p + 7)) 45
          (itoa_time (month t) (u32 (p + 5)) 2 (st8 (u32 (p + 4)) 45
            (itoa_time (year t) p 4 m)))))))))).

Definition fetch_rtc : RM Z :=
  p ← gets time_str;
  (if p =? 0 then
     q ← zoom r_heap (fun h s => mkRtc (r_io s) h (time_str s)) (malloc RTC_TIME_STR_SIZE);
     modify (fun s => mkRtc (r_io s) (r_heap s) q)
   else mret tt) ;;
  t ← zoom r_io (fun w s => mkRtc w (r_heap s) (time_str s)) rtc_time;
  modify (fun s => mkRtc (r_io s) (set_ram (write_time t (time_str s) (hram (r_heap s))) (r_heap s)) (time_str s)) ;;
  gets time_str.
End Rtc.

(** * Properties *)

(** The clock's memory; reading does not change it. *)
Class Cmos (P : Type) `{Ports P} := {
  cmos : P -> Z -> Z;
  cmos_select : forall r p x, cmos (port_outb RTC_ADDRESS_PORT r p) x = cmos p x;
  cmos_read : forall r p, in_u8 r -> (port_inb RTC_DATA_PORT (port_outb RTC_ADDRESS_PORT r p)).1 = cmos p r;
  cmos_read_keeps : forall p x, cmos (port_inb RTC_DATA_PORT p).2 x = cmos p x
}.

(** A two-digit number as the clock stores it. *)
Definition bcd (v : Z) : Z := v / 10 * 16 + v mod 10.
Lemma bcd_to_bin_bcd v : 0 <= v < 100 -> bcd_to_bin (bcd v) = v.
Proof. intros Hv. unfold bcd. rewrite bcd_to_bin_spec by zlia. zlia. Qed.

Definition digit (v : Z) (k : Z) : Z := 48 + v / 10 ^ k mod 10.
Definition two (v : Z) : list Z := [digit v 1; digit v 0].
Definition four (v : Z) : list Z := [digit v 3; digit v 2; digit v 1; digit v 0].
(** "2024-02-29 23:59:58" and a terminator. *)
Definition time_text (y mo d h mi s : Z) : list Z :=
  four y ++ [45] ++ two mo ++ [45] ++ two d ++ [32] ++ two h ++ [58] ++ two mi ++ [58] ++ two s ++ [0].

Lemma itoa_two v p m x : 0 <= p -> p + 2 < 4294967296 -> ld8 (itoa_time v p 2 m) x =
  if x =? p + 2 then 0 else if x =? p then digit v 1 else if x =? p + 1 then digit v 0 else ld8 m x.
Proof.
  intros Hp Ht. unfold itoa_time. cbn [itoa_loop]. change (Z.of_nat 1) with 1. change (Z.of_nat 0) with 0. change (Z.of_nat 2) with 2.
  usimp. rewrite !ld8_st8. unfold digit. change (10 ^ 1) with 10. change (10 ^ 0) with 1. rewrite Z.div_1_r, Z.add_0_r.
  rewrite !u8_small by (try lia; zlia). done.
Qed.
Lemma itoa_four v p m x : 0 <= p -> p + 4 < 4294967296 -> ld8 (itoa_time v p 4 m) x =
  if x =? p + 4 then 0 else if x =? p then digit v 3 else if x =? p + 1 then digit v 2 else if x =? p + 2 then digit v 1
  else if x =? p + 3 then digit v 0 else ld8 m x.
Proof.
  intros Hp Ht. unfold itoa_time. cbn [itoa_loop]. change (Z.of_nat 1) with 1. change (Z.of_nat 0) with 0. change (Z.of_nat 2) with 2.
  change (Z.of_nat 3) with 3. change (Z.of_nat 4) with 4. usimp. rewrite !ld8_st8. unfold digit. change (10 ^ 3) with (10 * 10 * 10). change (10 ^ 2) with (10 * 10).
  change (10 ^ 1) with 10. change (10 ^ 0) with 1. rewrite Z.div_1_r, Z.add_0_r, <- !Z.div_div by lia.
  rewrite !u8_small by (try lia; zlia). done.
Qed.

(** Looking up one address in a chain of writes. *)
Ltac look := repeat first [rewrite itoa_two by lia | rewrite itoa_four by lia | rewrite ld8_st8];
  repeat match goal with |- context [if ?a =? ?b then _ else _] => first [rewrite (proj2 (Z.eqb_neq a b)) by lia | rewrite (proj2 (Z.eqb_eq a b)) by lia] end.

Lemma write_time_text t p m : 0 < p -> p + 20 <= 4294967296 ->
  read_bytes_at 20 p (write_time t p m) = time_text (year t) (month t) (day t) (hour t) (minute t) (second t).
Proof.
  intros Hp Ht. unfold write_time. usimp. cbn [read_bytes_at time_text four two app].
  repeat (f_equal; [look; reflexivity|]). f_equal. look. reflexivity.
Qed.
Lemma write_time_other t p m x : 0 < p -> p + 20 <= 4294967296 -> ~ (p <= x < p + 20) -> ld8 (write_time t p m) x = ld8 m x.
Proof. intros Hp Ht Hx. unfold write_time. usimp. look. reflexivity. Qed.
Lemma write_time_ram t p m : ram_ok m -> ram_ok (write_time t p m).
Proof. intros. unfold write_time, itoa_time. cbn [itoa_loop]. repeat apply ram_ok_st8. done. Qed.

Section Clock.
Context {P : Type} `{Cmos P} `{KernelHeap}.

Lemma register_reads r p : in_u8 r -> in_u8 (cmos p r) ->
  runs (get_rtc_register r) p (fun v p' => v = cmos p r /\ forall x, cmos p' x = cmos p x).
Proof.
  intros Hr Hc. unfold get_rtc_register. apply runs_bind, runs_modify. change (u16 RTC_ADDRESS_PORT) with RTC_ADDRESS_PORT. rewrite (u8_small r) by done.
  unfold inb. change (u16 RTC_DATA_PORT) with RTC_DATA_PORT. pose proof (cmos_read r p Hr) as E1. pose proof (cmos_read_keeps (port_outb RTC_ADDRESS_PORT r p)) as E2.
  destruct (port_inb RTC_DATA_PORT _) as [v p'] eqn:Ep. exists (u8 v), p'. split; [by rewrite Ep|]. simpl in *. rewrite E1, u8_small by done.
  split; [done|]. intros x. by rewrite E2, cmos_select.
Qed.

(** The registers show the time. *)
Definition shows (p : P) (y mo d h mi s : Z) : Prop :=
  cmos p 0 = bcd s /\ cmos p 2 = bcd mi /\ cmos p 4 = bcd h /\ cmos p 7 = bcd d /\ cmos p 8 = bcd mo /\ cmos p 9 = bcd (y - 2000)
  /\ 0 <= s < 100 /\ 0 <= mi < 100 /\ 0 <= h < 100 /\ 0 <= d < 100 /\ 0 <= mo < 100 /\ 2000 <= y < 2100.

Lemma bcd_range v : 0 <= v < 100 -> in_u8 (bcd v).
Proof. intros. unfold bcd. zlia. Qed.

Lemma time_reads p y mo d h mi s : shows p y mo d h mi s ->
  runs rtc_time p (fun t p' => t = mkTime s mi h d mo y /\ forall x, cmos p' x = cmos p x).
Proof.
  intros (E0 & E2 & E4 & E7 & E8 & E9 & Hs & Hm & Hh & Hd & Hmo & Hy). unfold rtc_time.
  assert (forall r v (q : P), cmos p r = bcd v -> 0 <= v < 100 -> in_u8 r -> (forall x, cmos q x = cmos p x) ->
    runs (get_rtc_register r) q (fun a q' => a = bcd v /\ forall x, cmos q' x = cmos p x)) as Rd.
  { intros r v q Er Hv Hr Hq. eapply runs_mono; [apply register_reads; [done|rewrite Hq, Er; by apply bcd_range]|].
    intros a q' [-> K]. split; [by rewrite Hq|]. intros x. by rewrite K, Hq. }
  apply runs_bind. eapply runs_mono; [by apply (Rd 0 s)|]. intros ? q0 [-> K0].
  apply runs_bind. eapply runs_mono; [by apply (Rd 2 mi)|]. intros ? q1 [-> K1].
  apply runs_bind. eapply runs_mono; [by apply (Rd 4 h)|]. intros ? q2 [-> K2].
  apply runs_bind. eapply runs_mono; [by apply (Rd 7 d)|]. intros ? q3 [-> K3].
  apply runs_bind. eapply runs_mono; [by apply (Rd 8 mo)|]. intros ? q4 [-> K4].
  apply runs_bind. eapply runs_mono; [apply (Rd 9 (y - 2000)); done || lia|]. intros ? q5 [-> K5].
  apply runs_ret. rewrite !bcd_to_bin_bcd by lia. replace (2000 + (y - 2000)) with y by lia. done.
Qed.

(** The clock as a line of text: when the registers hold a date and time in BCD,
    [fetch_rtc] gives a buffer of the heap that holds it as "YYYY-MM-DD hh:mm:ss",
    terminated (or halts when the heap is exhausted); it allocates only when there is
    no buffer yet, and no other block is touched. *)
Theorem fetch_rtc_text (st : rtc P) al y mo d h mi s :
  heap_inv (r_heap st) al -> shows (r_io st) y mo d h mi s ->
  (time_str st = 0 \/ owns al (time_str st) (time_str st + RTC_TIME_STR_SIZE)) ->
  ends (fetch_rtc st) (fun p st' => exists al', p = time_str st' /\ heap_inv (r_heap st') al' /\ owns al' p (p + RTC_TIME_STR_SIZE)
    /\ (time_str st <> 0 -> p = time_str st /\ al' = al) /\ (time_str st = 0 -> exists b, al' = b :: al /\ kept al (hram (r_heap st)) (hram (r_heap st')))
    /\ read_bytes_at 20 p (hram (r_heap st')) = time_text y mo d h mi s).
Proof.
  intros Hi Hsh Hstr. unfold fetch_rtc. apply ends_bind. cbn [gets ends]. eapply ends_seq with (P := fun _ st1 => r_io st1 = r_io st /\ exists al',
    heap_inv (r_heap st1) al' /\ owns al' (time_str st1) (time_str st1 + RTC_TIME_STR_SIZE)
    /\ (time_str st <> 0 -> time_str st1 = time_str st /\ al' = al)
    /\ (time_str st = 0 -> exists b, al' = b :: al /\ owns [b] (time_str st1) (time_str st1 + RTC_TIME_STR_SIZE) /\ kept al (hram (r_heap st)) (hram (r_heap st1)))).
  - destruct (Z.eqb_spec (time_str st) 0) as [E0|E0].
    + apply ends_bind. unfold zoom. destruct (malloc_law _ _ RTC_TIME_STR_SIZE Hi ltac:(done)) as [(q & sz & h' & -> & Hs & Hi' & K & _) | ->]; [|done].
      cbn [ends modify]. split; [done|]. exists ((q - 12, sz) :: al). cbn [r_heap time_str].
      assert (owns [(q - 12, sz)] q (q + RTC_TIME_STR_SIZE)) as O.
      { exists (q - 12, sz). unfold bend, sizeof_block_header_t. simpl. split; [set_solver|lia]. }
      split; [done|]. split; [exact (owns_app_l [_] al _ _ O)|]. split; [done|]. intros _. exists (q - 12, sz). done.
    + cbn [mret M_ret ends]. split; [done|]. exists al. destruct Hstr as [?|Ho]; [done|]. split; [done|]. split; [done|]. done.
  - intros [] st1 (Eio & al' & Hi1 & Ho & Hold & Hnew). destruct (time_reads (r_io st1) y mo d h mi s ltac:(by rewrite Eio)) as (t & p' & Et & -> & _).
    apply ends_bind. unfold zoom. rewrite Et. cbn [ends]. apply ends_bind. cbn [modify ends gets r_io r_heap time_str].
    set (p := time_str st1) in *. destruct (owns_bounds _ _ _ _ Hi1 Ho) as [B1 B2]. pose proof (inv_end _ _ Hi1) as B3. unfold RTC_TIME_STR_SIZE in *.
    exists al'. split; [done|]. split; [|split; [done|split; [done|split]]].
    + apply (write_law _ _ p (p + 32)); [done|done|apply write_time_ram, (inv_ram _ _ Hi1)|]. intros x Hx. symmetry. apply write_time_other; lia.
    + intros E0. destruct (Hnew E0) as (b & -> & Ob & K). exists b. split; [done|]. eapply kept_trans; [exact K|]. apply Forall_forall. intros c Hc x Hx. symmetry.
      apply write_time_other; [lia|lia|]. destruct Ob as (b' & Hb' & O1 & O2). apply list_elem_of_singleton in Hb' as ->.
      pose proof (inv_disj _ _ Hi1) as D. inversion D as [|? ? D1 _]; subst. rewrite Forall_forall in D1. specialize (D1 c Hc). unfold disj, bend, sizeof_block_header_t in *. lia.
    + apply write_time_text; lia.
Qed.
End Clock.

(** A clock that stands still. *)
Record clock := mkClock { selected : Z; registers : gmap Z Z }.
#[export] Instance clock_ports : Ports clock := {|
  port_outb port v c := if port =? RTC_ADDRESS_PORT then mkClock v (registers c) else c;
  port_inb port c := (default 0 (registers c !! selected c), c);
  port_outl _ _ c := c;
  port_inl _ c := (0, c)
|}.
#[export] Program Instance clock_cmos : Cmos clock := {| cmos c r := default 0 (registers c !! r) |}.
Solve All Obligations with done.

(** 29 February 2024, 23:59:58. *)
Definition demo_clock : clock := mkClock 0 (<[0 := 88]> (<[2 := 89]> (<[4 := 35]> (<[7 := 41]> (<[8 := 2]> (<[9 := 36]> ∅)))))).
Definition demo_rtc : rtc clock := mkRtc demo_clock (mkHeap 4096 65536 4096 0 ∅) 0.

Lemma fetch_rtc_text_witness : ends (fetch_rtc demo_rtc) (fun p st' => exists al', p = time_str st' /\ heap_inv (r_heap st') al' /\ owns al' p (p + RTC_TIME_STR_SIZE)
    /\ (time_str demo_rtc <> 0 -> p = time_str demo_rtc /\ al' = []) /\ (time_str demo_rtc = 0 -> exists b, al' = b :: [] /\ kept [] (hram (r_heap demo_rtc)) (hram (r_heap st')))
    /\ read_bytes_at 20 p (hram (r_heap st')) = time_text 2024 2 29 23 59 58).
Proof.
  apply (fetch_rtc_text demo_rtc [] 2024 2 29 23 59 58).
  - split; [done|]. exists []. split; [|constructor]. apply fresh_heap_ok; [done|lia|lia].
  - unfold shows. vm_compute. repeat split; discriminate.
  - by left.
Defined.

Example demo_fetch : match fetch_rtc demo_rtc with Ret p st => (p, read_bytes_at 20 p (hram (r_heap st))) | _ => (0, []) end
  = (4108, [50; 48; 50; 52; 45; 48; 50; 45; 50; 57; 32; 50; 51; 58; 53; 57; 58; 53; 56; 0]).
Proof. vm_compute. reflexivity. Qed.
