(* ===== verification/Cpu.v ===== *)
(** Interrupts and segments: stage2/cpu/pic/pic.c, pit/pit.c, gdt.c,
    interrupts/idt.c (the table), interrupts/isr.c (installation),
    interrupts/irq.c, and the interrupt part of stage2/loader.c.

    The two 8259 controllers and the 8254 timer are behind the ports; the classes
    [Pic8259] and [Pit8254] state what their data sheets say of the commands the
    kernel issues. The stub tables and the system-call entry are assembly: their
    addresses are parameters. *)
From S2P Require Import Prelude Mem HeapSpec Paging Sched Ports.

(** * Interrupt controllers *)

Definition PIC1 : Z := 32.
Definition PIC1_OFFSET : Z := 32.
Definition PIC1_DATA : Z := 33.
Definition PIC2 : Z := 160.
Definition PIC2_OFFSET : Z := 40.
Definition PIC2_DATA : Z := 161.
Definition PIC_EOI : Z := 32.
Definition PIC_MODE_8086 : Z := 1.
Definition ICW1_ICW4 : Z := 1.
Definition ICW1_INIT : Z := 16.

Section Pic.
Context {P : Type} `{Ports P}.

Definition pic_port (i : Z) : Z := if i <? 8 then PIC1_DATA else PIC2_DATA.
Definition pic_bit (i : Z) : Z := u8 (Z.shiftl 1 (if i <? 8 then i else i - 8)).

Definition pic_clear_mask (i : Z) : M P unit :=
  v ← inb (pic_port i);
  outb (pic_port i) (Z.land v (Z.lnot (pic_bit i))) ;;
  if 8 <=? i then
    v ← inb PIC1_DATA;
    outb PIC1_DATA (Z.land v (Z.lnot (Z.shiftl 1 2)))
  else mret tt.

Definition pic_set_mask (i : Z) : M P unit :=
  v ← inb (pic_port i);
  outb (pic_port i) (Z.lor v (pic_bit i)).

Definition pic_check_mask (i : Z) : M P bool :=
  mask ← inb (pic_port i);
  mret (negb (Z.land mask (pic_bit i) =? 0)).

Definition pic_remap : M P unit :=
  mask1 ← inb PIC1_DATA;
  mask2 ← inb PIC2_DATA;
  outb PIC1 (Z.lor ICW1_INIT ICW1_ICW4) ;;
  outb PIC2 (Z.lor ICW1_INIT ICW1_ICW4) ;;
  outb PIC1_DATA PIC1_OFFSET ;;
  outb PIC2_DATA PIC2_OFFSET ;;
  outb PIC1_DATA 4 ;;
  outb PIC2_DATA 2 ;;
  outb PIC1_DATA PIC_MODE_8086 ;;
  outb PIC2_DATA PIC_MODE_8086 ;;
  outb PIC1_DATA mask1 ;;
  outb PIC2_DATA mask2.

Definition pic_send_eoi (i : Z) : M P unit :=
  (if 8 <=? i then outb PIC2 PIC_EOI else mret tt) ;;
  outb PIC1 PIC_EOI.
End Pic.

(** * Timer *)

Definition PIT_CHANNEL0 : Z := 64.
Definition PIT_COMMAND : Z := 67.

Definition pit_init {P} `{Ports P} : M P unit :=
  let divisor := 1193 in
  outb PIT_COMMAND 54 ;;
  outb PIT_CHANNEL0 (Z.land divisor 255) ;;
  outb PIT_CHANNEL0 (Z.land (Z.shiftr divisor 8) 255).

(** * Interrupt table *)

Record idt_entry_t := mkGate { base_low : Z; sel : Z; always0 : Z; flags : Z; base_high : Z }.
Definition zero_gate : idt_entry_t := mkGate 0 0 0 0 0.
Definition IDT_ENTRIES : nat := 256.
Definition IRQs : nat := 16.
Definition EXCEPTION_ISRS : nat := 32.

(** [H] is the type of the handlers. The table register holds limit and base. *)
Record cpu (P H : Type) := mkCpu {
  io : P; idt : list idt_entry_t; irq_handlers : list (option H); idtr : Z * Z
}.
Arguments mkCpu {P H}. Arguments io {P H}. Arguments idt {P H}. Arguments irq_handlers {P H}. Arguments idtr {P H}.

Section Idt.
Context {P H : Type} `{Ports P}.
(** Addresses of the assembly stubs and of the table itself. *)
Context (isr_stub_table irq_stub_table : nat -> Z) (syscall_handler idt_address : Z).
Abbreviation CM := (M (cpu P H)).

Definition on_io {A} (c : M P A) : CM A :=
  zoom io (fun p s => mkCpu p (idt s) (irq_handlers s) (idtr s)) c.

Definition idt_set_gate (num base sel flags : Z) : CM unit := modify (fun s =>
  let e := mkGate (Z.land base 65535) sel 0 flags (Z.land (Z.shiftr base 16) 65535) in
  mkCpu (io s) (<[Z.to_nat (u8 num) := e]> (idt s)) (irq_handlers s) (idtr s)).

Definition idt_load (limit base : Z) : CM unit := modify (fun s =>
  mkCpu (io s) (idt s) (irq_handlers s) (limit, base)).

Definition idt_init : CM unit :=
  for_loop IDT_ENTRIES 0 (fun i => idt_set_gate i 0 0 0) ;;
  idt_set_gate 128 syscall_handler 8 239 ;;
  idt_load (8 * Z.of_nat IDT_ENTRIES - 1) idt_address.

Definition install_exception_isrs : CM unit :=
  for_loop EXCEPTION_ISRS 0 (fun i => idt_set_gate i (isr_stub_table (Z.to_nat i)) 8 142).

(** [n] is below [IRQs]; the source does not check it. *)
Definition install_irq (n : nat) (handler : option H) : CM unit :=
  modify (fun s => mkCpu (io s) (idt s) (<[n := handler]> (irq_handlers s)) (idtr s)) ;;
  idt_set_gate (Z.of_nat n + Z.of_nat EXCEPTION_ISRS) (irq_stub_table n) 8 142.

Definition install_keyboard (keyboard_handler : H) : CM unit :=
  install_irq 1 (Some keyboard_handler) ;;
  on_io (pic_clear_mask 1).

(** The interrupt part of [loader_start]; [nic] is the line and handler of the
    network card that [pci_enumerate] finds, with what [e1k_irq_init] does. *)
Definition boot_interrupts (keyboard_handler : H) (nic : option (nat * H)) : CM unit :=
  on_io (for_loop IRQs 0 pic_set_mask) ;;
  on_io pic_remap ;;
  idt_init ;;
  install_exception_isrs ;;
  on_io pit_init ;;
  install_keyboard keyboard_handler ;;
  match nic with
  | Some (n, h) => install_irq n (Some h) ;; on_io (pic_clear_mask (Z.of_nat n))
  | None => mret tt
  end ;;
  on_io (pic_clear_mask 0) ;;
  install_irq 0 None.
End Idt.

(** * Hardware interrupts *)

Section Irq.
Context {P H B : Type} `{Ports P} `{FdBackend B} `{KernelHeap}.
Record machine := mkMachine { m_cpu : cpu P H; m_kern : kern B }.
(** A handler called with the address of the saved frame. *)
Context (call_irq : H -> Z -> M machine unit) (fuel : nat).

Definition frame_int_no (r : Z) (m : machine) : Z :=
  vld32 (hram (mheap (kmmu (m_kern m)))) (paging_get_directory (kmmu (m_kern m))) (r + 28).

Definition irq_dispatcher (r : Z) : M machine Z :=
  int_no ← gets (frame_int_no r);
  let irq := u32 (int_no - Z.of_nat EXCEPTION_ISRS) in
  handler ← gets (fun m => if irq <? Z.of_nat IRQs then mjoin (irq_handlers (m_cpu m) !! Z.to_nat irq) else None);
  match handler with Some h => call_irq h r | None => mret tt end ;;
  zoom m_cpu (fun c m => mkMachine c (m_kern m)) (on_io (pic_send_eoi irq)) ;;
  if irq =? 0 then zoom m_kern (fun k m => mkMachine (m_cpu m) k) (scheduler_tick fuel r) else mret r.
End Irq.
Arguments machine : clear implicits.

(** * Segments *)

Record gdt_entry_t := mkDesc {
  limit_low : Z; gbase_low : Z; base_mid : Z; access : Z; granularity : Z; gbase_high : Z
}.
Definition zero_desc : gdt_entry_t := mkDesc 0 0 0 0 0 0.
Definition GDT_DATA_SEG : Z := 16.
Definition GDT_TSS_SEG : Z := 24.
Definition sizeof_tss_entry_t : Z := 104.

(** Of the task-state segment the fields that are set; all others are zero. *)
Record gdt_state := mkGdt {
  gdt_entries : list gdt_entry_t; gdtr : Z * Z; esp0 : Z; ss0 : Z; iomap_base : Z; task_register : Z
}.

Section Gdt.
(** The addresses of the table and of the task-state segment. *)
Context (gdt_address tss_address : Z).
Abbreviation GM := (M gdt_state).

Definition gdt_entry (base limit access gran : Z) : gdt_entry_t :=
  mkDesc (Z.land limit 65535) (Z.land base 65535) (Z.land (Z.shiftr base 16) 255) access
    (Z.lor gran (Z.land (Z.shiftr limit 16) 15)) (Z.land (Z.shiftr base 24) 255).

Definition gdt_set_entry (num : nat) (base limit access gran : Z) : GM unit := modify (fun s =>
  mkGdt (<[num := gdt_entry base limit access gran]> (gdt_entries s)) (gdtr s) (esp0 s) (ss0 s) (iomap_base s) (task_register s)).

(** [lgdt], the reloaded segment registers and [ltr] are the table register and
    the task register. *)
Definition gdt_init : GM unit :=
  modify (fun s => mkGdt (replicate 4 zero_desc) (gdtr s) 0 0 0 (task_register s)) ;;
  gdt_set_entry 0 0 0 0 0 ;;
  gdt_set_entry 1 0 1048575 154 207 ;;
  gdt_set_entry 2 0 1048575 146 207 ;;
  gdt_set_entry 3 tss_address (sizeof_tss_entry_t - 1) 137 0 ;;
  modify (fun s => mkGdt (gdt_entries s) (8 * 4 - 1, gdt_address) (esp0 s) GDT_DATA_SEG sizeof_tss_entry_t GDT_TSS_SEG).

Definition tss_set_stack (e s0 : Z) : GM unit := modify (fun s =>
  mkGdt (gdt_entries s) (gdtr s) e s0 (iomap_base s) (task_register s)).
End Gdt.
