(* ===== verification/CpuProofs.v ===== *)
(** Interrupts are routed and acknowledged: the controllers after boot, the gates
    of the interrupt table, and the dispatcher; segment descriptors. *)
From S2P Require Import Prelude Mem HeapSpec Paging Sched SchedProofs Ports Cpu.

(** * The controllers, as documented *)

(** One 8259: data writes still expected of an initialisation sequence, vector
    base, cascade and mode words, mask and in-service registers. *)
Record chip := mkChip { icw : nat; vector : Z; cascade : Z; cmode : Z; imr : Z; isr : Z }.

(** A write with bit 4 starts an initialisation sequence; otherwise 0x20 is the
    non-specific end of interrupt, which clears the in-service bit of highest
    priority, the lowest bit set. *)
Definition chip_command (v : Z) (c : chip) : chip :=
  if Z.testbit v 4 then mkChip 3 (vector c) (cascade c) (cmode c) 0 0
  else if v =? 32 then mkChip (icw c) (vector c) (cascade c) (cmode c) (imr c) (Z.land (isr c) (isr c - 1))
  else c.
Definition chip_data (v : Z) (c : chip) : chip :=
  match icw c with
  | 3%nat => mkChip 2 (Z.land v 248) (cascade c) (cmode c) (imr c) (isr c)
  | 2%nat => mkChip 1 (vector c) v (cmode c) (imr c) (isr c)
  | 1%nat => mkChip 0 (vector c) (cascade c) v (imr c) (isr c)
  | _ => mkChip (icw c) (vector c) (cascade c) (cmode c) v (isr c)
  end.

(** What the kernel relies on: the commands act as above on the controller they
    address, the data ports read as the mask, and the timer's ports are apart. *)
Class Pic8259 (P : Type) `{Ports P} := {
  chip1 : P -> chip;
  chip2 : P -> chip;
  pic_cmd1 : forall v p, chip1 (port_outb PIC1 v p) = chip_command v (chip1 p) /\ chip2 (port_outb PIC1 v p) = chip2 p;
  pic_cmd2 : forall v p, chip1 (port_outb PIC2 v p) = chip1 p /\ chip2 (port_outb PIC2 v p) = chip_command v (chip2 p);
  pic_data1 : forall v p, chip1 (port_outb PIC1_DATA v p) = chip_data v (chip1 p) /\ chip2 (port_outb PIC1_DATA v p) = chip2 p;
  pic_data2 : forall v p, chip1 (port_outb PIC2_DATA v p) = chip1 p /\ chip2 (port_outb PIC2_DATA v p) = chip_data v (chip2 p);
  pic_read1 : forall p, (port_inb PIC1_DATA p).1 = imr (chip1 p)
    /\ chip1 (port_inb PIC1_DATA p).2 = chip1 p /\ chip2 (port_inb PIC1_DATA p).2 = chip2 p;
  pic_read2 : forall p, (port_inb PIC2_DATA p).1 = imr (chip2 p)
    /\ chip1 (port_inb PIC2_DATA p).2 = chip1 p /\ chip2 (port_inb PIC2_DATA p).2 = chip2 p;
  pic_not_timer : forall port v p, port = PIT_COMMAND \/ port = PIT_CHANNEL0 ->
    chip1 (port_outb port v p) = chip1 p /\ chip2 (port_outb port v p) = chip2 p
}.

(** The 8254: a command for channel 0 with low and high byte access sets the
    mode, and the two bytes that follow the reload value. *)
Class Pit8254 (P : Type) `{Ports P} := {
  pit_mode : P -> Z;
  pit_reload : P -> Z;
  pit_program : forall c lo hi p, Z.land c 240 = 48 ->
    let p' := port_outb PIT_CHANNEL0 hi (port_outb PIT_CHANNEL0 lo (port_outb PIT_COMMAND c p)) in
    pit_mode p' = Z.land (Z.shiftr c 1) 7 /\ pit_reload p' = lo + 256 * hi
}.

Section Controllers.
Context {P : Type} `{Pic8259 P}.

(** Both controllers, in operation. *)
Definition chips (c1 c2 : chip) (p : P) : Prop := chip1 p = c1 /\ chip2 p = c2.
Definition operating (c : chip) : Prop := icw c = 0%nat /\ 0 <= imr c < 256.
Definition with_imr (c : chip) (m : Z) : chip := mkChip (icw c) (vector c) (cascade c) (cmode c) m (isr c).

Lemma runs_in1 c1 c2 p Q : chips c1 c2 p -> 0 <= imr c1 < 256 -> (forall p', chips c1 c2 p' -> Q (imr c1) p') -> runs (inb PIC1_DATA) p Q.
Proof.
  intros [E1 E2] Hm HQ. destruct (pic_read1 p) as (R1 & R2 & R3). unfold runs, inb. change (u16 PIC1_DATA) with PIC1_DATA.
  destruct (port_inb PIC1_DATA p) as [v p']. cbn in *. exists (u8 v), p'. split; [done|].
  replace (u8 v) with (imr c1) by (unfold u8; rewrite Z.mod_small; congruence || lia). apply HQ. split; congruence.
Qed.
Lemma runs_in2 c1 c2 p Q : chips c1 c2 p -> 0 <= imr c2 < 256 -> (forall p', chips c1 c2 p' -> Q (imr c2) p') -> runs (inb PIC2_DATA) p Q.
Proof.
  intros [E1 E2] Hm HQ. destruct (pic_read2 p) as (R1 & R2 & R3). unfold runs, inb. change (u16 PIC2_DATA) with PIC2_DATA.
  destruct (port_inb PIC2_DATA p) as [v p']. cbn in *. exists (u8 v), p'. split; [done|].
  replace (u8 v) with (imr c2) by (unfold u8; rewrite Z.mod_small; congruence || lia). apply HQ. split; congruence.
Qed.

Lemma runs_out (port v : Z) (f1 f2 : chip -> chip) c1 c2 p Q :
  (forall p, chip1 (port_outb (u16 port) (u8 v) p) = f1 (chip1 p) /\ chip2 (port_outb (u16 port) (u8 v) p) = f2 (chip2 p)) ->
  chips c1 c2 p -> (forall p', chips (f1 c1) (f2 c2) p' -> Q tt p') -> runs (outb port v) p Q.
Proof.
  intros Hl [E1 E2] HQ. exists tt, (port_outb (u16 port) (u8 v) p). split; [done|]. apply HQ. destruct (Hl p). split; congruence.
Qed.
Lemma runs_cmd1 v c1 c2 p Q : chips c1 c2 p -> (forall p', chips (chip_command (u8 v) c1) c2 p' -> Q tt p') -> runs (outb PIC1 v) p Q.
Proof. apply (runs_out PIC1 v (chip_command (u8 v)) id). intros. apply pic_cmd1. Qed.
Lemma runs_cmd2 v c1 c2 p Q : chips c1 c2 p -> (forall p', chips c1 (chip_command (u8 v) c2) p' -> Q tt p') -> runs (outb PIC2 v) p Q.
Proof. apply (runs_out PIC2 v id (chip_command (u8 v))). intros. apply pic_cmd2. Qed.
Lemma runs_data1 v c1 c2 p Q : chips c1 c2 p -> (forall p', chips (chip_data (u8 v) c1) c2 p' -> Q tt p') -> runs (outb PIC1_DATA v) p Q.
Proof. apply (runs_out PIC1_DATA v (chip_data (u8 v)) id). intros. apply pic_data1. Qed.
Lemma runs_data2 v c1 c2 p Q : chips c1 c2 p -> (forall p', chips c1 (chip_data (u8 v) c2) p' -> Q tt p') -> runs (outb PIC2_DATA v) p Q.
Proof. apply (runs_out PIC2_DATA v id (chip_data (u8 v))). intros. apply pic_data2. Qed.

Ltac pic_step :=
  match goal with
  | |- runs (_ ≫= _) _ _ => apply runs_bind
  | Hc : chips _ _ ?p |- runs (inb PIC1_DATA) ?p _ => eapply (runs_in1 _ _ _ _ Hc); [lia|clear Hc p; intros p Hc]
  | Hc : chips _ _ ?p |- runs (inb PIC2_DATA) ?p _ => eapply (runs_in2 _ _ _ _ Hc); [lia|clear Hc p; intros p Hc]
  | Hc : chips _ _ ?p |- runs (outb PIC1 _) ?p _ => eapply (runs_cmd1 _ _ _ _ _ Hc); clear Hc p; intros p Hc
  | Hc : chips _ _ ?p |- runs (outb PIC2 _) ?p _ => eapply (runs_cmd2 _ _ _ _ _ Hc); clear Hc p; intros p Hc
  | Hc : chips _ _ ?p |- runs (outb PIC1_DATA _) ?p _ => eapply (runs_data1 _ _ _ _ _ Hc); clear Hc p; intros p Hc
  | Hc : chips _ _ ?p |- runs (outb PIC2_DATA _) ?p _ => eapply (runs_data2 _ _ _ _ _ Hc); clear Hc p; intros p Hc
  end.

Lemma remap_runs c1 c2 p Q : operating c1 -> operating c2 -> chips c1 c2 p ->
  (forall p', chips (mkChip 0 32 4 1 (imr c1) 0) (mkChip 0 40 2 1 (imr c2) 0) p' -> Q tt p') -> runs pic_remap p Q.
Proof.
  intros [I1 M1] [I2 M2] Hc HQ. unfold pic_remap. repeat pic_step. apply HQ.
  unfold chips in *. destruct Hc as [-> ->]. unfold u8. rewrite (Z.mod_small (imr c1)), (Z.mod_small (imr c2)) by lia.
  split; reflexivity.
Qed.

(** The masks as 16 bits, one for each line. *)
Definition masked (p : P) (i : Z) : bool := if i <? 8 then Z.testbit (imr (chip1 p)) i else Z.testbit (imr (chip2 p)) (i - 8).
(** Both controllers operate, with the in-service and vector settings given. *)
Definition pics (v1 v2 s1 s2 : Z) (p : P) : Prop :=
  operating (chip1 p) /\ operating (chip2 p) /\ vector (chip1 p) = v1 /\ vector (chip2 p) = v2
  /\ isr (chip1 p) = s1 /\ isr (chip2 p) = s2.

Lemma bit_range i : 0 <= i < 16 -> pic_bit i = 2 ^ (if i <? 8 then i else i - 8) /\ 1 <= pic_bit i < 256.
Proof.
  intros Hi. unfold pic_bit, u8. rewrite Z.shiftl_1_l. set (j := if i <? 8 then i else i - 8).
  assert (0 <= j <= 7) by (unfold j; case_z; lia). pose proof (Z.pow_le_mono_r 2 j 7 ltac:(lia) ltac:(lia)).
  pose proof (Z.pow_pos_nonneg 2 j ltac:(lia) ltac:(lia)). rewrite Z.mod_small by lia. lia.
Qed.

Lemma lor_u8 a b : 0 <= a < 256 -> 0 <= b < 256 -> 0 <= Z.lor a b < 256.
Proof.
  intros Ha Hb. split; [apply Z.lor_nonneg; lia|]. destruct (Z.eq_dec (Z.lor a b) 0) as [->|Hz]; [lia|].
  apply (Z.log2_lt_pow2 _ 8); [pose proof (Z.lor_nonneg a b); lia|].
  rewrite Z.log2_lor by lia. apply Z.max_lub_lt; (destruct (Z.eq_dec a 0) as [->|]; destruct (Z.eq_dec b 0) as [->|]; cbn; try lia);
    apply Z.log2_lt_pow2; lia.
Qed.
Lemma land_u8 a b : 0 <= a < 256 -> 0 <= Z.land a b < 256.
Proof.
  intros Ha. split; [apply Z.land_nonneg; lia|]. replace (Z.land a b) with (Z.land (Z.land a b) 255).
  - change 255 with (Z.ones 8). rewrite Z.land_ones by lia. apply Z.mod_pos_bound. lia.
  - rewrite <- Z.land_assoc, (Z.land_comm b), Z.land_assoc. f_equal. change 255 with (Z.ones 8).
    rewrite Z.land_ones by lia. by apply Z.mod_small.
Qed.

(** Writing the mask of the controller of line [i]. *)
Lemma mask_write v1 v2 s1 s2 i g p (Q : unit -> P -> Prop) :
  pics v1 v2 s1 s2 p -> 0 <= i < 16 -> (forall m, 0 <= m < 256 -> 0 <= g m < 256) ->
  (forall p', pics v1 v2 s1 s2 p' ->
     (forall j, 0 <= j < 16 -> masked p' j =
        if Bool.eqb (j <? 8) (i <? 8)
        then Z.testbit (g (if i <? 8 then imr (chip1 p) else imr (chip2 p))) (if j <? 8 then j else j - 8) else masked p j) -> Q tt p') ->
  runs (v ← inb (pic_port i); outb (pic_port i) (g v)) p Q.
Proof.
  intros ([I1 M1] & [I2 M2] & V1 & V2 & S1 & S2) Hi Hg HQ. assert (Hc : chips (chip1 p) (chip2 p) p) by done.
  unfold pic_port. destruct (Z.ltb_spec i 8) as [L|L].
  - apply runs_bind. eapply (runs_in1 _ _ _ _ Hc); [done|]. intros p1 H1. eapply (runs_data1 _ _ _ _ _ H1). intros p2 [E1 E2].
    unfold chip_data in E1. rewrite I1 in E1. unfold u8 in E1. rewrite Z.mod_small in E1 by auto. apply HQ.
    + unfold pics, operating. rewrite E1, E2. cbn. auto 10.
    + intros j Hj. unfold masked. rewrite E1, E2. cbn [imr]. by destruct (j <? 8).
  - apply runs_bind. eapply (runs_in2 _ _ _ _ Hc); [done|]. intros p1 H1. eapply (runs_data2 _ _ _ _ _ H1). intros p2 [E1 E2].
    unfold chip_data in E2. rewrite I2 in E2. unfold u8 in E2. rewrite Z.mod_small in E2 by auto. apply HQ.
    + unfold pics, operating. rewrite E1, E2. cbn. auto 10.
    + intros j Hj. unfold masked. rewrite E1, E2. cbn [imr]. by destruct (j <? 8).
Qed.

Lemma set_mask_runs v1 v2 s1 s2 i p (Q : unit -> P -> Prop) :
  pics v1 v2 s1 s2 p -> 0 <= i < 16 ->
  (forall p', pics v1 v2 s1 s2 p' -> (forall j, 0 <= j < 16 -> masked p' j = masked p j || (j =? i)) -> Q tt p') ->
  runs (pic_set_mask i) p Q.
Proof.
  intros Hp Hi HQ. destruct (bit_range i Hi) as [Eb Rb].
  apply (mask_write v1 v2 s1 s2 i (fun v => Z.lor v (pic_bit i)) p Q Hp Hi); [intros; apply lor_u8; lia|].
  intros p' Hp' Hm. apply HQ; [done|]. intros j Hj. rewrite Hm by done. rewrite Z.lor_spec, Eb. unfold masked.
  destruct (Z.ltb_spec j 8), (Z.ltb_spec i 8); cbn [Bool.eqb]; rewrite ?Z.pow2_bits_eqb by lia;
    repeat case_z; rewrite ?orb_false_r, ?orb_true_r; first [done|lia].
Qed.

Lemma clear_mask_runs v1 v2 s1 s2 i p (Q : unit -> P -> Prop) :
  pics v1 v2 s1 s2 p -> 0 <= i < 16 ->
  (forall p', pics v1 v2 s1 s2 p' ->
     (forall j, 0 <= j < 16 -> masked p' j = masked p j && negb (j =? i) && negb ((8 <=? i) && (j =? 2))) -> Q tt p') ->
  runs (pic_clear_mask i) p Q.
Proof.
  intros Hp Hi HQ. destruct (bit_range i Hi) as [Eb Rb]. unfold pic_clear_mask.
  assert (R : runs (v ← inb (pic_port i); outb (pic_port i) (Z.land v (Z.lnot (pic_bit i)))) p
    (fun _ p' => pics v1 v2 s1 s2 p' /\ forall j, 0 <= j < 16 -> masked p' j = masked p j && negb (j =? i))).
  { apply (mask_write v1 v2 s1 s2 i (fun v => Z.land v (Z.lnot (pic_bit i))) p _ Hp Hi); [intros; by apply land_u8|].
    intros p' Hp' Hm. split; [done|]. intros j Hj. rewrite Hm by done. rewrite Z.land_spec, Z.lnot_spec, Eb by (case_z; lia).
    unfold masked. destruct (Z.ltb_spec j 8), (Z.ltb_spec i 8); cbn [Bool.eqb]; rewrite ?Z.pow2_bits_eqb by lia;
      repeat case_z; cbn [negb]; rewrite ?andb_true_r, ?andb_false_r; first [done|lia]. }
  destruct R as ([] & p1 & E1 & Hp1 & Hm1). apply bind_inv in E1 as (v & p0 & E0 & E1).
  apply runs_bind. exists v, p0. split; [done|]. apply runs_bind. exists tt, p1. split; [done|].
  destruct (Z.leb_spec 8 i).
  - apply (mask_write v1 v2 s1 s2 0 (fun v => Z.land v (Z.lnot (Z.shiftl 1 2))) p1 Q Hp1 ltac:(lia)); [intros; by apply land_u8|].
    intros p2 Hp2 Hm2. apply HQ; [done|]. intros j Hj. rewrite Hm2, <- Hm1 by done. cbn [Z.ltb Z.compare].
    destruct (Z.ltb_spec j 8); cbn [Bool.eqb andb].
    + rewrite Z.land_spec, Z.lnot_spec by lia. change (Z.shiftl 1 2) with (2 ^ 2). rewrite Z.pow2_bits_eqb by lia.
      unfold masked. rewrite (proj2 (Z.ltb_lt j 8)) by lia. by rewrite (Z.eqb_sym 2 j).
    + rewrite (proj2 (Z.eqb_neq j 2)) by lia. by rewrite andb_true_r.
  - apply runs_ret, HQ; [done|]. intros j Hj. rewrite Hm1 by done. cbn [andb negb]. by rewrite andb_true_r.
Qed.

(** The first loop of the loader masks every line. *)
Lemma set_masks_run n : forall v1 v2 s1 s2 i p (Q : unit -> P -> Prop),
  pics v1 v2 s1 s2 p -> 0 <= i -> i + Z.of_nat n <= 16 ->
  (forall p', pics v1 v2 s1 s2 p' ->
     (forall j, 0 <= j < 16 -> masked p' j = masked p j || ((i <=? j) && (j <? i + Z.of_nat n))) -> Q tt p') ->
  runs (for_loop n i pic_set_mask) p Q.
Proof.
  induction n as [|n IH]; intros v1 v2 s1 s2 i p Q Hp Hi0 Hi1 HQ; cbn [for_loop].
  - apply runs_ret, HQ; [done|]. intros j Hj. repeat case_z; cbn; rewrite ?orb_false_r; first [done|lia].
  - apply runs_bind. apply (set_mask_runs v1 v2 s1 s2 i p _ Hp ltac:(lia)). intros p1 Hp1 Hm1.
    apply (IH v1 v2 s1 s2 (i + 1) p1 Q Hp1 ltac:(lia) ltac:(lia)). intros p2 Hp2 Hm2. apply HQ; [done|].
    intros j Hj. rewrite Hm2, Hm1 by done. rewrite <- orb_assoc. f_equal. repeat case_z; cbn; first [done|lia].
Qed.
End Controllers.

Section Timer.
Context {P : Type} `{Pic8259 P}.

(** Programming the timer leaves the controllers alone. *)
Lemma pit_runs v1 v2 s1 s2 p : pics v1 v2 s1 s2 p ->
  runs pit_init p (fun _ p' => pics v1 v2 s1 s2 p' /\ forall j, masked p' j = masked p j).
Proof.
  intros Hp. unfold pit_init. do 2 (apply runs_bind; eexists _, _; split; [reflexivity|]). eexists _, _. split; [reflexivity|].
  change (u16 PIT_CHANNEL0) with PIT_CHANNEL0. change (u16 PIT_COMMAND) with PIT_COMMAND.
  assert (T : forall port v q, port = PIT_COMMAND \/ port = PIT_CHANNEL0 ->
    chip1 (port_outb port v q) = chip1 q /\ chip2 (port_outb port v q) = chip2 q) by (intros; by apply pic_not_timer).
  unfold pics, masked in *. 
  rewrite !(proj1 (T PIT_CHANNEL0 _ _ (or_intror eq_refl))), !(proj2 (T PIT_CHANNEL0 _ _ (or_intror eq_refl))),
    (proj1 (T PIT_COMMAND _ _ (or_introl eq_refl))), (proj2 (T PIT_COMMAND _ _ (or_introl eq_refl))). done.
Qed.
End Timer.

(** * The interrupt table after boot *)

Definition gate (base fl : Z) : idt_entry_t := mkGate (Z.land base 65535) 8 0 fl (Z.land (Z.shiftr base 16) 65535).
(** Where the processor goes through a gate. *)
Definition gate_target (e : idt_entry_t) : Z := base_low e + 65536 * base_high e.

Lemma gate_target_eq base fl : 0 <= base < 4294967296 -> gate_target (gate base fl) = base.
Proof.
  intros Hb. unfold gate_target, gate. cbn [base_low base_high]. change 65535 with (Z.ones 16).
  rewrite !Z.land_ones, Z.shiftr_div_pow2 by lia. rewrite (Z.mod_small (base / 2 ^ 16)).
  - pose proof (Z.div_mod base (2 ^ 16) ltac:(lia)). lia.
  - split; [apply Z.div_pos; lia|apply Z.div_lt_upper_bound; lia].
Qed.

Section Boot.
Context {P H : Type} `{Pic8259 P}.
Context (isr_stub_table irq_stub_table : nat -> Z) (syscall_handler idt_address : Z).
Abbreviation C := (cpu P H).

Lemma on_io_runs {A} (c : M P A) (s : C) Q : runs c (io s) Q ->
  exists a p, on_io c s = Ret a (mkCpu p (idt s) (irq_handlers s) (idtr s)) /\ Q a p.
Proof. intros (a & p & E & HQ). exists a, p. split; [|done]. unfold on_io, zoom. by rewrite E. Qed.

(** A loop that sets the gates from [i] on. *)
Lemma gates_loop (b f : Z -> Z) (se : Z) n : forall i (s : C),
  0 <= i -> i + Z.of_nat n <= 256 -> length (idt s) = IDT_ENTRIES ->
  exists l, for_loop n i (fun j => idt_set_gate j (b j) se (f j)) s = Ret tt (mkCpu (io s) l (irq_handlers s) (idtr s))
    /\ length l = IDT_ENTRIES
    /\ forall v, l !! v = if (i <=? Z.of_nat v) && (Z.of_nat v <? i + Z.of_nat n)
         then Some (mkGate (Z.land (b (Z.of_nat v)) 65535) se 0 (f (Z.of_nat v)) (Z.land (Z.shiftr (b (Z.of_nat v)) 16) 65535))
         else idt s !! v.
Proof.
  induction n as [|n IH]; intros i s Hi Hn L; cbn [for_loop].
  - exists (idt s). split; [by destruct s|]. split; [done|]. intros v. repeat case_z; cbn; first [done|lia].
  - set (s1 := mkCpu (io s) (<[Z.to_nat i := mkGate (Z.land (b i) 65535) se 0 (f i) (Z.land (Z.shiftr (b i) 16) 65535)]> (idt s))
                 (irq_handlers s) (idtr s)).
    assert (E : idt_set_gate i (b i) se (f i) s = Ret tt s1).
    { unfold idt_set_gate, modify, s1, u8. by rewrite Z.mod_small by lia. }
    rewrite (bind_ret _ _ _ _ _ E). destruct (IH (i + 1) s1) as (l & El & Ll & Hl); [lia|lia|unfold s1; cbn; by rewrite length_insert|].
    exists l. split; [exact El|]. split; [done|]. intros v. rewrite Hl. unfold s1. cbn [idt].
    destruct (Z.eq_dec i (Z.of_nat v)) as [Ev|Ev].
    + subst i. rewrite (proj2 (Z.leb_gt _ _)) by lia. cbn [andb]. rewrite Nat2Z.id, list_lookup_insert_eq by (rewrite L; unfold IDT_ENTRIES; lia).
      rewrite (proj2 (Z.leb_le _ _)), (proj2 (Z.ltb_lt _ _)) by lia. done.
    + rewrite list_lookup_insert_ne by lia. repeat case_z; cbn; first [done|lia].
Qed.

Lemma set_gate_run n base fl (s : C) : 0 <= n < 256 ->
  idt_set_gate n base 8 fl s = Ret tt (mkCpu (io s) (<[Z.to_nat n := gate base fl]> (idt s)) (irq_handlers s) (idtr s)).
Proof. intros Hn. unfold idt_set_gate, modify, u8. by rewrite Z.mod_small by lia. Qed.

Lemma install_irq_run n h (s : C) : (n < IRQs)%nat ->
  install_irq irq_stub_table n h s
  = Ret tt (mkCpu (io s) (<[(32 + n)%nat := gate (irq_stub_table n) 142]> (idt s)) (<[n := h]> (irq_handlers s)) (idtr s)).
Proof.
  unfold IRQs, install_irq. intros Hn. erewrite bind_ret by reflexivity.
  rewrite set_gate_run by (unfold EXCEPTION_ISRS; lia). cbn [io idt irq_handlers idtr].
  by replace (Z.to_nat (Z.of_nat n + Z.of_nat EXCEPTION_ISRS)) with (32 + n)%nat by (unfold EXCEPTION_ISRS; lia).
Qed.

(** The gates that [idt_init] and [install_exception_isrs] leave. *)
Definition early_gate (v : nat) : idt_entry_t :=
  if (v <? 32)%nat then gate (isr_stub_table v) 142 else if (v =? 128)%nat then gate syscall_handler 239 else zero_gate.

Lemma idt_setup_run (s : C) : length (idt s) = IDT_ENTRIES ->
  exists l, (idt_init syscall_handler idt_address ;; install_exception_isrs isr_stub_table) s
      = Ret tt (mkCpu (io s) l (irq_handlers s) (2047, idt_address))
    /\ length l = IDT_ENTRIES /\ forall v, (v < 256)%nat -> l !! v = Some (early_gate v).
Proof.
  intros L. unfold idt_init.
  destruct (gates_loop (fun _ => 0) (fun _ => 0) 0 IDT_ENTRIES 0 s) as (l1 & E1 & L1 & Hl1); [lia|unfold IDT_ENTRIES; lia|done|].
  set (s1 := mkCpu (io s) l1 (irq_handlers s) (idtr s)) in *.
  set (s2 := mkCpu (io s) (<[128%nat := gate syscall_handler 239]> l1) (irq_handlers s) (2047, idt_address)).
  assert (E2 : (for_loop IDT_ENTRIES 0 (fun i => idt_set_gate i 0 0 0) ;; idt_set_gate 128 syscall_handler 8 239 ;;
     idt_load (8 * Z.of_nat IDT_ENTRIES - 1) idt_address) s = Ret tt s2).
  { rewrite (bind_ret _ _ _ _ _ E1). erewrite bind_ret by (apply set_gate_run; lia). reflexivity. }
  rewrite (bind_ret _ _ _ _ _ E2). unfold install_exception_isrs.
  destruct (gates_loop (fun j => isr_stub_table (Z.to_nat j)) (fun _ => 142) 8 EXCEPTION_ISRS 0 s2) as (l & El & Ll & Hl);
    [lia|unfold EXCEPTION_ISRS; lia|unfold s2; cbn; by rewrite length_insert|].
  exists l. split; [exact El|]. split; [done|]. intros v Hv. rewrite Hl. unfold s2, early_gate, EXCEPTION_ISRS. cbn [idt].
  destruct (Nat.ltb_spec v 32).
  - rewrite (proj2 (Z.leb_le _ _)), (proj2 (Z.ltb_lt _ _)) by lia. cbn [andb]. by rewrite Nat2Z.id.
  - rewrite (proj2 (Z.ltb_ge (Z.of_nat v) _)), andb_false_r by lia. destruct (Nat.eqb_spec v 128) as [-> |].
    + rewrite list_lookup_insert_eq by (rewrite L1; unfold IDT_ENTRIES; lia). done.
    + rewrite list_lookup_insert_ne by done. rewrite Hl1. unfold IDT_ENTRIES.
      rewrite (proj2 (Z.leb_le _ _)), (proj2 (Z.ltb_lt _ _)) by lia. done.
Qed.

(** The vector a controller delivers line [i] at. *)
Definition line_vector (p : P) (i : Z) : Z := if i <? 8 then vector (chip1 p) + i else vector (chip2 p) + (i - 8).

Section Lines.
Context (kb : H) (nic : option (nat * H)).
Definition is_nic (i : nat) : bool := match nic with Some (n, _) => (i =? n)%nat | None => false end.
Definition cascaded : bool := match nic with Some (n, _) => (8 <=? n)%nat | None => false end.
Definition line_enabled (i : nat) : bool := (i =? 0)%nat || (i =? 1)%nat || is_nic i || (cascaded && (i =? 2)%nat).
Definition line_handler (i : nat) : option H :=
  if (i =? 0)%nat then None else if (i =? 1)%nat then Some kb
  else match nic with Some (n, h) => if (i =? n)%nat then Some h else None | None => None end.
Definition final_gate (v : nat) : idt_entry_t :=
  if (32 <=? v)%nat && ((v - 32 =? 0) || (v - 32 =? 1) || is_nic (v - 32))%nat
  then gate (irq_stub_table (v - 32)) 142 else early_gate v.

Definition nic_gates (l : list idt_entry_t) : list idt_entry_t :=
  match nic with Some (n, _) => <[(32 + n)%nat := gate (irq_stub_table n) 142]> l | None => l end.
Definition nic_handlers (hs : list (option H)) : list (option H) :=
  match nic with Some (n, h) => <[n := Some h]> hs | None => hs end.
Context (nic_line : forall n h, nic = Some (n, h) -> (2 < n < IRQs)%nat).

Lemma final_gates l : length l = IDT_ENTRIES -> (forall v, (v < 256)%nat -> l !! v = Some (early_gate v)) ->
  forall v, (v < 256)%nat ->
    (<[32%nat := gate (irq_stub_table 0) 142]> (nic_gates (<[33%nat := gate (irq_stub_table 1) 142]> l))) !! v = Some (final_gate v).
Proof.
  intros L G v Hv. unfold final_gate, is_nic, nic_gates. destruct (Nat.eq_dec v 32) as [-> |H32].
  { rewrite list_lookup_insert_eq; [done|]. destruct nic as [[n h]|]; rewrite ?length_insert, L; unfold IDT_ENTRIES; lia. }
  rewrite list_lookup_insert_ne by lia.
  assert (G33 : forall w, (w < 256)%nat -> w <> 32%nat -> (<[33%nat := gate (irq_stub_table 1) 142]> l) !! w
    = Some (if (32 <=? w)%nat && ((w - 32 =? 0) || (w - 32 =? 1))%nat then gate (irq_stub_table (w - 32)) 142 else early_gate w)).
  { intros w Hw Hne. destruct (Nat.eq_dec w 33) as [-> |]; [rewrite list_lookup_insert_eq; [done|rewrite L; unfold IDT_ENTRIES; lia]|].
    rewrite list_lookup_insert_ne by done. rewrite G by done.
    destruct (Nat.leb_spec 32 w), (Nat.eqb_spec (w - 32) 0), (Nat.eqb_spec (w - 32) 1); try lia; done. }
  destruct nic as [[n h]|]; [|rewrite G33 by done; by rewrite orb_false_r].
  destruct (Nat.eq_dec v (32 + n)) as [-> |Hne].
  - rewrite list_lookup_insert_eq by (rewrite length_insert, L; unfold IDT_ENTRIES; specialize (nic_line n h eq_refl); unfold IRQs in *; lia).
    replace (32 + n - 32)%nat with n by lia. rewrite Nat.eqb_refl, (proj2 (Nat.leb_le 32 (32 + n))) by lia. by rewrite !orb_true_r.
  - rewrite list_lookup_insert_ne by lia. rewrite G33 by done.
    destruct (Nat.leb_spec 32 v); [|done]. rewrite (proj2 (Nat.eqb_neq (v - 32) n)) by lia. by rewrite orb_false_r.
Qed.

Lemma final_handlers i : (i < IRQs)%nat ->
  (<[0%nat := None]> (nic_handlers (<[1%nat := Some kb]> (replicate IRQs None)))) !! i = Some (line_handler i).
Proof.
  intros Hi. unfold line_handler, nic_handlers. destruct (Nat.eqb_spec i 0) as [-> |].
  { rewrite list_lookup_insert_eq; [done|]. destruct nic as [[n h]|]; rewrite ?length_insert, length_replicate; unfold IRQs; lia. }
  rewrite list_lookup_insert_ne by done.
  assert (K1 : (<[1%nat := Some kb]> (replicate IRQs None)) !! i = Some (if (i =? 1)%nat then Some kb else None)).
  { destruct (Nat.eqb_spec i 1) as [-> |]; [rewrite list_lookup_insert_eq; [done|rewrite length_replicate; unfold IRQs; lia]|].
    rewrite list_lookup_insert_ne by done. by apply lookup_replicate_2. }
  destruct nic as [[l h]|]; [|rewrite K1; by destruct (i =? 1)%nat]. specialize (nic_line l h eq_refl).
  destruct (Nat.eqb_spec i l) as [-> |].
  - rewrite list_lookup_insert_eq by (rewrite length_insert, length_replicate; lia). by rewrite (proj2 (Nat.eqb_neq l 1)) by lia.
  - rewrite list_lookup_insert_ne by done. rewrite K1. by destruct (i =? 1)%nat.
Qed.

(** The network card's line is installed and unmasked. *)
Lemma nic_step (s : C) : pics 32 40 0 0 (io s) ->
  exists p,
    (match nic with
     | Some (n, h) => install_irq irq_stub_table n (Some h) ;; on_io (pic_clear_mask (Z.of_nat n))
     | None => mret tt
     end) s = Ret tt (mkCpu p (nic_gates (idt s)) (nic_handlers (irq_handlers s)) (idtr s))
    /\ pics 32 40 0 0 p
    /\ (forall i, (i < 16)%nat -> masked p (Z.of_nat i) = masked (io s) (Z.of_nat i) && negb (is_nic i) && negb (cascaded && (i =? 2)%nat)).
Proof.
  intros Hp. unfold is_nic, cascaded, nic_gates, nic_handlers. destruct nic as [[n h]|].
  - specialize (nic_line n h eq_refl). unfold IRQs in *. rewrite (bind_ret _ _ _ _ _ (install_irq_run n (Some h) s ltac:(unfold IRQs; lia))).
    set (s1 := mkCpu _ _ _ _). destruct (on_io_runs (pic_clear_mask (Z.of_nat n)) s1
      (fun _ p => pics 32 40 0 0 p /\ forall j, 0 <= j < 16 -> masked p j =
         masked (io s1) j && negb (j =? Z.of_nat n) && negb ((8 <=? Z.of_nat n) && (j =? 2)))) as ([] & p & E & Hp' & Hm).
    { apply (clear_mask_runs 32 40 0 0 (Z.of_nat n)); [exact Hp|lia|auto]. }
    exists p. split; [exact E|]. split; [done|].
    intros i Hi. rewrite Hm by lia. unfold s1. cbn [io].
    replace (Z.of_nat i =? Z.of_nat n) with (i =? n)%nat by (destruct (Nat.eqb_spec i n), (Z.eqb_spec (Z.of_nat i) (Z.of_nat n)); lia || done).
    replace (8 <=? Z.of_nat n) with (8 <=? n)%nat by (destruct (Nat.leb_spec 8 n), (Z.leb_spec 8 (Z.of_nat n)); lia || done).
    replace (Z.of_nat i =? 2) with (i =? 2)%nat by (destruct (Nat.eqb_spec i 2), (Z.eqb_spec (Z.of_nat i) 2); lia || done). done.
  - exists (io s). split; [by destruct s|]. split; [done|].
    intros i Hi. cbn [negb andb]. by rewrite !andb_true_r.
Qed.

(** Masking every line and moving the vectors. *)
Lemma controllers_run (s : C) : operating (chip1 (io s)) -> operating (chip2 (io s)) ->
  exists p1 p2, on_io (for_loop IRQs 0 pic_set_mask) s = Ret tt (mkCpu p1 (idt s) (irq_handlers s) (idtr s))
    /\ on_io pic_remap (mkCpu p1 (idt s) (irq_handlers s) (idtr s)) = Ret tt (mkCpu p2 (idt s) (irq_handlers s) (idtr s))
    /\ pics 32 40 0 0 p2 /\ forall j, 0 <= j < 16 -> masked p2 j = true.
Proof.
  intros O1 O2. set (c1 := chip1 (io s)) in *. set (c2 := chip2 (io s)) in *.
  destruct (on_io_runs (for_loop IRQs 0 pic_set_mask) s (fun _ p => pics (vector c1) (vector c2) (isr c1) (isr c2) p
    /\ forall j, 0 <= j < 16 -> masked p j = true)) as ([] & p1 & E1 & Hp1 & Hm1).
  { apply (set_masks_run IRQs (vector c1) (vector c2) (isr c1) (isr c2)); [done|lia|unfold IRQs; lia|].
    intros p Hp Hm. split; [done|]. intros j Hj. rewrite Hm by done. unfold IRQs.
    rewrite (proj2 (Z.leb_le _ _)), (proj2 (Z.ltb_lt _ _)) by lia. by rewrite orb_true_r. }
  set (s1 := mkCpu p1 (idt s) (irq_handlers s) (idtr s)).
  destruct (on_io_runs pic_remap s1 (fun _ p => pics 32 40 0 0 p /\ forall j, 0 <= j < 16 -> masked p j = true)) as ([] & p2 & E2 & Hp2 & Hm2).
  { destruct Hp1 as (A1 & A2 & _). apply (remap_runs (chip1 p1) (chip2 p1)); [done|done|done|]. intros p [B1 B2].
    split; [unfold pics, operating in *; rewrite B1, B2; cbn; tauto|]. intros j Hj. rewrite <- (Hm1 j Hj). unfold masked. by rewrite B1, B2. }
  by exists p1, p2.
Qed.

(** The keyboard's vector and line. *)
Lemma keyboard_run (s : C) : pics 32 40 0 0 (io s) -> (forall j, 0 <= j < 16 -> masked (io s) j = true) ->
  exists p5, install_keyboard irq_stub_table kb s
      = Ret tt (mkCpu p5 (<[33%nat := gate (irq_stub_table 1) 142]> (idt s)) (<[1%nat := Some kb]> (irq_handlers s)) (idtr s))
    /\ pics 32 40 0 0 p5 /\ forall j, 0 <= j < 16 -> masked p5 j = negb (j =? 1).
Proof.
  intros Hp Hm0. unfold install_keyboard. rewrite (bind_ret _ _ _ _ _ (install_irq_run 1 (Some kb) s ltac:(unfold IRQs; lia))). set (t := mkCpu _ _ _ _).
  destruct (on_io_runs (pic_clear_mask 1) t (fun _ p => pics 32 40 0 0 p /\ forall j, 0 <= j < 16 -> masked p j = negb (j =? 1)))
    as ([] & p5 & E5 & Hp5 & Hm5); [|by exists p5].
  apply (clear_mask_runs 32 40 0 0 1); [exact Hp|lia|]. intros p Hp' Hm. split; [done|]. intros j Hj. rewrite Hm by done.
  change (io t) with (io s). rewrite Hm0 by done. cbn. by rewrite andb_true_r.
Qed.

(** C16: Interrupt routing after boot. The loader's sequence returns, and then
    exactly the timer, the keyboard and the network card (with the cascade line,
    when the card is behind the second controller) are unmasked; line [i] is
    delivered at vector [32 + i]; each unmasked device line has a present ring-0
    interrupt gate to its stub and its handler in the table the dispatcher uses;
    vectors 0 to 31 lead to the exception stubs, 0x80 to the system-call entry
    through a gate of privilege 3, and every other gate is absent. *)
Theorem boot_routes_interrupts (s : C) :
  length (idt s) = IDT_ENTRIES -> irq_handlers s = replicate IRQs None ->
  operating (chip1 (io s)) -> operating (chip2 (io s)) ->
  exists s', boot_interrupts isr_stub_table irq_stub_table syscall_handler idt_address kb nic s = Ret tt s'
    /\ idtr s' = (2047, idt_address)
    /\ (forall i, (i < IRQs)%nat -> masked (io s') (Z.of_nat i) = negb (line_enabled i))
    /\ (forall i, (i < IRQs)%nat -> line_vector (io s') (Z.of_nat i) = 32 + Z.of_nat i)
    /\ (forall i, (i < IRQs)%nat -> irq_handlers s' !! i = Some (line_handler i))
    /\ (forall v, (v < IDT_ENTRIES)%nat -> idt s' !! v = Some (final_gate v)).
Proof.
  intros L Hh O1 O2. unfold boot_interrupts.
  destruct (controllers_run s O1 O2) as (p1 & p2 & E1 & E2 & Hp2 & Hm2). rewrite (bind_ret _ _ _ _ _ E1), (bind_ret _ _ _ _ _ E2). set (s2 := mkCpu p2 _ _ _).
  destruct (idt_setup_run s2 L) as (l3 & E3 & L3 & G3).
  apply bind_inv in E3 as ([] & s2' & E3a & E3b).
  rewrite (bind_ret _ _ _ _ _ E3a), (bind_ret _ _ _ _ _ E3b). set (s3 := mkCpu _ l3 _ _).
  destruct (on_io_runs pit_init s3 _ (pit_runs 32 40 0 0 _ Hp2)) as ([] & p4 & E4 & Hp4 & Hm4).
  rewrite (bind_ret _ _ _ _ _ E4). set (s4 := mkCpu p4 _ _ _).
  destruct (keyboard_run s4 Hp4) as (p5 & E5 & Hp5 & Hm5); [intros j Hj; change (io s4) with p4; rewrite Hm4; by apply Hm2|].
  rewrite (bind_ret _ _ _ _ _ E5). set (s5 := mkCpu p5 _ _ _).
  destruct (nic_step s5 Hp5) as (p6 & E6 & Hp6 & Hm6). rewrite (bind_ret _ _ _ _ _ E6). set (s6 := mkCpu p6 _ _ _).
  destruct (on_io_runs (pic_clear_mask 0) s6 (fun _ p => pics 32 40 0 0 p /\ forall j, 0 <= j < 16 -> masked p j = masked p6 j && negb (j =? 0)))
    as ([] & p7 & E7 & Hp7 & Hm7).
  { apply (clear_mask_runs 32 40 0 0 0); [exact Hp6|lia|]. intros p Hp Hm. split; [done|]. intros j Hj. rewrite Hm by done. cbn. by rewrite andb_true_r. }
  rewrite (bind_ret _ _ _ _ _ E7). set (s7 := mkCpu p7 _ _ _).
  rewrite (install_irq_run 0 None s7) by (unfold IRQs; lia). eexists. split; [reflexivity|].
  split; [done|]. split; [|split; [|split]].
  - intros i Hi. unfold IRQs in Hi. cbn [io]. rewrite Hm7, Hm6 by lia. change (io s5) with p5. rewrite Hm5 by lia. unfold line_enabled.
    replace (Z.of_nat i =? 1) with (i =? 1)%nat by (destruct (Nat.eqb_spec i 1), (Z.eqb_spec (Z.of_nat i) 1); lia || done).
    replace (Z.of_nat i =? 0) with (i =? 0)%nat by (destruct (Nat.eqb_spec i 0), (Z.eqb_spec (Z.of_nat i) 0); lia || done).
    destruct (i =? 0)%nat, (i =? 1)%nat, (is_nic i), (cascaded && (i =? 2)%nat); done.
  - intros i Hi. unfold IRQs in Hi. cbn [io]. destruct Hp7 as (_ & _ & V1 & V2 & _). unfold line_vector. change (io s7) with p7. rewrite V1, V2. case_z; lia.
  - intros i Hi. rewrite <- (final_handlers i Hi), <- Hh. done.
  - intros v Hv. by apply (final_gates l3).
Qed.
End Lines.
End Boot.

(** * Serving an interrupt *)

Section Served.
Context {P H B : Type} `{Pic8259 P} `{FdBackend B} `{KernelHeap}.
Context (call_irq : H -> Z -> M (machine P H B) unit) (fuel : nat).

(** Exactly line [n] is being served: its bit, and that of the cascade line when it
    comes from the second controller. *)
Definition in_service (n : nat) (p : P) : Prop :=
  isr (chip1 p) = (if (n <? 8)%nat then 2 ^ Z.of_nat n else 2 ^ 2)
  /\ isr (chip2 p) = (if (n <? 8)%nat then 0 else 2 ^ (Z.of_nat n - 8)).
(** [p'] differs from [p] in the in-service registers, which are clear. *)
Definition acknowledged (p p' : P) : Prop :=
  chip1 p' = mkChip (icw (chip1 p)) (vector (chip1 p)) (cascade (chip1 p)) (cmode (chip1 p)) (imr (chip1 p)) 0
  /\ chip2 p' = mkChip (icw (chip2 p)) (vector (chip2 p)) (cascade (chip2 p)) (cmode (chip2 p)) (imr (chip2 p)) 0.

Lemma land_pow2_pred k : 0 <= k -> Z.land (2 ^ k) (2 ^ k - 1) = 0.
Proof.
  intros Hk. replace (2 ^ k - 1) with (Z.ones k) by (rewrite Z.ones_equiv; lia).
  rewrite Z.land_ones by done. apply Z.mod_same. lia.
Qed.

Lemma eoi_runs n p : (n < IRQs)%nat -> in_service n p -> runs (pic_send_eoi (Z.of_nat n)) p (fun _ p' => acknowledged p p').
Proof.
  unfold IRQs. intros Hn [S1 S2]. assert (Hc : chips (chip1 p) (chip2 p) p) by done. unfold pic_send_eoi.
  assert (Cmd : forall c k, 0 <= k -> isr c = 2 ^ k -> chip_command 32 c = mkChip (icw c) (vector c) (cascade c) (cmode c) (imr c) 0).
  { intros c k Hk Ek. unfold chip_command. cbn [Z.testbit Pos.testbit Pos.pred_N N.pred Z.eqb Pos.eqb]. rewrite Ek. by rewrite land_pow2_pred. }
  destruct (Nat.ltb_spec n 8).
  - rewrite (proj2 (Z.leb_gt 8 _)) by lia. apply runs_bind, runs_ret. eapply (runs_cmd1 _ _ _ _ _ Hc). intros p' [E1 E2].
    change (u8 PIC_EOI) with 32 in E1. rewrite (Cmd _ (Z.of_nat n)) in E1 by (lia || done). split; [done|]. rewrite E2.
    destruct (chip2 p); cbn in *. congruence.
  - rewrite (proj2 (Z.leb_le 8 _)) by lia. apply runs_bind. eapply (runs_cmd2 _ _ _ _ _ Hc). intros p1 H1'.
    eapply (runs_cmd1 _ _ _ _ _ H1'). intros p' [E1 E2]. change (u8 PIC_EOI) with 32 in *.
    rewrite (Cmd _ 2) in E1 by (lia || done). rewrite (Cmd _ (Z.of_nat n - 8)) in E2 by (lia || done). done.
Qed.

(** C17: A hardware interrupt is served once and acknowledged. When the saved frame
    names line [n] and [n] is in service, the dispatcher calls the handler
    registered for [n], if there is one, and then acknowledges the interrupt on
    every controller involved, so that nothing is left in service and masks and
    vectors are as before; the timer line returns the frame the scheduler picks
    and every other line the frame it was called with. *)
Theorem irq_served n r (m m1 : machine P H B) hd f k' :
  (n < IRQs)%nat -> frame_int_no r m = 32 + Z.of_nat n -> irq_handlers (m_cpu m) !! n = Some hd ->
  match hd with Some h => call_irq h r m = Ret tt m1 | None => m1 = m end ->
  in_service n (io (m_cpu m1)) ->
  (if (n =? 0)%nat then scheduler_tick fuel r (m_kern m1) = Ret f k' else f = r /\ k' = m_kern m1) ->
  exists p, irq_dispatcher call_irq fuel r m
      = Ret f (mkMachine (mkCpu p (idt (m_cpu m1)) (irq_handlers (m_cpu m1)) (idtr (m_cpu m1))) k')
    /\ acknowledged (io (m_cpu m1)) p.
Proof.
  intros Hn Ei Eh Hh Hs Ht. unfold irq_dispatcher. erewrite bind_ret by reflexivity. rewrite Ei. cbv zeta.
  assert (Eu : u32 (32 + Z.of_nat n - Z.of_nat EXCEPTION_ISRS) = Z.of_nat n).
  { unfold IRQs in Hn. unfold u32, EXCEPTION_ISRS. rewrite Z.mod_small; lia. }
  rewrite Eu. erewrite bind_ret by reflexivity. rewrite (proj2 (Z.ltb_lt _ _)) by lia. rewrite Nat2Z.id, Eh. cbn [mjoin option_join].
  assert (E1 : (match hd with Some h => call_irq h r | None => mret tt end) m = Ret tt m1) by (destruct hd; [done|by subst]).
  rewrite (bind_ret _ _ _ _ _ E1).
  destruct (on_io_runs (pic_send_eoi (Z.of_nat n)) (m_cpu m1) _ (eoi_runs n _ Hn Hs)) as ([] & p & Ep & Ha).
  erewrite bind_ret by (unfold zoom; rewrite Ep; reflexivity). exists p. split; [|done].
  destruct (Nat.eqb_spec n 0) as [-> |].
  - change (Z.of_nat 0 =? 0) with true. cbv iota. unfold zoom. cbn [m_kern m_cpu]. by rewrite Ht.
  - rewrite (proj2 (Z.eqb_neq (Z.of_nat n) 0)) by lia. destruct Ht as [-> ->]. done.
Qed.
End Served.

(** * Segments *)

(** Base and limit as the processor assembles them; with the granularity bit the
    limit counts pages of 4 KiB. *)
Definition seg_base (e : gdt_entry_t) : Z := gbase_low e + 65536 * base_mid e + 16777216 * gbase_high e.
Definition seg_limit (e : gdt_entry_t) : Z :=
  let l := limit_low e + 65536 * Z.land (granularity e) 15 in
  if Z.testbit (granularity e) 7 then 4096 * l + 4095 else l.

Lemma land_ones_mod a n : 0 <= n -> Z.land a (2 ^ n - 1) = a mod 2 ^ n.
Proof. intros Hn. replace (2 ^ n - 1) with (Z.ones n) by (rewrite Z.ones_equiv; lia). by apply Z.land_ones. Qed.

Lemma gdt_entry_base base limit acc gran : 0 <= base < 4294967296 -> seg_base (gdt_entry base limit acc gran) = base.
Proof.
  intros Hb. unfold seg_base, gdt_entry. cbn [gbase_low base_mid gbase_high].
  change 65535 with (2 ^ 16 - 1). change 255 with (2 ^ 8 - 1). rewrite !land_ones_mod, !Z.shiftr_div_pow2 by lia.
  change (2 ^ 16) with 65536. change (2 ^ 8) with 256. change (2 ^ 24) with 16777216.
  pose proof (Z.div_mod base 65536 ltac:(lia)). pose proof (Z.div_mod (base / 65536) 256 ltac:(lia)).
  rewrite (Z.mod_small (base / 16777216)) by (split; [apply Z.div_pos; lia|apply Z.div_lt_upper_bound; lia]).
  replace (base / 65536 / 256) with (base / 16777216) in * by (rewrite Z.div_div by lia; done). lia.
Qed.

(** A descriptor whose flags leave the limit's nibble free encodes its limit. *)
Lemma gdt_entry_limit base limit acc gran : 0 <= limit < 1048576 -> 0 <= gran < 256 -> Z.land gran 15 = 0 ->
  limit_low (gdt_entry base limit acc gran) + 65536 * Z.land (granularity (gdt_entry base limit acc gran)) 15 = limit.
Proof.
  intros Hl Hg Hz. unfold gdt_entry. cbn [limit_low granularity]. rewrite Z.land_lor_distr_l, Hz, Z.lor_0_l.
  rewrite <- Z.land_assoc. change (Z.land 15 15) with 15. change 65535 with (2 ^ 16 - 1). change 15 with (2 ^ 4 - 1).
  rewrite !land_ones_mod, Z.shiftr_div_pow2 by lia. change (2 ^ 16) with 65536. change (2 ^ 4) with 16.
  rewrite (Z.mod_small (limit / 65536)) by (split; [apply Z.div_pos; lia|apply Z.div_lt_upper_bound; lia]).
  pose proof (Z.div_mod limit 65536 ltac:(lia)). lia.
Qed.

(** After [gdt_init] the code and data segments span the whole address space, the
    task-state descriptor describes the segment, and the null entry is null. *)
Lemma gdt_init_flat gdt_address tss_address (s : gdt_state) : 0 <= tss_address < 4294967296 ->
  exists s' n c d t, gdt_init gdt_address tss_address s = Ret tt s' /\ gdt_entries s' = [n; c; d; t]
    /\ n = zero_desc /\ access c = 154 /\ access d = 146 /\ access t = 137
    /\ seg_base c = 0 /\ seg_limit c = 4294967295 /\ seg_base d = 0 /\ seg_limit d = 4294967295
    /\ seg_base t = tss_address /\ seg_limit t = 103 /\ gdtr s' = (31, gdt_address) /\ ss0 s' = 16 /\ iomap_base s' = 104.
Proof.
  intros Ht. eexists _, zero_desc, (gdt_entry 0 1048575 154 207), (gdt_entry 0 1048575 146 207), (gdt_entry tss_address 103 137 0).
  split; [reflexivity|]. split; [reflexivity|].
  split_and!; try reflexivity. by apply gdt_entry_base.
Qed.

(** * A board *)

(** Controllers and timer that follow their data sheets. *)
Record board := mkBoard { b1 : chip; b2 : chip; b_cmd : Z; b_lo : Z; b_hi : Z }.
#[export] Instance board_ports : Ports board := {|
  port_outb port v b :=
    if port =? PIC1 then mkBoard (chip_command v (b1 b)) (b2 b) (b_cmd b) (b_lo b) (b_hi b)
    else if port =? PIC2 then mkBoard (b1 b) (chip_command v (b2 b)) (b_cmd b) (b_lo b) (b_hi b)
    else if port =? PIC1_DATA then mkBoard (chip_data v (b1 b)) (b2 b) (b_cmd b) (b_lo b) (b_hi b)
    else if port =? PIC2_DATA then mkBoard (b1 b) (chip_data v (b2 b)) (b_cmd b) (b_lo b) (b_hi b)
    else if port =? PIT_COMMAND then mkBoard (b1 b) (b2 b) v (b_lo b) (b_hi b)
    else if port =? PIT_CHANNEL0 then mkBoard (b1 b) (b2 b) (b_cmd b) (b_hi b) v
    else b;
  port_inb port b :=
    (if port =? PIC1_DATA then imr (b1 b) else if port =? PIC2_DATA then imr (b2 b) else 255, b);
  port_outl _ _ b := b;
  port_inl _ b := (4294967295, b)
|}.
#[export, refine] Instance board_pic : Pic8259 board := {| chip1 := b1; chip2 := b2 |}.
Proof. all: try done. intros port v p [-> | ->]; done. Defined.
#[export, refine] Instance board_pit : Pit8254 board := {|
  pit_mode b := Z.land (Z.shiftr (b_cmd b) 1) 7; pit_reload b := b_lo b + 256 * b_hi b |}.
Proof. done. Defined.

Definition raw_chip : chip := mkChip 0 8 0 0 184 0.
Definition demo_cpu : cpu board nat := mkCpu (mkBoard raw_chip raw_chip 0 0 0) (replicate 256 zero_gate) (replicate 16 None) (0, 0).

Lemma boot_routes_interrupts_witness : exists s',
  boot_interrupts Z.of_nat (fun i => 1000 + Z.of_nat i) 5000 8192 7%nat (Some (11, 9)%nat) demo_cpu = Ret tt s'
  /\ masked (io s') 11 = false /\ masked (io s') 2 = false /\ masked (io s') 5 = true
  /\ idt s' !! 43%nat = Some (gate 1011 142) /\ irq_handlers s' !! 11%nat = Some (Some 9%nat).
Proof.
  destruct (boot_routes_interrupts Z.of_nat (fun i => 1000 + Z.of_nat i) 5000 8192 7%nat (Some (11, 9)%nat)) with (s := demo_cpu)
    as (s' & E & _ & Hm & _ & Hh & Hg); [intros n h [= <- <-]; unfold IRQs; lia|reflexivity|reflexivity|done|done|].
  exists s'. split; [exact E|]. split; [exact (Hm 11%nat ltac:(unfold IRQs; lia))|].
  split; [exact (Hm 2%nat ltac:(unfold IRQs; lia))|]. split; [exact (Hm 5%nat ltac:(unfold IRQs; lia))|].
  split; [exact (Hg 43%nat ltac:(unfold IDT_ENTRIES; lia))|exact (Hh 11%nat ltac:(unfold IRQs; lia))].
Defined.

(** The timer runs at 1193182 / 1193 Hz in mode 3. *)
Lemma pit_init_rate {P} `{Pit8254 P} (p : P) : exists p', pit_init p = Ret tt p' /\ pit_mode p' = 3 /\ pit_reload p' = 1193.
Proof.
  eexists. split; [reflexivity|]. destruct (pit_program 54 169 4 p eq_refl) as [E1 E2]. split; [exact E1|exact E2].
Qed.

(** A timer interrupt arrives while task 16 runs; task 8 has its frame at 100. *)
Definition timer_kern : kern unit :=
  mkKern (mkMmu (mkHeap 0 0 0 0 (st32 (8192 + 28) 32 (st32 4096 131 ∅))) 4096 0 4096 0)
    (<[8 := mkTcb 100 TASK_READY 0 0 4096 0 [] 0 0 16]> (<[16 := mkTcb 0 TASK_RUNNING 1 0 4096 0 [] 0 0 8]> ∅)) 16 8 2 tt.
Definition timer_machine : machine board nat unit :=
  mkMachine (mkCpu (mkBoard (mkChip 0 32 4 1 252 1) (mkChip 0 40 2 1 255 0) 0 0 0)
    (replicate 256 zero_gate) (replicate 16 None) (0, 0)) timer_kern.

Lemma irq_served_witness : exists m', irq_dispatcher (fun _ _ => mret tt) 4 8192 timer_machine = Ret 100 m'
  /\ isr (b1 (io (m_cpu m'))) = 0 /\ current_task (m_kern m') = 8.
Proof.
  destruct (scheduler_tick 4 8192 timer_kern) as [f k'| |] eqn:E; [|vm_compute in E; discriminate E..].
  assert (B : f = 100 /\ current_task k' = 8) by (vm_compute in E; injection E as <- <-; split; reflexivity).
  destruct B as [-> Ec].
  destruct (irq_served (fun _ _ => mret tt) 4 0%nat 8192 timer_machine timer_machine None 100 k') as (p & Ed & [A _]);
    [unfold IRQs; lia|vm_compute; reflexivity|reflexivity|reflexivity|split; reflexivity|exact E|].
  eexists. split; [exact Ed|]. split; [|exact Ec]. cbn [m_cpu io]. change b1 with (chip1 (P := board)). by rewrite A.
Defined.
