(* ===== verification/Pci.v ===== *)
(** PCI configuration space and enumeration: stage2/dev/pci.c.

    The bus is behind two ports; [PciConfig] states configuration mechanism 1: the
    address port selects a 32-bit word of some function's configuration space, the
    data port reads it, and a write is merged into it as the function defines.
    Lines printed to the serial log are left out. *)
From S2P Require Import Prelude Utils Ports.

Definition PCI_CONFIG_ADDRESS : Z := 3320.
Definition PCI_CONFIG_DATA : Z := 3324.
Definition PCI_COMMAND : Z := 4.
Definition PCI_BAR0 : Z := 16.
Definition PCI_BAR1 : Z := 20.
Definition PCI_BAR2 : Z := 24.
Definition PCI_BAR3 : Z := 28.
Definition PCI_BAR4 : Z := 32.
Definition PCI_BAR5 : Z := 36.
Definition PCI_INTERRUPT_LINE : Z := 60.

Record pci_device_info_t := mkInfo { vendor_id : Z; device_id : Z; name : option (list Z) }.
Record pci_device_desc_t := mkPci {
  dev_info : pci_device_info_t; bus : Z; device : Z; function : Z; bar : list Z; io_base : Z; pci_irq : Z; enabled : bool
}.

(** The names are those of the source, as character codes. *)
Definition pci_device_table : list pci_device_info_t :=
  [mkInfo 32902 4110 (Some [69; 49; 48; 48; 48; 32; 45; 32; 78; 73; 67]);
   mkInfo 32902 4663 (Some [73; 110; 116; 101; 108; 32; 56; 50; 52; 52; 48; 70; 88; 32; 45; 32; 72; 111; 115; 116; 32; 66; 114; 105; 100; 103; 101]);
   mkInfo 32902 28672 (Some [73; 110; 116; 101; 108; 32; 56; 50; 51; 55; 49; 83; 66; 32; 45; 32; 73; 83; 65; 32; 66; 114; 105; 100; 103; 101])].

(** [(1U << 31) | (bus << 16) | (slot << 11) | (func << 8) | (offset & 0xFC)]. *)
Definition pci_address (bus slot func offset : Z) : Z :=
  Z.lor (Z.lor (Z.lor (Z.lor (Z.shiftl 1 31) (Z.shiftl bus 16)) (Z.shiftl slot 11)) (Z.shiftl func 8)) (Z.land offset 252).

Section Pci.
Context {P : Type} `{Ports P}.

Definition pci_config_read_raw (bus slot func offset : Z) : M P Z :=
  outl PCI_CONFIG_ADDRESS (pci_address bus slot func offset) ;;
  inl PCI_CONFIG_DATA.

Definition pci_config_read_word_raw (bus device func offset : Z) : M P Z :=
  data ← pci_config_read_raw bus device func (Z.land offset 252);
  mret (Z.land (Z.shiftr data (Z.land offset 2 * 8)) 65535).

Definition pci_config_write_word_raw (bus device func offset value : Z) : M P unit :=
  let address := pci_address bus device func (Z.land offset 252) in
  outl PCI_CONFIG_ADDRESS address ;;
  data ← inl PCI_CONFIG_DATA;
  let data :=
    if Z.land offset 2 =? 0 then Z.lor (Z.land data 4294901760) value
    else Z.lor (Z.land data 65535) (Z.shiftl value 16) in
  outl PCI_CONFIG_ADDRESS address ;;
  outl PCI_CONFIG_DATA data.

Definition pci_config_read (dev : pci_device_desc_t) (offset : Z) : M P Z :=
  pci_config_read_raw (bus dev) (device dev) (function dev) offset.
Definition pci_config_read_word (dev : pci_device_desc_t) (offset : Z) : M P Z :=
  pci_config_read_word_raw (bus dev) (device dev) (function dev) offset.
Definition pci_config_write_word (dev : pci_device_desc_t) (offset value : Z) : M P unit :=
  pci_config_write_word_raw (bus dev) (device dev) (function dev) offset value.

Definition pci_enable_busmaster (bus dev func : Z) : M P unit :=
  cmd ← pci_config_read_word_raw bus dev func PCI_COMMAND;
  let cmd := Z.lor cmd (Z.shiftl 1 2) in
  outl PCI_CONFIG_ADDRESS (pci_address bus dev func (Z.land PCI_COMMAND 252)) ;;
  outl PCI_CONFIG_DATA (Z.lor cmd (Z.shiftl cmd 16)).

Fixpoint read_bars (desc : pci_device_desc_t) (offsets : list Z) : M P (list Z) :=
  match offsets with
  | [] => mret []
  | o :: rest =>
      b ← pci_config_read_raw (bus desc) (device desc) (function desc) o;
      bs ← read_bars desc rest;
      mret (b :: bs)
  end.
Definition pci_read_bars (desc : pci_device_desc_t) : M P (list Z) :=
  read_bars desc [PCI_BAR0; PCI_BAR1; PCI_BAR2; PCI_BAR3; PCI_BAR4; PCI_BAR5].

(** The loop over the address registers. *)
Fixpoint detect_iobase (bars : list Z) : Z :=
  match bars with
  | [] => 0
  | b :: rest =>
      if b =? 0 then detect_iobase rest
      else if negb (Z.land b 1 =? 0) then Z.land b 4294967292
      else detect_iobase rest
  end.
Definition pci_detect_iobase (desc : pci_device_desc_t) : Z := detect_iobase (bar desc).

Definition pci_detect_irq (desc : pci_device_desc_t) : M P Z :=
  val ← pci_config_read_word_raw (bus desc) (device desc) (function desc) PCI_INTERRUPT_LINE;
  mret (Z.land val 255).

Fixpoint lookup_device (table : list pci_device_info_t) (vendor dev : Z) : option (list Z) :=
  match table with
  | [] => None
  | e :: rest => if (vendor_id e =? vendor) && (device_id e =? dev) then name e else lookup_device rest vendor dev
  end.
Definition pci_lookup_device (vendor dev : Z) : option (list Z) := lookup_device pci_device_table vendor dev.

(** Probing one function: its description, if it responds. The class code is only
    printed; its two reads are done. *)
Definition pci_probe (b d f : Z) : M P (option pci_device_desc_t) :=
  vendor ← pci_config_read_word_raw b d f 0;
  if vendor =? 65535 then mret None
  else
    dev ← pci_config_read_word_raw b d f 2;
    pci_config_read_raw b d f 8 ;;
    pci_config_read_raw b d f 8 ;;
    let desc := mkPci (mkInfo vendor dev (pci_lookup_device vendor dev)) b d f (replicate 6 0) 0 0 false in
    bars ← pci_read_bars desc;
    let desc := mkPci (dev_info desc) b d f bars 0 0 false in
    let desc := mkPci (dev_info desc) b d f bars (pci_detect_iobase desc) 0 false in
    irq ← pci_detect_irq desc;
    mret (Some (mkPci (dev_info desc) b d f bars (io_base desc) irq false)).
End Pci.

(** The three loops; a device is handed to [pci_handle_device], which may work on
    more than the ports. *)
Section Enumerate.
Context {S P : Type} `{Ports P} (get : S -> P) (put : P -> S -> S) (pci_handle_device : pci_device_desc_t -> M S unit).

Definition probe_one (b d f : Z) : M S unit :=
  desc ← zoom get put (pci_probe b d f);
  match desc with Some desc => pci_handle_device desc | None => mret tt end.
Definition pci_enumerate : M S unit :=
  for_loop 255 0 (fun b => for_loop 32 0 (fun d => for_loop 8 0 (fun f => probe_one b d f))).
End Enumerate.
