(* ===== verification/PciProofs.v ===== *)
(** Configuration space: reading back what was written, and the enumeration of
    exactly the functions that respond. *)
From S2P Require Import Prelude Utils Ports Pci.

(** Configuration mechanism 1. [merge a old v] is the word of register [a] after
    [v] is written to it: functions have read-only and write-one-to-clear bits. *)
Class PciConfig (P : Type) `{Ports P} := {
  latch : P -> Z;
  config : P -> Z -> Z;
  merge : Z -> Z -> Z -> Z;
  cfg_range : forall p a, 0 <= config p a < 4294967296;
  cfg_address : forall a p, latch (port_outl PCI_CONFIG_ADDRESS a p) = a
    /\ forall x, config (port_outl PCI_CONFIG_ADDRESS a p) x = config p x;
  cfg_read : forall p, (port_inl PCI_CONFIG_DATA p).1 = config p (latch p)
    /\ forall x, config (port_inl PCI_CONFIG_DATA p).2 x = config p x;
  cfg_write : forall v p x, config (port_outl PCI_CONFIG_DATA v p) x
    = if x =? latch p then merge x (config p x) v else config p x
}.

(** A register of a function. *)
Definition pci_ok (b d f off : Z) : Prop := 0 <= b < 256 /\ 0 <= d < 32 /\ 0 <= f < 8 /\ 0 <= off < 256.
Definition word_of (off : Z) : Z := off - off mod 4.

Lemma land_252 off : 0 <= off < 256 -> Z.land off 252 = word_of off.
Proof.
  intros Ho. assert (B : forallb (fun o => Z.land o 252 =? o - o mod 4) (seqZ 0 256) = true) by (vm_compute; reflexivity).
  rewrite forallb_forall in B. apply Z.eqb_eq, B, list_elem_of_In, elem_of_seqZ. lia.
Qed.

Lemma pci_address_eq b d f off : pci_ok b d f off ->
  pci_address b d f off = 2147483648 + b * 65536 + d * 2048 + f * 256 + word_of off.
Proof.
  intros (Hb & Hd & Hf & Ho). unfold pci_address. rewrite land_252 by done. rewrite !Z.shiftl_mul_pow2 by lia.
  pose proof (Z.mod_pos_bound off 4 ltac:(lia)). assert (Hw : 0 <= word_of off < 256).
  { unfold word_of. pose proof (Z.mod_le off 4 ltac:(lia) ltac:(lia)). lia. }
  change (1 * 2 ^ 31) with 2147483648. change (2 ^ 16) with 65536. change (2 ^ 11) with 2048. change (2 ^ 8) with 256.
  rewrite (lor_add_disjoint 2147483648 (b * 65536) 31) by (first [reflexivity|lia]).
  rewrite (lor_add_disjoint (2147483648 + b * 65536) (d * 2048) 16);
    [|lia|change (2 ^ 16) with 65536; replace (2147483648 + b * 65536) with ((32768 + b) * 65536) by lia; apply Z.mod_mul; lia|lia].
  rewrite (lor_add_disjoint (2147483648 + b * 65536 + d * 2048) (f * 256) 11);
    [|lia|change (2 ^ 11) with 2048; replace (2147483648 + b * 65536 + d * 2048) with ((1048576 + b * 32 + d) * 2048) by lia; apply Z.mod_mul; lia|lia].
  rewrite (lor_add_disjoint _ (word_of off) 8); [done|lia| |lia]. change (2 ^ 8) with 256.
  replace (2147483648 + b * 65536 + d * 2048 + f * 256) with ((8388608 + b * 256 + d * 8 + f) * 256) by lia. apply Z.mod_mul. lia.
Qed.

Lemma word_of_range off : 0 <= off < 256 -> 0 <= word_of off <= 252 /\ word_of (word_of off) = word_of off.
Proof.
  intros Ho. unfold word_of. pose proof (Z.mod_pos_bound off 4 ltac:(lia)). pose proof (Z.div_mod off 4 ltac:(lia)).
  replace (off - off mod 4) with (off / 4 * 4) by lia. rewrite Z.mod_mul by lia.
  pose proof (Z.div_lt_upper_bound off 4 64 ltac:(lia) ltac:(lia)). pose proof (Z.div_pos off 4 ltac:(lia) ltac:(lia)). lia.
Qed.

(** Distinct registers have distinct addresses. *)
Lemma pci_address_inj b d f off b' d' f' off' : pci_ok b d f off -> pci_ok b' d' f' off' ->
  pci_address b d f off = pci_address b' d' f' off' -> b = b' /\ d = d' /\ f = f' /\ word_of off = word_of off'.
Proof.
  intros Hp Hp'. rewrite !pci_address_eq by done. destruct Hp as (Hb & Hd & Hf & Ho), Hp' as (Hb' & Hd' & Hf' & Ho').
  pose proof (word_of_range off Ho) as [? _]. pose proof (word_of_range off' Ho') as [? _]. lia.
Qed.

Section Config.
Context {P : Type} `{PciConfig P}.

(** Reads change no register. *)
Definition reads {A} (c : M P A) (p : P) (a : A) : Prop := exists p', c p = Ret a p' /\ forall x, config p' x = config p x.

Lemma reads_ret {A} (a : A) p : reads (mret a : M P A) p a.
Proof. by exists p. Qed.
Lemma reads_eq {A} (c : M P A) p a b : reads c p a -> a = b -> reads c p b.
Proof. by intros Hr ->. Qed.
Lemma reads_bind {A B} (c : M P A) (g : A -> M P B) p a b :
  reads c p a -> (forall p', (forall x, config p' x = config p x) -> reads (g a) p' b) -> reads (c ≫= g) p b.
Proof.
  intros (p1 & E1 & C1) Hg. destruct (Hg p1 C1) as (p2 & E2 & C2). exists p2. rewrite (bind_ret _ _ _ _ _ E1).
  split; [done|]. intros x. by rewrite C2.
Qed.

Lemma address_range b d f off : pci_ok b d f off -> u32 (pci_address b d f off) = pci_address b d f off.
Proof.
  intros Hp. apply u32_small. rewrite pci_address_eq by done. destruct Hp as (Hb & Hd & Hf & Ho).
  pose proof (word_of_range off Ho) as [? _]. lia.
Qed.

Lemma select_read a p : u32 a = a -> exists p', (outl PCI_CONFIG_ADDRESS a ;; inl PCI_CONFIG_DATA) p = Ret (config p a) p'
  /\ forall x, config p' x = config p x.
Proof.
  intros Ha. unfold outl, inl. erewrite bind_ret by reflexivity. rewrite Ha.
  change (u16 PCI_CONFIG_ADDRESS) with PCI_CONFIG_ADDRESS. change (u16 PCI_CONFIG_DATA) with PCI_CONFIG_DATA.
  destruct (cfg_address a p) as [L1 C1]. set (p1 := port_outl PCI_CONFIG_ADDRESS a p) in *. destruct (cfg_read p1) as [R2 C2].
  destruct (port_inl PCI_CONFIG_DATA p1) as [v p2]. cbn in *. exists p2. split.
  - rewrite R2, L1, C1. rewrite u32_small by apply cfg_range. done.
  - intros x. by rewrite C2, C1.
Qed.

Lemma read_raw_reads b d f off p : pci_ok b d f off -> reads (pci_config_read_raw b d f off) p (config p (pci_address b d f off)).
Proof. intros Hp. by apply select_read, address_range. Qed.

(** The half of a word that [off] selects. *)
Definition half (w off : Z) : Z := if off mod 4 <? 2 then w mod 65536 else w / 65536.

Lemma land_2 off : Z.land off 2 = if off mod 4 <? 2 then 0 else 2.
Proof.
  replace (Z.land off 2) with (Z.land (off mod 4) 2).
  - pose proof (Z.mod_pos_bound off 4 ltac:(lia)). set (r := off mod 4) in *.
    assert (r = 0 \/ r = 1 \/ r = 2 \/ r = 3) as [-> |[-> |[-> | ->]]] by lia; done.
  - change 4 with (2 ^ 2). rewrite <- Z.land_ones by lia. rewrite <- Z.land_assoc. by change (Z.land (Z.ones 2) 2) with 2.
Qed.

Lemma half_shift w off : 0 <= w < 4294967296 -> Z.land (Z.shiftr w (Z.land off 2 * 8)) 65535 = half w off.
Proof.
  intros Hw. rewrite land_2. unfold half. change 65535 with (Z.ones 16). rewrite Z.land_ones, Z.shiftr_div_pow2 by (repeat case_z; lia).
  destruct (off mod 4 <? 2).
  - change (0 * 8) with 0. rewrite Z.pow_0_r, Z.div_1_r. done.
  - change (2 * 8) with 16. apply Z.mod_small. split; [apply Z.div_pos; lia|apply Z.div_lt_upper_bound; lia].
Qed.

Lemma read_word_reads b d f off p : pci_ok b d f off ->
  reads (pci_config_read_word_raw b d f off) p (half (config p (pci_address b d f off)) off).
Proof.
  intros Hp. unfold pci_config_read_word_raw. pose proof Hp as (Hb & Hd & Hf & Ho).
  destruct (word_of_range off Ho) as [Hw Ew]. rewrite land_252 by done.
  assert (Hp' : pci_ok b d f (word_of off)) by (unfold pci_ok; lia).
  assert (Ea : pci_address b d f (word_of off) = pci_address b d f off) by (rewrite !pci_address_eq, Ew by done; done).
  eapply reads_bind; [apply read_raw_reads; done|]. intros p' _. rewrite Ea.
  rewrite half_shift by apply cfg_range. apply reads_ret.
Qed.

(** What [pci_config_write_word_raw] stores in the whole word. *)
Definition spliced (w off v : Z) : Z := if off mod 4 <? 2 then w / 65536 * 65536 + v else w mod 65536 + 65536 * v.

Lemma splice_eq w off v : 0 <= w < 4294967296 -> 0 <= v < 65536 ->
  (if Z.land off 2 =? 0 then Z.lor (Z.land w 4294901760) v else Z.lor (Z.land w 65535) (Z.shiftl v 16)) = spliced w off v
  /\ 0 <= spliced w off v < 4294967296.
Proof.
  intros Hw Hv. rewrite land_2. unfold spliced. pose proof (Z.div_mod w 65536 ltac:(lia)) as Ew.
  pose proof (Z.mod_pos_bound w 65536 ltac:(lia)). pose proof (Z.div_pos w 65536 ltac:(lia) ltac:(lia)).
  pose proof (Z.div_lt_upper_bound w 65536 65536 ltac:(lia) ltac:(lia)).
  destruct (off mod 4 <? 2); cbn [Z.eqb]; split; try lia.
  - change 4294901760 with (4294967296 - 2 ^ 16). rewrite land_clear_low by lia. change (2 ^ 16) with 65536.
    rewrite (lor_add_disjoint _ v 16); [lia|lia| |lia]. change (2 ^ 16) with 65536. rewrite ?(Z.mul_comm 65536). apply Z.mod_mul. lia.
  - change 65535 with (Z.ones 16). rewrite Z.land_ones, Z.shiftl_mul_pow2, Z.lor_comm by lia. change (2 ^ 16) with 65536.
    rewrite (lor_add_disjoint _ (w mod 65536) 16); [lia|lia|apply Z.mod_mul; lia|lia].
Qed.

Lemma write_word_spec b d f off v p : pci_ok b d f off -> 0 <= v < 65536 ->
  exists p', pci_config_write_word_raw b d f off v p = Ret tt p'
    /\ forall x, config p' x = if x =? pci_address b d f off
         then merge x (config p x) (spliced (config p x) off v) else config p x.
Proof.
  intros Hp Hv. pose proof Hp as (Hb & Hd & Hf & Ho). destruct (word_of_range off Ho) as [Hw Ew].
  unfold pci_config_write_word_raw. rewrite land_252 by done.
  assert (Ea : pci_address b d f (word_of off) = pci_address b d f off).
  { rewrite !pci_address_eq, Ew by (done || (unfold pci_ok; lia)). done. }
  rewrite Ea. set (a := pci_address b d f off). cbv zeta.
  destruct (select_read a p (address_range _ _ _ _ Hp)) as (p1 & E1 & C1). apply bind_inv in E1 as ([] & p0 & E0 & E1).
  rewrite (bind_ret _ _ _ _ _ E0), (bind_ret _ _ _ _ _ E1).
  destruct (splice_eq (config p a) off v (cfg_range p a) Hv) as [Es Rs]. rewrite Es. unfold outl.
  erewrite bind_ret by reflexivity. eexists. split; [reflexivity|]. intros x. rewrite (u32_small (spliced _ _ _)) by done.
  change (u16 PCI_CONFIG_ADDRESS) with PCI_CONFIG_ADDRESS. change (u16 PCI_CONFIG_DATA) with PCI_CONFIG_DATA.
  assert (Eu : u32 a = a) by (by apply address_range). rewrite Eu, cfg_write. destruct (cfg_address a p1) as [L2 C2]. rewrite L2, !C2, !C1.
  case_z; [by subst|done].
Qed.

(** Splicing keeps the other half. *)
Lemma half_spliced w off v : 0 <= v < 65536 ->
  half (spliced w off v) off = v /\ half (spliced w off v) (off + 2) = half w (off + 2).
Proof.
  intros Hv. unfold half, spliced. pose proof (Z.mod_pos_bound off 4 ltac:(lia)).
  assert (E2 : ((off + 2) mod 4 <? 2) = negb (off mod 4 <? 2)).
  { rewrite Zplus_mod. change (2 mod 4) with 2. set (r := off mod 4) in *.
    assert (r = 0 \/ r = 1 \/ r = 2 \/ r = 3) as [-> |[-> |[-> | ->]]] by lia; done. }
  rewrite E2. pose proof (Z.mod_pos_bound w 65536 ltac:(lia)). destruct (off mod 4 <? 2); cbn [negb].
  - replace (w / 65536 * 65536 + v) with (v + w / 65536 * 65536) by lia.
    rewrite Z.mod_add, Z.div_add, (Z.mod_small v), (Z.div_small v) by lia. lia.
  - replace (w mod 65536 + 65536 * v) with (w mod 65536 + v * 65536) by lia.
    rewrite Z.mod_add, Z.div_add, Z.mod_mod, (Z.div_small (w mod 65536)) by lia. lia.
Qed.

(** Configuration registers keep what is written. Writing a 16-bit field of a
    register whose bits are all writable and reading it back gives the value
    written; the other half of the 32-bit word and every register of every other
    function read as before. *)
Theorem pci_word_roundtrip b d f off v p :
  pci_ok b d f off -> off mod 2 = 0 -> 0 <= v < 65536 ->
  (forall w u, 0 <= u < 4294967296 -> merge (pci_address b d f off) w u = u) ->
  exists p1 p2, pci_config_write_word_raw b d f off v p = Ret tt p1
    /\ pci_config_read_word_raw b d f off p1 = Ret v p2
    /\ half (config p1 (pci_address b d f off)) (off + 2) = half (config p (pci_address b d f off)) (off + 2)
    /\ (forall b' d' f' off', pci_ok b' d' f' off' -> (b', d', f', word_of off') <> (b, d, f, word_of off) ->
          config p1 (pci_address b' d' f' off') = config p (pci_address b' d' f' off')).
Proof.
  intros Hp He Hv Hm. destruct (write_word_spec b d f off v p Hp Hv) as (p1 & E1 & C1). exists p1.
  assert (Ea : config p1 (pci_address b d f off) = spliced (config p (pci_address b d f off)) off v) by (rewrite C1, Z.eqb_refl; apply Hm, (splice_eq _ off v (cfg_range _ _) Hv)).
  destruct (read_word_reads b d f off p1 Hp) as (p2 & E2 & _). exists p2.
  destruct (half_spliced (config p (pci_address b d f off)) off v Hv) as [S1 S2]. rewrite Ea in E2 |- *. rewrite S1 in E2.
  split; [exact E1|]. split; [exact E2|]. split; [exact S2|]. intros b' d' f' off' Hp' Hne. rewrite C1.
  destruct (Z.eqb_spec (pci_address b' d' f' off') (pci_address b d f off)) as [E|]; [|done].
  destruct (pci_address_inj _ _ _ _ _ _ _ _ Hp' Hp E) as (-> & -> & -> & Ew). by rewrite Ew in Hne.
Qed.

(** The status half of the command word is write-one-to-clear: writing the command
    through [pci_config_write_word_raw], which stores back the status it read,
    clears every pending status bit. *)
Lemma command_write_clears_status b d f v p :
  pci_ok b d f PCI_COMMAND -> 0 <= v < 65536 ->
  (forall w u, merge (pci_address b d f PCI_COMMAND) w u = u mod 65536 + 65536 * Z.ldiff (w / 65536) (u / 65536)) ->
  exists p', pci_config_write_word_raw b d f PCI_COMMAND v p = Ret tt p'
    /\ config p' (pci_address b d f PCI_COMMAND) = v.
Proof.
  intros Hp Hv Hm. destruct (write_word_spec b d f PCI_COMMAND v p Hp Hv) as (p1 & E1 & C1). exists p1. split; [done|].
  rewrite C1, Z.eqb_refl, Hm. set (w := config p _). unfold spliced. change (PCI_COMMAND mod 4 <? 2) with true. cbv iota.
  replace (w / 65536 * 65536 + v) with (v + w / 65536 * 65536) by lia.
  rewrite Z.mod_add, Z.div_add, (Z.mod_small v), (Z.div_small v) by lia. rewrite Z.add_0_l, Z.ldiff_diag. lia.
Qed.
End Config.

(** * Enumeration *)

Section Enumeration.
Context {P : Type} `{PciConfig P}.

(** The I/O base: the address in the first register whose low bit says that it is
    one of I/O space, without its two low bits; 0 when there is none. *)
Definition io_space (bars : list Z) : Z :=
  match List.filter Z.odd bars with b :: _ => b - b mod 4 | [] => 0 end.

Lemma detect_iobase_first bars : Forall (fun b => in_u32 b) bars -> detect_iobase bars = io_space bars.
Proof.
  unfold io_space. induction 1 as [|b bars Hb Hbs IH]; [done|]. cbn [detect_iobase List.filter].
  change (Z.land b 1) with (Z.land b (Z.ones 1)). rewrite Z.land_ones by lia. change (2 ^ 1) with 2. rewrite Zmod_odd.
  change 4294967292 with (4294967296 - 2 ^ 2). rewrite land_clear_low by lia. change (2 ^ 2) with 4.
  destruct (Z.eqb_spec b 0) as [-> |]; [done|]. destruct (Z.odd b); cbn [negb Z.eqb]; [zlia|done].
Qed.

(** The description of a function that responds, from its registers. *)
Definition describe (c : Z -> Z) (b d f : Z) : pci_device_desc_t :=
  let reg o := c (pci_address b d f o) in
  let bars := map reg [PCI_BAR0; PCI_BAR1; PCI_BAR2; PCI_BAR3; PCI_BAR4; PCI_BAR5] in
  mkPci (mkInfo (half (reg 0) 0) (half (reg 2) 2) (pci_lookup_device (half (reg 0) 0) (half (reg 2) 2)))
    b d f bars (io_space bars) (Z.land (half (reg 60) 60) 255) false.
Definition present (c : Z -> Z) (b d f : Z) : bool := negb (half (c (pci_address b d f 0)) 0 =? 65535).

Lemma read_bars_reads (desc : pci_device_desc_t) os : forall p, Forall (fun o => pci_ok (bus desc) (device desc) (function desc) o) os ->
  reads (read_bars desc os) p (map (fun o => config p (pci_address (bus desc) (device desc) (function desc) o)) os).
Proof.
  induction os as [|o os IH]; intros p Ho; cbn [read_bars map]; [apply reads_ret|]. apply Forall_cons in Ho as [Ho1 Ho2].
  eapply reads_bind; [by apply read_raw_reads|]. intros p1 C1. eapply reads_bind; [by apply IH|]. intros p2 C2.
  replace (map (fun o => config p1 _) os) with (map (fun o => config p (pci_address (bus desc) (device desc) (function desc) o)) os)
    by (apply map_ext; intros; by rewrite C1). apply reads_ret.
Qed.

Lemma probe_reads b d f p : pci_ok b d f 0 ->
  reads (pci_probe b d f) p (if present (config p) b d f then Some (describe (config p) b d f) else None).
Proof.
  intros Hp. assert (Ok : forall o, 0 <= o < 256 -> pci_ok b d f o) by (unfold pci_ok in *; intros; lia).
  unfold pci_probe, present. eapply reads_bind; [by apply read_word_reads|]. intros p1 C1.
  destruct (Z.eqb_spec (half (config p (pci_address b d f 0)) 0) 65535); cbn [negb]; [apply reads_ret|].
  eapply reads_bind; [apply read_word_reads, Ok; lia|]. intros p2 C2.
  eapply reads_bind; [apply read_raw_reads, Ok; lia|]. intros p3 C3.
  eapply reads_bind; [apply read_raw_reads, Ok; lia|]. intros p4 C4.
  eapply reads_bind;
    [unfold pci_read_bars; apply read_bars_reads; repeat (apply Forall_cons; split; [apply Ok; split; by vm_compute|]); by apply Forall_nil|]. intros p5 C5. cbv zeta.
  eapply reads_bind.
  { eapply reads_bind; [apply read_word_reads, Ok; unfold PCI_INTERRUPT_LINE; lia|]. intros p6 C6. apply reads_ret. }
  intros p7 C7. assert (E4 : forall x, config p4 x = config p x) by (intros x; by rewrite C4, C3, C2, C1).
  eapply reads_eq; [apply reads_ret|]. unfold describe, pci_detect_iobase. cbn [bus device function bar dev_info io_base map].
  rewrite detect_iobase_first by (repeat (apply Forall_cons; split; [apply cfg_range|]); by apply Forall_nil). by rewrite !C5, !E4, !C1.
Qed.

(** The functions that the loops visit, in their order. *)
Definition functions : list (Z * Z * Z) :=
  mjoin (map (fun b => mjoin (map (fun d => mjoin (map (fun f => [(b, d, f)]) (seqZ 0 8))) (seqZ 0 32))) (seqZ 0 255)).

Section Log.
(** A handler that notes each device it is given. *)
Abbreviation S := (P * list pci_device_desc_t)%type.
Definition note_device (desc : pci_device_desc_t) : M S unit := modify (fun s => (s.1, s.2 ++ [desc])).
Definition probe_all := pci_enumerate (S := S) fst (fun p s => (p, s.2)) note_device.

(** The notes that probing [fs] adds. *)
Definition found (c : Z -> Z) (fs : list (Z * Z * Z)) : list pci_device_desc_t :=
  map (fun '(b, d, f) => describe c b d f) (List.filter (fun '(b, d, f) => present c b d f) fs).

Definition notes (c : M S unit) (fs : list (Z * Z * Z)) : Prop := forall p l,
  exists p', c (p, l) = Ret tt (p', l ++ found (config p) fs) /\ forall x, config p' x = config p x.

Lemma found_ext c c' fs : (forall x, c' x = c x) -> found c' fs = found c fs.
Proof.
  intros Hc. unfold found, present. induction fs as [|[[b d] f] fs IH]; [done|]. cbn [List.filter]. rewrite Hc.
  destruct (negb _); cbn [map]; rewrite IH; [|done]. f_equal. unfold describe. cbn [map]. by rewrite !Hc.
Qed.
Lemma found_app c fs gs : found c (fs ++ gs) = found c fs ++ found c gs.
Proof. unfold found. by rewrite List.filter_app, map_app. Qed.

Lemma notes_loop body (g : Z -> list (Z * Z * Z)) n : forall i,
  (forall j, i <= j < i + Z.of_nat n -> notes (body j) (g j)) -> notes (for_loop n i body) (mjoin (map g (seqZ i (Z.of_nat n)))).
Proof.
  induction n as [|n IH]; intros i Hb p l; cbn [for_loop].
  - exists p. rewrite seqZ_nil by lia. cbn. by rewrite app_nil_r.
  - destruct (Hb i ltac:(lia) p l) as (p1 & E1 & C1). rewrite (bind_ret _ _ _ _ _ E1).
    destruct (IH (i + 1) ltac:(intros; apply Hb; lia) p1 (l ++ found (config p) (g i))) as (p2 & E2 & C2).
    exists p2. rewrite E2. rewrite (found_ext (config p) (config p1)) by done. split; [|intros x; by rewrite C2].
    rewrite (seqZ_cons i (Z.of_nat (Datatypes.S n))) by lia. replace (Z.pred (Z.of_nat (Datatypes.S n))) with (Z.of_nat n) by lia. replace (Z.succ i) with (i + 1) by lia.
    cbn [map]. change (mjoin (g i :: ?t)) with (g i ++ mjoin t). rewrite found_app. by rewrite app_assoc.
Qed.

Lemma probe_notes b d f : pci_ok b d f 0 -> notes (probe_one (S := S) fst (fun p s => (p, s.2)) note_device b d f) [(b, d, f)].
Proof.
  intros Hp p l. destruct (probe_reads b d f p Hp) as (p' & E & C). exists p'. split; [|done].
  unfold probe_one. erewrite bind_ret by (unfold zoom; cbn [fst]; rewrite E; reflexivity). unfold found. cbn [List.filter].
  destruct (present (config p) b d f); [done|]. cbn. by rewrite app_nil_r.
Qed.

(** C34: Enumeration finds every function that responds on buses 0 to 254, once and
    in order. It returns, leaves every configuration register as it was, and hands
    to the driver matcher exactly the descriptions of those functions, with
    vendor, device, address registers, I/O base and interrupt line read from their
    registers. (Bus 255 is not probed.) *)
Theorem pci_enumerate_finds p :
  exists p', probe_all (p, []) = Ret tt (p', found (config p) functions) /\ forall x, config p' x = config p x.
Proof.
  assert (N : notes probe_all functions).
  { unfold probe_all, pci_enumerate, functions.
    apply (notes_loop _ (fun b => mjoin (map (fun d => mjoin (map (fun f => [(b, d, f)]) (seqZ 0 8))) (seqZ 0 32))) 255 0). intros b Hb.
    apply (notes_loop _ (fun d => mjoin (map (fun f => [(b, d, f)]) (seqZ 0 8))) 32 0). intros d Hd.
    apply (notes_loop _ (fun f => [(b, d, f)]) 8 0). intros f Hf. apply probe_notes. unfold pci_ok. lia. }
  exact (N p []).
Qed.
End Log.
End Enumeration.

(** * A bus *)

(** Registers that keep what is written; absent ones read as all ones. *)
Record simple_bus := mkBus { sb_latch : Z; sb_words : gmap Z Z }.
#[export] Instance bus_ports : Ports simple_bus := {|
  port_outb _ _ b := b;
  port_inb _ b := (255, b);
  port_outl port v b :=
    if port =? PCI_CONFIG_ADDRESS then mkBus v (sb_words b)
    else if port =? PCI_CONFIG_DATA then mkBus (sb_latch b) (<[sb_latch b := v]> (sb_words b)) else b;
  port_inl port b := (if port =? PCI_CONFIG_DATA then u32 (default 4294967295 (sb_words b !! sb_latch b)) else 4294967295, b)
|}.
#[export, refine] Instance bus_config : PciConfig simple_bus := {|
  latch := sb_latch;
  config b a := u32 (default 4294967295 (sb_words b !! a));
  merge _ _ v := u32 v
|}.
Proof.
  - intros p a. apply u32_range.
  - done.
  - done.
  - intros v p x. cbn. destruct (Z.eqb_spec x (sb_latch p)) as [-> |]; [by rewrite lookup_insert_eq|by rewrite lookup_insert_ne].
Defined.

Definition demo_bus : simple_bus := mkBus 0 (<[pci_address 0 3 0 0 := 269385862]> (<[pci_address 0 3 0 60 := 267]> ∅)).
(** One device at 0:3.0, an e1000 on line 11. *)
Example demo_bus_probe :
  match pci_probe 0 3 0 demo_bus, pci_probe 0 4 0 demo_bus with
  | Ret (Some d) _, Ret None _ => (vendor_id (dev_info d), device_id (dev_info d), pci_irq d)
  | _, _ => (0, 0, 0)
  end = (32902, 4110, 11).
Proof. vm_compute. reflexivity. Qed.

Lemma pci_word_roundtrip_witness : exists p1 p2,
  pci_config_write_word_raw 0 3 0 60 1290 demo_bus = Ret tt p1 /\ pci_config_read_word_raw 0 3 0 60 p1 = Ret 1290 p2
  /\ config p1 (pci_address 0 3 0 0) = config demo_bus (pci_address 0 3 0 0).
Proof.
  destruct (pci_word_roundtrip 0 3 0 60 1290 demo_bus) as (p1 & p2 & E1 & E2 & _ & C);
    [unfold pci_ok; lia|reflexivity|lia|intros w u Hu; apply u32_small; exact Hu|].
  exists p1, p2. split; [exact E1|]. split; [exact E2|]. apply C; [unfold pci_ok; lia|vm_compute; discriminate].
Defined.

(** The whole enumeration of that bus. *)
Lemma pci_enumerate_finds_witness : exists p',
  probe_all (demo_bus, []) = Ret tt (p', [mkPci (mkInfo 32902 4110 (pci_lookup_device 32902 4110)) 0 3 0 (replicate 6 4294967295) 4294967292 11 false])
  /\ forall x, config p' x = config demo_bus x.
Proof.
  assert (F : found (config demo_bus) functions
    = [mkPci (mkInfo 32902 4110 (pci_lookup_device 32902 4110)) 0 3 0 (replicate 6 4294967295) 4294967292 11 false])
    by (vm_compute; reflexivity).
  destruct (pci_enumerate_finds demo_bus) as (p' & E & C). exists p'. split; [|exact C].
  exact (eq_trans E (f_equal (fun l => Ret tt (p', l)) F)).
Defined.
