(* ===== verification/E1k.v ===== *)
(** Network card driver: stage2/dev/e1k.c with inc/dev/e1k.h and inc/dev/nic.h,
    and the choice of the driver in stage2/dev/pci_devices.c.

    The card's registers are mapped into the address space or behind ports; the
    class [Mmio] is the former together with what the card does to memory on its
    own ([dma]). The card acts after every register access and before every read
    of a descriptor's status, the points at which the driver can observe it. Rings
    and packet buffers are bytes of the kernel's memory, in the layout of
    [e1k_tx_desc_t] and [e1k_rx_desc_t]. Lines of the log are left out. *)
From S2P Require Import Prelude Mem HeapSpec Net Ports Cpu Pci.

Class Mmio (W : Type) := {
  mmio_write : Z -> Z -> W -> W;
  mmio_read : Z -> W -> Z * W;
  dma : ram -> W -> ram * W
}.

(** * Registers and descriptors *)

Definition E1K_REG_CTRL : Z := 0.
Definition E1K_REG_STATUS : Z := 8.
Definition E1K_CTRL_RST : Z := 67108864.
Definition E1K_CTRL_SLU : Z := 64.
Definition E1K_CTRL_FRCSPD : Z := 2048.
Definition E1K_CTRL_FRCDPX : Z := 4096.
Definition E1K_CTRL_FD : Z := 1.
Definition E1K_REG_EECD : Z := 16.
Definition E1K_REG_EERD : Z := 20.
Definition E1K_EERD_START : Z := 1.
Definition E1K_EERD_DONE : Z := 16.
Definition E1K_EECD_EE_PRES : Z := 256.
Definition E1K_REG_RDTR : Z := 10272.
Definition E1K_REG_RADV : Z := 10284.
Definition E1K_REG_IMS : Z := 208.
Definition E1K_REG_ICR : Z := 192.
Definition E1K_REG_ITR : Z := 196.
Definition E1K_ICR_TXDW : Z := 1.
Definition E1K_ICR_LSC : Z := 4.
Definition E1K_ICR_RXO : Z := 64.
Definition E1K_ICR_RXT0 : Z := 128.
Definition E1K_TDBAL : Z := 14336.
Definition E1K_TDBAH : Z := 14340.
Definition E1K_TDLEN : Z := 14344.
Definition E1K_TDH : Z := 14352.
Definition E1K_TDT : Z := 14360.
Definition E1K_TCTL : Z := 1024.
Definition E1K_TIPG : Z := 1040.
Definition E1K_TCTL_EN : Z := 2.
Definition E1K_TCTL_PSP : Z := 8.
Definition E1K_RAL0 : Z := 21504.
Definition E1K_RAH0 : Z := 21508.
Definition E1K_RAH_AV : Z := 2147483648.
Definition E1K_RDBAL : Z := 10240.
Definition E1K_RDBAH : Z := 10244.
Definition E1K_RDLEN : Z := 10248.
Definition E1K_RDH : Z := 10256.
Definition E1K_RDT : Z := 10264.
Definition E1K_RXDCTL : Z := 10280.
Definition E1K_RXDCTL_EN : Z := 33554432.
Definition E1K_RCTL : Z := 256.
Definition E1K_RCTL_EN : Z := 2.
Definition E1K_RXD_STAT_DD : Z := 1.
Definition E1K_RXD_STAT_EOP : Z := 2.
Definition E1K_RXD_ERR_FRAME_ERR_MASK : Z := 15.
Definition CMD_EOP : Z := 1.
Definition CMD_IFCS : Z := 2.
Definition CMD_RS : Z := 8.
Definition STATUS_DD : Z := 1.
Definition NUM_TX_DESC : Z := 8.
Definition TX_BUF_SIZE : Z := 2048.
Definition NUM_RX_DESC : Z := 32.
Definition RX_BUF_SIZE : Z := 2048.
Definition sizeof_desc : Z := 16.

Definition e1k_irq_mask : Z := Z.lor (Z.lor (Z.lor E1K_ICR_TXDW E1K_ICR_LSC) E1K_ICR_RXO) E1K_ICR_RXT0.

(** [RCTL] without its enable bit: SBP, UPE, MPE, MO_3, BAM, SECRC. *)
Definition rctl_config : Z :=
  Z.lor (Z.lor (Z.lor (Z.lor (Z.lor 4 8) 16) (Z.shiftl 3 12)) 32768) 67108864.
Definition tctl_config : Z :=
  Z.lor (Z.lor (Z.lor E1K_TCTL_EN E1K_TCTL_PSP) (Z.shiftl 16 4)) (Z.shiftl 64 12).

(** Fields of a descriptor at address [d]; [addr] is stored as 64 bits. *)
Definition desc_addr (m : ram) (d : Z) : Z := ld32 m d.
Definition desc_length (m : ram) (d : Z) : Z := ld16 m (d + 8).
Definition desc_cmd (m : ram) (d : Z) : Z := ld8 m (d + 11).
Definition desc_status (m : ram) (d : Z) : Z := ld8 m (d + 12).
Definition desc_errors (m : ram) (d : Z) : Z := ld8 m (d + 13).
Definition st_addr (d v : Z) (m : ram) : ram := st32 (d + 4) 0 (st32 d v m).

(** * Driver state *)

Record nic_descriptor := mkNic { desc : pci_device_desc_t; mac : list Z }.

(** The world behind ports and registers is the [io] part of the CPU's state. *)
Record e1k (W H : Type) := mkE1k {
  ecpu : cpu W H; eheap : heap; nic_e1k : nic_descriptor;
  tx_ring : Z; tx_bufs : Z; tx_tail : Z; rx_ring : Z; rx_bufs : Z; rx_tail : Z
}.
Arguments mkE1k {W H}. Arguments ecpu {W H}. Arguments eheap {W H}. Arguments nic_e1k {W H}.
Arguments tx_ring {W H}. Arguments tx_bufs {W H}. Arguments tx_tail {W H}.
Arguments rx_ring {W H}. Arguments rx_bufs {W H}. Arguments rx_tail {W H}.

Section Driver.
Context {W H : Type} `{Ports W} `{Mmio W}.
Abbreviation E := (e1k W H).
Abbreviation EM := (M E).

Definition world (s : E) : W := io (ecpu s).
Definition eram (s : E) : ram := hram (eheap s).
Definition set_cpu (c : cpu W H) (s : E) : E :=
  mkE1k c (eheap s) (nic_e1k s) (tx_ring s) (tx_bufs s) (tx_tail s) (rx_ring s) (rx_bufs s) (rx_tail s).
Definition set_heap (h : heap) (s : E) : E :=
  mkE1k (ecpu s) h (nic_e1k s) (tx_ring s) (tx_bufs s) (tx_tail s) (rx_ring s) (rx_bufs s) (rx_tail s).
Definition set_nic_desc (n : nic_descriptor) (s : E) : E :=
  mkE1k (ecpu s) (eheap s) n (tx_ring s) (tx_bufs s) (tx_tail s) (rx_ring s) (rx_bufs s) (rx_tail s).
Definition set_tx (ring bufs tail : Z) (s : E) : E :=
  mkE1k (ecpu s) (eheap s) (nic_e1k s) ring bufs tail (rx_ring s) (rx_bufs s) (rx_tail s).
Definition set_rx (ring bufs tail : Z) (s : E) : E :=
  mkE1k (ecpu s) (eheap s) (nic_e1k s) (tx_ring s) (tx_bufs s) (tx_tail s) ring bufs tail.
Definition set_world (w : W) (s : E) : E :=
  set_cpu (mkCpu w (idt (ecpu s)) (irq_handlers (ecpu s)) (idtr (ecpu s))) s.
Definition set_eram (m : ram) (s : E) : E := set_heap (set_ram m (eheap s)) s.

Definition on_cpu {A} (c : M (cpu W H) A) : EM A := zoom ecpu set_cpu c.
Definition on_world {A} (c : M W A) : EM A := zoom world set_world c.
Definition on_heap {A} (c : M heap A) : EM A := zoom eheap set_heap c.
Definition on_eram (f : ram -> ram) : EM unit := modify (fun s => set_eram (f (eram s)) s).

(** What the card does meanwhile. *)
Definition bus_run : EM unit := modify (fun s =>
  let '(m, w) := dma (eram s) (world s) in set_world w (set_eram m s)).

(** * Registers *)

Definition e1k_is_mmio (s : E) : bool := Z.land (nth 0 (bar (desc (nic_e1k s))) 0) 1 =? 0.
Definition reg_addr (s : E) (reg : Z) : Z := u32 (io_base (desc (nic_e1k s)) + reg).

Definition e1k_write (reg val : Z) : EM unit :=
  s ← gets id;
  (if e1k_is_mmio s then on_world (modify (mmio_write (reg_addr s reg) (u32 val)))
   else on_world (outl (reg_addr s reg) val)) ;;
  bus_run.

Definition e1k_read (reg : Z) : EM Z :=
  s ← gets id;
  v ← (if e1k_is_mmio s
       then on_world (fun w => let '(v, w') := mmio_read (reg_addr s reg) w in Ret (u32 v) w')
       else on_world (inl (reg_addr s reg)));
  bus_run ;;
  mret v.

(** * Station address *)

Definition e1k_get_mac : EM (list Z) := gets (fun s => take 6 (mac (nic_e1k s))).

Fixpoint detect_loop (n : nat) : EM bool :=
  match n with
  | O => mret false
  | S n' =>
      val ← e1k_read E1K_REG_EECD;
      if negb (Z.land val E1K_EECD_EE_PRES =? 0) then mret true else detect_loop n'
  end.
Definition e1k_detect_eeprom : EM bool := detect_loop (Z.to_nat 1000).

(** [while (!(read & bit)) if (++timeout > n) return timeout]: [n + 1] reads at
    most; [true] when the bit was seen. *)
Fixpoint poll_reg (n : nat) (reg bit : Z) : EM bool :=
  v ← e1k_read reg;
  if negb (Z.land v bit =? 0) then mret true
  else match n with O => mret false | S n' => poll_reg n' reg bit end.

Definition e1k_read_eeprom (addr : Z) : EM Z :=
  e1k_write E1K_REG_EERD (Z.lor (Z.shiftl addr 8) E1K_EERD_START) ;;
  done ← poll_reg (Z.to_nat 100000) E1K_REG_EERD E1K_EERD_DONE;
  if done : bool then
    v ← e1k_read E1K_REG_EERD;
    mret (u16 (Z.shiftr v 16))
  else mret 65535.

Definition set_mac (l : list Z) : EM unit := modify (fun s => set_nic_desc (mkNic (desc (nic_e1k s)) l) s).

Definition e1k_read_mac : EM unit :=
  for_loop 3 0 (fun i =>
    word ← e1k_read_eeprom i;
    if word =? 65535 then mret tt
    else
      l ← gets (fun s => mac (nic_e1k s));
      set_mac (<[Z.to_nat (i * 2 + 1) := Z.land (Z.shiftr word 8) 255]> (<[Z.to_nat (i * 2) := Z.land word 255]> l))).

Definition mac_byte (l : list Z) (i : nat) : Z := nth i l 0.
Definition ral_of (l : list Z) : Z :=
  Z.lor (Z.lor (Z.lor (mac_byte l 0) (Z.shiftl (mac_byte l 1) 8)) (Z.shiftl (mac_byte l 2) 16)) (Z.shiftl (mac_byte l 3) 24).
Definition rah_of (l : list Z) : Z :=
  Z.lor (Z.lor (mac_byte l 4) (Z.shiftl (mac_byte l 5) 8)) E1K_RAH_AV.

Definition e1k_program_mac : EM unit :=
  l ← gets (fun s => mac (nic_e1k s));
  e1k_write E1K_RAL0 (ral_of l) ;;
  e1k_write E1K_RAH0 (rah_of l).

(** The branch of [e1k_init] without an EEPROM. *)
Definition mac_of_regs (ral rah : Z) (l : list Z) : list Z :=
  [Z.land ral 255; Z.land (Z.shiftr ral 8) 255; Z.land (Z.shiftr ral 16) 255; Z.land (Z.shiftr ral 24) 255;
   Z.land rah 255; Z.land (Z.shiftr rah 8) 255] ++ drop 6 l.

Definition e1k_mmio_post : EM unit := e1k_read E1K_TDT ;; mret tt.

(** * Rings *)

Section Rings.
Context `{KernelHeap}.

Definition e1k_tx_init : EM unit :=
  ring_addr ← on_heap (malloc (sizeof_desc * NUM_TX_DESC + 128));
  let ring := align_up_uintptr ring_addr 128 in
  bufs ← on_heap (malloc (NUM_TX_DESC * TX_BUF_SIZE));
  tail ← gets tx_tail;
  modify (set_tx ring bufs tail) ;;
  on_eram (memset ring 0 (sizeof_desc * NUM_TX_DESC)) ;;
  for_loop (Z.to_nat NUM_TX_DESC) 0 (fun i =>
    let d := u32 (ring + sizeof_desc * i) in
    let b := u32 (bufs + TX_BUF_SIZE * i) in
    on_eram (fun m => st8 (d + 12) STATUS_DD (st_addr d b (memset b 0 TX_BUF_SIZE m)))) ;;
  e1k_write E1K_TDBAL ring ;;
  e1k_write E1K_TDBAH 0 ;;
  e1k_write E1K_TDLEN (NUM_TX_DESC * sizeof_desc) ;;
  e1k_write E1K_TDH 0 ;;
  e1k_write E1K_TDT 0 ;;
  e1k_mmio_post ;;
  modify (set_tx ring bufs 0) ;;
  e1k_write E1K_TCTL tctl_config ;;
  e1k_write E1K_TIPG 6299658.

(** The delay loop has no effect; the six reads at the end are only printed. *)
Definition e1k_rx_init : EM unit :=
  ring_addr ← on_heap (malloc (sizeof_desc * NUM_RX_DESC + 128));
  let ring := align_up_uintptr ring_addr 128 in
  bufs ← on_heap (malloc (NUM_RX_DESC * RX_BUF_SIZE));
  tail ← gets rx_tail;
  modify (set_rx ring bufs tail) ;;
  on_eram (memset ring 0 (sizeof_desc * NUM_RX_DESC)) ;;
  for_loop (Z.to_nat NUM_RX_DESC) 0 (fun i =>
    let d := u32 (ring + sizeof_desc * i) in
    let b := u32 (bufs + RX_BUF_SIZE * i) in
    on_eram (fun m => st16 (d + 8) 0 (st8 (d + 12) 0 (st_addr d b (memset b 0 RX_BUF_SIZE m))))) ;;
  e1k_write E1K_RDBAL ring ;;
  e1k_write E1K_RDBAH 0 ;;
  e1k_write E1K_RDLEN (NUM_RX_DESC * sizeof_desc) ;;
  e1k_write E1K_RCTL rctl_config ;;
  e1k_write E1K_RDH 0 ;;
  e1k_write E1K_RDT (NUM_RX_DESC - 1) ;;
  e1k_write E1K_RXDCTL 0 ;;
  modify (set_rx ring bufs 0) ;;
  rxdctl ← e1k_read E1K_RXDCTL;
  e1k_write E1K_RXDCTL (Z.lor rxdctl E1K_RXDCTL_EN) ;;
  e1k_write E1K_RCTL (Z.lor rctl_config E1K_RCTL_EN) ;;
  e1k_write E1K_REG_ITR 0 ;;
  e1k_write E1K_REG_RDTR 0 ;;
  e1k_write E1K_REG_RADV 0 ;;
  e1k_write E1K_RDT (NUM_RX_DESC - 1) ;;
  e1k_read E1K_REG_STATUS ;;
  e1k_read E1K_RDH ;;
  e1k_read E1K_RDT ;;
  e1k_read E1K_RCTL ;;
  e1k_read E1K_RDBAL ;;
  e1k_read E1K_RDLEN ;;
  mret tt.
End Rings.

(** [desc->status], after whatever the card has written by now. *)
Definition poll_status (d : Z) : EM Z := bus_run ;; gets (fun s => desc_status (eram s) d).

(** [while (!(desc->status & STATUS_DD)) if (++wait > n) return ...]. *)
Fixpoint wait_done (n : nat) (d : Z) : EM bool :=
  v ← poll_status d;
  if negb (Z.land v STATUS_DD =? 0) then mret true
  else match n with O => mret false | S n' => wait_done n' d end.

Definition e1k_send (frame len : Z) : EM Z :=
  if TX_BUF_SIZE <? len then mret (-1)
  else
    hw_tdt ← e1k_read E1K_TDT;
    let cur := Z.land hw_tdt (NUM_TX_DESC - 1) in
    ring ← gets tx_ring;
    bufs ← gets tx_bufs;
    let d := u32 (ring + sizeof_desc * cur) in
    ready ← wait_done (Z.to_nat 2000000) d;
    if negb ready then mret (-2)
    else
      on_eram (memcpy (u32 (bufs + TX_BUF_SIZE * cur)) frame len) ;;
      on_eram (fun m => st8 (d + 12) 0 (st8 (d + 11) (Z.lor (Z.lor CMD_EOP CMD_IFCS) CMD_RS) (st16 (d + 8) len m))) ;;
      let next := (cur + 1) mod NUM_TX_DESC in
      e1k_write E1K_TDT next ;;
      e1k_mmio_post ;;
      sent ← wait_done (Z.to_nat 10000000) d;
      if negb sent then mret (-3)
      else modify (set_tx ring bufs next) ;; mret 0.
End Driver.

(** * Reception

    Frames go to [process] ([e1k_process_packet], the Ethernet layer), which works
    on a state [S] that contains the driver's. *)
Section Receive.
Context {W H S : Type} `{Ports W} `{Mmio W}.
Context (get : S -> e1k W H) (put : e1k W H -> S -> S) (process : list Z -> M S unit).
Definition on_e1k {A} (c : M (e1k W H) A) : M S A := zoom get put c.

(** The frame a completed descriptor holds, if it is one to deliver. *)
Definition rx_frame (m : ram) (d buf : Z) : option (list Z) :=
  if negb (Z.land (desc_status m d) E1K_RXD_STAT_EOP =? 0) then
    if (Z.land (desc_errors m d) E1K_RXD_ERR_FRAME_ERR_MASK =? 0) && (0 <? desc_length m d) then
      let pkt_len := if RX_BUF_SIZE <? desc_length m d then RX_BUF_SIZE else desc_length m d in
      Some (read_bytes_at (Z.to_nat pkt_len) buf m)
    else None
  else None.

(** Clearing a descriptor and handing it back. *)
Definition rx_recycle : M (e1k W H) unit :=
  s ← gets id;
  let d := u32 (rx_ring s + sizeof_desc * rx_tail s) in
  let b := u32 (rx_bufs s + RX_BUF_SIZE * rx_tail s) in
  on_eram (fun m => st_addr d b (st16 (d + 8) 0 (st8 (d + 13) 0 (st8 (d + 12) 0 m)))) ;;
  modify (set_rx (rx_ring s) (rx_bufs s) ((rx_tail s + 1) mod NUM_RX_DESC)) ;;
  e1k_write E1K_RDT (rx_tail s).

Fixpoint e1k_drain_rx (fuel : nat) : M S unit :=
  match fuel with
  | O => out_of_fuel
  | Datatypes.S f =>
      d ← on_e1k (gets (fun s => u32 (rx_ring s + sizeof_desc * rx_tail s)));
      status ← on_e1k (poll_status d);
      if Z.land status E1K_RXD_STAT_DD =? 0 then mret tt
      else
        frame ← on_e1k (gets (fun s => rx_frame (eram s) d (u32 (rx_bufs s + RX_BUF_SIZE * rx_tail s))));
        match frame with Some bytes => process bytes | None => mret tt end ;;
        on_e1k rx_recycle ;;
        e1k_drain_rx f
  end.

Definition handler (fuel : nat) : M S unit :=
  icr ← on_e1k (e1k_read E1K_REG_ICR);
  (if negb (Z.land icr E1K_ICR_RXT0 =? 0) then e1k_drain_rx fuel else mret tt) ;;
  (if negb (Z.land icr E1K_ICR_LSC =? 0) then on_e1k (e1k_read E1K_REG_STATUS) ;; mret tt else mret tt) ;;
  (if negb (Z.land icr E1K_ICR_RXO =? 0) then e1k_drain_rx fuel else mret tt) ;;
  on_e1k (e1k_write E1K_REG_IMS e1k_irq_mask).
End Receive.

(** * Initialisation *)

Section Init.
Context {W H : Type} `{Ports W} `{Mmio W} `{KernelHeap}.
Context (irq_stub_table : nat -> Z) (handler : H).
Abbreviation EM := (M (e1k W H)).

Definition e1k_irq_init : EM unit :=
  irq ← gets (fun s => pci_irq (desc (nic_e1k s)));
  on_cpu (install_irq irq_stub_table (Z.to_nat irq) (Some handler)) ;;
  e1k_read E1K_REG_ICR ;;
  e1k_write E1K_REG_IMS e1k_irq_mask ;;
  on_cpu (on_io (pic_clear_mask irq)) ;;
  e1k_read E1K_REG_STATUS ;;
  mret tt.

(** [while (read & RST) if (++timeout > n) break]. *)
Fixpoint wait_reset (n : nat) : EM unit :=
  v ← e1k_read E1K_REG_CTRL;
  if Z.land v E1K_CTRL_RST =? 0 then mret tt
  else match n with O => mret tt | S n' => wait_reset n' end.

(** The register base that the first address register gives; [None] is a type
    that stops the machine. The upper half of a 64-bit base is dropped. *)
Definition bar_base (bar0 : Z) : option Z :=
  if negb (Z.land bar0 1 =? 0) then Some (Z.land bar0 4294967292)
  else
    let bar_type := Z.land (Z.shiftr bar0 1) 3 in
    if (bar_type =? 0) || (bar_type =? 2) then Some (Z.land bar0 4294967280) else None.

Definition set_base (b : Z) : EM unit := modify (fun s =>
  let d := desc (nic_e1k s) in
  set_nic_desc (mkNic (mkPci (dev_info d) (bus d) (device d) (function d) (bar d) b (pci_irq d) (enabled d)) (mac (nic_e1k s))) s).

(** The configuration-space part of [e1k_init]. *)
Definition e1k_pci_setup : EM unit :=
  dev ← gets (fun s => desc (nic_e1k s));
  cmd ← on_world (pci_config_read_word dev 4);
  on_world (pci_config_write_word dev 4 (Z.lor (Z.lor (Z.lor cmd 4) 1) 2)) ;;
  on_world (pci_config_read_word dev 4) ;;
  on_world (pci_config_read_word dev 60) ;;
  on_world (pci_config_read_word dev 61) ;;
  msi_cap ← on_world (pci_config_read_word dev 80);
  if negb (Z.land msi_cap 1 =? 0) then on_world (pci_config_write_word dev 80 (Z.land msi_cap 65534)) else mret tt.

Definition e1k_reset : EM unit :=
  e1k_write E1K_REG_CTRL E1K_CTRL_RST ;;
  wait_reset (Z.to_nat 1000000) ;;
  ctrl ← e1k_read E1K_REG_CTRL;
  e1k_write E1K_REG_CTRL (Z.lor ctrl (Z.lor (Z.lor (Z.lor E1K_CTRL_SLU E1K_CTRL_FRCSPD) E1K_CTRL_FRCDPX) E1K_CTRL_FD)) ;;
  e1k_read E1K_REG_STATUS ;;
  mret tt.

Definition e1k_find_mac : EM unit :=
  has_eeprom ← e1k_detect_eeprom;
  if has_eeprom : bool then e1k_read_mac
  else
    ral ← e1k_read E1K_RAL0;
    rah ← e1k_read E1K_RAH0;
    l ← gets (fun s => mac (nic_e1k s));
    set_mac (mac_of_regs ral rah l).

Definition e1k_init (nic_desc : nic_descriptor) : EM unit :=
  modify (set_nic_desc nic_desc) ;;
  e1k_pci_setup ;;
  match bar_base (nth 0 (bar (desc nic_desc)) 0) with
  | None => halt
  | Some b => set_base b
  end ;;
  e1k_reset ;;
  e1k_find_mac ;;
  e1k_program_mac ;;
  e1k_tx_init ;;
  e1k_rx_init ;;
  e1k_irq_init.

Definition pci_handle_device (d : pci_device_desc_t) : EM unit :=
  if (vendor_id (dev_info d) =? 32902) && (device_id (dev_info d) =? 4110) then
    e1k_init (mkNic (mkPci (dev_info d) (bus d) (device d) (function d) (bar d) (io_base d) (pci_irq d) true) (replicate 8 0))
  else mret tt.

(** The scan of the bus with this driver. *)
Definition pci_scan : EM unit := pci_enumerate world set_world pci_handle_device.
End Init.
