(* ===== verification/E1kCard.v ===== *)
(** The 82540EM card behind the driver of [E1k]: its rings as a step relation on
    memory and registers, the invariant that driver and card keep between them, and
    that every step of the card preserves it. *)
From S2P Require Import Prelude Mem Net UdpQueue Ports Cpu Pci E1k.

(** * The card *)

(** One filled receive buffer: its bytes, whether it ends a packet, error bits. *)
Record rxitem := mkItem { it_bytes : list Z; it_eop : bool; it_errors : Z }.
Definition item_ok (it : rxitem) : Prop :=
  Z.of_nat (length (it_bytes it)) <= RX_BUF_SIZE /\ Forall (fun b => in_u8 b) (it_bytes it) /\ in_u8 (it_errors it).

(** Registers; frames put on the wire; buffers' worth of frames that will arrive,
    and that have been written to memory, in order. *)
Record card := mkCard { creg : Z -> Z; wire : list (list Z); inbox : list rxitem; history : list rxitem }.

(** The registers that govern the rings; only the driver and the steps below
    change them. *)
Definition ring_regs : list Z :=
  [E1K_TDBAL; E1K_TDLEN; E1K_TDH; E1K_TDT; E1K_TCTL; E1K_RDBAL; E1K_RDLEN; E1K_RDH; E1K_RDT; E1K_RCTL].
Ltac in_regs := unfold ring_regs; repeat first [apply list_elem_of_here | apply list_elem_of_further].
Lemma tx_regs_ring r : r ∈ [E1K_TDBAL; E1K_TDLEN; E1K_TDH; E1K_TDT; E1K_TCTL] -> r ∈ ring_regs.
Proof. intros Hin. repeat (apply elem_of_cons in Hin as [-> | Hin]; [in_regs|]). by apply elem_of_nil in Hin. Qed.
Lemma rx_regs_ring r : r ∈ [E1K_RDBAL; E1K_RDLEN; E1K_RDH; E1K_RDT; E1K_RCTL] -> r ∈ ring_regs.
Proof. intros Hin. repeat (apply elem_of_cons in Hin as [-> | Hin]; [in_regs|]). by apply elem_of_nil in Hin. Qed.
Definition regs_with (c c' : card) (reg v : Z) : Prop :=
  forall r, r ∈ ring_regs -> creg c' r = if r =? reg then v else creg c r.
Definition same_traffic (c c' : card) : Prop :=
  wire c' = wire c /\ inbox c' = inbox c /\ history c' = history c.
Definition same_card (c c' : card) : Prop := (forall r, r ∈ ring_regs -> creg c' r = creg c r) /\ same_traffic c c'.
(** After a write of [v] to [reg]. *)
Definition written (reg v : Z) (c c' : card) : Prop := regs_with c c' reg v /\ same_traffic c c'.

Definition dd (m : ram) (d : Z) : bool := negb (Z.land (desc_status m d) STATUS_DD =? 0).

(** What the card does on its own: transmit the descriptor at its head, fill the
    buffer at its head with the next arrival, or change registers that do not
    concern the rings (interrupt causes, link state, EEPROM). A transmit descriptor
    is a whole frame (EOP) with its status reported (RS), as the driver sets it;
    bytes 10, 11, 14 and 15 of a receive descriptor are arbitrary. *)
Inductive card_step : ram * card -> ram * card -> Prop :=
| step_transmit m c c' :
    let d := creg c E1K_TDBAL + sizeof_desc * creg c E1K_TDH in
    Z.land (creg c E1K_TCTL) E1K_TCTL_EN <> 0 -> creg c E1K_TDH <> creg c E1K_TDT ->
    Z.land (desc_cmd m d) 9 = 9 ->
    regs_with c c' E1K_TDH ((creg c E1K_TDH + 1) mod (creg c E1K_TDLEN / sizeof_desc)) ->
    wire c' = wire c ++ [read_bytes_at (Z.to_nat (desc_length m d)) (desc_addr m d) m] ->
    inbox c' = inbox c -> history c' = history c ->
    card_step (m, c) (st8 (d + 12) (Z.lor (desc_status m d) STATUS_DD) m, c')
| step_receive m c c' it st k0 k1 s0 s1 :
    let d := creg c E1K_RDBAL + sizeof_desc * creg c E1K_RDH in
    let n := Z.of_nat (length (it_bytes it)) in
    Z.land (creg c E1K_RCTL) E1K_RCTL_EN <> 0 -> creg c E1K_RDH <> creg c E1K_RDT ->
    item_ok it -> inbox c = it :: inbox c' -> history c' = history c ++ [it] -> wire c' = wire c ->
    in_u8 st -> Z.land st E1K_RXD_STAT_DD <> 0 -> (Z.land st E1K_RXD_STAT_EOP =? 0) = negb (it_eop it) ->
    regs_with c c' E1K_RDH ((creg c E1K_RDH + 1) mod (creg c E1K_RDLEN / sizeof_desc)) ->
    card_step (m, c)
      (write_bytes (d + 8) [n mod 256; n / 256; k0; k1; st; it_errors it; s0; s1] (write_bytes (desc_addr m d) (it_bytes it) m), c')
| step_other m c c' : same_card c c' -> card_step (m, c) (m, c').

(** * Rings in memory *)

Record layout := mkLayout { l_txr : Z; l_txb : Z; l_rxr : Z; l_rxb : Z }.
Definition apart_areas (a n b m : Z) : Prop := a + n <= b \/ b + m <= a.
(** The four areas: rings of 8 and 32 descriptors and their buffers. *)
Record layout_ok (L : layout) : Prop := {
  lo_pos : 0 <= l_txr L /\ 0 <= l_txb L /\ 0 <= l_rxr L /\ 0 <= l_rxb L;
  lo_top : l_txr L + 128 <= 4294967296 /\ l_txb L + 16384 <= 4294967296 /\ l_rxr L + 512 <= 4294967296 /\ l_rxb L + 65536 <= 4294967296;
  lo_tt : apart_areas (l_txr L) 128 (l_txb L) 16384;
  lo_tr : apart_areas (l_txr L) 128 (l_rxr L) 512;
  lo_tb : apart_areas (l_txr L) 128 (l_rxb L) 65536;
  lo_br : apart_areas (l_txb L) 16384 (l_rxr L) 512;
  lo_bb : apart_areas (l_txb L) 16384 (l_rxb L) 65536;
  lo_rr : apart_areas (l_rxr L) 512 (l_rxb L) 65536
}.
Definition in_areas (L : layout) (x : Z) : Prop :=
  l_txr L <= x < l_txr L + 128 \/ l_txb L <= x < l_txb L + 16384
  \/ l_rxr L <= x < l_rxr L + 512 \/ l_rxb L <= x < l_rxb L + 65536.

Definition txd (L : layout) (i : Z) : Z := l_txr L + sizeof_desc * i.
Definition txbuf (L : layout) (i : Z) : Z := l_txb L + TX_BUF_SIZE * i.
Definition rxd (L : layout) (i : Z) : Z := l_rxr L + sizeof_desc * i.
Definition rxbuf (L : layout) (i : Z) : Z := l_rxb L + RX_BUF_SIZE * i.

(** Transmission: nothing under way, or the frame of slot [t] submitted. *)
Inductive phase := Idle (t : Z) | Busy (t : Z) (bytes : list Z).
Definition at_slot (ph : phase) : Z := match ph with Idle t | Busy t _ => t end.
Definition tail_of (ph : phase) : Z := match ph with Idle t => t | Busy t _ => (t + 1) mod NUM_TX_DESC end.
Definition free_slot (ph : phase) (i : Z) : bool := match ph with Idle _ => true | Busy t _ => negb (i =? t) end.

Definition loaded (L : layout) (m : ram) (t : Z) (bytes : list Z) : Prop :=
  Z.land (desc_cmd m (txd L t)) 9 = 9 /\ desc_length m (txd L t) = Z.of_nat (length bytes)
  /\ Z.of_nat (length bytes) <= TX_BUF_SIZE /\ read_bytes_at (length bytes) (txbuf L t) m = bytes.

Record tx_ok (L : layout) (m : ram) (c : card) (ph : phase) : Prop := {
  tx_base : creg c E1K_TDBAL = l_txr L;
  tx_len : creg c E1K_TDLEN = 128;
  tx_en : Z.land (creg c E1K_TCTL) E1K_TCTL_EN <> 0;
  tx_slot : 0 <= at_slot ph < 8;
  tx_head : creg c E1K_TDH = at_slot ph;
  tx_tdt : creg c E1K_TDT = tail_of ph;
  tx_addr : forall i, 0 <= i < 8 -> desc_addr m (txd L i) = txbuf L i;
  tx_free : forall i, 0 <= i < 8 -> dd m (txd L i) = free_slot ph i;
  tx_load : match ph with Idle _ => True | Busy t bytes => loaded L m t bytes end
}.

(** A filled descriptor in slot [i]. *)
Definition holds (L : layout) (m : ram) (i : Z) (it : rxitem) : Prop :=
  dd m (rxd L i) = true /\ (Z.land (desc_status m (rxd L i)) E1K_RXD_STAT_EOP =? 0) = negb (it_eop it)
  /\ desc_errors m (rxd L i) = it_errors it /\ desc_length m (rxd L i) = Z.of_nat (length (it_bytes it))
  /\ item_ok it /\ read_bytes_at (length (it_bytes it)) (rxbuf L i) m = it_bytes it.

Definition arrived (c : card) : Z := Z.of_nat (length (history c)).

(** [n] buffers have been consumed: those written since are held by the slots that
    follow, the others belong to the card, all but one. *)
Record rx_ok (L : layout) (m : ram) (c : card) (n : Z) : Prop := {
  rx_base : creg c E1K_RDBAL = l_rxr L;
  rx_len : creg c E1K_RDLEN = 512;
  rx_en : Z.land (creg c E1K_RCTL) E1K_RCTL_EN <> 0;
  rx_count : 0 <= n <= arrived c /\ arrived c <= n + 31;
  rx_head : creg c E1K_RDH = arrived c mod 32;
  rx_rdt : creg c E1K_RDT = (n + 31) mod 32;
  rx_addr : forall i, 0 <= i < 32 -> desc_addr m (rxd L i) = rxbuf L i;
  rx_full : forall j it, n <= j -> history c !! Z.to_nat j = Some it -> holds L m (j mod 32) it;
  rx_free : forall j, arrived c <= j < n + 32 -> dd m (rxd L (j mod 32)) = false
}.

(** * Changes that leave a ring alone *)

Lemma desc_ext m m' d : same_on m m' d (d + 16) ->
  desc_addr m d = desc_addr m' d /\ desc_length m d = desc_length m' d /\ desc_cmd m d = desc_cmd m' d
  /\ desc_status m d = desc_status m' d /\ desc_errors m d = desc_errors m' d.
Proof.
  intros E. unfold desc_addr, desc_length, desc_cmd, desc_status, desc_errors.
  repeat split; [apply ld32_ext|apply ld16_ext|..]; intros; apply E; lia.
Qed.
Lemma dd_ext m m' d : same_on m m' d (d + 16) -> dd m d = dd m' d.
Proof. intros (_ & _ & _ & E & _)%desc_ext. unfold dd. by rewrite E. Qed.

Lemma loaded_ext L m m' t bytes : 0 <= t < 8 ->
  same_on m m' (l_txr L) (l_txr L + 128) -> same_on m m' (l_txb L) (l_txb L + 16384) ->
  loaded L m t bytes -> loaded L m' t bytes.
Proof.
  intros Ht S1 S2 (C & E & B & R). unfold loaded, txd, txbuf, sizeof_desc, TX_BUF_SIZE in *.
  destruct (desc_ext m m' (l_txr L + 16 * t)) as (_ & E2 & E3 & _); [eapply same_on_sub; [apply S1|lia|lia]|].
  rewrite <- E2, <- E3. repeat (split; [done|]). rewrite <- R at 2. symmetry. apply read_bytes_ext. intros x Hx. apply S2. lia.
Qed.

Lemma tx_ok_frame L m c m' c' ph : tx_ok L m c ph ->
  (forall r, r ∈ [E1K_TDBAL; E1K_TDLEN; E1K_TDH; E1K_TDT; E1K_TCTL] -> creg c' r = creg c r) ->
  same_on m m' (l_txr L) (l_txr L + 128) -> same_on m m' (l_txb L) (l_txb L + 16384) -> tx_ok L m' c' ph.
Proof.
  intros T R S1 S2. assert (forall i, 0 <= i < 8 -> same_on m m' (txd L i) (txd L i + 16)) as D.
  { intros i Hi. unfold txd, sizeof_desc. eapply same_on_sub; [apply S1|lia|lia]. }
  destruct T. split; try (rewrite R by set_solver); try done.
  - intros i Hi. rewrite <- (proj1 (desc_ext _ _ _ (D i Hi))). auto.
  - intros i Hi. rewrite <- (dd_ext _ _ _ (D i Hi)). auto.
  - destruct ph; [done|]. by eapply loaded_ext.
Qed.

Lemma holds_ext L m m' i it : 0 <= i < 32 ->
  same_on m m' (rxd L i) (rxd L i + 16) -> same_on m m' (rxbuf L i) (rxbuf L i + RX_BUF_SIZE) ->
  holds L m i it -> holds L m' i it.
Proof.
  intros Hi S1 S2 (D & E & F & G & (B & O) & R). destruct (desc_ext _ _ _ S1) as (_ & E2 & _ & E4 & E5).
  unfold holds. rewrite <- (dd_ext _ _ _ S1), <- E2, <- E4, <- E5. repeat (split; [done|]).
  rewrite <- R at 2. symmetry. apply read_bytes_ext. intros x Hx. apply S2. lia.
Qed.

Lemma rx_areas L m m' i : 0 <= i < 32 -> same_on m m' (l_rxr L) (l_rxr L + 512) -> same_on m m' (l_rxb L) (l_rxb L + 65536) ->
  same_on m m' (rxd L i) (rxd L i + 16) /\ same_on m m' (rxbuf L i) (rxbuf L i + RX_BUF_SIZE).
Proof. intros Hi S1 S2. unfold rxd, rxbuf, sizeof_desc, RX_BUF_SIZE. split; [apply (same_on_sub _ _ _ _ _ _ S1)|apply (same_on_sub _ _ _ _ _ _ S2)]; lia. Qed.

Lemma rx_ok_frame L m c m' c' n : rx_ok L m c n ->
  (forall r, r ∈ [E1K_RDBAL; E1K_RDLEN; E1K_RDH; E1K_RDT; E1K_RCTL] -> creg c' r = creg c r) -> history c' = history c ->
  same_on m m' (l_rxr L) (l_rxr L + 512) -> same_on m m' (l_rxb L) (l_rxb L + 65536) -> rx_ok L m' c' n.
Proof.
  intros X R Hh S1 S2. pose proof (fun i Hi => rx_areas L m m' i Hi S1 S2) as D.
  destruct X. split; unfold arrived in *; try (rewrite R by set_solver); rewrite ?Hh; try done.
  - intros i Hi. rewrite <- (proj1 (desc_ext _ _ _ (proj1 (D i Hi)))). auto.
  - intros j it Hj E. assert (0 <= j mod 32 < 32) as Hm by (apply Z.mod_pos_bound; lia). destruct (D _ Hm).
    eapply holds_ext; eauto.
  - intros j Hj. assert (0 <= j mod 32 < 32) as Hm by (apply Z.mod_pos_bound; lia). destruct (D _ Hm).
    erewrite <- dd_ext; eauto.
Qed.

(** * Steps of the card *)

Record ring_ok (L : layout) (m : ram) (c : card) (ph : phase) (n : Z) : Prop := {
  ring_tx : tx_ok L m c ph;
  ring_rx : rx_ok L m c n;
  ring_ram : ram_ok m
}.

(** A submitted frame goes out once, whole. *)
Definition sends (ph : phase) (w : list (list Z)) (ph' : phase) (w' : list (list Z)) : Prop :=
  (ph' = ph /\ w' = w) \/ exists t b, ph = Busy t b /\ ph' = Idle ((t + 1) mod NUM_TX_DESC) /\ w' = w ++ [b].

Definition traffic (c : card) : list rxitem := history c ++ inbox c.

(** What may happen while the driver does nothing. *)
Record evolves (L : layout) (n : Z) (m : ram) (c : card) (ph : phase) (m' : ram) (c' : card) (ph' : phase) : Prop := {
  ev_ok : ring_ok L m' c' ph' n;
  ev_sends : sends ph (wire c) ph' (wire c');
  ev_traffic : traffic c' = traffic c;
  ev_prefix : history c `prefix_of` history c';
  ev_outside : forall x, ~ in_areas L x -> ld8 m' x = ld8 m x
}.

Lemma evolves_refl L n m c ph : ring_ok L m c ph n -> evolves L n m c ph m c ph.
Proof. intros. split; try done. by left. Qed.

Lemma evolves_trans L n m1 c1 ph1 m2 c2 ph2 m3 c3 ph3 :
  evolves L n m1 c1 ph1 m2 c2 ph2 -> evolves L n m2 c2 ph2 m3 c3 ph3 -> evolves L n m1 c1 ph1 m3 c3 ph3.
Proof.
  intros [O1 S1 T1 P1 X1] [O2 S2 T2 P2 X2]. split; [done| |congruence|by etrans|intros x Hx; rewrite X2, X1; done].
  destruct S1 as [[-> E1] | (t & b & -> & -> & E1)]; [by rewrite <- E1|].
  destruct S2 as [[-> E2] | (t' & b' & [=] & _)]. right. exists t, b. split; [done|]. split; [done|]. congruence.
Qed.

Lemma dd_odd m d : dd m d = Z.odd (desc_status m d).
Proof.
  unfold dd, STATUS_DD. change 1 with (Z.ones 1) at 1. rewrite Z.land_ones, Zmod_odd by lia. by destruct (Z.odd _).
Qed.
Lemma odd_u8 v : Z.odd (u8 v) = Z.odd v.
Proof. rewrite <- !Z.bit0_odd. unfold u8. apply (Z.mod_pow2_bits_low v 8 0). lia. Qed.

Lemma transmit_keeps L n m c c' ph :
  let d := creg c E1K_TDBAL + sizeof_desc * creg c E1K_TDH in
  layout_ok L -> ring_ok L m c ph n -> creg c E1K_TDH <> creg c E1K_TDT ->
  regs_with c c' E1K_TDH ((creg c E1K_TDH + 1) mod (creg c E1K_TDLEN / sizeof_desc)) ->
  wire c' = wire c ++ [read_bytes_at (Z.to_nat (desc_length m d)) (desc_addr m d) m] ->
  inbox c' = inbox c -> history c' = history c ->
  exists ph', evolves L n m c ph (st8 (d + 12) (Z.lor (desc_status m d) STATUS_DD) m) c' ph'.
Proof.
  intros d HL [T X R] Hne Hr Hw Hi Hh. assert (d = txd L (at_slot ph)) as Ed.
  { unfold d. by rewrite (tx_base _ _ _ _ T), (tx_head _ _ _ _ T). }
  destruct ph as [t|t bytes]; [destruct T; simpl in *; congruence|].
  pose proof (tx_slot _ _ _ _ T) as Ht. simpl in Ht, Ed. destruct (tx_load _ _ _ _ T) as (Hc & Hl & Hb & Hrd).
  assert (forall x, x <> d + 12 -> ld8 (st8 (d + 12) (Z.lor (desc_status m d) STATUS_DD) m) x = ld8 m x) as St.
  { intros x Hx. rewrite ld8_st8. case_z; [lia|done]. }
  assert (d + 12 = l_txr L + 16 * t + 12) as Ed' by (rewrite Ed; done).
  exists (Idle ((t + 1) mod NUM_TX_DESC)). destruct HL as [_ _ A1 A2 A3 _ _ _]. unfold apart_areas in *. split.
  - split; [|eapply rx_ok_frame; [exact X| |exact Hh| |]|by apply ram_ok_st8].
    + assert (forall r, r ∈ [E1K_TDBAL; E1K_TDLEN; E1K_TDT; E1K_TCTL] -> creg c' r = creg c r) as Rk.
      { intros r Hin. rewrite Hr by set_solver. repeat (apply elem_of_cons in Hin as [-> | Hin]; [done|]). by apply elem_of_nil in Hin. }
      destruct T as [B1 B2 B3 B4 B5 B6 B7 B8 B9]. split; simpl in *.
      * rewrite Rk; set_solver.
      * rewrite Rk; set_solver.
      * rewrite Rk by set_solver. done.
      * apply Z.mod_pos_bound. done.
      * rewrite Hr, B2, B5 by set_solver. done.
      * rewrite Rk by set_solver. done.
      * intros i Hi'. rewrite <- B7 by done. unfold desc_addr. apply ld32_ext. intros x Hx. apply St. rewrite Ed'. unfold txd, sizeof_desc in Hx. lia.
      * intros i Hi'. destruct (Z.eq_dec i t) as [->|Hn].
        -- rewrite dd_odd, <- Ed. unfold desc_status. rewrite ld8_st8, Z.eqb_refl, odd_u8, <- Z.bit0_odd, Z.lor_spec. apply orb_true_r.
        -- rewrite <- (dd_ext m), B8 by (try done; intros x Hx; symmetry; apply St; rewrite Ed'; unfold txd, sizeof_desc in Hx; lia).
           unfold free_slot. by rewrite (proj2 (Z.eqb_neq i t)).
      * done.
    + intros r Hin. rewrite Hr by (by apply rx_regs_ring). repeat (apply elem_of_cons in Hin as [-> | Hin]; [done|]). by apply elem_of_nil in Hin.
    + intros x Hx. symmetry. apply St. lia.
    + intros x Hx. symmetry. apply St. lia.
  - right. exists t, bytes. split; [done|]. split; [done|]. rewrite Hw, Ed, Hl, (tx_addr _ _ _ _ T) by done.
    by rewrite Nat2Z.id, Hrd.
  - unfold traffic. congruence.
  - by rewrite Hh.
  - intros x Hx. apply St. intros ->. apply Hx. left. lia.
Qed.

(** ** Reception *)

Definition rx_words (n : Z) (it : rxitem) (st k0 k1 s0 s1 : Z) : list Z := [n mod 256; n / 256; k0; k1; st; it_errors it; s0; s1].

Lemma received_holds L m i it st k0 k1 s0 s1 : layout_ok L -> 0 <= i < 32 -> item_ok it ->
  in_u8 st -> Z.land st E1K_RXD_STAT_DD <> 0 -> (Z.land st E1K_RXD_STAT_EOP =? 0) = negb (it_eop it) ->
  holds L (write_bytes (rxd L i + 8) (rx_words (Z.of_nat (length (it_bytes it))) it st k0 k1 s0 s1) (write_bytes (rxbuf L i) (it_bytes it) m)) i it.
Proof.
  intros HL Hi (B & F & Er) Hst Hd He. set (n := Z.of_nat (length (it_bytes it))) in *. unfold RX_BUF_SIZE in B.
  set (m1 := write_bytes (rxbuf L i) (it_bytes it) m). set (d := rxd L i).
  assert (forall k, 0 <= k < 8 -> forall v, rx_words n it st k0 k1 s0 s1 !! Z.to_nat k = Some v ->
    ld8 (write_bytes (d + 8) (rx_words n it st k0 k1 s0 s1) m1) (d + 8 + k) = u8 v) as Rd.
  { intros k Hk v Hv. unfold rx_words in *. cbn [write_bytes]. rewrite !ld8_st8.
    assert (k = 0 \/ k = 1 \/ k = 2 \/ k = 3 \/ k = 4 \/ k = 5 \/ k = 6 \/ k = 7) as Ck by lia.
    repeat (destruct Ck as [-> | Ck]; [injection Hv as <-; repeat case_z; done || lia|]). subst k. injection Hv as <-. repeat case_z; done || lia. }
  assert (desc_status (write_bytes (d + 8) (rx_words n it st k0 k1 s0 s1) m1) d = st) as Es.
  { unfold desc_status. replace (d + 12) with (d + 8 + 4) by lia. rewrite (Rd 4 ltac:(lia) st) by done. by apply u8_small. }
  unfold holds. fold d. unfold dd. rewrite Es. split; [|split; [done|split; [|split; [|split; [done|]]]]].
  - destruct (Z.eqb_spec (Z.land st STATUS_DD) 0); [done|reflexivity].
  - unfold desc_errors. replace (d + 13) with (d + 8 + 5) by lia. rewrite (Rd 5 ltac:(lia) (it_errors it)) by done. by apply u8_small.
  - pose proof (Rd 0 ltac:(lia) (n mod 256) eq_refl) as R0. rewrite Z.add_0_r in R0.
    unfold desc_length, ld16. rewrite R0, (Rd 1 ltac:(lia) (n / 256)) by done.
    unfold u8. fold n. zlia.
  - fold n. erewrite read_bytes_ext; [by apply (read_write_bytes (it_bytes it) (rxbuf L i) m)|].
    intros x Hx. apply ld8_write_bytes_other. simpl. destruct HL as [_ _ _ _ _ _ _ A]. unfold apart_areas in A.
    unfold d, rxd, rxbuf, sizeof_desc, RX_BUF_SIZE in *. lia.
Qed.

Lemma mod32_ne a b : a < b < a + 32 -> a mod 32 <> b mod 32.
Proof. intros. zlia. Qed.

Lemma receive_keeps L n m c c' ph it st k0 k1 s0 s1 :
  let d := creg c E1K_RDBAL + sizeof_desc * creg c E1K_RDH in
  layout_ok L -> ring_ok L m c ph n -> creg c E1K_RDH <> creg c E1K_RDT ->
  item_ok it -> inbox c = it :: inbox c' -> history c' = history c ++ [it] -> wire c' = wire c ->
  in_u8 st -> Z.land st E1K_RXD_STAT_DD <> 0 -> (Z.land st E1K_RXD_STAT_EOP =? 0) = negb (it_eop it) ->
  regs_with c c' E1K_RDH ((creg c E1K_RDH + 1) mod (creg c E1K_RDLEN / sizeof_desc)) ->
  evolves L n m c ph
    (write_bytes (d + 8) (rx_words (Z.of_nat (length (it_bytes it))) it st k0 k1 s0 s1) (write_bytes (desc_addr m d) (it_bytes it) m)) c' ph.
Proof.
  intros d HL [T X R] Hne Hit Hi Hh Hw Hst Hd He Hr. set (i := arrived c mod 32).
  assert (0 <= i < 32) as Bi by (apply Z.mod_pos_bound; lia).
  assert (d = rxd L i) as Ed by (unfold d; by rewrite (rx_base _ _ _ _ X), (rx_head _ _ _ _ X)).
  rewrite Ed, (rx_addr _ _ _ _ X) by done. pose proof (received_holds L m i it st k0 k1 s0 s1 HL Bi Hit Hst Hd He) as Hnew.
  set (m1 := write_bytes (rxbuf L i) (it_bytes it) m) in *. set (m2 := write_bytes _ _ m1) in *.
  assert (arrived c < n + 31) as Hroom.
  { destruct (rx_count _ _ _ _ X). rewrite (rx_head _ _ _ _ X), (rx_rdt _ _ _ _ X) in Hne.
    destruct (Z.eq_dec (arrived c) (n + 31)) as [E'|]; [by rewrite E' in Hne|lia]. }
  assert (forall x, ~ (rxd L i + 8 <= x < rxd L i + 16) -> ~ (rxbuf L i <= x < rxbuf L i + RX_BUF_SIZE) -> ld8 m2 x = ld8 m x) as St.
  { intros x Hx1 Hx2. unfold m2, m1. destruct Hit as (Hb & _). rewrite !ld8_write_bytes_other; [done| |simpl; lia]. lia. }
  assert (arrived c' = arrived c + 1) as Ea by (unfold arrived; rewrite Hh, length_app; simpl; lia).
  assert (forall j, 0 <= j < 32 -> j <> i -> same_on m m2 (rxd L j) (rxd L j + 16) /\ same_on m m2 (rxbuf L j) (rxbuf L j + RX_BUF_SIZE)) as So.
  { intros j Hj Hn. destruct HL as [_ _ _ _ _ _ _ A]. unfold apart_areas, rxd, rxbuf, sizeof_desc, RX_BUF_SIZE in *.
    split; intros x Hx; symmetry; apply St; lia. }
  assert (forall r, r ∈ ring_regs -> r <> E1K_RDH -> creg c' r = creg c r) as Rk.
  { intros r Hin Hn. rewrite Hr by done. by rewrite (proj2 (Z.eqb_neq r E1K_RDH)). }
  split; [|by left|unfold traffic; rewrite Hh, Hi, <- app_assoc; done|by exists [it]|].
  - split.
    + destruct HL as [_ _ A1 A2 A3 A4 A5 A6]. unfold apart_areas in *.
      eapply tx_ok_frame; [exact T| | |].
      * intros r Hin. apply Rk; [by apply tx_regs_ring|]. intros ->. repeat (apply elem_of_cons in Hin as [[=] | Hin]). by apply elem_of_nil in Hin.
      * intros x Hx. symmetry. unfold rxd, rxbuf, sizeof_desc, RX_BUF_SIZE in *. apply St; lia.
      * intros x Hx. symmetry. unfold rxd, rxbuf, sizeof_desc, RX_BUF_SIZE in *. apply St; lia.
    + destruct X as [B1 B2 B3 B4 B5 B6 B7 B8 B9]. split; rewrite ?Ea.
      * rewrite Rk by (in_regs || done). done.
      * rewrite Rk by (in_regs || done). done.
      * rewrite Rk by (in_regs || done). done.
      * lia.
      * rewrite Hr, B2, B5 by in_regs. change (512 / sizeof_desc) with 32. rewrite Z.eqb_refl. zlia.
      * rewrite Rk by (in_regs || done). done.
      * intros k Hk. rewrite <- B7 by done. unfold desc_addr. apply ld32_ext. intros x Hx.
        destruct HL as [_ _ _ _ _ _ _ A]. unfold apart_areas, rxd, rxbuf, sizeof_desc, RX_BUF_SIZE in *. apply St; lia.
      * intros j x Hj Hx. unfold arrived in *. destruct (Z.eq_dec j (Z.of_nat (length (history c)))) as [->|Hn].
        -- rewrite Hh, Nat2Z.id, lookup_app_r, Nat.sub_diag in Hx by lia. injection Hx as <-. exact Hnew.
        -- assert (Z.to_nat j < length (history c'))%nat by (by eapply lookup_lt_Some). rewrite Hh, length_app in *. simpl in *.
           rewrite lookup_app_l in Hx by lia. assert (j mod 32 <> i) as Hji by (apply mod32_ne; lia).
           destruct (So (j mod 32)); [apply Z.mod_pos_bound; lia|done|]. eapply holds_ext; eauto. apply Z.mod_pos_bound. lia.
      * intros j Hj. assert (j mod 32 <> i) as Hji by (apply not_eq_sym, mod32_ne; lia).
        destruct (So (j mod 32)) as [S1 _]; [apply Z.mod_pos_bound; lia|done|]. rewrite <- (dd_ext _ _ _ S1). apply B9. lia.
    + intros x. unfold m2, m1. apply ram_ok_write_bytes, ram_ok_write_bytes, R.
  - intros x Hx. unfold in_areas in Hx. apply St; intros H'; apply Hx; unfold rxd, rxbuf, sizeof_desc, RX_BUF_SIZE in *; lia.
Qed.

Lemma card_step_keeps L n m c ph m' c' : layout_ok L -> ring_ok L m c ph n -> card_step (m, c) (m', c') ->
  exists ph', evolves L n m c ph m' c' ph'.
Proof.
  intros HL R Hs. inversion Hs as [? ? ? d He Hne Hc Hr Hw Hi Hh|? ? ? it st k0 k1 s0 s1 d sz He Hne Hit Hi Hh Hw Hst Hd Hp Hr|? ? ? [Hr (Hw & Hi & Hh)]]; subst.
  - by apply transmit_keeps.
  - exists ph. by apply receive_keeps.
  - exists ph. destruct R as [T X R]. split; [|by left|unfold traffic; congruence|by rewrite Hh|done].
    split; [|eapply rx_ok_frame; [exact X| |done|done|done]|done].
    + eapply tx_ok_frame; [exact T| |done|done]. intros r Hin. apply Hr. set_solver.
    + intros r Hin. apply Hr. set_solver.
Qed.

Lemma card_steps_keep L n p p' : layout_ok L -> rtc card_step p p' ->
  forall ph, ring_ok L p.1 p.2 ph n -> exists ph', evolves L n p.1 p.2 ph p'.1 p'.2 ph'.
Proof.
  intros HL. induction 1 as [p|[m c] [m1 c1] p2 Hs Hr IH]; intros ph R; [exists ph; by apply evolves_refl|].
  destruct (card_step_keeps _ _ _ _ _ _ _ HL R Hs) as (ph1 & E1). destruct (IH ph1 (ev_ok _ _ _ _ _ _ _ _ E1)) as (ph2 & E2).
  exists ph2. by eapply evolves_trans.
Qed.

(** While neither ring has work for the card, it leaves memory and rings alone. *)
Definition at_rest (c : card) : Prop :=
  (Z.land (creg c E1K_TCTL) E1K_TCTL_EN = 0 \/ creg c E1K_TDH = creg c E1K_TDT) /\ Z.land (creg c E1K_RCTL) E1K_RCTL_EN = 0.

Lemma same_card_refl c : same_card c c.
Proof. done. Qed.
Lemma same_card_trans c1 c2 c3 : same_card c1 c2 -> same_card c2 c3 -> same_card c1 c3.
Proof.
  intros [R1 (W1 & I1 & H1)] [R2 (W2 & I2 & H2)]. split; [intros r Hr; rewrite R2, R1; done|]. repeat split; congruence.
Qed.
Lemma at_rest_same c c' : same_card c c' -> at_rest c -> at_rest c'.
Proof. intros [R _] [A B]. unfold at_rest. by rewrite !R by in_regs. Qed.

Lemma rest_steps p p' : rtc card_step p p' -> at_rest p.2 -> p'.1 = p.1 /\ same_card p.2 p'.2.
Proof.
  induction 1 as [p|p1 p2 p3 Hs Hr IH]; intros A; [done|].
  destruct Hs as [m c c' d He Hne|m c c' it st k0 k1 s0 s1 d sz He Hne|m c c' Hsame].
  - destruct A as [[A | A] _]; simpl in A; done.
  - destruct A as [_ A]; simpl in A; done.
  - destruct IH as [E1 E2]; [by eapply at_rest_same|]. split; [done|]. by eapply same_card_trans.
Qed.

(** Both rings are disabled, as after a reset. *)
Definition off (c : card) : Prop := Z.land (creg c E1K_TCTL) E1K_TCTL_EN = 0 /\ Z.land (creg c E1K_RCTL) E1K_RCTL_EN = 0.
Lemma off_rest c : off c -> at_rest c.
Proof. intros [A B]. split; [by left|done]. Qed.
Lemma off_same c c' : same_card c c' -> off c -> off c'.
Proof. intros [R _] [A B]. unfold off. by rewrite !R by in_regs. Qed.
