(* ===== verification/E1kProofs.v ===== *)
(** The network driver verified against the card of [E1kCard]: after
    initialisation the rings are in order, a frame that is sent goes out once and
    whole, and each filled buffer is looked at once, in order of arrival. *)
From S2P Require Import Prelude Mem HeapSpec Net UdpQueue Ports Cpu Pci E1k E1kCard.

Fixpoint dma_n {W} `{Mmio W} (k : nat) (p : ram * W) : ram * W :=
  match k with O => p | S k' => dma_n k' (dma p.1 p.2) end.

(** ** What the driver relies on of the card

    Its registers answer at [base]: reads have no effect on the rings, writes store
    (a reset leaves both rings disabled), the ports leave the rings alone, memory
    is changed by steps of the card only, and a submitted frame is transmitted
    within [latency] looks at memory. *)
Class E1000 (W : Type) `{Ports W} `{Mmio W} (base : Z) (latency : nat) := {
  view : W -> card;
  base_ok : 0 <= base /\ base + 131072 <= 4294967296;
  read_keeps : forall w r, 0 <= r < 131072 -> same_card (view w) (view (mmio_read (base + r) w).2);
  read_reg : forall w r, r ∈ ring_regs -> (mmio_read (base + r) w).1 = creg (view w) r;
  write_reg : forall w r v, 0 <= r < 131072 -> in_u32 v -> ~ (r = E1K_REG_CTRL /\ Z.land v E1K_CTRL_RST <> 0) ->
    written r v (view w) (view (mmio_write (base + r) v w));
  write_reset : forall w v, in_u32 v -> Z.land v E1K_CTRL_RST <> 0 ->
    let c := view (mmio_write (base + E1K_REG_CTRL) v w) in off c /\ same_traffic (view w) c;
  outb_keeps : forall port v w, same_card (view w) (view (port_outb port v w));
  inb_keeps : forall port w, same_card (view w) (view (port_inb port w).2);
  outl_keeps : forall port v w, same_card (view w) (view (port_outl port v w));
  inl_keeps : forall port w, same_card (view w) (view (port_inl port w).2);
  dma_steps : forall m w, rtc card_step (m, view w) ((dma m w).1, view (dma m w).2);
  dma_sends : forall m w, let c := view w in
    Z.land (creg c E1K_TCTL) E1K_TCTL_EN <> 0 -> creg c E1K_TDH <> creg c E1K_TDT ->
    0 <= creg c E1K_TDH < creg c E1K_TDLEN / sizeof_desc -> 0 <= creg c E1K_TDT < creg c E1K_TDLEN / sizeof_desc ->
    Z.land (desc_cmd m (creg c E1K_TDBAL + sizeof_desc * creg c E1K_TDH)) 9 = 9 ->
    exists k, (k <= latency)%nat /\ creg (view (dma_n k (m, w)).2) E1K_TDH <> creg c E1K_TDH
}.

Section Driver.
Context {W H : Type} `{Ports W} `{Mmio W} (base : Z) (latency : nat) `{!E1000 W base latency}.
Abbreviation E := (e1k W H).
Abbreviation EM := (M E).

Definition ecard (s : E) : card := view (world s).
(** The driver talks to the mapped registers at [base]. *)
Definition mapped (s : E) : Prop := e1k_is_mmio s = true /\ io_base (desc (nic_e1k s)) = base.
(** Memory and world replaced. *)
Definition moved (m : ram) (w : W) (s : E) : E := set_world w (set_eram m s).
Definition lay (s : E) : layout := mkLayout (tx_ring s) (tx_bufs s) (rx_ring s) (rx_bufs s).

Lemma moved_moved m w m' w' s : moved m w (moved m' w' s) = moved m w s.
Proof. done. Qed.
Lemma shift_same s : moved (eram s) (world s) s = s.
Proof. by destruct s as [[] [] ? ? ? ? ? ? ?]. Qed.

Lemma bus_runs s (Q : unit -> E -> Prop) :
  (forall m w, rtc card_step (eram s, ecard s) (m, view w) -> (m, w) = dma (eram s) (world s) -> Q tt (moved m w s)) -> runs bus_run s Q.
Proof.
  intros HQ. pose proof (dma_steps (eram s) (world s)) as D. unfold bus_run. apply runs_modify.
  destruct (dma (eram s) (world s)) as [m w] eqn:Ed. by apply HQ.
Qed.

Lemma reg_addr_mapped s r : mapped s -> 0 <= r < 131072 -> reg_addr s r = base + r.
Proof. intros [_ E] Hr. unfold reg_addr. rewrite E. pose proof base_ok. apply u32_small. lia. Qed.

Lemma read_runs r s (Q : Z -> E -> Prop) : mapped s -> 0 <= r < 131072 ->
  (forall v m w, rtc card_step (eram s, ecard s) (m, view w) -> (r ∈ ring_regs -> v = u32 (creg (ecard s) r)) -> in_u32 v -> Q v (moved m w s)) ->
  runs (e1k_read r) s Q.
Proof.
  intros Hm Hr HQ. unfold e1k_read. apply runs_bind, runs_gets. unfold id. rewrite (proj1 Hm), reg_addr_mapped by done.
  pose proof (read_keeps (world s) r Hr) as K. pose proof (read_reg (world s) r) as V.
  apply runs_bind. unfold on_world, zoom. destruct (mmio_read (base + r) (world s)) as [v w] eqn:Ew.
  exists (u32 v), (set_world w s). split; [by rewrite Ew|]. apply runs_bind, bus_runs. intros m w' Hs _. apply runs_ret.
  assert (rtc card_step (eram s, ecard s) (m, view w')) as Hs'.
  { eapply rtc_l; [|exact Hs]. apply step_other, K. }
  apply (HQ (u32 v) m w' Hs'); [|apply u32_range]. intros Hin. unfold ecard. by rewrite <- (V Hin).
Qed.

(** The register written, before the card runs on. *)
Lemma write_runs_on r v s (Q : unit -> E -> Prop) : mapped s -> 0 <= r < 131072 ->
  (forall m w, rtc card_step (eram s, view (mmio_write (base + r) (u32 v) (world s))) (m, view w) -> Q tt (moved m w s)) ->
  runs (e1k_write r v) s Q.
Proof.
  intros Hm Hr HQ. unfold e1k_write. apply runs_bind, runs_gets. unfold id. rewrite (proj1 Hm), reg_addr_mapped by done.
  apply runs_bind. exists tt, (set_world (mmio_write (base + r) (u32 v) (world s)) s). split; [done|]. apply bus_runs. intros m w Hs _. by apply HQ.
Qed.

Lemma write_runs r v s (Q : unit -> E -> Prop) : mapped s -> 0 <= r < 131072 -> in_u32 v ->
  ~ (r = E1K_REG_CTRL /\ Z.land v E1K_CTRL_RST <> 0) ->
  (forall c m w, written r v (ecard s) c -> rtc card_step (eram s, c) (m, view w) -> Q tt (moved m w s)) ->
  runs (e1k_write r v) s Q.
Proof.
  intros Hm Hr Hv Hn HQ. apply write_runs_on; [done|done|]. rewrite u32_small by done. intros m w Hs.
  eapply HQ; [|exact Hs]. by apply write_reg.
Qed.

Lemma poll_runs d s (Q : Z -> E -> Prop) :
  (forall m w, rtc card_step (eram s, ecard s) (m, view w) -> (m, w) = dma (eram s) (world s) -> Q (desc_status m d) (moved m w s)) ->
  runs (poll_status d) s Q.
Proof. intros HQ. apply runs_bind, bus_runs. intros m w Hs Hd. apply runs_gets. by apply HQ. Qed.

(** * The invariant of the driver

    [n] receive buffers consumed, [ph] the state of transmission. *)
Record nic_ok (s : E) (ph : phase) (n : Z) : Prop := {
  ok_mapped : mapped s;
  ok_layout : layout_ok (lay s);
  ok_ring : ring_ok (lay s) (eram s) (ecard s) ph n;
  ok_tail : rx_tail s = n mod NUM_RX_DESC
}.

Lemma steps_ok s ph n m w : nic_ok s ph n -> rtc card_step (eram s, ecard s) (m, view w) ->
  exists ph', nic_ok (moved m w s) ph' n /\ evolves (lay s) n (eram s) (ecard s) ph m (view w) ph'.
Proof.
  intros [M1 M2 M3 M4] Hs. destruct (card_steps_keep _ n _ _ M2 Hs ph M3) as (ph' & E'). exists ph'.
  split; [|exact E']. split; try done. exact (ev_ok _ _ _ _ _ _ _ _ E').
Qed.

(** * Sending *)

Lemma sends_idle t w ph' w' : sends (Idle t) w ph' w' -> ph' = Idle t /\ w' = w.
Proof. by intros [[-> ->] | (? & ? & [=] & _)]. Qed.

Lemma dd_test m d : negb (Z.land (desc_status m d) STATUS_DD =? 0) = dd m d.
Proof. done. Qed.

(** Copying a frame into slot [t], filling its descriptor and moving the tail. *)
Definition submitted (L : layout) (t frame len : Z) (m : ram) : ram :=
  st8 (txd L t + 12) 0 (st8 (txd L t + 11) (Z.lor (Z.lor CMD_EOP CMD_IFCS) CMD_RS)
    (st16 (txd L t + 8) len (memcpy (txbuf L t) frame len m))).

Lemma submitted_bytes L t frame len m x : layout_ok L -> ram_ok m -> 0 <= t < 8 -> 0 <= len <= TX_BUF_SIZE ->
  (forall y, frame <= y < frame + len -> ~ in_areas L y) ->
  ld8 (submitted L t frame len m) x =
    if x =? txd L t + 12 then 0 else if x =? txd L t + 11 then 11
    else if x =? txd L t + 9 then u8 (Z.shiftr len 8) else if x =? txd L t + 8 then u8 len
    else if (txbuf L t <=? x) && (x <? txbuf L t + len) then ld8 m (frame + (x - txbuf L t)) else ld8 m x.
Proof.
  intros HL Rm Ht Hlen Hf. unfold submitted, st16. replace (txd L t + 8 + 1) with (txd L t + 9) by lia. rewrite !ld8_st8.
  unfold memcpy. rewrite ld8_copy_bytes; [by rewrite Z2Nat.id by lia|done|]. rewrite Z2Nat.id by lia.
  specialize (Hf (Z.max frame (txbuf L t))). unfold in_areas, txbuf, TX_BUF_SIZE in *. lia.
Qed.

Lemma submitted_outside L t frame len m x : layout_ok L -> ram_ok m -> 0 <= t < 8 -> 0 <= len <= TX_BUF_SIZE ->
  (forall y, frame <= y < frame + len -> ~ in_areas L y) -> ~ in_areas L x -> ld8 (submitted L t frame len m) x = ld8 m x.
Proof.
  intros HL R Ht Hlen Hf Hx. rewrite submitted_bytes by done. unfold in_areas, txd, txbuf, sizeof_desc, TX_BUF_SIZE in *.
  repeat (case_z; [lia|]). destruct (Z.leb_spec (l_txb L + 2048 * t) x); [|done]. case_z; [lia|done].
Qed.

Lemma submit_ok L m c c' t n frame len : layout_ok L -> ring_ok L m c (Idle t) n -> 0 <= len <= TX_BUF_SIZE ->
  (forall x, frame <= x < frame + len -> ~ in_areas L x) -> written E1K_TDT ((t + 1) mod NUM_TX_DESC) c c' ->
  ring_ok L (submitted L t frame len m) c' (Busy t (read_bytes_at (Z.to_nat len) frame m)) n.
Proof.
  intros HL [T X R] Hlen Hf [Hr (Hw & Hi & Hh)]. pose proof (tx_slot _ _ _ _ T) as Ht. simpl in Ht.
  pose proof (fun x => submitted_bytes L t frame len m x HL R Ht Hlen Hf) as Sb. set (m2 := submitted L t frame len m) in *.
  assert (forall x, ~ (txd L t + 8 <= x < txd L t + 13) -> ~ (txbuf L t <= x < txbuf L t + TX_BUF_SIZE) -> ld8 m2 x = ld8 m x) as St.
  { intros x Hx1 Hx2. rewrite Sb. repeat (case_z; [lia|]). destruct (Z.leb_spec (txbuf L t) x); [|done]. case_z; [lia|done]. }
  pose proof HL as [_ _ A1 A2 A3 A4 A5 _]. unfold apart_areas, txd, txbuf, sizeof_desc, TX_BUF_SIZE in *.
  assert (forall r, r ∈ ring_regs -> r <> E1K_TDT -> creg c' r = creg c r) as Rk.
  { intros r Hin Hn. rewrite Hr by done. by rewrite (proj2 (Z.eqb_neq r E1K_TDT)). }
  split.
  - destruct T as [B1 B2 B3 B4 B5 B6 B7 B8 B9]. split; simpl in *; try (rewrite Rk by (in_regs || done); done); try done.
    + rewrite Hr by in_regs. done.
    + intros i Hi'. rewrite <- B7 by done. unfold desc_addr. apply ld32_ext. unfold txd, sizeof_desc. intros x Hx. apply St; lia.
    + intros i Hi'. unfold txd, sizeof_desc in *. destruct (Z.eq_dec i t) as [->|Hn].
      * rewrite Z.eqb_refl. unfold dd, desc_status. by rewrite Sb, Z.eqb_refl.
      * rewrite <- (dd_ext m), B8 by (done || (intros x Hx; symmetry; apply St; lia)). simpl. by rewrite (proj2 (Z.eqb_neq i t)).
    + unfold loaded, txd, txbuf, sizeof_desc, TX_BUF_SIZE. rewrite length_read_bytes_at. rewrite Z2Nat.id by lia. split; [|split; [|split; [lia|]]].
      * unfold desc_cmd. rewrite Sb. repeat case_z; done || lia.
      * unfold desc_length, ld16. rewrite !Sb. replace (l_txr L + 16 * t + 8 + 1) with (l_txr L + 16 * t + 9) by lia.
        repeat (case_z; try lia). rewrite Z.shiftr_div_pow2 by lia. change (2 ^ 8) with 256. unfold u8. zlia.
      * apply read_bytes_shift. intros i Hi'. rewrite Sb. repeat (case_z; [lia|]).
        rewrite (proj2 (Z.leb_le _ _)), (proj2 (Z.ltb_lt _ _)) by lia. simpl. f_equal. lia.
  - eapply rx_ok_frame; [exact X| |exact Hh| |].
    + intros r Hin. apply Rk; [by apply rx_regs_ring|]. intros ->. repeat (apply elem_of_cons in Hin as [[=] | Hin]). by apply elem_of_nil in Hin.
    + intros x Hx. symmetry. apply St; lia.
    + intros x Hx. symmetry. apply St; lia.
  - unfold m2, submitted, st16, memcpy. auto 10 with mboot.
Qed.

(** A descriptor that is done is seen at the first look. *)
Lemma wait_ready N t n s : nic_ok s (Idle t) n -> runs (wait_done N (txd (lay s) t)) s (fun r s' => r = true /\
  exists m w, s' = moved m w s /\ nic_ok s' (Idle t) n /\ evolves (lay s) n (eram s) (ecard s) (Idle t) m (view w) (Idle t)).
Proof.
  intros Ok. destruct N; cbn [wait_done]; apply runs_bind, poll_runs; intros m w Hs _;
    (destruct (steps_ok _ _ _ _ _ Ok Hs) as (ph' & Ok' & Ev));
    destruct (sends_idle _ _ _ _ (ev_sends _ _ _ _ _ _ _ _ Ev)) as [-> _]; rewrite dd_test;
    pose proof (ring_tx _ _ _ _ _ (ev_ok _ _ _ _ _ _ _ _ Ev)) as T;
    rewrite (tx_free _ _ _ _ T t) by exact (tx_slot _ _ _ _ T); apply runs_ret; eauto 8.
Qed.

(** A submitted frame is seen to be sent, if the card sends it within the number
    of looks. *)
Lemma wait_sent N t b n : forall s ph, nic_ok s ph n ->
  (ph = Busy t b /\ (exists k, (k <= S N)%nat /\ creg (view (dma_n k (eram s, world s)).2) E1K_TDH <> t)
   \/ ph = Idle ((t + 1) mod NUM_TX_DESC) /\ 0 <= t < 8) ->
  runs (wait_done N (txd (lay s) t)) s (fun r s' => r = true /\ exists m w, s' = moved m w s
    /\ nic_ok s' (Idle ((t + 1) mod NUM_TX_DESC)) n
    /\ evolves (lay s) n (eram s) (ecard s) ph m (view w) (Idle ((t + 1) mod NUM_TX_DESC))).
Proof.
  induction N as [|N IH]; intros s ph Ok Hph.
  all: assert (0 <= t < 8) as Ht by (destruct Hph as [[-> _] | [_ ?]]; [exact (tx_slot _ _ _ _ (ring_tx _ _ _ _ _ (ok_ring _ _ _ Ok)))|done]).
  all: cbn [wait_done]; apply runs_bind, poll_runs; intros m w Hs Hd; destruct (steps_ok _ _ _ _ _ Ok Hs) as (ph' & Ok' & Ev).
  all: rewrite dd_test; pose proof (ring_tx _ _ _ _ _ (ev_ok _ _ _ _ _ _ _ _ Ev)) as T.
  all: assert (ph' = Idle ((t + 1) mod NUM_TX_DESC) \/ ph' = Busy t b /\ ph = Busy t b) as Cph by
    (destruct Hph as [[-> _] | [-> _]]; [destruct (ev_sends _ _ _ _ _ _ _ _ Ev) as [[-> _] | (? & ? & [= <- <-] & -> & _)]; auto
                                        |left; by destruct (sends_idle _ _ _ _ (ev_sends _ _ _ _ _ _ _ _ Ev))]).
  all: destruct Cph as [-> | [-> ->]]; [rewrite (tx_free _ _ _ _ T t Ht); apply runs_ret; eauto 8|].
  all: rewrite (tx_free _ _ _ _ T t Ht); cbn [free_slot negb]; rewrite Z.eqb_refl; cbn [negb].
  all: destruct Hph as [[_ (k & Hk & Hne)] | [[=] _]].
  all: destruct k as [|k]; [destruct Hne; exact (tx_head _ _ _ _ (ring_tx _ _ _ _ _ (ok_ring _ _ _ Ok)))|].
  all: cbn [dma_n fst snd] in Hne; rewrite <- Hd in Hne.
  - replace k with 0%nat in Hne by lia. destruct Hne. exact (tx_head _ _ _ _ T).
  - eapply runs_mono; [apply (IH (moved m w s) (Busy t b) Ok'); left; split; [done|]; exists k; split; [lia|exact Hne]|].
    intros r s' (-> & m' & w' & -> & Ok2 & Ev2). split; [done|]. exists m', w'. split; [done|]. split; [done|].
    by eapply evolves_trans.
Qed.

Lemma land_7 t : 0 <= t < 8 -> Z.land t (NUM_TX_DESC - 1) = t.
Proof. intros. change (NUM_TX_DESC - 1) with (Z.ones 3). rewrite Z.land_ones by lia. by apply Z.mod_small. Qed.

Lemma tx_addresses s t : layout_ok (lay s) -> 0 <= t < 8 ->
  u32 (tx_ring s + sizeof_desc * t) = txd (lay s) t /\ u32 (tx_bufs s + TX_BUF_SIZE * t) = txbuf (lay s) t.
Proof.
  intros [P T _ _ _ _ _ _] Ht. simpl in *. unfold txd, txbuf, sizeof_desc, TX_BUF_SIZE. split; apply u32_small; simpl; lia.
Qed.

(** The card has been told of the frame: it goes out. *)
Lemma sent_within (s : E) t b n : Z.of_nat latency <= 10000000 -> nic_ok s (Busy t b) n ->
  exists k, (k <= S (Z.to_nat 10000000))%nat /\ creg (view (dma_n k (eram s, world s)).2) E1K_TDH <> t.
Proof.
  intros Hlat Ok. pose proof (ring_tx _ _ _ _ _ (ok_ring _ _ _ Ok)) as T. pose proof (tx_slot _ _ _ _ T) as Ht. simpl in Ht.
  pose proof (tx_head _ _ _ _ T) as Eh. pose proof (tx_tdt _ _ _ _ T) as Et. simpl in Eh, Et.
  destruct (dma_sends (eram s) (world s)) as (k & Hk & Hne).
  - exact (tx_en _ _ _ _ T).
  - fold (ecard s). rewrite Eh, Et. unfold NUM_TX_DESC. zlia.
  - fold (ecard s). rewrite Eh, (tx_len _ _ _ _ T). exact Ht.
  - fold (ecard s). rewrite Et, (tx_len _ _ _ _ T). apply (Z.mod_pos_bound (t + 1) 8). lia.
  - fold (ecard s). rewrite Eh, (tx_base _ _ _ _ T). by destruct (tx_load _ _ _ _ T).
  - fold (ecard s) in Hne. rewrite Eh in Hne. exists k. split; [lia|done].
Qed.

#[local] Opaque wait_done.

(** What holds after a frame [b] has gone out from [s]. *)
Definition gone (s : E) (t n : Z) (b : list Z) (m : ram) (w : W) : Prop :=
  nic_ok (moved m w s) (Idle ((t + 1) mod NUM_TX_DESC)) n /\ wire (view w) = wire (ecard s) ++ [b]
  /\ traffic (view w) = traffic (ecard s) /\ history (ecard s) `prefix_of` history (view w)
  /\ forall x, ~ in_areas (lay s) x -> ld8 m x = ld8 (eram s) x.

(** From a loaded descriptor on: move the tail, post the write, wait. *)
Lemma launch_runs (s : E) t n b : Z.of_nat latency <= 10000000 -> mapped s -> layout_ok (lay s) -> rx_tail s = n mod NUM_RX_DESC ->
  (forall c, written E1K_TDT ((t + 1) mod NUM_TX_DESC) (ecard s) c -> ring_ok (lay s) (eram s) c (Busy t b) n) ->
  runs (e1k_write E1K_TDT ((t + 1) mod NUM_TX_DESC)) s (fun _ s1 => runs e1k_mmio_post s1 (fun _ s2 =>
    runs (wait_done (Z.to_nat 10000000) (txd (lay s) t)) s2 (fun r s' => r = true /\ exists m w, s' = moved m w s /\ gone s t n b m w))).
Proof.
  intros Hlat Hm HL Htl Hload. apply write_runs; [done|done|unfold NUM_TX_DESC; zlia|intros [[=] _]|]. intros c m3 w3 Hw Hs3.
  destruct (card_steps_keep _ n _ _ HL Hs3 _ (Hload c Hw)) as (ph3 & Ev3). simpl in Ev3.
  assert (nic_ok (moved m3 w3 s) ph3 n) as Ok3 by (split; [done|done|apply Ev3|done]).
  unfold e1k_mmio_post. apply runs_bind, read_runs; [done|done|]. intros _ m4 w4 Hs4 _ _. apply runs_ret.
  destruct (steps_ok _ _ _ _ _ Ok3 Hs4) as (ph4 & Ok4 & Ev4). rewrite moved_moved in *.
  pose proof (evolves_trans _ _ _ _ _ _ _ _ _ _ _ Ev3 Ev4) as Ev'.
  eapply runs_mono; [apply (wait_sent (Z.to_nat 10000000) t b n _ ph4 Ok4)|].
  { destruct (ev_sends _ _ _ _ _ _ _ _ Ev') as [[-> _] | (t' & b' & [= <- <-] & -> & _)]; [left; split; [done|]|right].
    - by eapply sent_within.
    - split; [done|]. exact (tx_slot _ _ _ _ (ring_tx _ _ _ _ _ (Hload c Hw))). }
  intros r s5 (-> & m5 & w5 & -> & Ok5 & Ev5). rewrite moved_moved in *. split; [done|]. exists m5, w5. split; [done|]. split; [done|].
  destruct (evolves_trans _ _ _ _ _ _ _ _ _ _ _ Ev' Ev5) as [_ S1 T1 P1 O1]. destruct Hw as [_ (W1 & W2 & W3)].
  destruct S1 as [[[=] _] | (? & ? & [= <- <-] & _ & E2)]. unfold traffic in *. rewrite W1, W2, W3 in *. auto.
Qed.

(** A frame that fits goes out. *)
Lemma e1k_send_runs (s : E) t n frame len : Z.of_nat latency <= 10000000 -> nic_ok s (Idle t) n -> 0 <= len <= TX_BUF_SIZE ->
  (forall x, frame <= x < frame + len -> ~ in_areas (lay s) x) ->
  runs (e1k_send frame len) s (fun r s' => r = 0 /\ nic_ok s' (Idle ((t + 1) mod NUM_TX_DESC)) n
     /\ wire (ecard s') = wire (ecard s) ++ [read_bytes_at (Z.to_nat len) frame (eram s)]
     /\ traffic (ecard s') = traffic (ecard s) /\ history (ecard s) `prefix_of` history (ecard s')
     /\ lay s' = lay s /\ tx_tail s' = (t + 1) mod NUM_TX_DESC
     /\ forall x, ~ in_areas (lay s) x -> ld8 (eram s') x = ld8 (eram s) x).
Proof.
  intros Hlat Ok [Hlen Hle] Hf.
  pose proof (ring_tx _ _ _ _ _ (ok_ring _ _ _ Ok)) as T. pose proof (tx_slot _ _ _ _ T) as Ht. simpl in Ht.
  destruct (tx_addresses s t (ok_layout _ _ _ Ok) Ht) as [Ed Eb].
  unfold e1k_send. rewrite (proj2 (Z.ltb_ge _ _) Hle). apply runs_bind, read_runs; [apply Ok|done|].
  intros v m w Hs Hv _. rewrite Hv, (tx_tdt _ _ _ _ T), u32_small, land_7 by (in_regs || simpl; lia). simpl tail_of.
  destruct (steps_ok _ _ _ _ _ Ok Hs) as (ph1 & Ok1 & Ev1). destruct (sends_idle _ _ _ _ (ev_sends _ _ _ _ _ _ _ _ Ev1)) as [-> _].
  apply runs_bind, runs_gets, runs_bind, runs_gets. cbn [moved set_world set_cpu set_eram set_heap tx_ring tx_bufs]. rewrite Ed, Eb.
  apply runs_bind. eapply runs_mono; [apply (wait_ready (Z.to_nat 2000000) t n _ Ok1)|].
  intros r s2 (-> & m2 & w2 & -> & Ok2 & Ev2). rewrite moved_moved in *. pose proof (evolves_trans _ _ _ _ _ _ _ _ _ _ _ Ev1 Ev2) as Ev.
  clear Ev1 Ev2 Ok1 Hs v Hv m w. cbn [negb]. apply runs_bind, runs_modify, runs_bind, runs_modify, runs_bind.
  change (set_eram _ _) with (moved (submitted (lay s) t frame len m2) w2 s).
  pose proof (fun c => submit_ok (lay s) m2 (view w2) c t n frame len (ok_layout _ _ _ Ok) (ev_ok _ _ _ _ _ _ _ _ Ev) ltac:(lia) Hf) as Hsub.
  assert (read_bytes_at (Z.to_nat len) frame m2 = read_bytes_at (Z.to_nat len) frame (eram s)) as Eby.
  { apply read_bytes_ext. intros x Hx. apply (ev_outside _ _ _ _ _ _ _ _ Ev), Hf. lia. }
  rewrite Eby in Hsub. eapply runs_mono; [apply (launch_runs (moved (submitted (lay s) t frame len m2) w2 s) t n _ Hlat (ok_mapped _ _ _ Ok) (ok_layout _ _ _ Ok) (ok_tail _ _ _ Ok) Hsub)|].
  intros [] s3 H3. apply runs_bind. eapply runs_mono; [exact H3|]. intros [] s4 H4. apply runs_bind. eapply runs_mono; [exact H4|].
  intros r s5 (-> & m5 & w5 & -> & Ok5 & Ew & Et & Ep & Eo). cbn [negb]. apply runs_bind, runs_modify, runs_ret. rewrite moved_moved in *.
  destruct Ev as [_ S0 T0 P0 O0]. destruct S0 as [[_ E1] | (? & ? & [=] & _)]. change (ecard (moved _ w2 s)) with (view w2) in *.
  split; [done|]. split; [split; [apply Ok|apply Ok|apply Ok5|apply Ok]|]. change (ecard (set_tx _ _ _ _)) with (view w5).
  rewrite <- E1, <- T0. split; [exact Ew|]. split; [exact Et|]. split; [by etrans|]. split; [done|]. split; [done|].
  intros x Hx. etrans; [by apply Eo|]. rewrite <- O0 by done. apply (submitted_outside (lay s)); [apply Ok|exact (ring_ram _ _ _ _ _ (ok_ring _ _ _ Ok2))|done|lia|done|done].
Qed.

(** C18: sending a frame of at most 2048 bytes to an idle card returns 0: exactly the
    bytes of the frame have been appended to the wire, the ring is idle again with
    the next slot, received frames are where they were, and no memory outside the
    rings and their buffers has changed. A longer frame is refused and nothing
    happens. *)
Theorem e1k_send_transmits (s : E) t n frame len :
  Z.of_nat latency <= 10000000 -> nic_ok s (Idle t) n -> 0 <= len ->
  (forall x, frame <= x < frame + len -> ~ in_areas (lay s) x) ->
  (len <= TX_BUF_SIZE -> exists s', e1k_send frame len s = Ret 0 s' /\ nic_ok s' (Idle ((t + 1) mod NUM_TX_DESC)) n
     /\ wire (ecard s') = wire (ecard s) ++ [read_bytes_at (Z.to_nat len) frame (eram s)]
     /\ traffic (ecard s') = traffic (ecard s) /\ history (ecard s) `prefix_of` history (ecard s')
     /\ lay s' = lay s /\ tx_tail s' = (t + 1) mod NUM_TX_DESC
     /\ forall x, ~ in_areas (lay s) x -> ld8 (eram s') x = ld8 (eram s) x)
  /\ (TX_BUF_SIZE < len -> e1k_send frame len s = Ret (-1) s).
Proof.
  intros Hlat Ok Hlen Hf. split; [|intros Hl; unfold e1k_send; by rewrite (proj2 (Z.ltb_lt _ _) Hl)].
  intros Hle. destruct (e1k_send_runs s t n frame len Hlat Ok (conj Hlen Hle) Hf) as (r & s' & E' & -> & Q). eauto.
Qed.

(** * Receiving *)

(** The frame that is delivered for a filled buffer: its bytes when it ends a packet,
    whether or not the packet began in it. *)
Definition deliver (it : rxitem) : option (list Z) :=
  if it_eop it && (Z.land (it_errors it) E1K_RXD_ERR_FRAME_ERR_MASK =? 0) && (0 <? Z.of_nat (length (it_bytes it)))
  then Some (it_bytes it) else None.

Lemma rx_frame_holds L m i it : holds L m i it -> rx_frame m (rxd L i) (rxbuf L i) = deliver it.
Proof.
  intros (_ & Hp & He & Hl & (Hb & _) & Hr). unfold rx_frame, deliver. rewrite Hp, He, Hl, negb_involutive.
  destruct (it_eop it); [|done]. cbn [andb]. destruct (_ && _); [|done]. rewrite (proj2 (Z.ltb_ge _ _) Hb), Nat2Z.id. by rewrite Hr.
Qed.

Definition recycled (L : layout) (i : Z) (m : ram) : ram :=
  st_addr (rxd L i) (rxbuf L i) (st16 (rxd L i + 8) 0 (st8 (rxd L i + 13) 0 (st8 (rxd L i + 12) 0 m))).

Lemma recycled_bytes L i m x : x < rxd L i \/ rxd L i + 16 <= x -> ld8 (recycled L i m) x = ld8 m x.
Proof.
  intros Hx. unfold recycled, st_addr. rewrite !ld8_st32_other by lia. rewrite ld8_st16_other, !ld8_st8 by lia. repeat case_z; lia.
Qed.

Lemma recycled_desc L i m : layout_ok L -> 0 <= i < 32 -> desc_addr (recycled L i m) (rxd L i) = rxbuf L i /\ dd (recycled L i m) (rxd L i) = false.
Proof.
  intros HL Hi. unfold recycled, st_addr, desc_addr, dd, desc_status. destruct HL as [P T _ _ _ _ _ _].
  unfold rxd, rxbuf, sizeof_desc, RX_BUF_SIZE. split.
  - rewrite ld32_st32_other by lia. apply ld32_st32_eq. lia.
  - rewrite !ld8_st32_other by lia. rewrite ld8_st16_other, ld8_st8 by lia. set (d := l_rxr L + 16 * i).
    rewrite (proj2 (Z.eqb_neq (d + 12) (d + 13))), ld8_st8, Z.eqb_refl by lia. done.
Qed.

Lemma recycle_ok L m c c' ph n : layout_ok L -> ring_ok L m c ph n -> n < arrived c ->
  written E1K_RDT (n mod 32) c c' -> ring_ok L (recycled L (n mod 32) m) c' ph (n + 1).
Proof.
  intros HL [T X R] Hn [Hr (Hw & Hi & Hh)]. assert (0 <= n mod 32 < 32) as Bn by (apply Z.mod_pos_bound; lia).
  set (i := n mod 32) in *. pose proof (recycled_bytes L i m) as St. destruct (recycled_desc L i m HL Bn) as [Ea Ed].
  set (m2 := recycled L i m) in *. assert (arrived c' = arrived c) as Ear by (unfold arrived; by rewrite Hh).
  pose proof HL as [_ _ _ A2 _ A4 _ A6]. unfold apart_areas in *.
  assert (forall r, r ∈ ring_regs -> r <> E1K_RDT -> creg c' r = creg c r) as Rk.
  { intros r Hin Hne. rewrite Hr by done. by rewrite (proj2 (Z.eqb_neq r E1K_RDT)). }
  assert (forall j, 0 <= j < 32 -> j <> i -> same_on m m2 (rxd L j) (rxd L j + 16)) as So.
  { intros j Hj Hne x Hx. symmetry. unfold rxd, sizeof_desc in *. apply St. lia. }
  split; [eapply tx_ok_frame; [exact T| | |]| |unfold m2, recycled, st_addr, st16; auto 10 with mboot].
  - intros r Hin. apply Rk; [by apply tx_regs_ring|]. intros ->. repeat (apply elem_of_cons in Hin as [[=] | Hin]). by apply elem_of_nil in Hin.
  - intros x Hx. symmetry. unfold rxd, sizeof_desc in *. apply St. lia.
  - intros x Hx. symmetry. unfold rxd, sizeof_desc in *. apply St. lia.
  - destruct X as [B1 B2 B3 B4 B5 B6 B7 B8 B9]. split; rewrite ?Ear.
    + rewrite Rk by (in_regs || done). done.
    + rewrite Rk by (in_regs || done). done.
    + rewrite Rk by (in_regs || done). done.
    + lia.
    + rewrite Rk by (in_regs || done). done.
    + rewrite Hr by in_regs. rewrite Z.eqb_refl. unfold i. zlia.
    + intros k Hk. destruct (Z.eq_dec k i) as [->|Hne]; [done|]. rewrite <- (proj1 (desc_ext _ _ _ (So k Hk Hne))). by apply B7.
    + intros j it Hj E'. rewrite Hh in E'. pose proof (lookup_lt_Some _ _ _ E'). unfold arrived in *.
      assert (j mod 32 <> i) as Hne by (apply not_eq_sym, mod32_ne; lia). assert (0 <= j mod 32 < 32) as Bj by (apply Z.mod_pos_bound; lia).
      eapply holds_ext; [done|by apply So| |apply B8; [lia|done]]. intros x Hx. symmetry. unfold rxd, rxbuf, sizeof_desc, RX_BUF_SIZE in *. apply St. lia.
    + intros j Hj. destruct (Z.eq_dec j (n + 32)) as [->|Hne].
      * replace ((n + 32) mod 32) with i by (unfold i; zlia). done.
      * assert (j mod 32 <> i) as Hni by (apply not_eq_sym, mod32_ne; lia).
        rewrite <- (dd_ext _ _ _ (So _ (Z.mod_pos_bound j 32 ltac:(lia)) Hni)). apply B9. lia.
Qed.

Lemma rx_addresses s i : layout_ok (lay s) -> 0 <= i < 32 ->
  u32 (rx_ring s + sizeof_desc * i) = rxd (lay s) i /\ u32 (rx_bufs s + RX_BUF_SIZE * i) = rxbuf (lay s) i.
Proof.
  intros [P T _ _ _ _ _ _] Ht. simpl in *. unfold rxd, rxbuf, sizeof_desc, RX_BUF_SIZE. split; apply u32_small; simpl; lia.
Qed.

Lemma recycle_runs s t n : nic_ok s (Idle t) n -> n < arrived (ecard s) -> runs rx_recycle s (fun _ s' =>
  nic_ok s' (Idle t) (n + 1) /\ lay s' = lay s /\ traffic (ecard s') = traffic (ecard s) /\ history (ecard s) `prefix_of` history (ecard s')).
Proof.
  intros Ok Hn. assert (0 <= n mod 32 < 32) as Bn by (apply Z.mod_pos_bound; lia).
  destruct (rx_addresses s (n mod 32) (ok_layout _ _ _ Ok) Bn) as [Ed Eb].
  unfold rx_recycle. apply runs_bind, runs_gets. unfold id. rewrite (ok_tail _ _ _ Ok). unfold NUM_RX_DESC. rewrite Ed, Eb.
  apply runs_bind, runs_modify, runs_bind, runs_modify. apply write_runs; [apply Ok|done|lia|intros [[=] _]|]. intros c m w Hw Hs.
  pose proof (recycle_ok _ _ _ c _ _ (ok_layout _ _ _ Ok) (ok_ring _ _ _ Ok) Hn Hw) as Hr.
  destruct (card_steps_keep _ _ _ _ (ok_layout _ _ _ Ok) Hs _ Hr) as (ph' & Ev). destruct Hw as [_ (W1 & W2 & W3)].
  destruct (sends_idle _ _ _ _ (ev_sends _ _ _ _ _ _ _ _ Ev)) as [-> _]. destruct Ev as [Ro _ T P _].
  split; [split; [apply Ok|apply Ok|exact Ro|]|].
  - change (((n mod 32 + 1) mod 32) = (n + 1) mod 32). zlia.
  - split; [done|]. simpl in T, P. unfold traffic in *. rewrite W2, W3 in T. rewrite W3 in P. done.
Qed.

(** The status that the driver looks at tells whether a frame is pending. *)
Lemma pending_dd s ph n : nic_ok s ph n -> dd (eram s) (rxd (lay s) (n mod 32)) = bool_decide (n < arrived (ecard s)).
Proof.
  intros Ok. pose proof (ring_rx _ _ _ _ _ (ok_ring _ _ _ Ok)) as X. destruct (rx_count _ _ _ _ X) as [Hc _]. case_bool_decide as Hn.
  - unfold arrived in Hn. destruct (lookup_lt_is_Some_2 (history (ecard s)) (Z.to_nat n)) as [it E']; [lia|].
    by destruct (rx_full _ _ _ _ X n it ltac:(lia) E').
  - apply (rx_free _ _ _ _ X). lia.
Qed.

Section Drain.
Context {S : Type} (get : S -> E) (put : E -> S -> S) (process : list Z -> M S unit) (log : S -> list (list Z)).
Context (get_put : forall e s, get (put e s) = e) (log_put : forall e s, log (put e s) = log s).
(** The layer above may send, and touches neither the receive ring nor its count. *)
Context (process_law : forall bytes s t n, nic_ok (get s) (Idle t) n -> runs (process bytes) s (fun _ s' =>
  (exists t', nic_ok (get s') (Idle t') n) /\ lay (get s') = lay (get s) /\ traffic (ecard (get s')) = traffic (ecard (get s))
  /\ history (ecard (get s)) `prefix_of` history (ecard (get s')) /\ log s' = log s ++ [bytes])).

Lemma on_e1k_runs {A} (c : M E A) s (Q : A -> S -> Prop) : runs c (get s) (fun a e => Q a (put e s)) -> runs (on_e1k get put c) s Q.
Proof. intros (a & e & E' & HQ). exists a, (put e s). unfold on_e1k, zoom. by rewrite E'. Qed.

(** One round: the pending frame [it] is consumed. *)
Definition after (s s' : S) (n n' : Z) : Prop :=
  (exists t', nic_ok (get s') (Idle t') n') /\ lay (get s') = lay (get s) /\ traffic (ecard (get s')) = traffic (ecard (get s))
  /\ n <= n' /\ arrived (ecard (get s)) <= arrived (ecard (get s'))
  /\ log s' = log s ++ omap deliver (take (Z.to_nat (n' - n)) (drop (Z.to_nat n) (traffic (ecard (get s))))).

Lemma prefix_arrived c c' : history c `prefix_of` history c' -> arrived c <= arrived c'.
Proof. intros Hp%prefix_length. unfold arrived. lia. Qed.

Lemma after_trans s1 s2 s3 n1 n2 n3 : 0 <= n1 -> after s1 s2 n1 n2 -> after s2 s3 n2 n3 -> after s1 s3 n1 n3.
Proof.
  intros Hn (_ & L1 & T1 & N1 & A1 & E1) ((t & Ok) & L2 & T2 & N2 & A2 & E2). split; [by exists t|].
  split; [congruence|]. split; [congruence|]. split; [lia|]. split; [lia|]. rewrite E2, E1, T1, <- app_assoc, <- omap_app. do 2 f_equal.
  replace (Z.to_nat (n3 - n1)) with (Z.to_nat (n2 - n1) + Z.to_nat (n3 - n2))%nat by lia.
  replace (Z.to_nat n2) with (Z.to_nat n1 + Z.to_nat (n2 - n1))%nat by lia. by rewrite <- drop_drop, take_take_drop.
Qed.

Lemma consume_runs s t n : nic_ok (get s) (Idle t) n -> n < arrived (ecard (get s)) ->
  runs (on_e1k get put (gets (fun e => rx_frame (eram e) (rxd (lay (get s)) (n mod 32)) (u32 (rx_bufs e + RX_BUF_SIZE * rx_tail e))))) s
    (fun frame s1 => runs (match frame with Some bytes => process bytes | None => mret tt end) s1
      (fun _ s2 => runs (on_e1k get put rx_recycle) s2 (fun _ s' => after s s' n (n + 1)))).
Proof.
  intros Ok Hn. pose proof (ring_rx _ _ _ _ _ (ok_ring _ _ _ Ok)) as X. destruct (rx_count _ _ _ _ X) as [Hc _].
  assert (0 <= n mod 32 < 32) as Bn by (apply Z.mod_pos_bound; lia).
  destruct (lookup_lt_is_Some_2 (history (ecard (get s))) (Z.to_nat n)) as [it Eit]; [unfold arrived in Hn; lia|].
  pose proof (rx_full _ _ _ _ X n it ltac:(lia) Eit) as Hh. apply on_e1k_runs, runs_gets.
  rewrite (ok_tail _ _ _ Ok). unfold NUM_RX_DESC. rewrite (proj2 (rx_addresses _ _ (ok_layout _ _ _ Ok) Bn)), (rx_frame_holds _ _ _ _ Hh).
  assert (omap deliver (take 1 (drop (Z.to_nat n) (traffic (ecard (get s))))) = option_list (deliver it)) as Eo.
  { unfold traffic. rewrite (drop_S _ it) by (by apply lookup_app_l_Some). simpl. by destruct (deliver it). }
  unfold after. replace (n + 1 - n) with 1 by lia. change (Z.to_nat 1) with 1%nat. rewrite Eo. clear Eo.
  set (s1 := put (get s) s). assert (get s1 = get s /\ log s1 = log s) as [G1 L1] by (split; [apply get_put|apply log_put]).
  apply (runs_mono _ _ (fun _ s' => (exists t', nic_ok (get s') (Idle t') n) /\ lay (get s') = lay (get s)
    /\ traffic (ecard (get s')) = traffic (ecard (get s)) /\ history (ecard (get s)) `prefix_of` history (ecard (get s'))
    /\ log s' = log s ++ option_list (deliver it))).
  - destruct (deliver it) as [bytes|].
    + pose proof (process_law bytes s1 t n) as Pl. rewrite G1, L1 in Pl. by apply Pl.
    + apply runs_ret. rewrite G1, L1. simpl. rewrite app_nil_r. eauto 8.
  - intros [] s2 ((t2 & Ok2) & L2 & T2 & P2 & E2). apply on_e1k_runs. pose proof (prefix_arrived _ _ P2).
    eapply runs_mono; [apply (recycle_runs _ t2 n Ok2); lia|]. intros [] e (Oke & Le & Te & Pe). pose proof (prefix_arrived _ _ Pe).
    rewrite get_put, log_put. split; [by exists t2|]. rewrite Le, Te, E2. repeat split; done || lia.
Qed.

(** C19: draining the ring looks at every buffer filled since the last time exactly
    once and in order of arrival, hands to the Ethernet layer the bytes of those that
    end a packet, are not empty and carry no frame error, and no others, gives the
    descriptors back to the card, and ends when nothing is pending.  (A packet that
    spans several descriptors is not put together: the driver delivers its last part
    as a frame, [deliver].) *)
Theorem e1k_drain_delivers fuel : forall s t n,
  nic_ok (get s) (Idle t) n -> Z.of_nat (length (traffic (ecard (get s)))) - n < Z.of_nat fuel ->
  exists s' t' n', e1k_drain_rx get put process fuel s = Ret tt s' /\ nic_ok (get s') (Idle t') n'
    /\ n' = arrived (ecard (get s')) /\ arrived (ecard (get s)) <= n' /\ lay (get s') = lay (get s)
    /\ traffic (ecard (get s')) = traffic (ecard (get s))
    /\ log s' = log s ++ omap deliver (take (Z.to_nat (n' - n)) (drop (Z.to_nat n) (traffic (ecard (get s))))).
Proof.
  intros s t n Ok Hf. enough (runs (e1k_drain_rx get put process fuel) s (fun _ s' => exists n', after s s' n n' /\ n' = arrived (ecard (get s'))))
    as ([] & s' & E' & n' & ((t' & Ok') & L & T & Hn & Ha & El) & En) by (exists s', t', n'; do 2 (split; [done|]); do 2 (split; [lia|]); done).
  revert s t n Ok Hf. induction fuel as [|fuel IH]; intros s t n Ok Hf.
  { destruct (rx_count _ _ _ _ (ring_rx _ _ _ _ _ (ok_ring _ _ _ Ok))) as [Hc _]. unfold arrived, traffic in *. rewrite length_app in Hf. lia. }
  assert (0 <= n mod 32 < 32) as Bn by (apply Z.mod_pos_bound; lia). cbn [e1k_drain_rx].
  apply runs_bind, on_e1k_runs, runs_gets. rewrite (ok_tail _ _ _ Ok). unfold NUM_RX_DESC.
  rewrite (proj1 (rx_addresses _ _ (ok_layout _ _ _ Ok) Bn)).
  apply runs_bind, on_e1k_runs, poll_runs. rewrite get_put. intros m w Hs _.
  destruct (steps_ok _ _ _ _ _ Ok Hs) as (ph1 & Ok1 & Ev). destruct (sends_idle _ _ _ _ (ev_sends _ _ _ _ _ _ _ _ Ev)) as [-> _].
  destruct Ev as [_ _ T1 P1 _]. apply prefix_arrived in P1. set (s1 := put _ _).
  assert (get s1 = moved m w (get s) /\ log s1 = log s) as [G1 L1] by (unfold s1; rewrite get_put, !log_put; done).
  pose proof (pending_dd _ _ _ Ok1) as Hdd. rewrite <- G1 in Ok1, Hdd. unfold dd in Hdd. fold (eram (moved m w (get s))) in Hdd.
  replace (Z.land (desc_status m (rxd (lay (get s)) (n mod 32))) E1K_RXD_STAT_DD =? 0) with (negb (bool_decide (n < arrived (ecard (get s1)))))
    by (rewrite <- Hdd, G1, negb_involutive; done).
  assert (0 <= n) as Hn0 by (destruct (rx_count _ _ _ _ (ring_rx _ _ _ _ _ (ok_ring _ _ _ Ok))); lia).
  assert (after s s1 n n) as A0.
  { unfold after. rewrite Z.sub_diag, G1, L1. simpl. rewrite app_nil_r. split; [rewrite <- G1; by exists t|]. repeat split; done || lia. }
  case_bool_decide as Hp; cbn [negb].
  - pose proof (consume_runs s1 t n Ok1 Hp) as C1. replace (lay (get s1)) with (lay (get s)) in C1 by (by rewrite G1).
    apply runs_bind. eapply runs_mono; [exact C1|]. intros frame s1' C2. apply runs_bind. eapply runs_mono; [exact C2|].
    intros [] s1'' C3. apply runs_bind. eapply runs_mono; [exact C3|]. intros [] s2 A1. pose proof (after_trans _ _ _ _ _ _ Hn0 A0 A1) as A2. destruct A2 as ((t2 & Ok2) & _ & T2 & _).
    eapply runs_mono; [apply (IH s2 t2 (n + 1) Ok2); rewrite T2; lia|]. intros [] s3 (n3 & A3 & E3).
    exists n3. split; [|done]. eapply after_trans; [done| |exact A3]. by eapply after_trans.
  - apply runs_ret. exists n. split; [done|]. destruct (rx_count _ _ _ _ (ring_rx _ _ _ _ _ (ok_ring _ _ _ Ok1))). lia.
Qed.
End Drain.
End Driver.
