(* ===== verification/E1kInit.v ===== *)
(** Initialisation of the network card ([e1k_init] of stage2/dev/e1k.c): from a card
    at rest to rings that satisfy the driver's invariant, in memory of its own. *)
From S2P Require Import Prelude Mem HeapSpec Net UdpQueue Ports Cpu Pci E1k E1kCard E1kProofs.

Ltac not_ring := let Hx := fresh in intros Hx; unfold ring_regs in Hx; repeat (apply elem_of_cons in Hx as [[=] | Hx]); by apply elem_of_nil in Hx.

Lemma not_ring_ctrl : E1K_REG_CTRL ∉ ring_regs.
Proof. not_ring. Qed.

(** [n] bytes at [a] taken from [m']. *)
Fixpoint copy_area (a : Z) (n : nat) (m' m : ram) : ram :=
  match n with O => m | S n' => copy_area (a + 1) n' m' (st8 a (ld8 m' a) m) end.
Lemma ld8_copy_area n : forall a m' m x, ram_ok m' -> ld8 (copy_area a n m' m) x = if (a <=? x) && (x <? a + Z.of_nat n) then ld8 m' x else ld8 m x.
Proof.
  induction n as [|n IH]; intros a m' m x R; cbn [copy_area].
  - destruct (Z.leb_spec a x); [|done]. cbn [andb]. case_z; [lia|done].
  - rewrite IH, ld8_st8 by done. destruct (Z.leb_spec (a + 1) x), (Z.leb_spec a x); cbn [andb]; try lia; repeat (case_z; try lia); try done.
    subst. by apply u8_small, R.
Qed.

Section Calm.
Context {W H : Type} `{Ports W} `{Mmio W} (base : Z) (latency : nat) `{!E1000 W base latency}.
Abbreviation E := (e1k W H).
Abbreviation ecard := (ecard base latency).
Abbreviation mapped := (mapped base).

(** ** Accesses while the card is disabled *)

(** Only registers outside the rings and the station address have changed. *)
Record calm (s s' : E) : Prop := {
  cm_heap : eheap s' = eheap s;
  cm_desc : desc (nic_e1k s') = desc (nic_e1k s);
  cm_lay : lay s' = lay s;
  cm_off : off (ecard s');
  cm_traffic : same_traffic (ecard s) (ecard s')
}.

Lemma calm_mapped s s' : calm s s' -> mapped s -> mapped s'.
Proof. intros C [A B]. unfold E1kProofs.mapped, e1k_is_mmio in *. by rewrite (cm_desc _ _ C). Qed.
Lemma calm_trans s1 s2 s3 : calm s1 s2 -> calm s2 s3 -> calm s1 s3.
Proof.
  intros [A1 A2 A3 A4 (T1 & T2 & T3)] [B1 B2 B3 B4 (T4 & T5 & T6)]. split; [congruence|congruence|congruence|done|]. split; [congruence|]. split; congruence.
Qed.
Lemma calm_refl s : off (ecard s) -> calm s s.
Proof. by split. Qed.

(** A computation that stays calm. *)
Definition calms {A} (c : M E A) : Prop := forall s, mapped s -> off (ecard s) -> runs c s (fun _ s' => calm s s').

Lemma calms_bind {A B} (c : M E A) (f : A -> M E B) : calms c -> (forall a, calms (f a)) -> calms (c ≫= f).
Proof.
  intros Hc Hf s Hm Hr. apply runs_bind. eapply runs_mono; [by apply Hc|]. intros a s' C.
  eapply runs_mono; [apply Hf; [exact (calm_mapped _ _ C Hm)|apply C]|]. intros b s2 C2. exact (calm_trans _ _ _ C C2).
Qed.
Lemma calms_ret {A} (a : A) : calms (mret a).
Proof. intros s _ Hr. by apply runs_ret, calm_refl. Qed.
Lemma calms_gets {A} (f : E -> A) : calms (gets f).
Proof. intros s _ Hr. by apply runs_gets, calm_refl. Qed.
Lemma calms_set_mac l : calms (set_mac l).
Proof. intros s _ Hr. by apply runs_modify. Qed.
Lemma calms_for n : forall i (body : Z -> M E unit), (forall j, calms (body j)) -> calms (for_loop n i body).
Proof. induction n as [|n IH]; intros i body Hb; cbn [for_loop]; [apply calms_ret|]. apply calms_bind; [apply Hb|]. intros _. by apply IH. Qed.

Lemma steps_calm s m w : rtc card_step (eram s, ecard s) (m, view w) -> off (ecard s) -> calm s (moved m w s).
Proof.
  intros Hs Ha. destruct (rest_steps _ _ Hs (off_rest _ Ha)) as [Em Sc]. simpl in Em, Sc. subst m. split; try done.
  - by destruct s as [? [] ? ? ? ? ? ? ?].
  - by eapply off_same.
  - apply Sc.
Qed.

Lemma calms_read r : 0 <= r < 131072 -> calms (e1k_read r).
Proof.
  intros Hr s Hm Ha. apply (read_runs base latency); [done|done|]. intros v m w Hs _ _. by apply steps_calm.
Qed.

Lemma calms_write r v : 0 <= r < 131072 -> r ∉ ring_regs -> ~ (r = E1K_REG_CTRL) -> calms (e1k_write r v).
Proof.
  intros Hr Hn Hc s Hm Ha. apply (write_runs_on base latency); [done|done|]. intros m w Hs.
  pose proof (write_reg (world s) r (u32 v) Hr (u32_range v) ltac:(tauto)) as [Rg Tr].
  assert (same_card (ecard s) (view (mmio_write (base + r) (u32 v) (world s)))) as Sc.
  { split; [|done]. intros x Hx. rewrite Rg by done. by rewrite (proj2 (Z.eqb_neq x r)) by (intros ->; done). }
  apply steps_calm; [|done]. eapply rtc_l; [|exact Hs]. by apply step_other.
Qed.

(** A write to the control register may reset the card. *)
Lemma calms_control v : calms (e1k_write E1K_REG_CTRL v).
Proof.
  intros s Hm Ha. apply (write_runs_on base latency); [done|done|]. intros m w Hs.
  destruct (Z.eq_dec (Z.land (u32 v) E1K_CTRL_RST) 0) as [E0|E0].
  - pose proof (write_reg (world s) E1K_REG_CTRL (u32 v) ltac:(done) (u32_range v) ltac:(tauto)) as [Rg Tr].
    apply steps_calm; [|done]. eapply rtc_l; [|exact Hs]. apply step_other. split; [|done]. intros x Hx. rewrite Rg by done.
    destruct (Z.eqb_spec x E1K_REG_CTRL) as [->|]; [|done]. by apply not_ring_ctrl in Hx.
  - destruct (write_reset (world s) (u32 v) (u32_range v) E0) as [R Tr]. destruct (rest_steps _ _ Hs (off_rest _ R)) as [Em [Sr (S1 & S2 & S3)]].
    simpl in *. subst m. split; try done.
    + by destruct s as [? [] ? ? ? ? ? ? ?].
    + eapply off_same; [|exact R]. by split.
    + destruct Tr as (T1 & T2 & T3). unfold E1kProofs.ecard. cbn. repeat split; congruence.
Qed.

(** ** The first part of [e1k_init] *)

Lemma calms_detect n : calms (detect_loop n).
Proof.
  induction n as [|n IH]; cbn [detect_loop]; [apply calms_ret|]. apply calms_bind; [by apply calms_read|]. intros v.
  destruct (negb _); [apply calms_ret|exact IH].
Qed.
Lemma calms_poll n r b : 0 <= r < 131072 -> calms (poll_reg n r b).
Proof.
  intros Hr. induction n as [|n IH]; cbn [poll_reg]; (apply calms_bind; [by apply calms_read|]); intros v;
    (destruct (negb _); [apply calms_ret|]); [apply calms_ret|exact IH].
Qed.
Lemma calms_wait_reset n : calms (wait_reset n).
Proof.
  induction n as [|n IH]; cbn [wait_reset]; (apply calms_bind; [by apply calms_read|]); intros v;
    (destruct (_ =? 0); [apply calms_ret|]); [apply calms_ret|exact IH].
Qed.
#[local] Opaque detect_loop poll_reg wait_reset.

Lemma calms_reset : calms e1k_reset.
Proof.
  unfold e1k_reset. apply calms_bind; [apply calms_control|]. intros _. apply calms_bind; [apply calms_wait_reset|]. intros _.
  apply calms_bind; [by apply calms_read|]. intros c. apply calms_bind; [apply calms_control|]. intros _.
  apply calms_bind; [by apply calms_read|]. intros _. apply calms_ret.
Qed.

Lemma calms_eeprom a : calms (e1k_read_eeprom a).
Proof.
  unfold e1k_read_eeprom. apply calms_bind; [apply calms_write; [done|not_ring|done]|]. intros _.
  apply calms_bind; [by apply calms_poll|]. intros []; [|apply calms_ret]. apply calms_bind; [by apply calms_read|]. intros v. apply calms_ret.
Qed.

Lemma calms_find_mac : calms e1k_find_mac.
Proof.
  unfold e1k_find_mac, e1k_detect_eeprom, e1k_read_mac. apply calms_bind; [apply calms_detect|]. intros [].
  - apply calms_for. intros i. apply calms_bind; [apply calms_eeprom|]. intros w. destruct (w =? 65535); [apply calms_ret|].
    apply calms_bind; [apply calms_gets|]. intros l. apply calms_set_mac.
  - apply calms_bind; [by apply calms_read|]. intros ral. apply calms_bind; [by apply calms_read|]. intros rah.
    apply calms_bind; [apply calms_gets|]. intros l. apply calms_set_mac.
Qed.

Lemma calms_program_mac : calms e1k_program_mac.
Proof.
  unfold e1k_program_mac. apply calms_bind; [apply calms_gets|]. intros l.
  apply calms_bind; [apply calms_write; [done|not_ring|done]|]. intros _. apply calms_write; [done|not_ring|done].
Qed.

(** Port accesses leave the card alone. *)
Definition port_calm {A} (c : M W A) : Prop := forall w, runs c w (fun _ w' => same_card (view w) (view w')).

Lemma port_calm_bind {A B} (c : M W A) (f : A -> M W B) : port_calm c -> (forall a, port_calm (f a)) -> port_calm (c ≫= f).
Proof.
  intros Hc Hf w. apply runs_bind. eapply runs_mono; [apply Hc|]. intros a w1 S1. eapply runs_mono; [apply Hf|].
  intros b w2 S2. exact (same_card_trans _ _ _ S1 S2).
Qed.
Lemma port_calm_ret {A} (a : A) : port_calm (mret a).
Proof. intros w. by apply runs_ret. Qed.
Lemma port_calm_outl p v : port_calm (outl p v).
Proof. intros w. apply runs_modify, outl_keeps. Qed.
Lemma port_calm_outb p v : port_calm (outb p v).
Proof. intros w. apply runs_modify, outb_keeps. Qed.
Lemma port_calm_inl p : port_calm (inl p).
Proof. intros w. unfold inl, runs. pose proof (inl_keeps (u16 p) w). destruct (port_inl _ w) as [v w']. eauto. Qed.
Lemma port_calm_inb p : port_calm (inb p).
Proof. intros w. unfold inb, runs. pose proof (inb_keeps (u16 p) w). destruct (port_inb _ w) as [v w']. eauto. Qed.

Ltac port_calm := repeat first [apply port_calm_ret | apply port_calm_outl | apply port_calm_outb | apply port_calm_inl | apply port_calm_inb
  | apply port_calm_bind; [|intro] | match goal with |- port_calm (if ?b then _ else _) => destruct b end].

Lemma port_calm_read d o : port_calm (pci_config_read_word d o).
Proof. unfold pci_config_read_word, pci_config_read_word_raw, pci_config_read_raw. port_calm. Qed.
Lemma port_calm_write d o v : port_calm (pci_config_write_word d o v).
Proof. unfold pci_config_write_word, pci_config_write_word_raw. cbv zeta. port_calm. Qed.
Lemma port_calm_mask i : port_calm (pic_clear_mask i).
Proof. unfold pic_clear_mask. port_calm. Qed.

(** The configuration space is reached before the register base is known. *)
Definition calms0 {A} (c : M E A) : Prop := forall s, off (ecard s) -> runs c s (fun _ s' => calm s s').
Lemma calms0_bind {A B} (c : M E A) (f : A -> M E B) : calms0 c -> (forall a, calms0 (f a)) -> calms0 (c ≫= f).
Proof.
  intros Hc Hf s Hr. apply runs_bind. eapply runs_mono; [by apply Hc|]. intros a s' C.
  eapply runs_mono; [apply Hf, C|]. intros b s2 C2. exact (calm_trans _ _ _ C C2).
Qed.
Lemma calms0_world {A} (c : M W A) : port_calm c -> calms0 (on_world c).
Proof.
  intros Hc s Ha. destruct (Hc (world s)) as (a & w & E' & S). exists a, (set_world w s). split; [unfold on_world, zoom; by rewrite E'|].
  split; try done; [by eapply off_same|apply S].
Qed.

Lemma calms_pci_setup : calms0 e1k_pci_setup.
Proof.
  unfold e1k_pci_setup. apply calms0_bind; [intros s Hs; by apply runs_gets, calm_refl|]. intros dev.
  repeat (apply calms0_bind; [apply calms0_world, port_calm_read || apply calms0_world, port_calm_write|]; intro).
  destruct (negb _); [apply calms0_world, port_calm_write|]. intros s Hs. by apply runs_ret, calm_refl.
Qed.

(** ** Ring registers while neither ring has work *)

Definition upd (r v : Z) (f : Z -> Z) : Z -> Z := fun x => if x =? r then v else f x.
Definition has (c : card) (f : Z -> Z) : Prop := forall r, r ∈ ring_regs -> creg c r = f r.
Definition resting (f : Z -> Z) : Prop :=
  (Z.land (f E1K_TCTL) E1K_TCTL_EN = 0 \/ f E1K_TDH = f E1K_TDT) /\ Z.land (f E1K_RCTL) E1K_RCTL_EN = 0.

Lemma has_rest c f : has c f -> resting f -> at_rest c.
Proof. intros Hf Hr. unfold at_rest. by rewrite !Hf by in_regs. Qed.
Lemma has_same c c' f : has c f -> same_card c c' -> has c' f.
Proof. intros Hf [R _] r Hr. rewrite R by done. by apply Hf. Qed.
Lemma has_written r v c c' f : has c f -> written r v c c' -> has c' (upd r v f).
Proof. intros Hf [R _] x Hx. rewrite R by done. unfold upd. destruct (x =? r); [done|by apply Hf]. Qed.

Lemma traffic_trans c1 c2 c3 : same_traffic c1 c2 -> same_traffic c2 c3 -> same_traffic c1 c3.
Proof. intros (A1 & A2 & A3) (B1 & B2 & B3). repeat split; congruence. Qed.

Lemma set_eram_same (s : E) w : moved (eram s) w s = set_world w s.
Proof. by destruct s as [? [] ? ? ? ? ? ? ?]. Qed.

Lemma write_rest r v (s : E) f Q : mapped s -> 0 <= r < 131072 -> r <> E1K_REG_CTRL -> has (ecard s) f -> resting (upd r (u32 v) f) ->
  (forall w, has (view w) (upd r (u32 v) f) -> same_traffic (ecard s) (view w) -> Q tt (set_world w s)) -> runs (e1k_write r v) s Q.
Proof.
  intros Hm Hr Hc Hf Hrest HQ. apply (write_runs_on base latency); [done|done|]. intros m w Hs.
  pose proof (write_reg (world s) r (u32 v) Hr (u32_range v) ltac:(tauto)) as Hw.
  pose proof (has_written _ _ _ _ _ Hf Hw) as Hf'. destruct (rest_steps _ _ Hs (has_rest _ _ Hf' Hrest)) as [Em Sc]. simpl in Em, Sc. subst m.
  rewrite set_eram_same. apply HQ; [by eapply has_same|]. eapply traffic_trans; [apply Hw|apply Sc].
Qed.

Lemma read_rest r (s : E) f Q : mapped s -> 0 <= r < 131072 -> has (ecard s) f -> resting f ->
  (forall v w, in_u32 v -> has (view w) f -> same_traffic (ecard s) (view w) -> Q v (set_world w s)) -> runs (e1k_read r) s Q.
Proof.
  intros Hm Hr Hf Hrest HQ. apply (read_runs base latency); [done|done|]. intros v m w Hs _ Hv.
  destruct (rest_steps _ _ Hs (has_rest _ _ Hf Hrest)) as [Em Sc]. simpl in Em, Sc. subst m.
  rewrite set_eram_same. apply HQ; [done|by eapply has_same|apply Sc].
Qed.

Ltac wr F w F' T := eapply write_rest; [eassumption|done|done|exact F|split; [first [by left|by right]|done]|]; intros w F' T.
Ltac rd F w F' T := eapply read_rest; [eassumption|done|exact F|split; [first [by left|by right]|done]|]; intros ? w ? F' T.

(** ** Filling a ring

    [body i] prepares slot [i] of a ring of [n] descriptors. *)
Section Fill.
Context (n : nat) (ring bufs : Z) (body : Z -> ram -> ram) (v : bool).
Context (body_out : forall i m x, 0 <= i < Z.of_nat n -> ~ (ring + 16 * i <= x < ring + 16 * i + 16) ->
  ~ (bufs + 2048 * i <= x < bufs + 2048 * i + 2048) -> ld8 (body i m) x = ld8 m x).
Context (body_ram : forall i m, ram_ok m -> ram_ok (body i m)).
Context (body_desc : forall i m, 0 <= i < Z.of_nat n -> desc_addr (body i m) (ring + 16 * i) = bufs + 2048 * i /\ dd (body i m) (ring + 16 * i) = v).
Context (areas : ring + 16 * Z.of_nat n <= bufs \/ bufs + 2048 * Z.of_nat n <= ring).

Definition filled (k : Z) (m0 m : ram) : Prop :=
  (forall i, 0 <= i < k -> desc_addr m (ring + 16 * i) = bufs + 2048 * i /\ dd m (ring + 16 * i) = v)
  /\ (forall x, ~ (ring <= x < ring + 16 * Z.of_nat n) -> ~ (bufs <= x < bufs + 2048 * Z.of_nat n) -> ld8 m x = ld8 m0 x)
  /\ (ram_ok m0 -> ram_ok m).

Lemma fill_loop j : forall k (s : E) m0, 0 <= k -> k + Z.of_nat j = Z.of_nat n -> filled k m0 (eram s) ->
  exists m', for_loop j k (fun i => on_eram (body i)) s = Ret tt (set_eram m' s) /\ filled (Z.of_nat n) m0 m'.
Proof.
  induction j as [|j IH]; intros k s m0 Hk Hj (F & O & R).
  - exists (eram s). split; [by destruct s as [? [] ? ? ? ? ? ? ?]|]. replace (Z.of_nat n) with k by lia. split; [done|]. split; [|done].
    replace k with (Z.of_nat n) by lia. done.
  - cbn [for_loop]. destruct (IH (k + 1) (set_eram (body k (eram s)) s) m0) as (m' & E' & F'); [lia|lia| |exists m'; split; [|done]].
    + change (eram _) with (body k (eram s)). split; [|split; [|auto]].
      * intros i Hi. destruct (Z.eq_dec i k) as [->|Hne]; [apply body_desc; lia|].
        assert (same_on (eram s) (body k (eram s)) (ring + 16 * i) (ring + 16 * i + 16)) as So.
        { intros x Hx. symmetry. apply body_out; lia. }
        rewrite <- (proj1 (desc_ext _ _ _ So)), <- (dd_ext _ _ _ So). apply F. lia.
      * intros x H1' H2'. rewrite body_out by lia. by apply O.
    + erewrite bind_ret by reflexivity. exact E'.
Qed.
End Fill.

(** ** Memory for the rings *)

Section Alloc.
Context `{KernelHeap}.

(** A write that is confined to areas in use keeps the heap. *)
Lemma write_areas (areas : list (Z * Z)) m' al : forall h, areas <> [] -> heap_inv h al -> Forall (fun a => owns al a.1 a.2) areas -> ram_ok m' ->
  (forall x, Forall (fun a => ~ (a.1 <= x < a.2)) areas -> ld8 (hram h) x = ld8 m' x) -> heap_inv (set_ram m' h) al.
Proof.
  induction areas as [|a areas IH]; intros h Hne Hi Ho Rm Hx; [done|]. inversion Ho as [|? ? Oa Or]; subst. destruct areas as [|a' areas].
  - apply (write_law h al a.1 a.2); [done|done|done|]. intros x Hn. apply Hx. by repeat constructor.
  - set (m1 := copy_area a.1 (Z.to_nat (a.2 - a.1)) m' (hram h)).
    assert (forall x, ld8 m1 x = if (a.1 <=? x) && (x <? a.2) then ld8 m' x else ld8 (hram h) x) as E1.
    { intros x. unfold m1. rewrite ld8_copy_area by done. destruct (Z.leb_spec a.1 x); [|done]. cbn [andb]. repeat case_z; done || lia. }
    replace (set_ram m' h) with (set_ram m' (set_ram m1 h)) by done. apply IH; [done| |done|done|].
    + apply (write_law h al a.1 a.2); [done|done| |].
      * intros x. rewrite E1. pose proof (inv_ram _ _ Hi x). specialize (Rm x). by destruct (_ && _).
      * intros x Hn. rewrite E1. destruct (Z.leb_spec a.1 x); [|done]. cbn [andb]. case_z; [lia|done].
    + intros x Hf. simpl. rewrite E1. destruct (Z.leb_spec a.1 x), (Z.ltb_spec x a.2); cbn [andb]; try done; apply Hx; constructor; done || lia.
Qed.

Lemma ends_malloc (s : E) al n (Q : Z -> E -> Prop) : heap_inv (eheap s) al -> 0 < n <= 1000000 ->
  (forall p sz h', n <= sz -> heap_inv h' ((p - 12, sz) :: al) -> kept al (eram s) (hram h') -> Q p (set_heap h' s)) ->
  ends (on_heap (malloc n) s) Q.
Proof.
  intros Hi Hn HQ. unfold on_heap, zoom. destruct (malloc_law _ _ _ Hi Hn) as [(p & sz & h' & -> & Hs & Hi' & K & _) | ->]; [|done].
  by apply (HQ p sz h').
Qed.

(** A ring of [size] bytes inside the block at [p], and its buffers at [q]. *)
Lemma ring_place h al p sz1 q sz2 size bsize : heap_inv h ((q - 12, sz2) :: (p - 12, sz1) :: al) ->
  0 < size -> size + 128 <= sz1 -> 0 < bsize <= sz2 -> let ring := align_up_uintptr p 128 in
  let ds := [(q - 12, sz2); (p - 12, sz1)] in
  owns ds ring (ring + size) /\ owns ds q (q + bsize) /\ apart_areas ring size q bsize /\ 0 <= ring /\ 0 <= q.
Proof.
  intros Hi Hs H1' H2' ring ds. pose proof (inv_bounds _ _ (p - 12, sz1) Hi ltac:(set_solver)) as (B1 & B2 & B3).
  pose proof (inv_bounds _ _ (q - 12, sz2) Hi ltac:(set_solver)) as (B4 & B5 & B6). pose proof (inv_end _ _ Hi).
  unfold bend, sizeof_block_header_t in *. simpl in *.
  destruct (align_up_spec p 7) as [A _]; [lia|lia|lia|]. change (2 ^ 7) with 128 in A. fold ring in A.
  pose proof (inv_perm_disj _ _ (q - 12, sz2) [] (p - 12, sz1) al Hi eq_refl) as D. unfold disj, bend, sizeof_block_header_t in D. simpl in D.
  repeat split; try lia.
  - exists (p - 12, sz1). unfold bend, sizeof_block_header_t. simpl. split; [set_solver|lia].
  - exists (q - 12, sz2). unfold bend, sizeof_block_header_t. simpl. split; [set_solver|lia].
  - unfold apart_areas. lia.
Qed.

(** The slots as the two initialisations write them. *)
Definition tx_body (ring bufs i : Z) (m : ram) : ram :=
  let d := u32 (ring + sizeof_desc * i) in let b := u32 (bufs + TX_BUF_SIZE * i) in
  st8 (d + 12) STATUS_DD (st_addr d b (memset b 0 TX_BUF_SIZE m)).
Definition rx_body (ring bufs i : Z) (m : ram) : ram :=
  let d := u32 (ring + sizeof_desc * i) in let b := u32 (bufs + RX_BUF_SIZE * i) in
  st16 (d + 8) 0 (st8 (d + 12) 0 (st_addr d b (memset b 0 RX_BUF_SIZE m))).

Lemma memset_other b n m x : ~ (b <= x < b + n) -> 0 <= n -> ld8 (memset b 0 n m) x = ld8 m x.
Proof. intros Hx Hn. symmetry. apply (same_on_memset m b 0 n x (x + 1)); lia. Qed.

Section Bodies.
Context (n : Z) (ring bufs : Z) (Hr : 0 <= ring /\ ring + 16 * n <= 4294967296) (Hb : 0 <= bufs /\ bufs + 2048 * n <= 4294967296).

Lemma tx_body_out i m x : 0 <= i < n -> ~ (ring + 16 * i <= x < ring + 16 * i + 16) -> ~ (bufs + 2048 * i <= x < bufs + 2048 * i + 2048) ->
  ld8 (tx_body ring bufs i m) x = ld8 m x.
Proof.
  intros Hi H1' H2'. unfold tx_body, st_addr, sizeof_desc, TX_BUF_SIZE. usimp. rewrite ld8_st8. case_z; [lia|].
  rewrite !ld8_st32_other by lia. apply memset_other; lia.
Qed.
Lemma rx_body_out i m x : 0 <= i < n -> ~ (ring + 16 * i <= x < ring + 16 * i + 16) -> ~ (bufs + 2048 * i <= x < bufs + 2048 * i + 2048) ->
  ld8 (rx_body ring bufs i m) x = ld8 m x.
Proof.
  intros Hi H1' H2'. unfold rx_body, st_addr, sizeof_desc, RX_BUF_SIZE. usimp. rewrite ld8_st16_other, ld8_st8 by lia. case_z; [lia|].
  rewrite !ld8_st32_other by lia. apply memset_other; lia.
Qed.

Lemma tx_body_desc i m : 0 <= i < n -> desc_addr (tx_body ring bufs i m) (ring + 16 * i) = bufs + 2048 * i /\ dd (tx_body ring bufs i m) (ring + 16 * i) = true.
Proof.
  intros Hi. unfold tx_body, st_addr, sizeof_desc, TX_BUF_SIZE, desc_addr, dd, desc_status. usimp. split.
  - etrans; [apply ld32_ext; intros x Hx; rewrite ld8_st8; case_z; [lia|reflexivity]|]. rewrite ld32_st32_other by lia. apply ld32_st32_eq. lia.
  - by rewrite ld8_st8, Z.eqb_refl.
Qed.
Lemma rx_body_desc i m : 0 <= i < n -> desc_addr (rx_body ring bufs i m) (ring + 16 * i) = bufs + 2048 * i /\ dd (rx_body ring bufs i m) (ring + 16 * i) = false.
Proof.
  intros Hi. unfold rx_body, st_addr, sizeof_desc, RX_BUF_SIZE, desc_addr, dd, desc_status. usimp. split.
  - etrans; [apply ld32_ext; intros x Hx; rewrite ld8_st16_other, ld8_st8 by lia; case_z; [lia|reflexivity]|].
    rewrite ld32_st32_other by lia. apply ld32_st32_eq. lia.
  - by rewrite ld8_st16_other, ld8_st8, Z.eqb_refl by lia.
Qed.
End Bodies.

Lemma tx_body_ram ring bufs i m : ram_ok m -> ram_ok (tx_body ring bufs i m).
Proof. intros. unfold tx_body, st_addr, memset. auto with mboot. Qed.
Lemma rx_body_ram ring bufs i m : ram_ok m -> ram_ok (rx_body ring bufs i m).
Proof. intros. unfold rx_body, st16, st_addr, memset. auto 10 with mboot. Qed.

(** A block of [al] does not meet what [ds] owns. *)
Lemma owned_apart h ds al lo hi c x : heap_inv h (ds ++ al) -> owns ds lo hi -> c ∈ al -> c.1 <= x < bend c -> ~ (lo <= x < hi).
Proof.
  intros Hi (b & Hb & H1' & H2') Hc Hx Hlo. pose proof (inv_disj _ _ Hi) as D. apply ForallOrdPairs_app in D as (_ & _ & D).
  specialize (D b c Hb Hc). unfold disj, bend, sizeof_block_header_t in *. lia.
Qed.

(** Clearing and filling a ring in memory of its own. *)
Lemma fill_ring (n : nat) ring bufs body v (s : E) ds al : (0 < n)%nat ->
  (forall i m x, 0 <= i < Z.of_nat n -> ~ (ring + 16 * i <= x < ring + 16 * i + 16) ->
     ~ (bufs + 2048 * i <= x < bufs + 2048 * i + 2048) -> ld8 (body i m) x = ld8 m x) ->
  (forall i m, ram_ok m -> ram_ok (body i m)) ->
  (forall i m, 0 <= i < Z.of_nat n -> desc_addr (body i m) (ring + 16 * i) = bufs + 2048 * i /\ dd (body i m) (ring + 16 * i) = v) ->
  heap_inv (eheap s) (ds ++ al) -> owns ds ring (ring + 16 * Z.of_nat n) -> owns ds bufs (bufs + 2048 * Z.of_nat n) ->
  apart_areas ring (16 * Z.of_nat n) bufs (2048 * Z.of_nat n) ->
  exists m', for_loop n 0 (fun i => on_eram (body i)) (set_eram (memset ring 0 (16 * Z.of_nat n) (eram s)) s) = Ret tt (set_eram m' s)
    /\ (forall i, 0 <= i < Z.of_nat n -> desc_addr m' (ring + 16 * i) = bufs + 2048 * i /\ dd m' (ring + 16 * i) = v)
    /\ heap_inv (set_ram m' (eheap s)) (ds ++ al) /\ kept al (eram s) m' /\ ram_ok m'.
Proof.
  intros Hn B1 B2 B3 Hi O1 O2 Ha.
  destruct (fill_loop n ring bufs body v B1 B2 B3 Ha n 0 (set_eram (memset ring 0 (16 * Z.of_nat n) (eram s)) s) (eram s)) as (m' & E' & F & X & R).
  - lia.
  - lia.
  - change (eram (set_eram _ s)) with (memset ring 0 (16 * Z.of_nat n) (eram s)). split; [lia|]. split; [|unfold memset; auto with mboot].
    intros x Hx _. apply memset_other; lia.
  - exists m'. pose proof (inv_ram _ _ Hi) as R0. split; [exact E'|]. split; [done|]. split; [|split; [|auto]].
    + apply (write_areas [(ring, ring + 16 * Z.of_nat n); (bufs, bufs + 2048 * Z.of_nat n)]); [done|done| |by apply R|].
      * repeat constructor; by apply owns_app_l.
      * intros x Hf. inversion Hf as [|? ? N1 Hf2]; subst. inversion Hf2 as [|? ? N2 _]; subst. symmetry. by apply X.
    + apply Forall_forall. intros c Hc x Hx. symmetry. apply X.
      * exact (owned_apart _ _ _ _ _ _ _ Hi O1 Hc Hx).
      * exact (owned_apart _ _ _ _ _ _ _ Hi O2 Hc Hx).
Qed.

(** ** Transmit ring *)

Lemma ends_runs {A} (c : M E A) s Q : runs c s Q -> ends (c s) Q.
Proof. by intros (a & s' & -> & HQ). Qed.

(** The writes to the card's registers. *)
Definition tx_regs (ring bufs : Z) : M E unit :=
  e1k_write E1K_TDBAL ring ;; e1k_write E1K_TDBAH 0 ;; e1k_write E1K_TDLEN (NUM_TX_DESC * sizeof_desc) ;;
  e1k_write E1K_TDH 0 ;; e1k_write E1K_TDT 0 ;; e1k_mmio_post ;; modify (set_tx ring bufs 0) ;;
  e1k_write E1K_TCTL tctl_config ;; e1k_write E1K_TIPG 6299658.

Definition tx_up (ring : Z) (c c' : card) : Prop :=
  creg c' E1K_TDBAL = ring /\ creg c' E1K_TDLEN = 128 /\ creg c' E1K_TDH = 0 /\ creg c' E1K_TDT = 0 /\ creg c' E1K_TCTL = tctl_config
  /\ creg c' E1K_RCTL = creg c E1K_RCTL /\ same_traffic c c'.

Lemma tx_regs_run (s : E) ring bufs : mapped s -> off (ecard s) -> in_u32 ring ->
  runs (tx_regs ring bufs) s (fun _ s' => exists w, s' = set_world w (set_tx ring bufs 0 s) /\ tx_up ring (ecard s) (view w)).
Proof.
  intros Hm [O1 O2] Hr. unfold tx_regs, e1k_mmio_post. set (f0 := creg (ecard s)).
  assert (has (ecard s) f0) as F0 by done. assert (same_traffic (ecard s) (ecard s)) as T0 by done.
  apply runs_bind. wr F0 w1 F1 T1.
  apply runs_bind. wr F1 w2 F2 T2.
  apply runs_bind. wr F2 w3 F3 T3.
  apply runs_bind. wr F3 w4 F4 T4.
  apply runs_bind. wr F4 w5 F5 T5.
  apply runs_bind, runs_bind. rd F5 w6 F6 T6. apply runs_ret.
  apply runs_bind, runs_modify.
  apply runs_bind. wr F6 w7 F7 T7.
  wr F7 w8 F8 T8.
  exists w8. split; [done|]. unfold tx_up. rewrite !F8 by in_regs. split; [by apply u32_small|]. repeat (split; [done|]).
  repeat (eapply traffic_trans; [eassumption|]). done.
Qed.

Record tx_made (s s' : E) (al ds : list blk) : Prop := {
  tm_heap : heap_inv (eheap s') (ds ++ al);
  tm_kept : kept al (eram s) (eram s');
  tm_ring : owns ds (tx_ring s') (tx_ring s' + 128);
  tm_bufs : owns ds (tx_bufs s') (tx_bufs s' + 16384);
  tm_apart : apart_areas (tx_ring s') 128 (tx_bufs s') 16384;
  tm_tx : tx_ok (lay s') (eram s') (ecard s') (Idle 0);
  tm_rctl : Z.land (creg (ecard s') E1K_RCTL) E1K_RCTL_EN = 0;
  tm_traffic : same_traffic (ecard s) (ecard s');
  tm_desc : desc (nic_e1k s') = desc (nic_e1k s)
}.

Lemma kept_cons b al m m' : kept (b :: al) m m' -> kept al m m'.
Proof. by inversion 1. Qed.

Lemma tx_init_ends (s : E) al : mapped s -> off (ecard s) -> heap_inv (eheap s) al ->
  ends (e1k_tx_init s) (fun _ s' => exists ds, tx_made s s' al ds).
Proof.
  intros Hm Ho Hi. unfold e1k_tx_init. apply ends_bind, (ends_malloc s al); [done|done|]. intros p sz1 h1 Hs1 Hi1 K1.
  apply ends_bind, (ends_malloc (set_heap h1 s) _ _ _ Hi1); [done|]. intros q sz2 h2 Hs2 Hi2 K2. apply kept_cons in K2.
  destruct (ring_place h2 al p sz1 q sz2 128 16384 Hi2 ltac:(done) Hs1 ltac:(done)) as (O1 & O2 & Ap & P1 & P2).
  set (ring := align_up_uintptr p 128) in *. set (ds := [(q - 12, sz2); (p - 12, sz1)]) in *.
  pose proof (owns_bounds _ _ _ _ Hi2 (owns_app_l ds al _ _ O1)) as [_ U1]. pose proof (owns_bounds _ _ _ _ Hi2 (owns_app_l ds al _ _ O2)) as [_ U2].
  pose proof (inv_end _ _ Hi2) as U3. apply ends_bind. cbn [gets ends]. apply ends_bind. cbn [modify ends].
  set (s3 := set_tx ring q (tx_tail s) (set_heap h2 s)). change (set_tx ring q _ _) with s3. apply ends_bind. cbn [on_eram modify ends].
  destruct (fill_ring 8 ring q (tx_body ring q) true s3 ds al) as (m & Ef & Fd & Hi3 & K3 & Rm);
    [lia|apply (tx_body_out 8); lia|intros; by apply tx_body_ram|apply (tx_body_desc 8); lia|exact Hi2|exact O1|exact O2|exact Ap|].
  apply ends_bind. change (for_loop _ _ _ _) with (for_loop 8 0 (fun i => on_eram (tx_body ring q i)) (set_eram (memset ring 0 (16 * 8) (eram s3)) s3)).
  change (16 * Z.of_nat 8) with (16 * 8) in Ef. rewrite Ef. cbn [ends].
  apply ends_runs. eapply runs_mono; [apply (tx_regs_run (set_eram m s3) ring q); [done|done|lia]|].
  intros [] s' (w & -> & B1 & B2 & B3 & B4 & B5 & B6 & B7). exists ds. split; [exact Hi3| |exact O1|exact O2|exact Ap| | |exact B7|reflexivity].
  - eapply kept_trans; [exact K1|]. eapply kept_trans; [exact K2|exact K3].
  - split; [exact B1|exact B2| |simpl; lia|exact B3|exact B4|intros i Hi'; exact (proj1 (Fd i Hi'))|intros i Hi'; exact (proj2 (Fd i Hi'))|exact I].
    change (Z.land (creg (view w) E1K_TCTL) E1K_TCTL_EN <> 0). by rewrite B5.
  - change (Z.land (creg (view w) E1K_RCTL) E1K_RCTL_EN = 0). rewrite B6. apply Ho.
Qed.
End Alloc.

(** ** Accesses while both rings are up *)

Abbreviation nic_ok := (nic_ok base latency).

Record up (t n : Z) (s s' : E) : Prop := {
  up_ok : nic_ok s' (Idle t) n;
  up_lay : lay s' = lay s;
  up_heap : eheap s' = set_ram (eram s') (eheap s);
  up_ev : evolves (lay s) n (eram s) (ecard s) (Idle t) (eram s') (ecard s') (Idle t)
}.
Definition ups (t n : Z) {A} (c : M E A) : Prop := forall s, nic_ok s (Idle t) n -> runs c s (fun _ s' => up t n s s').

Section Up.
Context (t n : Z).

Lemma up_refl (s : E) : nic_ok s (Idle t) n -> up t n s s.
Proof. intros Ok. split; [done|done|by destruct s as [? [] ? ? ? ? ? ? ?]|apply evolves_refl, Ok]. Qed.
Lemma up_trans (s1 s2 s3 : E) : up t n s1 s2 -> up t n s2 s3 -> up t n s1 s3.
Proof.
  intros [A1 A2 A3 A4] [B1 B2 B3 B4]. split; [done|congruence|by rewrite B3, A3|]. rewrite A2 in B4. exact (evolves_trans _ _ _ _ _ _ _ _ _ _ _ A4 B4).
Qed.
Lemma ups_bind {A B} (c : M E A) (f : A -> M E B) : ups t n c -> (forall a, ups t n (f a)) -> ups t n (c ≫= f).
Proof.
  intros Hc Hf s Ok. apply runs_bind. eapply runs_mono; [by apply Hc|]. intros a s' U.
  eapply runs_mono; [apply Hf, U|]. intros b s2 U2. exact (up_trans _ _ _ U U2).
Qed.
Lemma ups_ret {A} (a : A) : ups t n (mret a).
Proof. intros s Ok. by apply runs_ret, up_refl. Qed.

(** The card runs on, without a change of its rings by the driver. *)
Lemma up_steps (s : E) c w0 m w : nic_ok s (Idle t) n -> c = view w0 -> same_card (ecard s) c -> rtc card_step (eram s, c) (m, view w) -> up t n s (moved m w s).
Proof.
  intros Ok -> Sc Hs. destruct (steps_ok base latency s (Idle t) n m w Ok) as (ph & Ok' & Ev); [eapply rtc_l; [by apply step_other|exact Hs]|].
  destruct (sends_idle _ _ _ _ (ev_sends _ _ _ _ _ _ _ _ Ev)) as [-> _]. by split.
Qed.

Lemma ups_read r : 0 <= r < 131072 -> ups t n (e1k_read r).
Proof.
  intros Hr s Ok. apply (read_runs base latency); [apply Ok|done|]. intros v m w Hs _ _.
  by apply (up_steps s (ecard s) (world s)).
Qed.
Lemma ups_write r v : 0 <= r < 131072 -> r ∉ ring_regs -> r <> E1K_REG_CTRL -> ups t n (e1k_write r v).
Proof.
  intros Hr Hn Hc s Ok. apply (write_runs_on base latency); [apply Ok|done|]. intros m w Hs.
  eapply up_steps; [done|reflexivity| |exact Hs]. destruct (write_reg (world s) r (u32 v) Hr (u32_range v) ltac:(tauto)) as [Rg Tr].
  split; [|done]. intros x Hx. rewrite Rg by done. by rewrite (proj2 (Z.eqb_neq x r)) by (intros ->; done).
Qed.
(** The receive tail written with the value it has. *)
Lemma ups_tail : ups t n (e1k_write E1K_RDT ((n + 31) mod 32)).
Proof.
  intros s Ok. apply (write_runs_on base latency); [apply Ok|done|]. intros m w Hs. rewrite u32_small in Hs by zlia.
  eapply up_steps; [done|reflexivity| |exact Hs]. destruct (write_reg (world s) E1K_RDT ((n + 31) mod 32) ltac:(done) ltac:(zlia)) as [Rg Tr]; [by intros [? _]|].
  split; [|done]. intros x Hx. rewrite Rg by done. destruct (Z.eqb_spec x E1K_RDT) as [->|]; [|done].
  symmetry. exact (rx_rdt _ _ _ _ (ring_rx _ _ _ _ _ (ok_ring _ _ _ _ _ Ok))).
Qed.

(** A change of the CPU's tables and port accesses. *)
Lemma ups_cpu {A} (c : M (cpu W H) A) : (forall k, runs c k (fun _ k' => same_card (view (io k)) (view (io k')))) -> ups t n (on_cpu c).
Proof.
  intros Hc s Ok. destruct (Hc (ecpu s)) as (a & k & E' & Sc). exists a, (set_cpu k s). split; [unfold on_cpu, zoom; by rewrite E'|].
  destruct (steps_ok base latency s (Idle t) n (eram s) (io k) Ok) as (ph & Ok' & Ev); [by apply rtc_once, step_other|].
  destruct (sends_idle _ _ _ _ (ev_sends _ _ _ _ _ _ _ _ Ev)) as [-> _]. rewrite set_eram_same in Ok'.
  split; [|done|by destruct s as [? [] ? ? ? ? ? ? ?]|exact Ev]. destruct Ok' as [M1 M2 M3 M4]. by split.
Qed.
Lemma ups_install tbl i h : ups t n (on_cpu (install_irq tbl i h)).
Proof. apply ups_cpu. intros k. unfold install_irq, idt_set_gate. by apply runs_bind, runs_modify, runs_modify. Qed.
Lemma ups_unmask i : ups t n (on_cpu (on_io (pic_clear_mask i))).
Proof.
  apply ups_cpu. intros k. destruct (port_calm_mask i (io k)) as (a & w & E' & Sc). unfold runs, on_io, zoom. rewrite E'. eauto.
Qed.

Lemma ups_irq_init tbl hd : ups t n (e1k_irq_init tbl hd).
Proof.
  unfold e1k_irq_init. apply ups_bind; [intros s Ok; by apply runs_gets, up_refl|]. intros i. apply ups_bind; [apply ups_install|]. intros _.
  apply ups_bind; [by apply ups_read|]. intros _. apply ups_bind; [apply ups_write; [done|not_ring|done]|]. intros _.
  apply ups_bind; [apply ups_unmask|]. intros _. apply ups_bind; [by apply ups_read|]. intros _. apply ups_ret.
Qed.
End Up.

(** ** Receive ring *)

(** The registers up to the moment the receiver is enabled. *)
Definition rx_up (ring : Z) (c c' : card) : Prop :=
  creg c' E1K_RDBAL = ring /\ creg c' E1K_RDLEN = 512 /\ creg c' E1K_RDH = 0 /\ creg c' E1K_RDT = 31
  /\ (forall r, r ∈ [E1K_TDBAL; E1K_TDLEN; E1K_TDH; E1K_TDT; E1K_TCTL] -> creg c' r = creg c r) /\ same_traffic c c'.

Lemma rx_regs_run (s : E) ring bufs (rest : M E unit) Q : mapped s -> at_rest (ecard s) -> creg (ecard s) E1K_TDH = creg (ecard s) E1K_TDT -> in_u32 ring ->
  (forall w, rx_up ring (ecard s) (view w) -> runs rest (set_world w (set_rx ring bufs 0 s)) Q) ->
  runs (e1k_write E1K_RDBAL ring ;; e1k_write E1K_RDBAH 0 ;; e1k_write E1K_RDLEN (NUM_RX_DESC * sizeof_desc) ;;
        e1k_write E1K_RCTL rctl_config ;; e1k_write E1K_RDH 0 ;; e1k_write E1K_RDT (NUM_RX_DESC - 1) ;; e1k_write E1K_RXDCTL 0 ;;
        modify (set_rx ring bufs 0) ;; rxdctl ← e1k_read E1K_RXDCTL; e1k_write E1K_RXDCTL (Z.lor rxdctl E1K_RXDCTL_EN) ;; rest) s Q.
Proof.
  intros Hm [_ O2] Ht Hr HQ. set (f0 := creg (ecard s)). assert (has (ecard s) f0) as F0 by done.
  apply runs_bind. wr F0 w1 F1 T1. apply runs_bind. wr F1 w2 F2 T2. apply runs_bind. wr F2 w3 F3 T3.
  apply runs_bind. wr F3 w4 F4 T4. apply runs_bind. wr F4 w5 F5 T5. apply runs_bind. wr F5 w6 F6 T6. apply runs_bind. wr F6 w7 F7 T7.
  apply runs_bind, runs_modify. apply runs_bind. rd F7 w8 F8 T8. apply runs_bind. wr F8 w9 F9 T9. apply HQ.
  unfold rx_up. rewrite !F9 by in_regs. split; [by apply u32_small|]. repeat (split; [done|]). split.
  - intros r Hin. rewrite F9 by set_solver. repeat (apply elem_of_cons in Hin as [-> | Hin]; [done|]). by apply elem_of_nil in Hin.
  - repeat (eapply traffic_trans; [eassumption|]). done.
Qed.

(** The rest: enable, and let the card run. *)
Lemma rx_enable_run (s : E) (rest : M E unit) Q : mapped s -> layout_ok (lay s) -> rx_tail s = 0 ->
  (forall c, written E1K_RCTL (u32 (Z.lor rctl_config E1K_RCTL_EN)) (ecard s) c -> ring_ok (lay s) (eram s) c (Idle 0) 0) ->
  (forall s', up 0 0 s s' -> runs rest s' Q) ->
  runs (e1k_write E1K_RCTL (Z.lor rctl_config E1K_RCTL_EN) ;; rest) s Q.
Proof.
  intros Hm HL Ht Hok HQ. apply runs_bind, (write_runs_on base latency); [done|done|]. intros m w Hs.
  pose proof (write_reg (world s) E1K_RCTL (u32 (Z.lor rctl_config E1K_RCTL_EN)) ltac:(done) (u32_range _) ltac:(by intros [? _])) as Hw.
  pose proof (Hok _ Hw) as Ro. destruct (card_steps_keep _ 0 _ _ HL Hs _ Ro) as (ph & Ev). simpl in Ev.
  destruct (sends_idle _ _ _ _ (ev_sends _ _ _ _ _ _ _ _ Ev)) as [-> _]. apply HQ. destruct Hw as [_ (W1 & W2 & W3)].
  split; [split; [done|done|apply Ev|done]|done|done|]. destruct Ev as [A1 A2 A3 A4 A5]. unfold traffic in *. rewrite W1 in A2. rewrite W2, W3 in A3. rewrite W3 in A4. by split.
Qed.

Lemma ups_rx_rest : ups 0 0 (e1k_write E1K_REG_ITR 0 ;; e1k_write E1K_REG_RDTR 0 ;; e1k_write E1K_REG_RADV 0 ;; e1k_write E1K_RDT (NUM_RX_DESC - 1) ;;
  e1k_read E1K_REG_STATUS ;; e1k_read E1K_RDH ;; e1k_read E1K_RDT ;; e1k_read E1K_RCTL ;; e1k_read E1K_RDBAL ;; e1k_read E1K_RDLEN ;; mret tt).
Proof.
  do 3 (apply ups_bind; [apply ups_write; [done|not_ring|done]|]; intros _). apply ups_bind; [exact (ups_tail 0 0)|]. intros _.
  do 6 (apply ups_bind; [by apply ups_read|]; intros _). apply ups_ret.
Qed.

Section Up2.
Context `{KernelHeap}.

(** Four areas, two owned through [es] and two through [ds]. *)
Lemma layout_of h es ds al L : heap_inv h (es ++ ds ++ al) ->
  owns ds (l_txr L) (l_txr L + 128) -> owns ds (l_txb L) (l_txb L + 16384) -> apart_areas (l_txr L) 128 (l_txb L) 16384 ->
  owns es (l_rxr L) (l_rxr L + 512) -> owns es (l_rxb L) (l_rxb L + 65536) -> apart_areas (l_rxr L) 512 (l_rxb L) 65536 -> layout_ok L.
Proof.
  intros Hi T1 T2 T3 R1 R2 R3.
  assert (forall a b c d, owns es a b -> owns ds c d -> b <= c \/ d <= a) as D.
  { intros a b c d Ha Hc. apply (owns_disjoint h es (ds ++ al)); [done|done|by apply owns_app_l]. }
  pose proof (D _ _ _ _ R1 T1). pose proof (D _ _ _ _ R1 T2). pose proof (D _ _ _ _ R2 T1). pose proof (D _ _ _ _ R2 T2).
  pose proof (owns_bounds _ _ _ _ Hi (owns_app_l _ _ _ _ R1)). pose proof (owns_bounds _ _ _ _ Hi (owns_app_l _ _ _ _ R2)).
  pose proof (owns_bounds _ _ _ _ Hi (owns_app_r es _ _ _ (owns_app_l _ al _ _ T1))).
  pose proof (owns_bounds _ _ _ _ Hi (owns_app_r es _ _ _ (owns_app_l _ al _ _ T2))). pose proof (inv_end _ _ Hi).
  unfold apart_areas in *. split; try lia; unfold apart_areas; lia.
Qed.

Record rx_made (s s' : E) (al ds es : list blk) : Prop := {
  rm_ok : nic_ok s' (Idle 0) 0;
  rm_heap : heap_inv (eheap s') (es ++ ds ++ al);
  rm_kept : kept al (eram s) (eram s');
  rm_ring : owns es (rx_ring s') (rx_ring s' + 512);
  rm_bufs : owns es (rx_bufs s') (rx_bufs s' + 65536);
  rm_tx : tx_ring s' = tx_ring s /\ tx_bufs s' = tx_bufs s;
  rm_wire : wire (ecard s') = wire (ecard s);
  rm_traffic : traffic (ecard s') = traffic (ecard s)
}.

(** What the card changes in its areas while it runs does not concern the heap. *)
Lemma up_heap_inv (s s' : E) al ds es : up 0 0 s s' -> heap_inv (eheap s) (es ++ ds ++ al) ->
  owns ds (tx_ring s) (tx_ring s + 128) -> owns ds (tx_bufs s) (tx_bufs s + 16384) ->
  owns es (rx_ring s) (rx_ring s + 512) -> owns es (rx_bufs s) (rx_bufs s + 65536) ->
  heap_inv (eheap s') (es ++ ds ++ al) /\ kept al (eram s) (eram s').
Proof.
  intros [Ok Hl Hh Ev] Hi T1 T2 R1 R2. pose proof (ev_outside _ _ _ _ _ _ _ _ Ev) as X. unfold in_areas in X. simpl in X. split.
  - rewrite Hh. apply (write_areas [(tx_ring s, tx_ring s + 128); (tx_bufs s, tx_bufs s + 16384); (rx_ring s, rx_ring s + 512); (rx_bufs s, rx_bufs s + 65536)]).
    + done.
    + done.
    + repeat constructor; simpl; [apply owns_app_r, owns_app_l, T1|apply owns_app_r, owns_app_l, T2|apply owns_app_l, R1|apply owns_app_l, R2].
    + apply Ev.
    + intros x Hf. symmetry. apply X. repeat (inversion Hf as [|? ? ? Hf']; clear Hf; rename Hf' into Hf; subst). simpl in *. tauto.
  - apply Forall_forall. intros c Hc x Hx. symmetry. apply X. rewrite app_assoc in Hi.
    pose proof (owned_apart _ _ _ _ _ c x Hi (owns_app_r es _ _ _ T1) Hc Hx). pose proof (owned_apart _ _ _ _ _ c x Hi (owns_app_r es _ _ _ T2) Hc Hx).
    pose proof (owned_apart _ _ _ _ _ c x Hi (owns_app_l _ ds _ _ R1) Hc Hx). pose proof (owned_apart _ _ _ _ _ c x Hi (owns_app_l _ ds _ _ R2) Hc Hx). tauto.
Qed.

(** The transmit invariant speaks of the transmit areas only. *)
Lemma tx_ok_tx L L' m c ph : l_txr L' = l_txr L -> l_txb L' = l_txb L -> tx_ok L m c ph -> tx_ok L' m c ph.
Proof.
  intros E1 E2 [B1 B2 B3 B4 B5 B6 B7 B8 B9]. split; unfold loaded, txd, txbuf in *; rewrite ?E1, ?E2; done.
Qed.

(** A fresh receive ring. *)
Lemma rx_fresh L m c : history c = [] -> creg c E1K_RDBAL = l_rxr L -> creg c E1K_RDLEN = 512 -> Z.land (creg c E1K_RCTL) E1K_RCTL_EN <> 0 ->
  creg c E1K_RDH = 0 -> creg c E1K_RDT = 31 ->
  (forall i, 0 <= i < 32 -> desc_addr m (rxd L i) = rxbuf L i /\ dd m (rxd L i) = false) -> rx_ok L m c 0.
Proof.
  intros Hh B1 B2 B3 B4 B5 F. assert (arrived c = 0) as Ea by (unfold arrived; by rewrite Hh). split; rewrite ?Ea; try done.
  - intros i Hi. by apply F.
  - intros j it _ E'. by rewrite Hh in E'.
  - intros j Hj. rewrite Z.mod_small by lia. apply F. lia.
Qed.

Lemma rx_init_ends (s : E) al ds : mapped s -> tx_ok (lay s) (eram s) (ecard s) (Idle 0) -> Z.land (creg (ecard s) E1K_RCTL) E1K_RCTL_EN = 0 ->
  history (ecard s) = [] -> heap_inv (eheap s) (ds ++ al) -> owns ds (tx_ring s) (tx_ring s + 128) -> owns ds (tx_bufs s) (tx_bufs s + 16384) ->
  apart_areas (tx_ring s) 128 (tx_bufs s) 16384 -> ends (e1k_rx_init s) (fun _ s' => exists es, rx_made s s' al ds es).
Proof.
  intros Hm Tx Hoff Hh Hi T1 T2 T3. unfold e1k_rx_init. apply ends_bind, (ends_malloc s (ds ++ al)); [done|done|]. intros p sz1 h1 Hs1 Hi1 K1.
  apply ends_bind, (ends_malloc (set_heap h1 s) _ _ _ Hi1); [done|]. intros q sz2 h2 Hs2 Hi2 K2. apply kept_cons in K2.
  destruct (ring_place h2 (ds ++ al) p sz1 q sz2 512 65536 Hi2 ltac:(done) Hs1 ltac:(done)) as (O1 & O2 & Ap & P1 & P2).
  set (ring := align_up_uintptr p 128) in *. set (es := [(q - 12, sz2); (p - 12, sz1)]) in *.
  pose proof (owns_bounds _ _ _ _ Hi2 (owns_app_l es (ds ++ al) _ _ O1)) as [_ U1]. pose proof (owns_bounds _ _ _ _ Hi2 (owns_app_l es (ds ++ al) _ _ O2)) as [_ U2].
  pose proof (inv_end _ _ Hi2) as U3. apply ends_bind. cbn [gets ends]. apply ends_bind. cbn [modify ends].
  set (s3 := set_rx ring q (rx_tail s) (set_heap h2 s)). change (set_rx ring q _ _) with s3. apply ends_bind. cbn [on_eram modify ends].
  destruct (fill_ring 32 ring q (rx_body ring q) false s3 es (ds ++ al)) as (m & Ef & Fd & Hi3 & K3 & Rm);
    [lia|apply (rx_body_out 32); lia|intros; by apply rx_body_ram|apply (rx_body_desc 32); lia|exact Hi2|exact O1|exact O2|exact Ap|].
  apply ends_bind. change (for_loop _ _ _ _) with (for_loop 32 0 (fun i => on_eram (rx_body ring q i)) (set_eram (memset ring 0 (16 * 32) (eram s3)) s3)).
  change (16 * Z.of_nat 32) with (16 * 32) in Ef. rewrite Ef. cbn [ends]. clear Ef.
  assert (kept (ds ++ al) (eram s) m) as K by (eapply kept_trans; [exact K1|]; eapply kept_trans; [exact K2|exact K3]). clear K1 K2 K3 Hi1 Hi2.
  set (s4 := set_eram m s3) in *.
  assert (layout_ok (mkLayout (tx_ring s) (tx_bufs s) ring q)) as HL by (eapply layout_of; [exact Hi3|exact T1|exact T2|exact T3|exact O1|exact O2|exact Ap]).
  assert (creg (ecard s) E1K_TDH = creg (ecard s) E1K_TDT) as Eht by (by rewrite (tx_head _ _ _ _ Tx), (tx_tdt _ _ _ _ Tx)).
  apply ends_runs, (rx_regs_run s4); [done|split; [right; exact Eht|done]|exact Eht|lia|]. intros w (B1 & B2 & B3 & B4 & B5 & B6).
  set (s5 := set_world w (set_rx ring q 0 s4)). apply (rx_enable_run s5); [done|exact HL|done| |].
  - intros c [Rg (W1 & W2 & W3)]. assert (forall r, r ∈ ring_regs -> r <> E1K_RCTL -> creg c r = creg (view w) r) as Rk.
    { intros r Hin Hne. rewrite Rg by done. by rewrite (proj2 (Z.eqb_neq r E1K_RCTL)). }
    split; [eapply tx_ok_frame; [exact (tx_ok_tx (lay s) (lay s5) _ _ _ eq_refl eq_refl Tx)| | |]| |exact Rm].
    + intros r Hin. rewrite Rk, B5; [done|done|set_solver|]. intros ->. repeat (apply elem_of_cons in Hin as [[=] | Hin]). set_solver.
    + exact (kept_owned _ _ _ _ _ K (owns_app_l _ al _ _ T1)).
    + exact (kept_owned _ _ _ _ _ K (owns_app_l _ al _ _ T2)).
    + apply rx_fresh; try (rewrite Rk by (in_regs || done); done).
      * etrans; [exact W3|]. etrans; [exact (proj2 (proj2 B6))|exact Hh].
      * by rewrite Rg by in_regs.
      * exact Fd.
  - intros s6 U6. destruct (ups_rx_rest s6 (up_ok _ _ _ _ U6)) as ([] & s7 & E7 & U7). exists tt, s7. split; [exact E7|].
    pose proof (up_trans 0 0 _ _ _ U6 U7) as U. exists es. clear U6 U7.
    destruct (up_heap_inv s5 s7 al ds es U Hi3 T1 T2 O1 O2) as [Hi7 K7]. destruct U as [Ok7 Hl7 Hh7 Ev7]. injection Hl7 as L1 L2 L3 L4.
    destruct Ev7 as [_ S7 Tr7 _ _]. apply sends_idle in S7 as [_ S7]. destruct B6 as (W1 & W2 & W3).
    split; [done|done| |rewrite L3; exact O1|rewrite L4; exact O2|done| |].
    + eapply kept_trans; [exact (proj2 (proj1 (kept_app _ _ _ _) K))|exact K7].
    + rewrite S7. exact W1.
    + rewrite Tr7. unfold traffic. change (ecard s5) with (view w). rewrite W2, W3. done.
Qed.

Lemma calm_kept (s s' : E) : calm s s' -> eram s' = eram s.
Proof. intros C. unfold eram. by rewrite (cm_heap _ _ C). Qed.

(** Up to the rings: the card is addressed at [base], disabled, and memory is as it
    was. *)
Lemma e1k_start_runs (s : E) nd (Q : unit -> E -> Prop) (rest : M E unit) : off (ecard s) -> Z.land (nth 0 (bar (desc nd)) 0) 1 = 0 ->
  bar_base (nth 0 (bar (desc nd)) 0) = Some base ->
  (forall s', mapped s' -> eheap s' = eheap s -> off (ecard s') -> same_traffic (ecard s) (ecard s') -> ends (rest s') Q) ->
  ends ((modify (set_nic_desc nd) ;; e1k_pci_setup ;;
    match bar_base (nth 0 (bar (desc nd)) 0) with None => halt | Some b => set_base b end ;;
    e1k_reset ;; e1k_find_mac ;; e1k_program_mac ;; rest) s) Q.
Proof.
  intros Ho Hb Hbase HQ. rewrite Hbase. apply ends_bind. cbn [modify ends]. apply ends_bind.
  apply ends_runs. eapply runs_mono; [apply calms_pci_setup; exact Ho|]. intros [] s1 C1. apply ends_bind. cbn [set_base modify ends].
  set (s2 := set_nic_desc _ s1). assert (mapped s2) as M2.
  { split; [|done]. unfold e1k_is_mmio, s2. simpl. rewrite (cm_desc _ _ C1). simpl. by rewrite Hb. }
  destruct C1 as [D1 D2 D3 D4 D5]. assert (off (ecard s2)) as O2 by exact D4.
  apply ends_bind, ends_runs. eapply runs_mono; [apply (calms_reset s2 M2 O2)|]. intros [] s3 C3. pose proof (calm_mapped _ _ C3 M2) as M3.
  apply ends_bind, ends_runs. eapply runs_mono; [apply (calms_find_mac s3 M3), C3|]. intros [] s4 C4. pose proof (calm_trans _ _ _ C3 C4) as C5.
  pose proof (calm_mapped _ _ C5 M2) as M4.
  apply ends_bind, ends_runs. eapply runs_mono; [apply (calms_program_mac s4 M4), C4|]. intros [] s5 C6. pose proof (calm_trans _ _ _ C5 C6) as [F1 F2 F3 F4 F5].
  apply HQ; [exact (calm_mapped _ _ (calm_trans _ _ _ C5 C6) M2)|rewrite F1; exact D1|done|]. eapply traffic_trans; [exact D5|exact F5].
Qed.

Lemma e1k_init_ends (s : E) nd tbl hd al :
  heap_inv (eheap s) al -> off (ecard s) -> history (ecard s) = [] ->
  Z.land (nth 0 (bar (desc nd)) 0) 1 = 0 -> bar_base (nth 0 (bar (desc nd)) 0) = Some base ->
  ends (e1k_init tbl hd nd s) (fun _ s' => exists es ds, nic_ok s' (Idle 0) 0
    /\ heap_inv (eheap s') (es ++ ds ++ al) /\ kept al (eram s) (eram s')
    /\ owns ds (tx_ring s') (tx_ring s' + 128) /\ owns ds (tx_bufs s') (tx_bufs s' + 16384)
    /\ owns es (rx_ring s') (rx_ring s' + 512) /\ owns es (rx_bufs s') (rx_bufs s' + 65536)
    /\ wire (ecard s') = wire (ecard s) /\ traffic (ecard s') = traffic (ecard s)).
Proof.
  intros Hi Ho Hh Hb Hbase. unfold e1k_init. apply e1k_start_runs; [done|done|done|]. intros s1 M1 Eh O1 (W1 & I1 & H1').
  rewrite <- Eh in Hi. assert (eram s1 = eram s) as Er by (unfold eram; by rewrite Eh).
  eapply ends_seq; [by apply (tx_init_ends s1 al)|]. intros [] s2 (ds & [A1 A2 A3 A4 A5 A6 A7 (W2 & I2 & H2') A9]).
  assert (mapped s2) as M2 by (destruct M1 as [X Y]; unfold E1kProofs.mapped, e1k_is_mmio in *; by rewrite A9).
  eapply ends_seq; [apply (rx_init_ends s2 al ds); try done; congruence|]. intros [] s3 (es & [B1 B2 B3 B4 B5 [B6 B7] B8 B9]).
  rewrite <- B6 in A3. rewrite <- B7 in A4. apply ends_runs. eapply runs_mono; [apply (ups_irq_init 0 0 tbl hd s3 B1)|]. intros [] s4 U. exists es, ds.
  destruct (up_heap_inv s3 s4 al ds es U B2 A3 A4 B4 B5) as [Hi4 K4]. destruct U as [Ok4 L4 _ Ev4]. injection L4 as L1 L2 L3 L4.
  destruct Ev4 as [_ S4 T4 _ _]. apply sends_idle in S4 as [_ S4]. rewrite <- Er. rewrite L1, L2, L3, L4. unfold traffic in *.
  split; [done|]. split; [done|]. split; [eapply kept_trans; [exact A2|]; eapply kept_trans; [exact B3|exact K4]|]. repeat (split; [done|]).
  split; congruence.
Qed.

(** C20: initialising a card whose registers are memory-mapped leaves both rings up
    and in order (or halts the machine when the heap is exhausted): the descriptors
    name buffers of their own, all transmit slots are free and all receive slots
    belong to the card, nothing has been sent and nothing that arrived is lost, and
    rings and buffers are new blocks of the heap, whose other blocks are untouched. *)
Theorem e1k_init_brings_up (s : E) nd tbl hd al :
  heap_inv (eheap s) al -> off (ecard s) -> history (ecard s) = [] ->
  Z.land (nth 0 (bar (desc nd)) 0) 1 = 0 -> bar_base (nth 0 (bar (desc nd)) 0) = Some base ->
  ends (e1k_init tbl hd nd s) (fun _ s' => exists es ds, nic_ok s' (Idle 0) 0
    /\ heap_inv (eheap s') (es ++ ds ++ al) /\ kept al (eram s) (eram s')
    /\ owns ds (tx_ring s') (tx_ring s' + 128) /\ owns ds (tx_bufs s') (tx_bufs s' + 16384)
    /\ owns es (rx_ring s') (rx_ring s' + 512) /\ owns es (rx_bufs s') (rx_bufs s' + 65536)
    /\ wire (ecard s') = wire (ecard s) /\ traffic (ecard s') = traffic (ecard s)).
Proof. apply e1k_init_ends. Qed.
End Up2.
End Calm.
