(* ===== verification/E1kDemo.v ===== *)
(** A card that satisfies what [E1kProofs] relies on, and the driver's theorems at
    concrete states of it. *)
From S2P Require Import Prelude Mem HeapSpec Net UdpQueue Ports Cpu Pci E1k E1kCard E1kProofs E1kInit.

(** Registers in a map; each look at memory lets it transmit one frame, or else
    receive one. *)
Record sim := mkSim { sreg : gmap Z Z; swire : list (list Z); sinbox : list rxitem; shistory : list rxitem }.

Definition sim_base : Z := 4026531840.
Definition sget (s : sim) (r : Z) : Z := default 0 (sreg s !! r).
Definition sset (r v : Z) (s : sim) : sim := mkSim (<[r := v]> (sreg s)) (swire s) (sinbox s) (shistory s).
Definition item_okb (it : rxitem) : bool :=
  (Z.of_nat (length (it_bytes it)) <=? RX_BUF_SIZE) && forallb (fun b => (0 <=? b) && (b <? 256)) (it_bytes it)
  && (0 <=? it_errors it) && (it_errors it <? 256).

Definition sim_dma (m : ram) (s : sim) : ram * sim :=
  let td := sget s E1K_TDBAL + sizeof_desc * sget s E1K_TDH in
  let rd := sget s E1K_RDBAL + sizeof_desc * sget s E1K_RDH in
  if negb (Z.land (sget s E1K_TCTL) E1K_TCTL_EN =? 0) && negb (sget s E1K_TDH =? sget s E1K_TDT) && (Z.land (desc_cmd m td) 9 =? 9) then
    let s' := sset E1K_TDH ((sget s E1K_TDH + 1) mod (sget s E1K_TDLEN / sizeof_desc)) s in
    (st8 (td + 12) (Z.lor (desc_status m td) STATUS_DD) m,
     mkSim (sreg s') (swire s ++ [read_bytes_at (Z.to_nat (desc_length m td)) (desc_addr m td) m]) (sinbox s) (shistory s))
  else match sinbox s with
  | it :: rest =>
      if negb (Z.land (sget s E1K_RCTL) E1K_RCTL_EN =? 0) && negb (sget s E1K_RDH =? sget s E1K_RDT) && item_okb it then
        let n := Z.of_nat (length (it_bytes it)) in
        let s' := sset E1K_RDH ((sget s E1K_RDH + 1) mod (sget s E1K_RDLEN / sizeof_desc)) s in
        (write_bytes (rd + 8) [n mod 256; n / 256; 0; 0; (if it_eop it then 3 else 1); it_errors it; 0; 0] (write_bytes (desc_addr m rd) (it_bytes it) m),
         mkSim (sreg s') (swire s) rest (shistory s ++ [it]))
      else (m, s)
  | [] => (m, s)
  end.

#[export] Instance sim_ports : Ports sim := {|
  port_outb _ _ s := s; port_inb _ s := (0, s); port_outl _ _ s := s; port_inl _ s := (0, s)
|}.
#[export] Instance sim_mmio : Mmio sim := {|
  mmio_write a v s :=
    let r := a - sim_base in
    if (r =? E1K_REG_CTRL) && negb (Z.land v E1K_CTRL_RST =? 0) then mkSim ∅ (swire s) (sinbox s) (shistory s) else sset r v s;
  mmio_read a s := (sget s (a - sim_base), s);
  dma := sim_dma
|}.

Definition sim_view (s : sim) : card := mkCard (sget s) (swire s) (sinbox s) (shistory s).

Lemma item_okb_ok it : item_okb it = true -> item_ok it.
Proof.
  unfold item_okb, item_ok. rewrite !andb_true_iff, Z.leb_le, forallb_forall. intros (((A & B) & C) & D).
  apply Z.leb_le in C. apply Z.ltb_lt in D. split; [done|]. split; [|done]. apply Forall_forall. intros b Hb%list_elem_of_In.
  specialize (B b Hb). apply andb_true_iff in B as [B1 B2]. apply Z.leb_le in B1. apply Z.ltb_lt in B2. done.
Qed.

Lemma sget_sset s r v : regs_with (sim_view s) (sim_view (sset r v s)) r v.
Proof.
  intros x _. unfold sim_view, sset, sget. simpl. destruct (Z.eqb_spec x r) as [->|Hn]; [by rewrite lookup_insert_eq|].
  by rewrite lookup_insert_ne by done.
Qed.

Lemma sim_steps m s : rtc card_step (m, sim_view s) ((sim_dma m s).1, sim_view (sim_dma m s).2).
Proof.
  unfold sim_dma. destruct (_ && _ && _) eqn:Et.
  - apply andb_true_iff in Et as [Et Ec]. apply andb_true_iff in Et as [Ee Eh]. apply rtc_once, step_transmit; try done.
    + by apply negb_true_iff, Z.eqb_neq in Ee.
    + by apply negb_true_iff, Z.eqb_neq in Eh.
    + by apply Z.eqb_eq.
    + apply sget_sset.
  - clear Et. destruct (sinbox s) as [|it rest] eqn:Ei; [apply rtc_refl|]. destruct (_ && _ && _) eqn:Er; [|apply rtc_refl].
    apply andb_true_iff in Er as [Er Eo]. apply andb_true_iff in Er as [Ee Eh]. apply item_okb_ok in Eo.
    apply rtc_once, (step_receive m (sim_view s) _ it (if it_eop it then 3 else 1) 0 0 0 0); try done.
    + by apply negb_true_iff, Z.eqb_neq in Ee.
    + by apply negb_true_iff, Z.eqb_neq in Eh.
    + by destruct (it_eop it).
    + by destruct (it_eop it).
    + by destruct (it_eop it).
    + apply sget_sset.
Qed.

#[export] Program Instance sim_e1000 : E1000 sim sim_base 1 := {| view := sim_view |}.
Next Obligation. done. Qed.
Next Obligation. intros w r Hr. done. Qed.
Next Obligation. intros w r Hr. simpl. by replace (sim_base + r - sim_base) with r by lia. Qed.
Next Obligation.
  intros w r v Hr Hv Hn. simpl. replace (sim_base + r - sim_base) with r by lia.
  destruct (Z.eqb_spec r E1K_REG_CTRL) as [->|]; [destruct (Z.eqb_spec (Z.land v E1K_CTRL_RST) 0); [|tauto]|]; split; try done; apply sget_sset.
Qed.
Next Obligation. intros w v Hv Hn. simpl. by rewrite (proj2 (Z.eqb_neq _ _) Hn). Qed.
Next Obligation. done. Qed.
Next Obligation. done. Qed.
Next Obligation. done. Qed.
Next Obligation. done. Qed.
Next Obligation. intros m w. apply sim_steps. Qed.
Next Obligation.
  intros m w c He Hne Hh Ht Hc. exists 1%nat. split; [done|]. simpl. unfold sim_dma. subst c. simpl in *.
  rewrite (proj2 (Z.eqb_neq _ _) He), (proj2 (Z.eqb_neq _ _) Hne), (proj2 (Z.eqb_eq _ _) Hc). simpl.
  unfold sget at 1. simpl. rewrite lookup_insert_eq. simpl. set (N := sget w E1K_TDLEN / sizeof_desc) in *. set (h := sget w E1K_TDH) in *.
  destruct (Z.eq_dec (h + 1) N) as [E'|]; [rewrite E', Z.mod_same by lia|rewrite Z.mod_small by lia]; lia.
Qed.

(** * Concrete runs *)

(** An unused heap, a card with two buffers' worth of arrivals, the second with an
    error. *)
Definition demo_card : sim := mkSim ∅ [] [mkItem [1; 2; 3] true 0; mkItem [4] true 1; mkItem [5; 6] true 0] [].
Definition demo_pci : pci_device_desc_t := mkPci (mkInfo 32902 4110 None) 0 3 0 [sim_base; 0; 0; 0; 0; 0] 0 11 true.
Definition demo_driver : e1k sim nat :=
  mkE1k (mkCpu demo_card (replicate 256 zero_gate) (replicate 16 None) (0, 0)) (mkHeap 4096 1048576 4096 0 ∅) (mkNic demo_pci (replicate 8 0)) 0 0 0 0 0 0.
Abbreviation demo_init := (e1k_init (fun n => Z.of_nat n) 7%nat (mkNic demo_pci (replicate 8 0))).

Lemma demo_heap_inv : heap_inv (eheap demo_driver) [].
Proof. split; [done|]. exists []. split; [|constructor]. apply fresh_heap_ok; [done|lia|lia]. Qed.

Definition demo_up : e1k sim nat := match demo_init demo_driver with Ret _ s => s | _ => demo_driver end.
Definition returned {S A} (r : res S A) : bool := match r with Ret _ _ => true | _ => false end.

Lemma demo_returns : returned (demo_init demo_driver) = true.
Proof. vm_compute. reflexivity. Qed.

Lemma demo_up_eq : demo_init demo_driver = Ret tt demo_up.
Proof. pose proof demo_returns as R. unfold demo_up. by destruct (demo_init demo_driver) as [[] s| |]. Qed.

Lemma demo_up_ok : nic_ok sim_base 1 demo_up (Idle 0) 0.
Proof.
  pose proof (e1k_init_ends sim_base 1 demo_driver (mkNic demo_pci (replicate 8 0)) (fun n => Z.of_nat n) 7%nat []
    demo_heap_inv (conj eq_refl eq_refl) eq_refl eq_refl eq_refl) as R.
  rewrite demo_up_eq in R. cbn [ends] in R. by destruct R as (_ & _ & R & _).
Qed.

(** Where the rings are, and that a frame below the heap is outside of them. *)
Example demo_layout : lay demo_up = mkLayout 4224 4380 20864 21436.
Proof. vm_compute. reflexivity. Qed.

Lemma e1k_init_brings_up_witness : ends (demo_init demo_driver) (fun _ s' => exists es ds, nic_ok sim_base 1 s' (Idle 0) 0
    /\ heap_inv (eheap s') (es ++ ds ++ []) /\ kept [] (eram demo_driver) (eram s')
    /\ owns ds (tx_ring s') (tx_ring s' + 128) /\ owns ds (tx_bufs s') (tx_bufs s' + 16384)
    /\ owns es (rx_ring s') (rx_ring s' + 512) /\ owns es (rx_bufs s') (rx_bufs s' + 65536)
    /\ wire (ecard sim_base 1 s') = [] /\ traffic (ecard sim_base 1 s') = sinbox demo_card).
Proof.
  exact (e1k_init_brings_up sim_base 1 demo_driver (mkNic demo_pci (replicate 8 0)) (fun n => Z.of_nat n) 7%nat []
    demo_heap_inv (conj eq_refl eq_refl) eq_refl eq_refl eq_refl).
Defined.

Lemma demo_frame_outside x : 1024 <= x < 1024 + 60 -> ~ in_areas (lay demo_up) x.
Proof. rewrite demo_layout. unfold in_areas. simpl. lia. Qed.

Lemma e1k_send_transmits_witness :
  (60 <= TX_BUF_SIZE -> exists s', e1k_send 1024 60 demo_up = Ret 0 s' /\ nic_ok sim_base 1 s' (Idle ((0 + 1) mod NUM_TX_DESC)) 0
     /\ wire (ecard sim_base 1 s') = wire (ecard sim_base 1 demo_up) ++ [read_bytes_at (Z.to_nat 60) 1024 (eram demo_up)]
     /\ traffic (ecard sim_base 1 s') = traffic (ecard sim_base 1 demo_up)
     /\ history (ecard sim_base 1 demo_up) `prefix_of` history (ecard sim_base 1 s')
     /\ lay s' = lay demo_up /\ tx_tail s' = (0 + 1) mod NUM_TX_DESC
     /\ forall x, ~ in_areas (lay demo_up) x -> ld8 (eram s') x = ld8 (eram demo_up) x)
  /\ (TX_BUF_SIZE < 60 -> e1k_send 1024 60 demo_up = Ret (-1) demo_up).
Proof.
  apply (e1k_send_transmits sim_base 1 demo_up 0 0 1024 60); [lia|exact demo_up_ok|lia|exact demo_frame_outside].
Defined.

#[local] Opaque demo_up.

(** A layer above that keeps what it is given. *)
Abbreviation L := (e1k sim nat * list (list Z))%type.
Definition keep (bytes : list Z) : M L unit := modify (fun s => (s.1, s.2 ++ [bytes])).
Definition put_driver (e : e1k sim nat) (s : L) : L := (e, s.2).

Lemma e1k_drain_delivers_witness : exists s' t' n', e1k_drain_rx fst put_driver keep 4 (demo_up, []) = Ret tt s'
  /\ nic_ok sim_base 1 s'.1 (Idle t') n' /\ n' = arrived (ecard sim_base 1 s'.1) /\ arrived (ecard sim_base 1 demo_up) <= n'
  /\ lay s'.1 = lay demo_up /\ traffic (ecard sim_base 1 s'.1) = traffic (ecard sim_base 1 demo_up)
  /\ s'.2 = [] ++ omap deliver (take (Z.to_nat (n' - 0)) (drop (Z.to_nat 0) (traffic (ecard sim_base 1 demo_up)))).
Proof.
  assert (Hp : forall bytes (s : L) t n, nic_ok sim_base 1 s.1 (Idle t) n -> runs (keep bytes) s (fun _ s' =>
    (exists t', nic_ok sim_base 1 s'.1 (Idle t') n) /\ lay s'.1 = lay s.1 /\ traffic (ecard sim_base 1 s'.1) = traffic (ecard sim_base 1 s.1)
    /\ history (ecard sim_base 1 s.1) `prefix_of` history (ecard sim_base 1 s'.1) /\ s'.2 = s.2 ++ [bytes])).
  { intros bytes s t n Ok. apply runs_modify. simpl. eauto 8. }
  assert (Hl : Z.of_nat (length (traffic (ecard sim_base 1 demo_up))) - 0 < Z.of_nat 4) by (vm_compute; reflexivity).
  exact (e1k_drain_delivers sim_base 1 fst put_driver keep snd (fun _ _ => eq_refl) (fun _ _ => eq_refl) Hp 4 (demo_up, []) 0 0 demo_up_ok Hl).
Defined.

(** The two good frames are delivered in order; all three buffers went through the
    ring. *)
Example demo_drain : match e1k_drain_rx fst put_driver keep 4 (demo_up, []) with
  | Ret _ s => (s.2, rx_tail s.1, length (sinbox (world s.1))) | _ => ([], 0, 0%nat) end = ([[1; 2; 3]; [5; 6]], 3, 0%nat).
Proof. vm_compute. reflexivity. Qed.
