(* ===== verification/E1kUdp.v ===== *)
(** The network stack on the card: the driver of stage2/dev/e1k.c (E1k) as the
    adapter [Nic] that the protocol layers of stage2/net/ (Net) are written against,
    and a datagram from [udp_send_local] to the wire and from there to a server. *)
From S2P Require Import Prelude Mem HeapSpec Utils Checksum Net UdpQueue NetProofs Ports Cpu Pci E1k E1kCard E1kProofs E1kInit E1kDemo.

Section CardNic.
Context {W H : Type} `{Ports W} `{Mmio W}.
(** Where the stack has built the frame it hands to the driver: the block that
    [kmalloc] gave the sender, any memory outside the rings. *)
Context (out : Z).

Definition send_frame (frame : list Z) : M (e1k W H) Z := on_eram (write_bytes out frame) ;; E1k.e1k_send out (Z.of_nat (length frame)).

(** The interface of the stack hands frames out one at a time, while the loop of
    [e1k_drain_rx] calls the stack for each: [next_frame] is that loop up to the next
    call, with at most [n] descriptors looked at.  [drain_is_next_frame] below relates
    the two. *)
Fixpoint next_frame (n : nat) : M (e1k W H) (option (list Z)) :=
  match n with
  | O => mret None
  | S n' =>
      d ← gets (fun s => u32 (rx_ring s + sizeof_desc * rx_tail s));
      status ← poll_status d;
      if Z.land status E1K_RXD_STAT_DD =? 0 then mret None
      else
        frame ← gets (fun s => rx_frame (eram s) d (u32 (rx_bufs s + RX_BUF_SIZE * rx_tail s)));
        rx_recycle ;;
        match frame with Some bytes => mret (Some bytes) | None => next_frame n' end
  end.

(** The frames that repeated calls of [next_frame] return, until one returns none:
    the first looks at [m] descriptors at most, the others at [n]. *)
Fixpoint gathered (m n : nat) (fs : list (list Z)) (s s' : e1k W H) : Prop :=
  match fs with
  | [] => next_frame m s = Ret None s'
  | f :: fs' => exists s1, next_frame m s = Ret (Some f) s1 /\ gathered n n fs' s1 s'
  end.

(** [e1k_drain_rx] with a stack that notes the frames. *)
Definition drain_notes (fuel : nat) : M (e1k W H * list (list Z)) unit :=
  e1k_drain_rx fst (fun c s => (c, s.2)) (fun f => modify (fun s => (s.1, s.2 ++ [f]))) fuel.

Lemma zoom_Ret {S T A} (g : S -> T) (pt : T -> S -> S) (c : M T A) s a s2 :
  zoom g pt c s = Ret a s2 -> exists t, c (g s) = Ret a t /\ s2 = pt t s.
Proof. unfold zoom. destruct (c (g s)) as [b t| |]; [|done|done]. intros [= -> <-]. by exists t. Qed.

(** Both hand over the same frames, in order, and leave the driver and the card in
    the same state. *)
Lemma drain_is_next_frame fuel : forall m n s l s' l', (fuel <= m)%nat -> (fuel <= n)%nat ->
  drain_notes fuel (s, l) = Ret tt (s', l') -> exists fs, l' = l ++ fs /\ gathered m n fs s s'.
Proof.
  induction fuel as [|fuel IH]; intros m n s l s' l' Hm Hn E; [done|]. destruct m as [|m]; [lia|].
  unfold drain_notes in E. cbn [e1k_drain_rx] in E.
  apply bind_Ret in E as (d & x0 & E0 & E). injection E0 as <- <-. cbn [fst snd] in *. set (d := u32 _) in *.
  apply bind_Ret in E as (status & x1 & E1 & E). apply zoom_Ret in E1 as (s1 & Ep & ->). cbn [fst snd] in Ep, E.
  assert (Hnext : next_frame (S m) s = (if Z.land status E1K_RXD_STAT_DD =? 0 then mret None
    else frame ← gets (fun s => rx_frame (eram s) d (u32 (rx_bufs s + RX_BUF_SIZE * rx_tail s))); rx_recycle ;;
      match frame with Some bytes => mret (Some bytes) | None => next_frame m end) s1).
  { cbn [next_frame]. rewrite (bind_ret _ _ s d s) by done. by rewrite (bind_ret _ _ _ _ _ Ep). }
  destruct (_ =? 0).
  { injection E as <- <-. exists []. split; [by rewrite app_nil_r|exact Hnext]. }
  apply bind_Ret in E as (frame & x2 & E2 & E). injection E2 as <- <-. cbn [fst] in E.
  erewrite bind_ret in Hnext by reflexivity. set (frame := rx_frame _ _ _) in *.
  apply bind_Ret in E as ([] & [s3 l3] & E3 & E). apply bind_Ret in E as ([] & x4 & E4 & E).
  assert (s3 = s1 /\ l3 = l ++ (match frame with Some b => [b] | None => [] end)) as [-> ->].
  { destruct frame; injection E3 as <- <-; [done|]. by rewrite app_nil_r. }
  apply zoom_Ret in E4 as (s4 & Er & ->). cbn [fst snd] in Er, E.
  rewrite (bind_ret _ _ _ _ _ Er) in Hnext.
  destruct frame as [b|].
  - destruct (IH n n s4 _ s' l' ltac:(lia) ltac:(lia) E) as (fs & -> & G). exists (b :: fs). split; [by rewrite <- app_assoc|].
    by exists s4.
  - rewrite app_nil_r in E. destruct (IH m n s4 _ s' l' ltac:(lia) ltac:(lia) E) as (fs & -> & G). exists fs. split; [done|].
    destruct fs as [|f fs]; cbn [gathered] in *; by rewrite Hnext.
Qed.

#[export] Instance card_nic : Nic (e1k W H) := {|
  nic_mac s := take 6 (mac (nic_e1k s));
  nic_send frame s := match send_frame frame s with Ret r s' => (r, s') | Halted s' => (-1, s') | NoFuel => (-1, s) end;
  nic_recv s := match next_frame (Z.to_nat NUM_RX_DESC) s with Ret f s' => (f, s') | Halted s' => (None, s') | NoFuel => (None, s) end
|}.

Context (base : Z) (latency : nat) `{!E1000 W base latency}.

(** Memory outside the rings is the stack's to write. *)
Lemma nic_ok_write (s : e1k W H) t n a bs : nic_ok base latency s (Idle t) n -> bytes_ok bs ->
  (forall x, a <= x < a + Z.of_nat (length bs) -> ~ in_areas (lay s) x) ->
  nic_ok base latency (set_eram (write_bytes a bs (eram s)) s) (Idle t) n.
Proof.
  intros [M1 M2 [T X R] M4] Hb Hx. assert (forall x, in_areas (lay s) x -> ld8 (write_bytes a bs (eram s)) x = ld8 (eram s) x) as Hm.
  { intros x Hin. apply ld8_write_bytes_other. destruct (Z.lt_ge_cases x a); [by left|]. destruct (Z.le_gt_cases (a + Z.of_nat (length bs)) x); [by right|].
    exfalso. apply (Hx x); [lia|done]. }
  split; [done|done| |done]. unfold in_areas in Hm. split.
  - eapply tx_ok_frame; [exact T|done| |]; intros x Hx'; symmetry; apply Hm; cbn in *; lia.
  - eapply rx_ok_frame; [exact X|done|done| |]; intros x Hx'; symmetry; apply Hm; cbn in *; lia.
  - by apply ram_ok_write_bytes.
Qed.

Lemma send_frame_runs (s : e1k W H) t n frame : Z.of_nat latency <= 10000000 -> nic_ok base latency s (Idle t) n -> bytes_ok frame ->
  Z.of_nat (length frame) <= TX_BUF_SIZE -> (forall x, out <= x < out + Z.of_nat (length frame) -> ~ in_areas (lay s) x) ->
  exists s', nic_send frame s = (0, s') /\ nic_ok base latency s' (Idle ((t + 1) mod NUM_TX_DESC)) n
    /\ wire (ecard base latency s') = wire (ecard base latency s) ++ [frame] /\ traffic (ecard base latency s') = traffic (ecard base latency s).
Proof.
  intros Hlat Ok Hb Hl Hx. pose proof (nic_ok_write s t n out frame Ok Hb Hx) as Ok1. set (s1 := set_eram _ s) in *.
  destruct (e1k_send_runs base latency s1 t n out (Z.of_nat (length frame)) Hlat Ok1 ltac:(lia) Hx) as (r & s' & E & -> & Ok' & Ew & Et & _).
  exists s'. split; [|split; [done|split; [|exact Et]]].
  - cbn [nic_send card_nic]. unfold send_frame. erewrite bind_ret by reflexivity. fold s1. by rewrite E.
  - rewrite Ew. do 2 f_equal. rewrite Nat2Z.id. cbn. by apply read_write_bytes.
Qed.

Lemma le16_bytes v : bytes_ok (le16 v).
Proof. unfold le16. repeat constructor; apply Z.mod_pos_bound; lia. Qed.
Lemma pad_bytes n bs : bytes_ok bs -> bytes_ok (pad_to n bs).
Proof. intros Hb. apply Forall_app. split; [done|]. apply Forall_replicate. lia. Qed.
Lemma udp_segment_bytes sip dip sport dport payload : bytes_ok payload -> bytes_ok (udp_segment sip dip sport dport payload).
Proof. intros Hp. unfold udp_segment, udp_bytes. cbv zeta. repeat (apply Forall_app; split); try apply le16_bytes. done. Qed.
Lemma ipv4_frame_bytes mac hop sip dip proto ident payload : bytes_ok mac -> bytes_ok hop -> bytes_ok sip -> bytes_ok dip -> 0 <= proto < 256 -> bytes_ok payload ->
  bytes_ok (ipv4_frame mac hop sip dip proto ident payload).
Proof.
  intros. unfold ipv4_frame. apply pad_bytes. unfold eth_bytes, ipv4_bytes, ipv4_header. cbn [eth_dst eth_src eth_type version_ihl dscp_ecn total_length identification flags_fragment_offset ttl protocol header_checksum src_ip dst_ip].
  repeat (apply Forall_app; split); try apply le16_bytes; try done; repeat constructor; lia.
Qed.
Lemma ipv4_frame_length mac hop sip dip proto ident payload : length mac = 6%nat -> length hop = 6%nat -> length sip = 4%nat -> length dip = 4%nat ->
  length (ipv4_frame mac hop sip dip proto ident payload) = Nat.max 60 (34 + length payload).
Proof.
  intros L1 L2 L3 L4. unfold ipv4_frame, pad_to, eth_bytes, ipv4_bytes, ipv4_header. cbn [eth_dst eth_src eth_type version_ihl dscp_ecn total_length identification flags_fragment_offset ttl protocol header_checksum src_ip dst_ip].
  rewrite !length_app, length_replicate. unfold le16. cbn [length]. rewrite L1, L2, L3, L4. lia.
Qed.

(** C6: a datagram over the card.  If the card's rings are in order and the next hop
    is in the ARP cache, [udp_send_local] returns 0 with exactly one frame added to
    the wire and the rings in order again; a host that has the destination address
    and a server on the port, and gets that frame from the wire, queues the payload
    with the sender's address and port. *)
Theorem udp_over_card {N} `{Nic N} ch ch' fuel polls sport dip dport payload (a : net (e1k W H)) (b : net N) sip hop mac i t n :
  Z.of_nat latency <= 10000000 -> nic_ok base latency (nic a) (Idle t) n ->
  (forall x, out <= x < out + TX_BUF_SIZE -> ~ in_areas (lay (nic a)) x) ->
  ipv4_get_address a = Some sip -> (if ipv4_on_local_network dip a then Some dip else ipv4_get_gateway a) = Some hop -> arp_try_get_mac hop a = Some mac ->
  length (nic_mac (nic a)) = 6%nat -> length mac = 6%nat -> length sip = 4%nat -> length dip = 4%nat ->
  bytes_ok (nic_mac (nic a)) -> bytes_ok mac -> bytes_ok sip -> bytes_ok dip -> bytes_ok payload -> in_u16 (udp_tx_identification a) ->
  in_u16 sport -> in_u16 dport -> 42 + Z.of_nat (length payload) <= TX_BUF_SIZE ->
  ipv4_is_local_address dip b = true -> udp_find_server dport b = Some i ->
  exists frame a', udp_send_local ch fuel polls sport dip dport payload a = Ret 0 a'
    /\ wire (ecard base latency (nic a')) = wire (ecard base latency (nic a)) ++ [frame]
    /\ nic_ok base latency (nic a') (Idle ((t + 1) mod NUM_TX_DESC)) n
    /\ eth_process_packet ch' frame b = udp_server_enqueue i sip sport payload b.
Proof.
  intros Hlat Ok Hout Ha Hh Hm Lm Ln Ls Ld Bm Bn Bs Bd Bp Hi Hs Hd Hl Hloc Hf. unfold TX_BUF_SIZE in *.
  set (frame := ipv4_frame (nic_mac (nic a)) mac sip dip IPV4_PROTOCOL_UDP (udp_tx_identification a) (udp_segment sip dip sport dport payload)).
  assert (Lseg : Z.of_nat (length (udp_segment sip dip sport dport payload)) = 8 + Z.of_nat (length payload)) by (apply length_udp_segment; lia).
  assert (Z.of_nat (length frame) <= 2048) as Lf by (unfold frame; rewrite ipv4_frame_length by done; lia).
  assert (bytes_ok frame) as Bf by (apply ipv4_frame_bytes; try done; by apply udp_segment_bytes).
  destruct (send_frame_runs (nic a) t n frame Hlat Ok Bf Lf ltac:(intros x Hx; apply Hout; lia)) as (s' & Es & Ok' & Ew & _).
  eexists frame, _. split; [rewrite (udp_send_cached ch fuel polls sport dip dport payload a sip hop mac) by (done || lia); fold frame; rewrite Es; reflexivity|].
  split; [exact Ew|]. split; [exact Ok'|]. apply udp_frame_delivered; try done. lia.
Qed.
End CardNic.

(** The host 10.0.2.15 with the card of [E1kDemo]; frames are built at 1024. *)
#[local] Opaque demo_up.
#[local] Instance demo_nic : Nic (e1k sim nat) := card_nic 1024.
Definition card_host : net (e1k sim nat) :=
  mkNet (mkArpState [10; 0; 2; 9] [82; 84; 0; 0; 0; 9] true) (mkIpState [10; 0; 2; 15] true [255; 255; 255; 0] [10; 0; 2; 2] true) [] [] 1 [] demo_up [].
Lemma demo_mac : take 6 (mac (nic_e1k demo_up)) = replicate 6 0.
Proof. vm_compute. reflexivity. Qed.

Lemma udp_over_card_witness : exists frame a',
  udp_send_local (fun _ _ _ _ _ _ s => s) 1 1 5000 [10; 0; 2; 9] 7 [104; 105] card_host = Ret 0 a'
  /\ wire (ecard sim_base 1 (nic a')) = wire (ecard sim_base 1 demo_up) ++ [frame]
  /\ nic_ok sim_base 1 (nic a') (Idle ((0 + 1) mod NUM_TX_DESC)) 0
  /\ eth_process_packet (fun _ _ _ _ _ _ s => s) frame (demo_host 9) = udp_server_enqueue 0 [10; 0; 2; 15] 5000 [104; 105] (demo_host 9).
Proof.
  apply (udp_over_card 1024 sim_base 1 (fun _ _ _ _ _ _ s => s) (fun _ _ _ _ _ _ s => s) 1 1 5000 [10; 0; 2; 9] 7 [104; 105] card_host (demo_host 9)
    [10; 0; 2; 15] [10; 0; 2; 9] [82; 84; 0; 0; 0; 9] 0 0 0).
  - lia.
  - exact demo_up_ok.
  - intros x Hx. change (nic card_host) with demo_up. rewrite demo_layout. unfold TX_BUF_SIZE, in_areas in *. simpl. lia.
  - reflexivity.
  - reflexivity.
  - reflexivity.
  - exact (f_equal length demo_mac).
  - reflexivity.
  - reflexivity.
  - reflexivity.
  - change (nic_mac (nic card_host)) with (take 6 (mac (nic_e1k demo_up))). rewrite demo_mac. apply Forall_replicate. lia.
  - by bytes.
  - by bytes.
  - by bytes.
  - by bytes.
  - simpl. lia.
  - lia.
  - lia.
  - unfold TX_BUF_SIZE. simpl. lia.
  - reflexivity.
  - reflexivity.
Defined.
