(* ===== verification/LibcDiv.v ===== *)
(** The 64-bit division helpers of the user C library (user/src/libc.c,
    compiler-rt section): binary long division on unsigned 64-bit words and the
    signed wrappers around it, at their widths. *)
From S2P Require Import Prelude.

(** Reinterpretation of a 64-bit pattern as a [long long]. *)
Definition i64 (x : Z) : Z :=
  let y := u64 x in if y <? 9223372036854775808 then y else y - 18446744073709551616.

Abbreviation in_u64 x := (0 <= x < 18446744073709551616).
Abbreviation in_i64 x := (-9223372036854775808 <= x < 9223372036854775808).

(** The locals of [__udivmoddi4]: the shifted dividend, quotient, remainder. *)
Record division := Division { da : Z; dq : Z; dr : Z }.

(** One turn of the loop: bring down a bit, subtract, append a quotient bit. *)
Definition udivmod_step (b : Z) (d : division) : division :=
  let r := Z.lor (u64 (Z.shiftl (dr d) 1)) (Z.shiftr (da d) 63) in
  let a := u64 (Z.shiftl (da d) 1) in
  let q := u64 (Z.shiftl (dq d) 1) in
  if b <=? r then Division a (Z.lor q 1) (u64 (r - b)) else Division a q r.

(** [for (shift = 0; shift < 64; shift++)], with [n] turns left. *)
Fixpoint udivmod_loop (n : nat) (b : Z) (d : division) : division :=
  match n with
  | O => d
  | S n' => udivmod_loop n' b (udivmod_step b d)
  end.

(** Quotient and remainder; the callers keep one of them. *)
Definition __udivmoddi4 (a b : Z) : Z * Z :=
  let d := udivmod_loop 64 b (Division a 0 0) in (dq d, dr d).

Definition __udivdi3 (a b : Z) : Z := (__udivmoddi4 a b).1.
Definition __umoddi3 (a b : Z) : Z := (__udivmoddi4 a b).2.

Definition __divdi3 (a b : Z) : Z :=
  let '(ua, neg) := if a <? 0 then (u64 (- u64 a), true) else (u64 a, false) in
  let '(ub, neg) := if b <? 0 then (u64 (- u64 b), negb neg) else (u64 b, neg) in
  let q := (__udivmoddi4 ua ub).1 in
  if neg then i64 (- i64 q) else i64 q.

Definition __moddi3 (a b : Z) : Z :=
  let '(ua, neg) := if a <? 0 then (u64 (- u64 a), true) else (u64 a, false) in
  let ub := if b <? 0 then u64 (- u64 b) else u64 b in
  let rem := (__udivmoddi4 ua ub).2 in
  if neg then i64 (- i64 rem) else i64 rem.

(** * The invariant of the long division *)

Lemma u64_small x : in_u64 x -> u64 x = x.
Proof. intros; unfold u64; apply Z.mod_small; lia. Qed.
Lemma u64_neg x : -18446744073709551616 < x < 0 -> u64 x = x + 18446744073709551616.
Proof. intros. unfold u64. symmetry. apply Z.mod_unique with (-1); lia. Qed.
Lemma i64_small x : in_i64 x -> i64 x = x.
Proof.
  intros Hx. unfold i64. destruct (Z.ltb_spec x 0).
  - rewrite u64_neg by lia. case_z; lia.
  - rewrite u64_small by lia. case_z; lia.
Qed.

(** The dividend is [A]; [k] of its bits, the topmost, have been brought down:
    [q] and [r] are the quotient and the remainder of that prefix. *)
Record div_inv (A b k : Z) (d : division) : Prop := {
  di_a : da d = (A * 2 ^ k) mod 2 ^ 64;
  di_q : dq d = A / 2 ^ (64 - k) / b;
  di_r : dr d = (A / 2 ^ (64 - k)) mod b;
}.

(** The next prefix of the dividend. *)
Lemma prefix_step A k :
  0 <= A -> 0 <= k < 64 ->
  A / 2 ^ (64 - (k + 1)) = 2 * (A / 2 ^ (64 - k)) + (A * 2 ^ k) mod 2 ^ 64 / 2 ^ 63.
Proof.
  intros HA Hk. set (P := 2 ^ (64 - (k + 1))).
  assert (HP : 0 < P) by (apply Z.pow_pos_nonneg; lia).
  assert (E1 : 2 ^ (64 - k) = P * 2).
  { unfold P. rewrite Z.mul_comm, <- Z.pow_succ_r by lia. f_equal; lia. }
  assert (E2 : 2 ^ 63 = P * 2 ^ k) by (unfold P; rewrite <- Z.pow_add_r by lia; f_equal; lia).
  assert (E3 : 2 ^ 64 = P * 2 * 2 ^ k) by (rewrite <- E1, <- Z.pow_add_r by lia; f_equal; lia).
  assert (Hk2 : 0 < 2 ^ k) by (apply Z.pow_pos_nonneg; lia).
  rewrite E1, E2, E3, Zmult_mod_distr_r, Z.div_mul_cancel_r by lia.
  pose proof (Z.div_mod A (P * 2) ltac:(lia)). pose proof (Z.mod_pos_bound A (P * 2) ltac:(lia)).
  rewrite <- (Z.div_div A P 2) by lia.
  assert (E : A mod (P * 2) / P = (A / P) mod 2).
  { rewrite Z.rem_mul_r by lia. rewrite Z.mul_comm, Z.div_add by lia.
    rewrite Z.div_small by (apply Z.mod_pos_bound; lia). lia. }
  rewrite E. apply Z.div_mod. lia.
Qed.

(** The prefix brought down so far never needs more than the bits taken. *)
Lemma prefix_bound A k : in_u64 A -> 0 <= k <= 64 -> 0 <= A / 2 ^ (64 - k) < 2 ^ k.
Proof.
  intros HA Hk. split; [apply Z.div_pos; [lia|apply Z.pow_pos_nonneg; lia]|].
  apply Z.div_lt_upper_bound; [apply Z.pow_pos_nonneg; lia|].
  rewrite <- Z.pow_add_r by lia. replace (64 - k + k) with 64 by lia. apply HA.
Qed.

Lemma udivmod_step_ok A b k d :
  in_u64 A -> 0 < b < 18446744073709551616 -> 0 <= k < 64 ->
  div_inv A b k d -> div_inv A b (k + 1) (udivmod_step b d).
Proof.
  intros HA Hb Hk [Ha Hq Hr]. pose proof (prefix_step A k ltac:(lia) Hk) as Hp.
  pose proof (prefix_bound A k HA ltac:(lia)) as Hpb.
  set (p := A / 2 ^ (64 - k)) in *. set (bit := (A * 2 ^ k) mod 2 ^ 64 / 2 ^ 63) in *.
  assert (Hbit : 0 <= bit < 2).
  { unfold bit. pose proof (Z.mod_pos_bound (A * 2 ^ k) (2 ^ 64) ltac:(lia)).
    split; [apply Z.div_pos; lia|]. apply Z.div_lt_upper_bound; [lia|]. lia. }
  assert (Hpk : p < 2 ^ 63).
  { apply Z.lt_le_trans with (2 ^ k); [lia|apply Z.pow_le_mono_r; lia]. }
  change (2 ^ 63) with 9223372036854775808 in Hpk.
  pose proof (Z.mod_pos_bound p b ltac:(lia)) as Hmb.
  pose proof (Z.div_mod p b ltac:(lia)) as Hdm.
  assert (0 <= p / b) by (apply Z.div_pos; lia).
  assert (p mod b <= p) by (apply Z.mod_le; lia).
  assert (p / b <= p) by nia.
  assert (Er : Z.lor (u64 (Z.shiftl (dr d) 1)) (Z.shiftr (da d) 63) = 2 * (p mod b) + bit).
  { rewrite Hr, Ha, Z.shiftl_mul_pow2, Z.shiftr_div_pow2 by lia. fold bit.
    change (2 ^ 1) with 2. rewrite u64_small by lia.
    rewrite (lor_add_disjoint _ _ 1) by (change (2 ^ 1) with 2; rewrite ?Z.mod_mul; lia). lia. }
  assert (Eq : u64 (Z.shiftl (dq d) 1) = 2 * (p / b)).
  { rewrite Hq, Z.shiftl_mul_pow2, u64_small by lia. lia. }
  assert (Ea : u64 (Z.shiftl (da d) 1) = (A * 2 ^ (k + 1)) mod 2 ^ 64).
  { rewrite Ha, Z.shiftl_mul_pow2 by lia. unfold u64. change 18446744073709551616 with (2 ^ 64).
    rewrite Zmult_mod_idemp_l, <- Z.mul_assoc, <- Z.pow_add_r by lia. done. }
  unfold udivmod_step. rewrite Er, Eq, Ea. destruct (Z.leb_spec b (2 * (p mod b) + bit)).
  - assert (Eq1 : Z.lor (2 * (p / b)) 1 = 2 * (p / b) + 1).
    { apply (lor_add_disjoint _ _ 1); try lia. rewrite Z.mul_comm. by apply Z.mod_mul. }
    rewrite Eq1, u64_small by lia.
    split; simpl; [done| |]; rewrite Hp.
    + apply Z.div_unique with (2 * (p mod b) + bit - b); lia.
    + apply Z.mod_unique with (2 * (p / b) + 1); lia.
  - split; simpl; [done| |]; rewrite Hp.
    + apply Z.div_unique with (2 * (p mod b) + bit); lia.
    + apply Z.mod_unique with (2 * (p / b)); lia.
Qed.

Lemma udivmod_loop_ok A b n : forall k d,
  in_u64 A -> 0 < b < 18446744073709551616 -> 0 <= k -> k + Z.of_nat n <= 64 ->
  div_inv A b k d -> div_inv A b (k + Z.of_nat n) (udivmod_loop n b d).
Proof.
  induction n as [|n IH]; intros k d HA Hb Hk Hn Hd; cbn [udivmod_loop].
  - by rewrite Z.add_0_r.
  - replace (k + Z.of_nat (S n)) with (k + 1 + Z.of_nat n) by lia.
    apply IH; try lia. apply udivmod_step_ok; (done || lia).
Qed.

Lemma udivmoddi4_ok a b :
  in_u64 a -> 0 < b < 18446744073709551616 -> __udivmoddi4 a b = (a / b, a mod b).
Proof.
  intros Ha Hb. unfold __udivmoddi4.
  assert (H0 : div_inv a b 0 (Division a 0 0)).
  { change (2 ^ (64 - 0)) with 18446744073709551616. split; simpl.
    - rewrite Z.mul_1_r. symmetry. by apply Z.mod_small.
    - change (2 ^ (64 - 0)) with 18446744073709551616. by rewrite (Z.div_small a), Z.div_0_l by lia.
    - change (2 ^ (64 - 0)) with 18446744073709551616. by rewrite (Z.div_small a), Z.mod_0_l by lia. }
  pose proof (udivmod_loop_ok a b 64 0 _ Ha Hb ltac:(lia) ltac:(lia) H0) as [_ Hq Hr].
  change (2 ^ (64 - (0 + Z.of_nat 64))) with 1 in *. rewrite Z.div_1_r in *. by rewrite Hq, Hr.
Qed.

(** The magnitude and the sign the signed wrappers take apart. *)
Lemma magnitude_ok x :
  in_i64 x ->
  (if x <? 0 then u64 (- u64 x) else u64 x) = Z.abs x.
Proof.
  intros Hx. case_z.
  - rewrite (u64_neg x) by lia. rewrite u64_neg by lia. lia.
  - rewrite u64_small by lia. lia.
Qed.

Lemma i64_neg_i64 x : i64 (- i64 x) = i64 (- x).
Proof.
  assert (E : u64 (- i64 x) = u64 (- x)); [|unfold i64 at 1 3; by rewrite E].
  unfold i64, u64. rewrite <- !Z.sub_0_l. case_z; [apply Zminus_mod_idemp_r|].
  replace (0 - (x mod 18446744073709551616 - 18446744073709551616))
    with (0 - x mod 18446744073709551616 + 1 * 18446744073709551616) by lia.
  by rewrite Z_mod_plus_full, Zminus_mod_idemp_r.
Qed.

(** C39: the 64-bit division helpers are division.  For a non-zero divisor the
    unsigned helpers return quotient and remainder; the signed ones return C's
    truncated quotient (wrapped at 64 bits, which matters only for the least
    value divided by -1) and the remainder with the sign of the dividend. *)
Theorem libc_division_correct a b :
  b <> 0 ->
  (in_u64 a -> in_u64 b -> __udivdi3 a b = a / b /\ __umoddi3 a b = a mod b) /\
  (in_i64 a -> in_i64 b -> __divdi3 a b = i64 (Z.quot a b) /\ __moddi3 a b = Z.rem a b).
Proof.
  intros Hb. split; intros Ha Hb'.
  - unfold __udivdi3, __umoddi3. rewrite udivmoddi4_ok by lia. done.
  - pose proof (magnitude_ok a Ha) as Ea. pose proof (magnitude_ok b Hb') as Eb.
    assert (Hd : __udivmoddi4 (Z.abs a) (Z.abs b) = (Z.abs a / Z.abs b, Z.abs a mod Z.abs b)).
    { apply udivmoddi4_ok; lia. }
    pose proof (Z.mod_pos_bound (Z.abs a) (Z.abs b) ltac:(lia)) as Hm.
    pose proof (Z.mod_le (Z.abs a) (Z.abs b) ltac:(lia) ltac:(lia)) as Hm'.
    unfold __divdi3, __moddi3. rewrite Z.quot_div, Z.rem_mod by done.
    assert (Sa : a < 0 /\ Z.sgn a = -1 \/ a = 0 \/ 0 < a /\ Z.sgn a = 1) by lia.
    assert (Sb : b < 0 /\ Z.sgn b = -1 \/ 0 < b /\ Z.sgn b = 1) by lia.
    assert (H0 : a = 0 -> Z.abs a / Z.abs b = 0 /\ Z.abs a mod Z.abs b = 0).
    { intros ->. split; [apply Z.div_0_l|apply Z.mod_0_l]; lia. }
    destruct (Z.ltb_spec a 0), (Z.ltb_spec b 0); rewrite ?Ea, ?Eb, Hd; simpl; rewrite ?i64_neg_i64;
      rewrite ?(i64_small (Z.abs a mod Z.abs b)), ?(i64_small (- (Z.abs a mod Z.abs b))) by lia;
      (destruct Sa as [[? ->]|[E|[? ->]]]; [|destruct (H0 E) as [-> ->]|]; try lia);
      destruct Sb as [[? ->]|[? ->]]; try lia; split; try f_equal; lia.
Qed.

Lemma libc_division_correct_witness :
  __divdi3 (-7) 2 = -3 /\ __moddi3 (-7) 2 = -1 /\
  __udivdi3 18446744073709551615 18446744073709551614 = 1.
Proof.
  split; [|split].
  - apply (proj1 (proj2 (libc_division_correct (-7) 2 ltac:(lia)) ltac:(lia) ltac:(lia))).
  - apply (proj2 (proj2 (libc_division_correct (-7) 2 ltac:(lia)) ltac:(lia) ltac:(lia))).
  - apply (proj1 (proj1 (libc_division_correct 18446744073709551615 18446744073709551614 ltac:(lia)) ltac:(lia) ltac:(lia))).
Defined.

(** Division by zero is not trapped: every quotient bit is 1. *)
Example udivmoddi4_by_zero : __udivmoddi4 5 0 = (18446744073709551615, 5).
Proof. reflexivity. Qed.
