(* ===== verification/LibcString.v ===== *)
(** string.h and ctype.h of the user C library (user/src/libc.c).

    A string that is only read is the list of the bytes of its array (as in
    [Utils]; past the end of the list lies the terminating 0), and a pointer
    into it is an index; a [char] is signed.  Functions that write work on byte
    memory. *)
From S2P Require Import Prelude.

(** [*s], and [s + 1]. *)
Definition ch (s : list Z) : Z := hd 0 s.

(** * ctype.h *)

Definition isalnum (c : Z) : bool :=
  (97 <=? c) && (c <=? 122) || (65 <=? c) && (c <=? 90) || (48 <=? c) && (c <=? 57).
Definition isalpha (c : Z) : bool := (97 <=? c) && (c <=? 122) || (65 <=? c) && (c <=? 90).
Definition iscntrl (c : Z) : bool := (0 <=? c) && (c <=? 31) || (c =? 127).
Definition isdigit (c : Z) : bool := (48 <=? c) && (c <=? 57).
Definition isgraph (c : Z) : bool := (32 <? c) && (c <? 127).
Definition islower (c : Z) : bool := (97 <=? c) && (c <=? 122).
Definition isprint (c : Z) : bool := (32 <=? c) && (c <? 127).
Definition ispunct (c : Z) : bool := isgraph c && negb (isalnum c).
Definition isspace (c : Z) : bool :=
  (c =? 32) || (c =? 9) || (c =? 10) || (c =? 11) || (c =? 12) || (c =? 13).
Definition isupper (c : Z) : bool := (65 <=? c) && (c <=? 90).
Definition isxdigit (c : Z) : bool :=
  (48 <=? c) && (c <=? 57) || (97 <=? c) && (c <=? 102) || (65 <=? c) && (c <=? 70).
Definition tolower (c : Z) : Z := if (65 <=? c) && (c <=? 90) then c + 32 else c.
Definition toupper (c : Z) : Z := if (97 <=? c) && (c <=? 122) then c - 32 else c.

(** * Reading strings *)

Fixpoint strlen (s : list Z) : Z :=
  match s with
  | [] => 0
  | c :: s' => if c =? 0 then 0 else 1 + strlen s'
  end.

Fixpoint strnlen (s : list Z) (maxlen : nat) : Z :=
  match maxlen, s with
  | S k, c :: s' => if c =? 0 then 0 else 1 + strnlen s' k
  | _, _ => 0
  end.

Fixpoint strcmp (str1 str2 : list Z) : Z :=
  match str1 with
  | c :: str1' =>
      if negb (c =? 0) && (c =? ch str2) then strcmp str1' (tl str2) else i8 c - i8 (ch str2)
  | [] => 0 - i8 (ch str2)
  end.

Definition strcoll (s1 s2 : list Z) : Z := strcmp s1 s2.

Fixpoint strncmp (s1 s2 : list Z) (n : nat) : Z :=
  match n with
  | O => 0
  | S n' =>
      if negb (ch s1 =? ch s2) then i8 (ch s1) - i8 (ch s2)
      else if ch s1 =? 0 then 0 else strncmp (tl s1) (tl s2) n'
  end.

Fixpoint strcasecmp (s1 s2 : list Z) : Z :=
  match s1 with
  | c :: s1' =>
      if negb (c =? 0) && (tolower (i8 c) =? tolower (i8 (ch s2))) then strcasecmp s1' (tl s2)
      else tolower (i8 c) - tolower (i8 (ch s2))
  | [] => tolower 0 - tolower (i8 (ch s2))
  end.

Fixpoint strncasecmp (s1 s2 : list Z) (n : nat) : Z :=
  match n with
  | O => 0
  | S n' =>
      if (ch s1 =? 0) && (ch s2 =? 0) then 0
      else
        let c1 := tolower (i8 (ch s1)) in
        let c2 := tolower (i8 (ch s2)) in
        if negb (c1 =? c2) then c1 - c2
        else if ch s1 =? 0 then 0 else strncasecmp (tl s1) (tl s2) n'
  end.

Fixpoint memcmp (s1 s2 : list Z) (n : nat) : Z :=
  match n with
  | O => 0
  | S n' => if negb (ch s1 =? ch s2) then ch s1 - ch s2 else memcmp (tl s1) (tl s2) n'
  end.

(** The index found, or [None] for [NULL]; [i] is the index of the first byte. *)
Fixpoint memchr_from (s : list Z) (c : Z) (n : nat) (i : Z) : option Z :=
  match n with
  | O => None
  | S n' => if ch s =? u8 c then Some i else memchr_from (tl s) c n' (i + 1)
  end.
Definition memchr (s : list Z) (c : Z) (n : nat) : option Z := memchr_from s c n 0.

Fixpoint strchr_from (s : list Z) (c i : Z) : option Z :=
  match s with
  | x :: s' =>
      if x =? 0 then if c =? 0 then Some i else None
      else if i8 x =? i8 c then Some i else strchr_from s' c (i + 1)
  | [] => if c =? 0 then Some i else None
  end.
Definition strchr (s : list Z) (c : Z) : option Z := strchr_from s c 0.

Fixpoint strrchr_from (s : list Z) (c i : Z) (last : option Z) : option Z :=
  match s with
  | x :: s' =>
      if x =? 0 then if c =? 0 then Some i else last
      else strrchr_from s' c (i + 1) (if i8 x =? i8 c then Some i else last)
  | [] => if c =? 0 then Some i else last
  end.
Definition strrchr (s : list Z) (c : Z) : option Z := strrchr_from s c 0 None.

(** The inner loop of [strstr]: whether it stops at the end of the needle. *)
Fixpoint strstr_match (h n : list Z) {struct n} : bool :=
  match n with
  | [] => true
  | y :: n' =>
      if y =? 0 then true
      else match h with
           | x :: h' => if negb (x =? 0) && (x =? y) then strstr_match h' n' else false
           | [] => false
           end
  end.

Fixpoint strstr_from (haystack needle : list Z) (i : Z) : option Z :=
  match haystack with
  | x :: h' =>
      if x =? 0 then None
      else if strstr_match haystack needle then Some i else strstr_from h' needle (i + 1)
  | [] => None
  end.
Definition strstr (haystack needle : list Z) : option Z :=
  if ch needle =? 0 then Some 0 else strstr_from haystack needle 0.

(** Whether [c] occurs before the end of the string [a]. *)
Fixpoint occurs (c : Z) (a : list Z) : bool :=
  match a with
  | x :: a' => if x =? 0 then false else if c =? x then true else occurs c a'
  | [] => false
  end.

Fixpoint strpbrk_from (s accept : list Z) (i : Z) : option Z :=
  match s with
  | x :: s' =>
      if x =? 0 then None else if occurs x accept then Some i else strpbrk_from s' accept (i + 1)
  | [] => None
  end.
Definition strpbrk (s accept : list Z) : option Z := strpbrk_from s accept 0.

Fixpoint strspn (s accept : list Z) : Z :=
  match s with
  | x :: s' => if x =? 0 then 0 else if occurs x accept then 1 + strspn s' accept else 0
  | [] => 0
  end.

Fixpoint strcspn (s reject : list Z) : Z :=
  match s with
  | x :: s' => if x =? 0 then 0 else if occurs x reject then 0 else 1 + strcspn s' reject
  | [] => 0
  end.

(** * Writing memory *)

Definition memcpy (dst src size : Z) : M ram Z :=
  modify (copy_bytes (Z.to_nat size) dst src) ;; mret dst.
Definition memset (ptr value size : Z) : M ram Z :=
  modify (set_bytes (Z.to_nat size) ptr value) ;; mret ptr.
Definition bzero (s n : Z) : M ram unit := memset s 0 n ;; mret tt.

(** [for (i = n; i > 0; i--) d[i - 1] = s[i - 1]]. *)
Fixpoint copy_down (n : nat) (d s : Z) (m : ram) : ram :=
  match n with
  | O => m
  | S n' => copy_down n' d s (st8 (d + Z.of_nat n') (ld8 m (s + Z.of_nat n')) m)
  end.

Definition memmove (dest src n : Z) : M ram Z :=
  (if dest <? src then modify (copy_bytes (Z.to_nat n) dest src)
   else if src <? dest then modify (copy_down (Z.to_nat n) dest src)
   else mret tt) ;;
  mret dest.

(** [while ( *src) *d++ = *src++; *d = 0]; the result is the final [d]. *)
Fixpoint str_copy (fuel : nat) (d src : Z) : M ram Z :=
  match fuel with
  | O => out_of_fuel
  | S fuel' =>
      c ← gets (fun m => ld8 m src);
      if negb (c =? 0) then modify (st8 d c) ;; str_copy fuel' (u32 (d + 1)) (u32 (src + 1))
      else modify (st8 d 0) ;; mret d
  end.
Definition strcpy (fuel : nat) (dst src : Z) : M ram Z := str_copy fuel dst src ;; mret dst.
Definition stpcpy (fuel : nat) (dest src : Z) : M ram Z := str_copy fuel dest src.

(** [while ( *d) d++]. *)
Fixpoint str_end (fuel : nat) (d : Z) : M ram Z :=
  match fuel with
  | O => out_of_fuel
  | S fuel' => c ← gets (fun m => ld8 m d); if negb (c =? 0) then str_end fuel' (u32 (d + 1)) else mret d
  end.
Definition strcat (fuel : nat) (dest src : Z) : M ram Z :=
  d ← str_end fuel dest;
  str_copy fuel d src ;; mret dest.

(** The two loops of [strncpy]: copying, then filling with zeros. *)
Fixpoint strncpy_loop (n : nat) (i dest src : Z) (m : ram) : ram :=
  match n with
  | O => m
  | S n' =>
      let c := ld8 m (src + i) in
      if negb (c =? 0) then strncpy_loop n' (i + 1) dest src (st8 (dest + i) c m)
      else set_bytes n (dest + i) 0 m
  end.
Definition strncpy (dest src n : Z) : M ram Z :=
  modify (strncpy_loop (Z.to_nat n) 0 dest src) ;; mret dest.

(** [strsep]: [stringp] is the address of a pointer. *)
Fixpoint strsep_loop (fuel : nat) (stringp start e : Z) (delim : list Z) : M ram Z :=
  match fuel with
  | O => out_of_fuel
  | S fuel' =>
      c ← gets (fun m => ld8 m e);
      if c =? 0 then modify (st32 stringp 0) ;; mret start
      else if occurs c delim then
        modify (st8 e 0) ;; modify (st32 stringp (u32 (e + 1))) ;; mret start
      else strsep_loop fuel' stringp start (u32 (e + 1)) delim
  end.
Definition strsep (fuel : nat) (stringp : Z) (delim : list Z) : M ram Z :=
  start ← gets (fun m => ld32 m stringp);
  if start =? 0 then mret 0 else strsep_loop fuel stringp start start delim.

(** * [memmove] *)

(** Upwards copying is right when the destination starts below the source,
    also when the two ranges overlap. *)
Lemma ld8_copy_up n : forall dst src m x,
  ram_ok m -> dst < src ->
  ld8 (copy_bytes n dst src m) x =
  if (dst <=? x) && (x <? dst + Z.of_nat n) then ld8 m (src + (x - dst)) else ld8 m x.
Proof.
  induction n as [|n IH]; intros dst src m x Hm Hd; cbn [copy_bytes].
  - repeat case_z; simpl; try lia; done.
  - rewrite IH by (auto with mboot; lia). rewrite !ld8_st8, u8_small by apply Hm.
    repeat case_z; simpl; try lia; try done; f_equal; lia.
Qed.

Lemma ld8_copy_down n : forall d s m x,
  ram_ok m -> s < d ->
  ld8 (copy_down n d s m) x =
  if (d <=? x) && (x <? d + Z.of_nat n) then ld8 m (s + (x - d)) else ld8 m x.
Proof.
  induction n as [|n IH]; intros d s m x Hm Hd; cbn [copy_down].
  - repeat case_z; simpl; try lia; done.
  - rewrite IH by (auto with mboot; lia). rewrite !ld8_st8, u8_small by apply Hm.
    repeat case_z; simpl; try lia; try done; f_equal; lia.
Qed.

(** [memmove] copies as if through a temporary: whatever the overlap of the
    two ranges, each byte of the destination is the byte the source had before
    the call, and no other byte changes. *)
Theorem libc_memmove_correct dest src n m :
  ram_ok m -> 0 <= n ->
  exists m', memmove dest src n m = Ret dest m' /\
    forall x, ld8 m' x =
      if (dest <=? x) && (x <? dest + n) then ld8 m (src + (x - dest)) else ld8 m x.
Proof.
  intros Hm Hn. unfold memmove. destruct (Z.ltb_spec dest src); [|destruct (Z.ltb_spec src dest)].
  - eexists. split; [reflexivity|]. intros x. by rewrite ld8_copy_up, Z2Nat.id by done.
  - eexists. split; [reflexivity|]. intros x. by rewrite ld8_copy_down, Z2Nat.id by done.
  - exists m. split; [reflexivity|]. intros x. replace dest with src by lia.
    replace (src + (x - src)) with x by lia. by repeat case_z.
Qed.

Lemma libc_memmove_correct_witness :
  exists m', memmove 12 10 4 (write_bytes 10 [1; 2; 3; 4] ∅) = Ret 12 m' /\
    read_bytes_at 6 10 m' = [1; 2; 1; 2; 3; 4].
Proof.
  destruct (libc_memmove_correct 12 10 4 (write_bytes 10 [1; 2; 3; 4] ∅)) as (m' & E & H).
  - cbn [write_bytes]. do 4 apply ram_ok_st8. intros a. split; [done|reflexivity].
  - lia.
  - exists m'. split; [exact E|]. cbn [read_bytes_at]. rewrite !H. reflexivity.
Defined.

(** * Comparing and searching *)

(** The bytes of a string before its terminator. *)
Definition text (s : list Z) : Prop := Forall (fun c => 0 < c < 256) s.

Lemma i8_inj a b : in_u8 a -> in_u8 b -> i8 a = i8 b -> a = b.
Proof. intros Ha Hb. unfold i8. rewrite !u8_small by lia. repeat case_z; lia. Qed.

Lemma strcmp_zero s1 s2 : text s1 -> text s2 -> strcmp s1 s2 = 0 <-> s1 = s2.
Proof.
  intros H1. revert s2. induction H1 as [|a s1 Ha H1 IH]; intros s2 H2; cbn [strcmp].
  - destruct H2 as [|b s2 Hb H2]; [done|]. cbn [ch hd]. split; [|done]. intros E.
    assert (i8 b = i8 0) as Hb0 by (change (i8 0) with 0; lia). apply i8_inj in Hb0; lia.
  - destruct (Z.eqb_spec a 0); [lia|]. destruct H2 as [|b s2 Hb H2]; cbn [ch hd tl].
    + simpl negb. destruct (Z.eqb_spec a 0); [lia|]. simpl. split; [|done]. intros E.
      assert (i8 a = i8 0) as Ha0 by lia. apply i8_inj in Ha0; lia.
    + destruct (Z.eqb_spec a b) as [->|Hab]; simpl.
      * rewrite (IH s2 H2). split; congruence.
      * split; [|congruence]. intros E. assert (i8 a = i8 b) as Hx by lia. apply i8_inj in Hx; lia.
Qed.

Lemma strlen_text s : text s -> strlen s = Z.of_nat (length s).
Proof. induction 1 as [|c s Hc Hs IH]; [done|]. cbn [strlen length]. case_z; lia. Qed.

Lemma occurs_spec c a : text a -> occurs c a = true <-> c ∈ a.
Proof.
  induction 1 as [|x a Hx Ha IH]; cbn [occurs].
  - split; [done|]. intros H. by apply elem_of_nil in H.
  - rewrite elem_of_cons. destruct (Z.eqb_spec x 0); [lia|]. destruct (Z.eqb_spec c x); [tauto|]. rewrite IH. tauto.
Qed.

(** [strcspn] is the length of the longest prefix without a rejected byte, and
    [strspn] of the longest prefix of accepted ones. *)
Lemma strcspn_spec s reject :
  text s -> text reject ->
  exists p q, s = p ++ q /\ strcspn s reject = Z.of_nat (length p) /\
    (forall c, c ∈ p -> c ∉ reject) /\ (forall c q', q = c :: q' -> c ∈ reject).
Proof.
  intros Hs Hr. induction Hs as [|x s Hx Hs IH]; cbn [strcspn].
  - exists [], []. split; [done|]. split; [done|]. split; [intros c Hc; by apply elem_of_nil in Hc|done].
  - destruct (Z.eqb_spec x 0); [lia|]. destruct (occurs x reject) eqn:E.
    + exists [], (x :: s). split; [done|]. split; [done|].
      split; [intros c Hc; by apply elem_of_nil in Hc|]. intros c q' [= <- <-]. by apply occurs_spec.
    + destruct IH as (p & q & -> & -> & Hp & Hq). exists (x :: p), q. split; [done|].
      split; [cbn [length]; lia|]. split; [|done]. intros c [-> | Hc]%elem_of_cons; [|by apply Hp].
      intros Hin. apply occurs_spec in Hin; [congruence|done].
Qed.

Lemma strstr_match_prefix h n : text h -> text n -> strstr_match h n = true <-> n `prefix_of` h.
Proof.
  intros Hh Hn. revert h Hh. induction Hn as [|y n Hy Hn IH]; intros h Hh; cbn [strstr_match].
  - split; [intros _; apply prefix_nil|done].
  - destruct (Z.eqb_spec y 0); [lia|]. destruct Hh as [|x h Hx Hh].
    + split; [done|]. intros H. by apply prefix_nil_not in H.
    + destruct (Z.eqb_spec x 0); [lia|]. simpl. destruct (Z.eqb_spec x y) as [->|Hxy].
      * rewrite IH by done. split; [apply prefix_cons|apply prefix_cons_inv_2].
      * split; [done|]. intros H. apply prefix_cons_inv_1 in H. congruence.
Qed.

Lemma strstr_from_spec h n : text h -> text n -> n <> [] -> forall i,
  match strstr_from h n i with
  | Some j => i <= j /\ n `prefix_of` drop (Z.to_nat (j - i)) h /\
      (forall k, i <= k < j -> ~ n `prefix_of` drop (Z.to_nat (k - i)) h)
  | None => forall k, ~ n `prefix_of` drop k h
  end.
Proof.
  intros Hh Hn Hne. induction Hh as [|x h Hx Hh IH]; intros i; cbn [strstr_from].
  - intros k. rewrite drop_nil. intros H. by apply prefix_nil_inv in H.
  - destruct (Z.eqb_spec x 0); [lia|].
    assert (Ht : text (x :: h)) by by constructor.
    pose proof (strstr_match_prefix (x :: h) n Ht Hn) as Hm. destruct (strstr_match (x :: h) n).
    + split; [lia|]. rewrite Z.sub_diag. split; [by apply Hm|]. lia.
    + assert (Hno : ~ n `prefix_of` x :: h) by (intros H; apply Hm in H; done).
      specialize (IH (i + 1)). destruct (strstr_from h n (i + 1)) as [j|].
      * destruct IH as (Hj & Hp & Hf). split; [lia|].
        replace (Z.to_nat (j - i)) with (S (Z.to_nat (j - (i + 1)))) by lia. split; [done|].
        intros k Hk. destruct (Z.eq_dec k i) as [->|]; [by rewrite Z.sub_diag|].
        replace (Z.to_nat (k - i)) with (S (Z.to_nat (k - (i + 1)))) by lia. apply Hf. lia.
      * intros [|k]; [done|apply IH].
Qed.

(** [strstr] finds the first occurrence: the index it returns is the least
    one at which the needle is a prefix of the rest of the haystack, and it
    returns [NULL] exactly when there is none. *)
Theorem libc_strstr_first h n :
  text h -> text n ->
  match strstr h n with
  | Some i => 0 <= i /\ n `prefix_of` drop (Z.to_nat i) h /\
      (forall k, 0 <= k < i -> ~ n `prefix_of` drop (Z.to_nat k) h)
  | None => forall k, ~ n `prefix_of` drop k h
  end.
Proof.
  intros Hh Hn. unfold strstr. destruct Hn as [|y n Hy Hn]; cbn [ch hd].
  - rewrite Z.eqb_refl. split; [done|]. split; [apply prefix_nil|lia].
  - destruct (Z.eqb_spec y 0); [lia|].
    pose proof (strstr_from_spec h (y :: n) Hh ltac:(by constructor) ltac:(done) 0) as H.
    destruct (strstr_from h (y :: n) 0) as [i|]; [|done]. destruct H as (H1 & H2 & H3).
    rewrite Z.sub_0_r in H2. split; [done|]. split; [done|]. intros k Hk Hp. apply (H3 k Hk). by rewrite Z.sub_0_r.
Qed.

Lemma libc_strstr_first_witness :
  strstr [97; 98; 97; 97; 98] [97; 97] = Some 2 /\ [97; 97] `prefix_of` drop 2 [97; 98; 97; 97; 98].
Proof.
  assert (H : text [97; 98; 97; 97; 98]) by (repeat constructor; lia).
  assert (H' : text [97; 97]) by (repeat constructor; lia).
  split; [reflexivity|]. exact (proj1 (proj2 (libc_strstr_first _ _ H H'))).
Defined.
