(* ===== verification/LibcSort.v ===== *)
(** [qsort] of the user C library (user/src/libc.c): an in-place quicksort of an
    array of elements of [size] bytes in byte memory, with the comparison given
    as a function that reads two elements. *)
From S2P Require Import Prelude.

(** [size_t] and pointer arithmetic wrap at 32 bits. *)
Definition slot (base size k : Z) : Z := u32 (base + u32 (k * size)).

(** The loop of [qsort_swap] from byte [i], with [n] bytes left. *)
Fixpoint swap_loop (n : nat) (i a b : Z) (m : ram) : ram :=
  match n with
  | O => m
  | S n' =>
      let tmp := ld8 m (a + i) in
      swap_loop n' (i + 1) a b (st8 (b + i) tmp (st8 (a + i) (ld8 m (b + i)) m))
  end.
Definition qsort_swap (a b size : Z) : M ram unit := modify (swap_loop (Z.to_nat size) 0 a b).

(** The partitioning loop of [qsort_inner] at index [i]: the elements smaller
    than the one at [lo] are moved to the positions up to [last]. *)
Fixpoint partition_loop (fuel : nat) (compar : ram -> Z -> Z -> Z) (base lo hi size i last : Z) : M ram Z :=
  match fuel with
  | O => out_of_fuel
  | S fuel' =>
      if i <=? hi then
        smaller ← gets (fun m => compar m (slot base size i) (slot base size lo) <? 0);
        if (smaller : bool) then
          let last := u32 (last + 1) in
          qsort_swap (slot base size last) (slot base size i) size ;;
          partition_loop fuel' compar base lo hi size (u32 (i + 1)) last
        else partition_loop fuel' compar base lo hi size (u32 (i + 1)) last
      else mret last
  end.

(** [fuel] bounds the depth of the recursion; the loop inside takes one turn per
    index from [lo + 1] to [hi] and one to leave. *)
Fixpoint qsort_inner (fuel : nat) (compar : ram -> Z -> Z -> Z) (base lo hi size : Z) : M ram unit :=
  match fuel with
  | O => out_of_fuel
  | S fuel' =>
      if hi <=? lo then mret tt
      else
        let mid := u32 (lo + hi) / 2 in
        qsort_swap (slot base size lo) (slot base size mid) size ;;
        last ← partition_loop (S (Z.to_nat (hi - lo))) compar base lo hi size (u32 (lo + 1)) lo;
        qsort_swap (slot base size lo) (slot base size last) size ;;
        (if 0 <? last then qsort_inner fuel' compar base lo (u32 (last - 1)) size else mret tt) ;;
        qsort_inner fuel' compar base (u32 (last + 1)) hi size
  end.

Definition qsort (fuel : nat) (compar : ram -> Z -> Z -> Z) (base nmemb size : Z) : M ram unit :=
  if nmemb <=? 1 then mret tt else qsort_inner fuel compar base 0 (u32 (nmemb - 1)) size.

(** * Swapping two elements *)

Lemma ld8_swap_loop n : forall i a b m x,
  ram_ok m -> a + i + Z.of_nat n <= b + i \/ b + i + Z.of_nat n <= a + i ->
  ld8 (swap_loop n i a b m) x =
  if (a + i <=? x) && (x <? a + i + Z.of_nat n) then ld8 m (x - a + b)
  else if (b + i <=? x) && (x <? b + i + Z.of_nat n) then ld8 m (x - b + a)
  else ld8 m x.
Proof.
  induction n as [|n IH]; intros i a b m x Hm Hd; cbn [swap_loop].
  - repeat case_z; simpl; try lia; done.
  - rewrite IH by (auto with mboot; lia). rewrite !ld8_st8, !u8_small by apply Hm.
    replace (a + (i + 1)) with (a + i + 1) by lia. replace (b + (i + 1)) with (b + i + 1) by lia.
    repeat case_z; simpl; try lia; try done; f_equal; lia.
Qed.

Lemma swap_loop_same n : forall i a m, ram_ok m -> swap_loop n i a a m ≡ m.
Proof.
  induction n as [|n IH]; intros i a m Hm; cbn [swap_loop]; [done|].
  rewrite IH by auto with mboot. intros x. rewrite !ld8_st8, !u8_small by apply Hm. by repeat case_z; subst.
Qed.

Lemma ram_ok_swap_loop n : forall i a b m, ram_ok m -> ram_ok (swap_loop n i a b m).
Proof. induction n; simpl; intros; auto with mboot. Qed.
#[export] Hint Resolve ram_ok_swap_loop : mboot.

(** The positions [i] and [j] exchanged. *)
Definition transpose (i j k : Z) : Z := if k =? i then j else if k =? j then i else k.

Lemma transpose_perm i j lo n :
  i ∈ seqZ lo n -> j ∈ seqZ lo n -> map (transpose i j) (seqZ lo n) ≡ₚ seqZ lo n.
Proof.
  rewrite !elem_of_seqZ. intros Hi Hj. apply NoDup_Permutation.
  - apply NoDup_fmap_2_strong; [|apply NoDup_seqZ]. intros x y _ _. unfold transpose. repeat case_z; lia.
  - apply NoDup_seqZ.
  - intros k. rewrite list_elem_of_fmap. setoid_rewrite elem_of_seqZ. unfold transpose. split.
    + intros (y & -> & Hy). repeat case_z; lia.
    + intros Hk. exists (transpose i j k). unfold transpose. repeat case_z; lia.
Qed.

Lemma read_bytes_bytes n : forall a m, ram_ok m -> Forall (fun b => in_u8 b) (read_bytes_at n a m).
Proof. induction n as [|n IH]; intros a m Hm; cbn [read_bytes_at]; constructor; [apply Hm|auto]. Qed.

(** * The array *)

Section array.
Context (base n size : Z).
Context (Hbase : 0 <= base) (Hsize : 0 <= size) (Hn : 0 <= n <= 2147483648)
  (Hend : base + n * size <= 4294967296).

Lemma slot_before a b : a < b -> (a + 1) * size <= b * size.
Proof. intros. apply Z.mul_le_mono_nonneg_r; lia. Qed.

(** The [k]-th element. *)
Definition elem_at (m : ram) (k : Z) : list Z := read_bytes_at (Z.to_nat size) (base + k * size) m.

(** The elements of a range of positions. *)
Definition elems (m : ram) (lo len : Z) : list (list Z) := map (elem_at m) (seqZ lo len).

Lemma slot_eq k : 0 <= k < n -> 0 < size -> slot base size k = base + k * size.
Proof. intros Hk Hs. unfold slot. assert (0 <= k * size) by nia. assert ((k + 1) * size <= n * size) by nia. usimp. done. Qed.

(** The memory [m'] differs from [m] only by a rearrangement of the elements
    at the positions from [lo] to [hi]. *)
Record rearranged (lo hi : Z) (m m' : ram) : Prop := {
  ra_ok : ram_ok m';
  ra_outside : forall x, x < base \/ base + n * size <= x -> ld8 m' x = ld8 m x;
  ra_others : forall k, 0 <= k < n -> k < lo \/ hi < k -> elem_at m' k = elem_at m k;
  ra_perm : elems m' lo (hi - lo + 1) ≡ₚ elems m lo (hi - lo + 1);
}.

Lemma rearranged_refl lo hi m : ram_ok m -> rearranged lo hi m m.
Proof. by split. Qed.

Lemma rearranged_trans lo hi m1 m2 m3 :
  rearranged lo hi m1 m2 -> rearranged lo hi m2 m3 -> rearranged lo hi m1 m3.
Proof.
  intros [A1 A2 A3 A4] [B1 B2 B3 B4]. split; [done| | |by rewrite B4].
  - intros x Hx. by rewrite B2, A2.
  - intros k Hk Hr. by rewrite B3, A3.
Qed.

Lemma elems_ext m m' lo len :
  (forall k, lo <= k < lo + len -> elem_at m' k = elem_at m k) -> elems m' lo len = elems m lo len.
Proof. intros H. apply map_ext_in. intros k Hk. apply list_elem_of_In, elem_of_seqZ in Hk. apply H. lia. Qed.

Lemma elems_app m lo a b : 0 <= a -> 0 <= b -> elems m lo (a + b) = elems m lo a ++ elems m (lo + a) b.
Proof. intros. unfold elems. by rewrite seqZ_app, map_app. Qed.

(** A rearrangement of a part is one of the whole. *)
Lemma rearranged_wider lo hi lo' hi' m m' :
  0 <= lo' <= lo -> lo <= hi + 1 -> hi <= hi' < n ->
  rearranged lo hi m m' -> rearranged lo' hi' m m'.
Proof.
  intros Hlo Hlh Hhi [A1 A2 A3 A4]. split; [done|done|intros; apply A3; lia|].
  replace (hi' - lo' + 1) with ((lo - lo') + ((hi - lo + 1) + (hi' - hi))) by lia.
  assert (E : forall m, elems m lo' ((lo - lo') + ((hi - lo + 1) + (hi' - hi))) = elems m lo' (lo - lo') ++
    elems m (lo' + (lo - lo')) (hi - lo + 1) ++ elems m (lo' + (lo - lo') + (hi - lo + 1)) (hi' - hi)).
  { intros m0. rewrite elems_app by lia. f_equal. apply elems_app; lia. }
  rewrite !E. replace (lo' + (lo - lo')) with lo by lia.
  replace (lo + (hi - lo + 1)) with (hi + 1) by lia.
  rewrite (elems_ext m m' lo') by (intros; apply A3; lia).
  rewrite (elems_ext m m' (hi + 1)) by (intros; apply A3; lia). by rewrite A4.
Qed.

(** What holds of all elements of a range holds after rearranging it. *)
Lemma rearranged_forall (P : list Z -> Prop) lo hi m m' :
  rearranged lo hi m m' -> (forall k, lo <= k <= hi -> P (elem_at m k)) ->
  forall k, lo <= k <= hi -> P (elem_at m' k).
Proof.
  intros [_ _ _ Hp] H k Hk.
  assert (Hin : elem_at m' k ∈ elems m lo (hi - lo + 1)).
  { rewrite <- Hp. apply list_elem_of_fmap. exists k. split; [done|]. apply elem_of_seqZ. lia. }
  apply list_elem_of_fmap in Hin as (j & -> & Hj). apply elem_of_seqZ in Hj. apply H. lia.
Qed.

Lemma qsort_swap_ok i j m :
  ram_ok m -> 0 <= i < n -> 0 <= j < n ->
  exists m', qsort_swap (slot base size i) (slot base size j) size m = Ret tt m' /\
    ram_ok m' /\
    (forall x, x < base \/ base + n * size <= x -> ld8 m' x = ld8 m x) /\
    (forall k, 0 <= k < n -> elem_at m' k = elem_at m (transpose i j k)).
Proof.
  intros Hm Hi Hj. eexists. split; [reflexivity|]. split; [auto with mboot|].
  destruct (Z.eq_dec size 0) as [E0|E0].
  { rewrite E0. split; [done|]. intros k _. unfold elem_at. by rewrite E0. }
  rewrite !slot_eq by lia. destruct (Z.eq_dec i j) as [->|Hij].
  { split; [intros x _; by apply swap_loop_same|]. intros k _.
    replace (transpose j j k) with k by (unfold transpose; repeat case_z; lia).
    apply read_bytes_shift. intros. by apply swap_loop_same. }
  assert (Hd : base + i * size + 0 + Z.of_nat (Z.to_nat size) <= base + j * size + 0 \/
               base + j * size + 0 + Z.of_nat (Z.to_nat size) <= base + i * size + 0).
  { pose proof (slot_before i j). pose proof (slot_before j i). lia. }
  assert (Hb : forall k, 0 <= k < n -> 0 <= k * size /\ (k + 1) * size <= n * size).
  { intros k Hk. split; [apply Z.mul_nonneg_nonneg; lia|apply slot_before; lia]. }
  pose proof (Hb i Hi). pose proof (Hb j Hj). split.
  - intros x Hx. rewrite ld8_swap_loop by done. repeat case_z; simpl; try lia; done.
  - intros k Hk. apply read_bytes_shift. intros d Hd'. rewrite ld8_swap_loop by done.
    pose proof (slot_before k i). pose proof (slot_before i k).
    pose proof (slot_before k j). pose proof (slot_before j k).
    unfold transpose. destruct (Z.eqb_spec k i) as [->|]; [|destruct (Z.eqb_spec k j) as [->|]];
      repeat case_z; simpl; try lia; f_equal; lia.
Qed.

Lemma swap_rearranged i j lo hi m m' :
  0 <= lo -> hi < n -> lo <= i <= hi -> lo <= j <= hi -> ram_ok m' ->
  (forall x, x < base \/ base + n * size <= x -> ld8 m' x = ld8 m x) ->
  (forall k, 0 <= k < n -> elem_at m' k = elem_at m (transpose i j k)) ->
  rearranged lo hi m m'.
Proof.
  intros Hlo Hhi Hi Hj Hm Ho Hk. split; [done|done| |].
  - intros k Hkn Hr. rewrite Hk by done. f_equal. unfold transpose. repeat case_z; lia.
  - unfold elems. rewrite <- (transpose_perm i j lo (hi - lo + 1)) at 2 by (apply elem_of_seqZ; lia).
    rewrite map_map. erewrite map_ext_in; [done|]. intros k Hin. apply Hk.
    apply list_elem_of_In, elem_of_seqZ in Hin. lia.
Qed.

(** * Sorting by a comparison that reads the two elements *)

Context (compar : ram -> Z -> Z -> Z) (cmp : list Z -> list Z -> Z).
Definition smaller (x y : list Z) : Prop := cmp x y < 0.

(** The bytes of an element. *)
Definition is_elem (x : list Z) : Prop :=
  length x = Z.to_nat size /\ Forall (fun b => in_u8 b) x.

Context
  (Hcompar : forall m a b,
    compar m a b = cmp (read_bytes_at (Z.to_nat size) a m) (read_bytes_at (Z.to_nat size) b m))
  (Hasym : forall x y, is_elem x -> is_elem y -> smaller x y -> smaller y x -> False)
  (Htrans : forall x y z, is_elem x -> is_elem y -> is_elem z ->
    ~ smaller y x -> ~ smaller z y -> ~ smaller z x).

Lemma elem_at_is_elem m k : ram_ok m -> is_elem (elem_at m k).
Proof. intros. split; [apply length_read_bytes_at|by apply read_bytes_bytes]. Qed.
Hint Resolve elem_at_is_elem : mboot.

Lemma compar_elems m i j :
  0 <= i < n -> 0 <= j < n ->
  compar m (slot base size i) (slot base size j) = cmp (elem_at m i) (elem_at m j).
Proof.
  intros. rewrite Hcompar. unfold elem_at. destruct (Z.eq_dec size 0) as [E|].
  - by rewrite E.
  - by rewrite !slot_eq by lia.
Qed.

(** The invariant of the partitioning loop at index [i], for the memory [m0] it
    started with and the pivot at [lo]. *)
Record partitioned (m0 : ram) (lo hi i last : Z) (m : ram) : Prop := {
  pt_range : lo <= last < i;
  pt_pivot : elem_at m lo = elem_at m0 lo;
  pt_left : forall k, lo < k <= last -> smaller (elem_at m k) (elem_at m lo);
  pt_right : forall k, last < k < i -> ~ smaller (elem_at m k) (elem_at m lo);
  pt_moved : rearranged lo hi m0 m;
}.

Lemma partition_loop_ok fuel : forall m0 lo hi i last m,
  0 <= lo -> hi < n -> i <= hi + 1 -> (Z.to_nat (hi + 1 - i) < fuel)%nat ->
  partitioned m0 lo hi i last m ->
  exists last' m', partition_loop fuel compar base lo hi size i last m = Ret last' m' /\
    last' <= hi /\ partitioned m0 lo hi (hi + 1) last' m'.
Proof.
  induction fuel as [|fuel IH]; intros m0 lo hi i last m Hlo Hhi Hi Hf Hp; [lia|].
  cbn [partition_loop]. pose proof (pt_range _ _ _ _ _ _ Hp) as Hr.
  destruct (Z.leb_spec i hi); cycle 1.
  { replace (hi + 1) with i by lia. exists last, m. split; [done|]. split; [lia|done]. }
  rewrite (bind_ret _ _ m (compar m (slot base size i) (slot base size lo) <? 0) m) by done.
  rewrite compar_elems by lia. destruct Hp as [_ Hpiv Hl Hrt Hmv]. case_z.
  - pose proof (ra_ok _ _ _ _ Hmv) as Hok. rewrite (u32_small (last + 1)), (u32_small (i + 1)) by lia.
    destruct (qsort_swap_ok (last + 1) i m Hok ltac:(lia) ltac:(lia)) as (m1 & E & Hok1 & Ho & Hk).
    rewrite (bind_ret _ _ _ tt m1) by exact E.
    assert (Hsame : forall k, 0 <= k < n -> k <> last + 1 -> k <> i -> elem_at m1 k = elem_at m k).
    { intros k Hkn H1 H2. rewrite Hk by done. f_equal. unfold transpose. repeat case_z; lia. }
    assert (Hlast : elem_at m1 (last + 1) = elem_at m i).
    { rewrite Hk by lia. f_equal. unfold transpose. by rewrite Z.eqb_refl. }
    assert (Hat : elem_at m1 i = elem_at m (last + 1)).
    { rewrite Hk by lia. f_equal. unfold transpose. repeat case_z; lia. }
    apply IH; try lia. split; [lia|by rewrite Hsame by lia| | |].
    + intros k Hkr. rewrite (Hsame lo) by lia. destruct (Z.eq_dec k (last + 1)) as [->|].
      * by rewrite Hlast.
      * rewrite Hsame by lia. apply Hl. lia.
    + intros k Hkr. rewrite (Hsame lo) by lia. destruct (Z.eq_dec k i) as [->|].
      * rewrite Hat. apply Hrt. lia.
      * rewrite Hsame by lia. apply Hrt. lia.
    + eapply rearranged_trans; [exact Hmv|]. apply (swap_rearranged (last + 1) i); (done || lia).
  - rewrite (u32_small (i + 1)) by lia. apply IH; try lia. split; [lia|done|done| |done].
    intros k Hk. destruct (Z.eq_dec k i) as [->|]; [unfold smaller; lia|apply Hrt; lia].
Qed.

Definition sorted_range (lo hi : Z) (m : ram) : Prop :=
  forall a b, lo <= a < b -> b <= hi -> ~ smaller (elem_at m b) (elem_at m a).

(** The pivot in its place: smaller elements before it, none after it. *)
Record pivot_at (lo hi last : Z) (m : ram) : Prop := {
  pv_left : forall k, lo <= k <= last - 1 -> smaller (elem_at m k) (elem_at m last);
  pv_right : forall k, last + 1 <= k <= hi -> ~ smaller (elem_at m k) (elem_at m last);
}.

Lemma place_pivot m0 lo hi last m :
  0 <= lo -> hi < n -> last <= hi -> partitioned m0 lo hi (hi + 1) last m ->
  exists m', qsort_swap (slot base size lo) (slot base size last) size m = Ret tt m' /\
    rearranged lo hi m0 m' /\ pivot_at lo hi last m'.
Proof.
  intros Hlo Hhi Hl [Hr Hp Hleft Hright Hmv].
  destruct (qsort_swap_ok lo last m (ra_ok _ _ _ _ Hmv) ltac:(lia) ltac:(lia)) as (m' & E & Hok & Ho & Hk).
  exists m'. split; [exact E|]. split.
  { eapply rearranged_trans; [exact Hmv|]. apply (swap_rearranged lo last); (done || lia). }
  assert (Hpiv : elem_at m' last = elem_at m lo).
  { rewrite Hk by lia. f_equal. unfold transpose. repeat case_z; lia. }
  split; intros k Hkr; rewrite Hpiv, Hk by lia; unfold transpose.
  - destruct (Z.eqb_spec k lo); [apply Hleft; lia|]. case_z; [lia|]. apply Hleft. lia.
  - repeat (case_z; [lia|]). apply Hright. lia.
Qed.

(** Sorting one side of the pivot leaves it a pivot. *)
Lemma pivot_at_left lo hi last m m' :
  0 <= lo -> lo <= last <= hi -> hi < n ->
  rearranged lo (last - 1) m m' -> pivot_at lo hi last m -> pivot_at lo hi last m'.
Proof.
  intros Hlo Hl Hhi Hr [HL HR]. pose proof (ra_others _ _ _ _ Hr) as Ho. split.
  - intros k Hk. rewrite (Ho last) by lia.
    by apply (rearranged_forall (fun x => smaller x (elem_at m last)) lo (last - 1) m).
  - intros k Hk. rewrite !Ho by lia. apply HR. lia.
Qed.

Lemma pivot_at_right lo hi last m m' :
  0 <= lo -> lo <= last <= hi -> hi < n ->
  rearranged (last + 1) hi m m' -> pivot_at lo hi last m -> pivot_at lo hi last m'.
Proof.
  intros Hlo Hl Hhi Hr [HL HR]. pose proof (ra_others _ _ _ _ Hr) as Ho. split.
  - intros k Hk. rewrite !Ho by lia. apply HL. lia.
  - intros k Hk. rewrite (Ho last) by lia.
    by apply (rearranged_forall (fun x => ~ smaller x (elem_at m last)) (last + 1) hi m).
Qed.

Lemma sorted_around_pivot lo hi last m :
  ram_ok m -> lo <= last <= hi -> pivot_at lo hi last m ->
  sorted_range lo (last - 1) m -> sorted_range (last + 1) hi m -> sorted_range lo hi m.
Proof.
  intros Hok Hl [HL HR] SL SR a b Hab Hb.
  assert (Hleft : forall k, lo <= k <= last -> ~ smaller (elem_at m last) (elem_at m k)).
  { intros k Hk Hs. destruct (Z.eq_dec k last) as [->|].
    - by apply (Hasym (elem_at m last) (elem_at m last)); auto with mboot.
    - apply (Hasym (elem_at m k) (elem_at m last)); auto with mboot. apply HL. lia. }
  destruct (Z.le_gt_cases b (last - 1)); [apply SL; lia|].
  destruct (Z.le_gt_cases (last + 1) a); [apply SR; lia|].
  destruct (Z.eq_dec b last) as [->|]; [apply Hleft; lia|].
  apply (Htrans _ (elem_at m last)); auto with mboot; [apply Hleft; lia|apply HR; lia].
Qed.

Lemma sorted_rearranged_other lo hi lo' hi' m m' :
  0 <= lo -> hi < n -> hi < lo' \/ hi' < lo ->
  rearranged lo' hi' m m' -> sorted_range lo hi m -> sorted_range lo hi m'.
Proof.
  intros Hlo Hhi Hd Hr Hs a b Hab Hb. rewrite !(ra_others _ _ _ _ Hr) by lia. by apply Hs.
Qed.

Lemma qsort_inner_ok fuel : forall lo hi m,
  0 <= lo <= hi + 1 -> hi < n -> (Z.to_nat (hi - lo) < fuel)%nat -> ram_ok m ->
  exists m', qsort_inner fuel compar base lo hi size m = Ret tt m' /\
    rearranged lo hi m m' /\ sorted_range lo hi m'.
Proof.
  induction fuel as [|fuel IH]; intros lo hi m Hlo Hhi Hf Hok; [lia|]. cbn [qsort_inner].
  destruct (Z.leb_spec hi lo).
  { exists m. split; [done|]. split; [by apply rearranged_refl|]. intros a b Hab Hb. lia. }
  set (mid := u32 (lo + hi) / 2).
  assert (Hmid : lo <= mid <= hi) by (unfold mid; usimp; zlia).
  destruct (qsort_swap_ok lo mid m Hok ltac:(lia) ltac:(lia)) as (m1 & E1 & Hok1 & Ho1 & Hk1).
  rewrite (bind_ret _ _ _ tt m1) by exact E1.
  assert (R1 : rearranged lo hi m m1) by (apply (swap_rearranged lo mid); (done || lia)).
  destruct (partition_loop_ok (S (Z.to_nat (hi - lo))) m1 lo hi (u32 (lo + 1)) lo m1)
    as (last & m2 & E2 & Hlast & P2); [lia|lia|usimp; lia|usimp; lia| |].
  { usimp. split; [lia|done|intros; lia|intros; lia|by apply rearranged_refl]. }
  rewrite (bind_ret _ _ _ last m2) by exact E2. pose proof (pt_range _ _ _ _ _ _ P2) as Hrg.
  destruct (place_pivot m1 lo hi last m2) as (m3 & E3 & R3 & V3); [lia..|done|].
  rewrite (bind_ret _ _ _ tt m3) by exact E3.
  assert (Left : exists m4, (if 0 <? last then qsort_inner fuel compar base lo (u32 (last - 1)) size else mret tt) m3
      = Ret tt m4 /\ rearranged lo (last - 1) m3 m4 /\ sorted_range lo (last - 1) m4).
  { destruct (Z.ltb_spec 0 last).
    - rewrite u32_small by lia. apply IH; [lia..|exact (ra_ok _ _ _ _ R3)].
    - exists m3. split; [done|]. split; [apply rearranged_refl, (ra_ok _ _ _ _ R3)|].
      intros a b Ha Hb. lia. }
  destruct Left as (m4 & E4 & R4 & S4). rewrite (bind_ret _ _ _ tt m4) by exact E4.
  rewrite u32_small by lia.
  destruct (IH (last + 1) hi m4) as (m5 & E5 & R5 & S5); [lia..|exact (ra_ok _ _ _ _ R4)|].
  exists m5. split; [exact E5|]. split.
  - apply (rearranged_trans _ _ _ m1); [done|]. apply (rearranged_trans _ _ _ m3); [done|].
    apply (rearranged_trans _ _ _ m4).
    + apply (rearranged_wider lo (last - 1)); (done || lia).
    + apply (rearranged_wider (last + 1) hi); (done || lia).
  - apply (sorted_around_pivot lo hi last); [exact (ra_ok _ _ _ _ R5)|lia| |  |done].
    + apply (pivot_at_right lo hi last m4); [lia..|done|]. by apply (pivot_at_left lo hi last m3); try lia.
    + apply (sorted_rearranged_other _ _ (last + 1) hi m4); (done || lia).
Qed.
End array.

(** What C asks of the comparison function: its answer is determined by the two
    elements, and "negative" is a strict weak order on them. *)
Record comparison (size : Z) (compar : ram -> Z -> Z -> Z) (cmp : list Z -> list Z -> Z) : Prop := {
  cm_reads : forall m a b,
    compar m a b = cmp (read_bytes_at (Z.to_nat size) a m) (read_bytes_at (Z.to_nat size) b m);
  cm_asym : forall x y, is_elem size x -> is_elem size y -> cmp x y < 0 -> cmp y x < 0 -> False;
  cm_trans : forall x y z, is_elem size x -> is_elem size y -> is_elem size z ->
    ~ cmp y x < 0 -> ~ cmp z y < 0 -> ~ cmp z x < 0;
}.

(** C30: [qsort] sorts.  For a comparison that is a strict weak order and an array
    that lies in memory, it returns (the recursion is never deeper than the
    number of elements), the elements are a permutation of the elements before,
    no element is smaller than one before it, and no byte outside the array
    changes. *)
Theorem qsort_sorts fuel compar cmp base nmemb size m :
  comparison size compar cmp ->
  0 <= base -> 0 <= size -> 0 <= nmemb <= 2147483648 -> base + nmemb * size <= 4294967296 ->
  (Z.to_nat nmemb <= fuel)%nat -> ram_ok m ->
  exists m', qsort fuel compar base nmemb size m = Ret tt m' /\
    elems base size m' 0 nmemb ≡ₚ elems base size m 0 nmemb /\
    (forall a b, 0 <= a < b -> b < nmemb ->
      ~ cmp (elem_at base size m' b) (elem_at base size m' a) < 0) /\
    (forall x, x < base \/ base + nmemb * size <= x -> ld8 m' x = ld8 m x).
Proof.
  intros [Hc Ha Ht] Hb Hs Hn He Hf Hm. unfold qsort. destruct (Z.leb_spec nmemb 1).
  - exists m. split; [done|]. split; [done|]. split; [intros; lia|done].
  - rewrite u32_small by lia.
    destruct (qsort_inner_ok base nmemb size Hb Hs Hn He compar cmp Hc Ha Ht fuel 0 (nmemb - 1) m)
      as (m' & E & [_ Ho _ Hp] & Hsort); [lia..|done|].
    exists m'. split; [exact E|]. replace (nmemb - 1 - 0 + 1) with nmemb in Hp by lia.
    split; [done|]. split; [|done]. intros a b Hab Hbn. apply Hsort; lia.
Qed.

(** The bytes 3, 1, 2, 1 at address 16, compared as unsigned numbers. *)
Definition byte_compare (m : ram) (a b : Z) : Z := ld8 m a - ld8 m b.

Lemma qsort_sorts_witness :
  exists m', qsort 4 byte_compare 16 4 1 (write_bytes 16 [3; 1; 2; 1] ∅) = Ret tt m' /\
    read_bytes_at 4 16 m' = [1; 1; 2; 3] /\
    elems 16 1 m' 0 4 ≡ₚ [[3]; [1]; [2]; [1]].
Proof.
  destruct (qsort_sorts 4 byte_compare (fun x y => hd 0 x - hd 0 y) 16 4 1 (write_bytes 16 [3; 1; 2; 1] ∅))
    as (m' & E & P & _); try lia.
  - split.
    + intros m a b. reflexivity.
    + intros x y _ _. lia.
    + intros x y z _ _ _. lia.
  - cbn [write_bytes]. do 4 apply ram_ok_st8. intros a. split; [done|reflexivity].
  - exists m'. split; [exact E|]. split; [|exact P].
    vm_compute in E. injection E as <-. reflexivity.
Defined.
