(* ===== verification/LibcNum.v ===== *)
(** Numbers as text in the user C library (user/src/libc.c): [strtol], [strtoul],
    [atoi], and the digit printers of the printf family, on byte memory.

    [char] is signed, [int] and [long] have 32 bits, and signed arithmetic wraps
    (the theorems stay where it does not overflow). *)
From S2P Require Import Prelude LibcString.

(** [*p]. *)
Definition char_of (m : ram) (p : Z) : Z := i8 (ld8 m p).

(** * [strtol] and [strtoul] *)

(** [while (isspace( *nptr)) nptr++]. *)
Fixpoint skip_space (fuel : nat) (nptr : Z) : M ram Z :=
  match fuel with
  | O => out_of_fuel
  | S fuel' =>
      c ← gets (fun m => char_of m nptr);
      if isspace c then skip_space fuel' (u32 (nptr + 1)) else mret nptr
  end.

(** The base to use and where the digits start. *)
Definition number_base (nptr base : Z) : M ram (Z * Z) :=
  c ← gets (fun m => char_of m nptr);
  c1 ← gets (fun m => char_of m (u32 (nptr + 1)));
  if base =? 0 then
    if c =? 48 then
      if (c1 =? 120) || (c1 =? 88) then mret (u32 (nptr + 2), 16) else mret (u32 (nptr + 1), 8)
    else mret (nptr, 10)
  else if base =? 16 then
    if (c =? 48) && ((c1 =? 120) || (c1 =? 88)) then mret (u32 (nptr + 2), base) else mret (nptr, base)
  else mret (nptr, base).

Definition digit_value (c : Z) : option Z :=
  if (48 <=? c) && (c <=? 57) then Some (c - 48)
  else if (97 <=? c) && (c <=? 102) then Some (c - 97 + 10)
  else if (65 <=? c) && (c <=? 70) then Some (c - 65 + 10)
  else None.

(** The accumulation loop; [wrap] is the width and sign of [result]. *)
Fixpoint number_loop (fuel : nat) (wrap : Z -> Z) (base nptr result : Z) : M ram (Z * Z) :=
  match fuel with
  | O => out_of_fuel
  | S fuel' =>
      c ← gets (fun m => char_of m nptr);
      if c =? 0 then mret (nptr, result)
      else
        match digit_value c with
        | Some digit =>
            if base <=? digit then mret (nptr, result)
            else number_loop fuel' wrap base (u32 (nptr + 1)) (wrap (wrap (result * base) + digit))
        | None => mret (nptr, result)
        end
  end.

(** [if (endptr) *endptr = nptr]. *)
Definition set_endptr (endptr nptr : Z) : M ram unit :=
  if endptr =? 0 then mret tt else modify (st32 endptr nptr).

Definition strtol (fuel : nat) (nptr endptr base : Z) : M ram Z :=
  nptr ← skip_space fuel nptr;
  c ← gets (fun m => char_of m nptr);
  let sign := if c =? 45 then -1 else 1 in
  let nptr := if (c =? 45) || (c =? 43) then u32 (nptr + 1) else nptr in
  '(nptr, base) ← number_base nptr base;
  '(nptr, result) ← number_loop fuel i32 base nptr 0;
  set_endptr endptr nptr ;;
  mret (i32 (result * sign)).

Definition strtoul (fuel : nat) (nptr endptr base : Z) : M ram Z :=
  nptr ← skip_space fuel nptr;
  c ← gets (fun m => char_of m nptr);
  let nptr := if c =? 43 then u32 (nptr + 1) else nptr in
  '(nptr, base) ← number_base nptr base;
  '(nptr, result) ← number_loop fuel u32 base nptr 0;
  set_endptr endptr nptr ;;
  mret result.

Definition atoi (fuel : nat) (nptr : Z) : M ram Z := strtol fuel nptr 0 10.
Definition atol (fuel : nat) (nptr : Z) : M ram Z := strtol fuel nptr 0 10.

(** * Printing into a buffer

    [str] is the buffer, [max] its size and [pos] the position of the next
    byte; the printers return the new position. *)

Definition __print_char (str pos max c : Z) : M ram Z :=
  if negb (str =? 0) && (pos <? max) then modify (st8 (u32 (str + pos)) c) ;; mret (u32 (pos + 1))
  else mret pos.

(** Printing the bytes of a list: a string literal, or a digit buffer. *)
Fixpoint print_chars (str pos max : Z) (s : list Z) : M ram Z :=
  match s with
  | [] => mret pos
  | c :: s' => pos ← __print_char str pos max c; print_chars str pos max s'
  end.

(** [__print_str] of a string in memory. *)
Fixpoint __print_str (fuel : nat) (str pos max s : Z) : M ram Z :=
  match fuel with
  | O => out_of_fuel
  | S fuel' =>
      c ← gets (fun m => ld8 m s);
      if c =? 0 then mret pos
      else pos ← __print_char str pos max c; __print_str fuel' str pos max (u32 (s + 1))
  end.

Definition digit_char (uppercase : bool) (d : Z) : Z :=
  if d <? 10 then 48 + d else (if uppercase then 65 else 97) + d - 10.

(** The digits of [val], least significant first, as the loop fills its buffer;
    [room] is the number of bytes left in that buffer. *)
Fixpoint digit_loop (room : nat) (val base : Z) (uppercase : bool) : M ram (list Z) :=
  if val <=? 0 then mret []
  else
    match room with
    | O => halt
    | S room' =>
        buf ← digit_loop room' (val / base) base uppercase;
        mret (digit_char uppercase (val mod base) :: buf)
    end.

Definition digit_buffer (room : nat) (val base : Z) (uppercase : bool) : M ram (list Z) :=
  if val =? 0 then mret [48] else digit_loop room val base uppercase.

Definition __print_int (str pos max val base : Z) (uppercase : bool) : M ram Z :=
  let neg := (val <? 0) && (base =? 10) in
  pos ← (if neg then __print_char str pos max 45 else mret pos);
  let uval := if neg then u32 (i32 (- val)) else u32 val in
  buf ← digit_buffer 32 uval base uppercase;
  print_chars str pos max (rev buf).

Definition __print_unsigned (str pos max val base : Z) (uppercase : bool) : M ram Z :=
  buf ← digit_buffer 64 val base uppercase;
  print_chars str pos max (rev buf).

(** * Strings in memory *)

(** The string [s] with its terminator lies at address [a]. *)
Fixpoint str_at (m : ram) (a : Z) (s : list Z) : Prop :=
  match s with
  | [] => ld8 m a = 0
  | c :: s' => ld8 m a = c /\ str_at m (a + 1) s'
  end.

Lemma str_at_ext m m' s : forall a,
  (forall x, a <= x <= a + Z.of_nat (length s) -> ld8 m' x = ld8 m x) -> str_at m a s -> str_at m' a s.
Proof.
  induction s as [|c s IH]; intros a H; cbn [str_at length] in *.
  - intros E. by rewrite H by lia.
  - intros [E Hs]. split; [by rewrite H by lia|]. apply IH; [|done]. intros x Hx. apply H. lia.
Qed.

Lemma str_at_write s : forall a m, Forall (fun c => in_u8 c) s -> str_at (write_bytes a (s ++ [0]) m) a s.
Proof.
  induction s as [|c s IH]; intros a m Hs; cbn [app write_bytes str_at].
  - rewrite ld8_st8, Z.eqb_refl. done.
  - inversion Hs; subst. split; [|by apply IH].
    rewrite ld8_write_bytes_other by lia. rewrite ld8_st8, Z.eqb_refl. by apply u8_small.
Qed.

(** * What the printers write *)

Lemma write_bytes_app s1 : forall a s2 m,
  write_bytes a (s1 ++ s2) m = write_bytes (a + Z.of_nat (length s1)) s2 (write_bytes a s1 m).
Proof.
  induction s1 as [|c s1 IH]; intros a s2 m; cbn [app write_bytes length]; [by rewrite Z.add_0_r|].
  rewrite IH. f_equal. lia.
Qed.

(** The position after printing [s], and the memory. *)
Definition printed_pos (pos max : Z) (s : list Z) : Z := Z.min (pos + Z.of_nat (length s)) max.
Definition printed (str pos max : Z) (s : list Z) (m : ram) : ram :=
  write_bytes (str + pos) (take (Z.to_nat (max - pos)) s) m.

Lemma printed_app str max s1 : forall pos s2 m,
  0 <= pos <= max ->
  printed str pos max (s1 ++ s2) m = printed str (printed_pos pos max s1) max s2 (printed str pos max s1 m).
Proof.
  intros pos s2 m Hp. unfold printed, printed_pos. rewrite take_app, write_bytes_app, length_take.
  destruct (Z.le_gt_cases (pos + Z.of_nat (length s1)) max).
  - rewrite Z.min_l by lia. f_equal; [lia|]. f_equal. lia.
  - rewrite Z.min_r, Z.sub_diag by lia.
    replace (Z.to_nat (max - pos) - length s1)%nat with 0%nat by lia. done.
Qed.

Lemma printed_cons str pos max c s m :
  0 <= pos <= max ->
  printed str pos max (c :: s) m = printed str (printed_pos pos max [c]) max s (printed str pos max [c] m).
Proof. exact (printed_app str max [c] pos s m). Qed.

Lemma printed_outside str pos max s m x :
  0 <= pos <= max -> x < str + pos \/ str + max <= x -> ld8 (printed str pos max s m) x = ld8 m x.
Proof. intros Hp Hx. apply ld8_write_bytes_other. rewrite length_take. lia. Qed.

Lemma print_char_ok str pos max c m :
  0 < str -> str + max <= 4294967296 -> 0 <= pos <= max ->
  __print_char str pos max c m = Ret (printed_pos pos max [c]) (printed str pos max [c] m).
Proof.
  intros Hs Hm Hp. unfold __print_char, printed, printed_pos. cbn [length].
  destruct (Z.eqb_spec str 0); [lia|]. simpl negb. destruct (Z.ltb_spec pos max); simpl.
  - replace (Z.to_nat (max - pos)) with (S (Z.to_nat (max - pos - 1))) by lia.
    rewrite Z.min_l by lia. cbn [take]. rewrite firstn_nil. cbn [write_bytes].
    unfold mbind, M_bind, modify, mret, M_ret. by rewrite !u32_small by lia.
  - rewrite Z.min_r by lia. replace (Z.to_nat (max - pos)) with 0%nat by lia. cbn [take write_bytes].
    unfold mret, M_ret. by replace pos with max by lia.
Qed.

Lemma printed_pos_bounds pos max s : 0 <= pos <= max -> 0 <= printed_pos pos max s <= max.
Proof. unfold printed_pos. lia. Qed.

Lemma printed_pos_cons pos max c s :
  printed_pos (printed_pos pos max [c]) max s = printed_pos pos max (c :: s) \/ max < pos.
Proof. unfold printed_pos. cbn [length]. lia. Qed.

Lemma print_chars_ok str max s : forall pos m,
  0 < str -> str + max <= 4294967296 -> 0 <= pos <= max ->
  print_chars str pos max s m = Ret (printed_pos pos max s) (printed str pos max s m).
Proof.
  induction s as [|c s IH]; intros pos m Hs Hm Hp; cbn [print_chars].
  - unfold printed_pos, printed. rewrite firstn_nil. simpl length. by rewrite Z.add_0_r, Z.min_l by lia.
  - rewrite (bind_ret _ _ _ _ _ (print_char_ok str pos max c m Hs Hm Hp)).
    pose proof (printed_pos_bounds pos max [c] Hp). rewrite IH by done.
    rewrite (printed_cons str pos max c s) by done. destruct (printed_pos_cons pos max c s) as [->|]; [done|lia].
Qed.

(** A string in memory that does not meet the buffer. *)
Definition apart (a n b k : Z) : Prop := a + n <= b \/ b + k <= a.

Lemma print_str_ok s : forall fuel str pos max a m,
  0 < str -> str + max <= 4294967296 -> 0 <= pos <= max ->
  text s -> str_at m a s -> 0 <= a -> a + Z.of_nat (length s) < 4294967296 ->
  apart a (Z.of_nat (length s) + 1) str max -> (length s < fuel)%nat ->
  __print_str fuel str pos max a m = Ret (printed_pos pos max s) (printed str pos max s m).
Proof.
  induction s as [|c s IH]; intros fuel str pos max a m Hs Hm Hp Ht Hat Ha Hb Hap Hf;
    (destruct fuel as [|fuel]; [lia|]); cbn [__print_str length] in *; cbn [str_at] in Hat.
  - rewrite (bind_ret _ _ _ 0 m) by (unfold gets; by rewrite Hat). unfold printed_pos, printed.
    rewrite firstn_nil. simpl length. by rewrite Z.add_0_r, Z.min_l by lia.
  - destruct Hat as [Hc Hat]. inversion Ht; subst.
    rewrite (bind_ret _ _ _ (ld8 m a) m) by done. destruct (Z.eqb_spec (ld8 m a) 0); [lia|].
    rewrite (bind_ret _ _ _ _ _ (print_char_ok str pos max (ld8 m a) m Hs Hm Hp)).
    pose proof (printed_pos_bounds pos max [ld8 m a] Hp). unfold apart in *. rewrite u32_small by lia.
    rewrite IH; try done; try lia.
    + rewrite <- printed_cons by done. destruct (printed_pos_cons pos max (ld8 m a) s) as [->|]; [done|lia].
    + eapply str_at_ext; [|exact Hat]. intros x Hx. apply printed_outside; lia.
Qed.

(** * Numerals *)

(** The number a list of digits denotes, most significant digit first. *)
Definition num_value (base : Z) (ds : list Z) (acc : Z) : Z := fold_left (fun a d => a * base + d) ds acc.

(** [ds] is the numeral of [v]: digits of the base, without a leading zero. *)
Record numeral (base v : Z) (ds : list Z) : Prop := {
  nm_digits : Forall (fun d => 0 <= d < base) ds;
  nm_value : num_value base ds 0 = v;
  nm_lead : exists d ds', ds = d :: ds' /\ (d = 0 -> ds' = []);
}.

(** The digits of a positive number, least significant first. *)
Fixpoint low_digits (room : nat) (base v : Z) : list Z :=
  match room with
  | O => []
  | S room' => if v <=? 0 then [] else v mod base :: low_digits room' base (v / base)
  end.

(** The numeral of a 32-bit number. *)
Definition digits_of (base v : Z) : list Z := if v =? 0 then [0] else rev (low_digits 32 base v).

Lemma low_digits_value base room : forall v,
  2 <= base -> 0 <= v < base ^ Z.of_nat room ->
  num_value base (rev (low_digits room base v)) 0 = v.
Proof.
  induction room as [|room IH]; intros v Hb Hv; cbn [low_digits].
  - change (base ^ Z.of_nat 0) with 1 in Hv. simpl. lia.
  - destruct (Z.leb_spec v 0); [simpl; lia|]. cbn [rev]. unfold num_value in *. rewrite fold_left_app.
    rewrite IH; [cbn [fold_left]; pose proof (Z.div_mod v base); lia|done|].
    rewrite Nat2Z.inj_succ, Z.pow_succ_r in Hv by lia.
    split; [apply Z.div_pos; lia|apply Z.div_lt_upper_bound; lia].
Qed.

Lemma low_digits_range base room : forall v,
  2 <= base -> Forall (fun d => 0 <= d < base) (low_digits room base v).
Proof.
  induction room as [|room IH]; intros v Hb; cbn [low_digits]; [constructor|].
  case_z; constructor; [apply Z.mod_pos_bound; lia|by apply IH].
Qed.

(** The most significant digit is not 0. *)
Lemma low_digits_lead base room : forall v,
  2 <= base -> 0 < v < base ^ Z.of_nat room ->
  exists d ds, rev (low_digits room base v) = d :: ds /\ d <> 0.
Proof.
  induction room as [|room IH]; intros v Hb Hv; cbn [low_digits].
  - change (base ^ Z.of_nat 0) with 1 in Hv. lia.
  - destruct (Z.leb_spec v 0); [lia|]. cbn [rev]. destruct (Z.lt_ge_cases v base).
    + rewrite (Z.div_small v), Z.mod_small by lia. destruct room; simpl; exists v, []; (split; [done|lia]).
    + destruct (IH (v / base)) as (d & ds & -> & Hd); [done| |by exists d, (ds ++ [v mod base])].
      rewrite Nat2Z.inj_succ, Z.pow_succ_r in Hv by lia.
      split; [apply Z.div_str_pos; lia|apply Z.div_lt_upper_bound; lia].
Qed.

Lemma pow32_bound base : 2 <= base -> 4294967296 <= base ^ Z.of_nat 32.
Proof. intros. change 4294967296 with (2 ^ Z.of_nat 32). apply Z.pow_le_mono_l. lia. Qed.

Lemma digits_of_numeral base v : 2 <= base -> in_u32 v -> numeral base v (digits_of base v).
Proof.
  intros Hb Hv. pose proof (pow32_bound base Hb). unfold digits_of. destruct (Z.eqb_spec v 0) as [->|].
  - split; [constructor; [lia|constructor]|done|]. by exists 0, [].
  - split.
    + apply Forall_rev. by apply low_digits_range.
    + apply low_digits_value; lia.
    + destruct (low_digits_lead base 32 v) as (d & ds & -> & Hd); [lia..|]. by exists d, ds.
Qed.

Lemma digit_loop_ok base up room : forall v m,
  2 <= base -> 0 <= v < base ^ Z.of_nat room ->
  digit_loop room v base up m = Ret (map (digit_char up) (low_digits room base v)) m.
Proof.
  induction room as [|room IH]; intros v m Hb Hv; cbn [digit_loop low_digits].
  - change (base ^ Z.of_nat 0) with 1 in Hv. destruct (Z.leb_spec v 0); [done|lia].
  - destruct (Z.leb_spec v 0); [done|]. rewrite Nat2Z.inj_succ, Z.pow_succ_r in Hv by lia.
    erewrite bind_ret; [|apply IH; [done|]].
    + done.
    + split; [apply Z.div_pos; lia|apply Z.div_lt_upper_bound; lia].
Qed.

(** The digit buffer holds 32 digits and is always large enough. *)
Lemma low_digits_more base r1 : forall r2 v,
  2 <= base -> 0 <= v < base ^ Z.of_nat r1 -> (r1 <= r2)%nat -> low_digits r2 base v = low_digits r1 base v.
Proof.
  induction r1 as [|r1 IH]; intros r2 v Hb Hv Hr.
  - change (base ^ Z.of_nat 0) with 1 in Hv. destruct r2; [done|]. cbn [low_digits]. case_z; [done|lia].
  - destruct r2 as [|r2]; [lia|]. cbn [low_digits]. case_z; [done|]. f_equal. apply IH; [done| |lia].
    rewrite Nat2Z.inj_succ, Z.pow_succ_r in Hv by lia.
    split; [apply Z.div_pos; lia|apply Z.div_lt_upper_bound; lia].
Qed.

Lemma digit_buffer_ok base up room v m :
  2 <= base -> in_u32 v -> (32 <= room)%nat ->
  exists buf, digit_buffer room v base up m = Ret buf m /\ rev buf = map (digit_char up) (digits_of base v).
Proof.
  intros Hb Hv Hr. pose proof (pow32_bound base Hb). unfold digit_buffer, digits_of.
  destruct (Z.eqb_spec v 0) as [->|]; [by eexists|].
  exists (map (digit_char up) (low_digits 32 base v)). rewrite map_rev. split; [|done].
  rewrite digit_loop_ok, (low_digits_more base 32) by (lia || (split; [lia|];
    apply Z.lt_le_trans with (base ^ Z.of_nat 32); [lia|apply Z.pow_le_mono_r; lia])). done.
Qed.

(** The text of a number. *)
Definition unsigned_text (base : Z) (up : bool) (v : Z) : list Z := map (digit_char up) (digits_of base v).
Definition int_text (v : Z) : list Z :=
  if v <? 0 then 45 :: unsigned_text 10 false (- v) else unsigned_text 10 false v.

Lemma print_unsigned_ok str pos max v base up m :
  0 < str -> str + max <= 4294967296 -> 0 <= pos <= max -> 2 <= base -> in_u32 v ->
  __print_unsigned str pos max v base up m
  = Ret (printed_pos pos max (unsigned_text base up v)) (printed str pos max (unsigned_text base up v) m).
Proof.
  intros Hs Hm Hp Hb Hv. unfold __print_unsigned.
  destruct (digit_buffer_ok base up 64 v m Hb Hv ltac:(lia)) as (buf & E & Hr).
  rewrite (bind_ret _ _ _ _ _ E), Hr. by apply print_chars_ok.
Qed.

Lemma print_int_ok str pos max v m :
  0 < str -> str + max <= 4294967296 -> 0 <= pos <= max -> -2147483648 < v < 2147483648 ->
  __print_int str pos max v 10 false m
  = Ret (printed_pos pos max (int_text v)) (printed str pos max (int_text v) m).
Proof.
  intros Hs Hm Hp Hv. unfold __print_int, int_text. rewrite andb_true_r. destruct (Z.ltb_spec v 0).
  - rewrite (bind_ret _ _ _ _ _ (print_char_ok str pos max 45 m Hs Hm Hp)).
    assert (E : u32 (i32 (- v)) = - v).
    { unfold i32. rewrite (u32_small (- v)) by lia. case_z; [|lia]. apply u32_small. lia. }
    rewrite E. destruct (digit_buffer_ok 10 false 32 (- v) (printed str pos max [45] m))
      as (buf & E2 & Hr); [lia..|].
    rewrite (bind_ret _ _ _ _ _ E2), Hr. fold (unsigned_text 10 false (- v)).
    pose proof (printed_pos_bounds pos max [45] Hp).
    rewrite print_chars_ok by done. rewrite (printed_cons str pos max 45 (unsigned_text 10 false (- v))) by done.
    destruct (printed_pos_cons pos max 45 (unsigned_text 10 false (- v))) as [->|]; [done|lia].
  - rewrite (bind_ret _ _ m pos m) by done. rewrite u32_small by lia.
    destruct (digit_buffer_ok 10 false 32 v m) as (buf & E2 & Hr); [lia..|].
    rewrite (bind_ret _ _ _ _ _ E2), Hr. by apply print_chars_ok.
Qed.

(** * Reading a numeral back *)

Lemma digit_char_range up d : 0 <= d < 16 -> 48 <= digit_char up d < 128.
Proof. intros. unfold digit_char. destruct up; case_z; lia. Qed.

Lemma digit_value_char up d : 0 <= d < 16 -> digit_value (digit_char up d) = Some d.
Proof.
  intros Hd. unfold digit_value, digit_char. destruct up; case_z; simpl;
    repeat (case_z; simpl; try lia); f_equal; lia.
Qed.

Lemma char_of_small m p : 0 <= ld8 m p < 128 -> char_of m p = ld8 m p.
Proof. intros H. unfold char_of, i8. rewrite u8_small by lia. case_z; lia. Qed.

Lemma i32_small x : -2147483648 <= x < 2147483648 -> i32 x = x.
Proof.
  intros Hx. unfold i32. destruct (Z.ltb_spec x 0).
  - replace (u32 x) with (x + 4294967296); [case_z; lia|]. unfold u32. apply Z.mod_unique with (-1); lia.
  - rewrite u32_small by lia. case_z; lia.
Qed.

Lemma num_value_mono base ds : forall acc,
  1 <= base -> 0 <= acc -> Forall (fun d => 0 <= d < base) ds -> acc <= num_value base ds acc.
Proof.
  induction ds as [|d ds IH]; intros acc Hb Ha Hd; cbn; [lia|]. inversion Hd; subst.
  assert (0 <= acc * (base - 1)) by nia. specialize (IH (acc * base + d) Hb ltac:(lia) ltac:(done)).
  unfold num_value in IH. lia.
Qed.

(** Digits followed by the terminator are accumulated to the number they denote,
    when it fits. *)
Lemma number_loop_ok base up ds : forall fuel nptr acc m,
  2 <= base <= 16 -> Forall (fun d => 0 <= d < base) ds ->
  str_at m nptr (map (digit_char up) ds) ->
  0 <= nptr -> nptr + Z.of_nat (length ds) < 4294967296 ->
  0 <= acc -> num_value base ds acc < 2147483648 -> (length ds < fuel)%nat ->
  number_loop fuel i32 base nptr acc m = Ret (nptr + Z.of_nat (length ds), num_value base ds acc) m.
Proof.
  induction ds as [|d ds IH]; intros fuel nptr acc m Hb Hd Hat Hn He Ha Hv Hf;
    (destruct fuel as [|fuel]; [cbn [length] in Hf; lia|]); cbn [number_loop map str_at length] in *.
  - rewrite (bind_ret _ _ m 0 m) by (unfold gets, char_of; by rewrite Hat). by rewrite Z.add_0_r.
  - destruct Hat as [Hc Hat]. inversion Hd; subst.
    pose proof (digit_char_range up d ltac:(lia)) as Hr.
    rewrite (bind_ret _ _ m (digit_char up d) m) by (unfold gets; rewrite char_of_small by lia; by rewrite Hc).
    destruct (Z.eqb_spec (digit_char up d) 0); [lia|]. rewrite digit_value_char by lia.
    destruct (Z.leb_spec base d); [lia|].
    change (num_value base (d :: ds) acc) with (num_value base ds (acc * base + d)) in *.
    assert (0 <= acc * base) by nia.
    pose proof (num_value_mono base ds (acc * base + d) ltac:(lia) ltac:(lia) ltac:(done)).
    rewrite u32_small, !i32_small by (rewrite ?i32_small; lia).
    rewrite IH by (done || lia). f_equal. f_equal. lia.
Qed.

Lemma skip_space_none fuel nptr m c :
  (0 < fuel)%nat -> char_of m nptr = c -> isspace c = false -> skip_space fuel nptr m = Ret nptr m.
Proof.
  intros Hf Hc Hs. destruct fuel; [lia|]. cbn [skip_space].
  rewrite (bind_ret _ _ m c m) by (unfold gets; by rewrite Hc). by rewrite Hs.
Qed.

Lemma str_at_head m a s c s' : str_at m a s -> s = c :: s' -> ld8 m a = c /\ str_at m (a + 1) s'.
Proof. intros H ->. exact H. Qed.

(** [strtol] in base 10 reads back the decimal text of an [int]. *)
Lemma strtol_int_text fuel nptr v m :
  -2147483648 < v < 2147483648 -> str_at m nptr (int_text v) ->
  0 <= nptr -> nptr + Z.of_nat (length (int_text v)) < 4294967296 ->
  (length (int_text v) < fuel)%nat ->
  strtol fuel nptr 0 10 m = Ret v m.
Proof.
  intros Hv Hat Hn He Hf.
  pose proof (digits_of_numeral 10 (Z.abs v) ltac:(lia) ltac:(lia)) as [Hd Hval (d & ds & Eds & _)].
  assert (Hd0 : 0 <= d < 10) by (rewrite Eds in Hd; by inversion Hd).
  pose proof (digit_char_range false d ltac:(lia)) as Hr.
  assert (Hdc : digit_char false d = 48 + d) by (unfold digit_char; case_z; lia).
  unfold strtol, int_text in *. destruct (Z.ltb_spec v 0).
  - replace (- v) with (Z.abs v) in * by lia. cbn [str_at length] in *. destruct Hat as [Hc Hat].
    assert (Ec : char_of m nptr = 45) by (rewrite char_of_small; lia).
    rewrite (bind_ret _ _ _ _ _ (skip_space_none fuel nptr m 45 ltac:(lia) Ec eq_refl)).
    rewrite (bind_ret _ _ m 45 m) by (unfold gets; by rewrite Ec). rewrite (u32_small (nptr + 1)) by lia.
    unfold unsigned_text in *. rewrite length_map in *.
    rewrite (bind_ret _ _ m (nptr + 1, 10) m) by done.
    rewrite (bind_ret _ _ m (nptr + 1 + Z.of_nat (length (digits_of 10 (Z.abs v))), Z.abs v) m).
    + change (Ret (i32 (Z.abs v * -1)) m = Ret v m). f_equal. rewrite i32_small; lia.
    + rewrite (number_loop_ok 10 false (digits_of 10 (Z.abs v))) by (done || lia). by rewrite Hval.
  - replace (unsigned_text 10 false v) with (unsigned_text 10 false (Z.abs v)) in * by (f_equal; lia).
    unfold unsigned_text in *.
    destruct (str_at_head _ _ _ (digit_char false d) (map (digit_char false) ds) Hat) as [Hc _]; [by rewrite Eds|].
    assert (Ec : char_of m nptr = 48 + d) by (rewrite char_of_small; lia).
    assert (Hsp : isspace (48 + d) = false) by (unfold isspace; repeat case_z; simpl; lia || done).
    rewrite (bind_ret _ _ _ _ _ (skip_space_none fuel nptr m _ ltac:(lia) Ec Hsp)).
    rewrite (bind_ret _ _ m (48 + d) m) by (unfold gets; by rewrite Ec).
    destruct (Z.eqb_spec (48 + d) 45); [lia|]. destruct (Z.eqb_spec (48 + d) 43); [lia|]. cbn [orb].
    rewrite length_map in *.
    rewrite (bind_ret _ _ m (nptr, 10) m) by done.
    rewrite (bind_ret _ _ m (nptr + Z.of_nat (length (digits_of 10 (Z.abs v))), Z.abs v) m).
    + change (Ret (i32 (Z.abs v * 1)) m = Ret v m). f_equal. rewrite i32_small; lia.
    + rewrite (number_loop_ok 10 false (digits_of 10 (Z.abs v))) by (done || lia). by rewrite Hval.
Qed.

(** The numeral of a number below [base ^ k] has at most [k] digits. *)
Lemma low_digits_length base room : forall k v,
  2 <= base -> 0 <= v < base ^ Z.of_nat k -> (length (low_digits room base v) <= k)%nat.
Proof.
  induction room as [|room IH]; intros k v Hb Hv; cbn [low_digits length]; [lia|].
  case_z; cbn [length]; [lia|]. destruct k as [|k].
  - change (base ^ Z.of_nat 0) with 1 in Hv. lia.
  - rewrite Nat2Z.inj_succ, Z.pow_succ_r in Hv by lia.
    pose proof (IH k (v / base) Hb ltac:(split; [apply Z.div_pos; lia|apply Z.div_lt_upper_bound; lia])). lia.
Qed.

Lemma unsigned_text_bytes base up v :
  2 <= base <= 16 -> in_u32 v -> Forall (fun c => in_u8 c) (unsigned_text base up v).
Proof.
  intros Hb Hv. destruct (digits_of_numeral base v ltac:(lia) Hv) as [Hd _ _]. apply Forall_map.
  eapply Forall_impl; [exact Hd|]. intros d Hr. simpl in Hr. pose proof (digit_char_range up d ltac:(lia)). simpl. lia.
Qed.

Lemma int_text_length v : -2147483648 < v < 2147483648 -> (length (int_text v) <= 11)%nat.
Proof.
  intros Hv. assert (H : forall w, 0 <= w < 2147483648 -> (length (unsigned_text 10 false w) <= 10)%nat).
  { intros w Hw. unfold unsigned_text, digits_of. rewrite length_map. case_z; [simpl; lia|]. rewrite length_rev.
    apply low_digits_length; [lia|]. change (10 ^ Z.of_nat 10) with 10000000000. lia. }
  unfold int_text. case_z; cbn [length]; [pose proof (H (- v) ltac:(lia))|pose proof (H v ltac:(lia))]; lia.
Qed.

Lemma int_text_bytes v : -2147483648 < v < 2147483648 -> Forall (fun c => in_u8 c) (int_text v).
Proof.
  intros Hv. unfold int_text. case_z; [constructor; [lia|]|]; apply unsigned_text_bytes; lia.
Qed.
