(* ===== verification/Serial.v ===== *)
(** Serial log: stage2/dev/serial.c with inc/dev/serial.h. The UART is behind the
    ports; [Uart] states when it takes a byte. The arguments of [serial_printf] are a
    list of typed values; an argument of the wrong type, which is undefined in C,
    stops the computation. C leaves the precision in which [float] expressions are
    evaluated to the compiler: the arithmetic is the class [FloatEval]. *)
From S2P Require Import Prelude LibcString LibcNum Ports.

Definition SERIAL_PORT : Z := 1016.

Inductive log_level_t := LOG_INFO | LOG_WARN | LOG_ERROR | LOG_DEBUG.
Definition level_str (l : log_level_t) : list Z :=
  match l with
  | LOG_INFO => [73; 78; 70; 79] | LOG_WARN => [87; 65; 82; 78]
  | LOG_ERROR => [69; 82; 82; 79; 82] | LOG_DEBUG => [68; 69; 66; 85; 71]
  end.
(** [ANSI_GREEN], [ANSI_YELLOW], [ANSI_RED], [ANSI_BLUE]: ESC [ 3 n m. *)
Definition level_col (l : log_level_t) : list Z :=
  [27; 91; 51; (match l with LOG_INFO => 50 | LOG_WARN => 51 | LOG_ERROR => 49 | LOG_DEBUG => 52 end); 109].
Definition ANSI_RESET : list Z := [27; 91; 48; 109].

Inductive varg := AInt (v : Z) | AStr (s : option (list Z)) | ADouble (bits : Z).

(** What [serial_print_float] does with a [float]. *)
Class FloatEval (F : Type) := {
  f_of_double : Z -> F;          (* [(float)val], from the bits of the double *)
  f_is_neg : F -> bool;          (* [f < 0] *)
  f_neg : F -> F;                (* [-f] *)
  f_to_int : F -> Z;             (* [(int)f] *)
  f_sub_int : F -> Z -> F;       (* [f - n] *)
  f_mul10 : F -> F               (* [f * 10] *)
}.

Section Serial.
Context {P : Type} `{Ports P} {F : Type} `{FloatEval F}.
Abbreviation SM := (M P).
(** How often the status is read before a wait is given up; it never is in C. *)
Context (fuel : nat).

Definition init_serial : SM Z :=
  outb (SERIAL_PORT + 1) 0 ;;
  outb (SERIAL_PORT + 3) 128 ;;
  outb (SERIAL_PORT + 0) 3 ;;
  outb (SERIAL_PORT + 1) 0 ;;
  outb (SERIAL_PORT + 3) 3 ;;
  outb (SERIAL_PORT + 2) 199 ;;
  outb (SERIAL_PORT + 4) 11 ;;
  outb (SERIAL_PORT + 4) 30 ;;
  outb (SERIAL_PORT + 0) 174 ;;
  echo ← inb (SERIAL_PORT + 0);
  if negb (echo =? 174) then mret 1
  else outb (SERIAL_PORT + 4) 15 ;; mret 0.

Definition is_transmit_empty : SM bool := v ← inb (SERIAL_PORT + 5); mret (negb (Z.land v 32 =? 0)).
Definition is_data_ready : SM bool := v ← inb (SERIAL_PORT + 5); mret (negb (Z.land v 1 =? 0)).

Fixpoint wait_for (n : nat) (test : SM bool) : SM unit :=
  match n with
  | O => out_of_fuel
  | S n' => ok ← test; if ok : bool then mret tt else wait_for n' test
  end.

Definition write_serial (a : Z) : SM unit := wait_for fuel is_transmit_empty ;; outb SERIAL_PORT a.
Definition read_serial : SM Z := wait_for fuel is_data_ready ;; v ← inb SERIAL_PORT; mret (i8 v).
Definition serial_has_data : SM bool := is_data_ready.

(** A string, up to its terminator or the end of the literal. *)
Fixpoint serial_print_str (s : list Z) : SM unit :=
  match s with
  | [] => mret tt
  | c :: s' => if c =? 0 then mret tt else write_serial c ;; serial_print_str s'
  end.
Definition serial_print (s : list Z) : SM unit := serial_print_str s.

(** [while (width > 1) { write_serial(pad); width--; }]. *)
Fixpoint pad_loop (n : nat) (c : Z) : SM unit :=
  match n with O => mret tt | S n' => write_serial c ;; pad_loop n' c end.

(** [depth] bounds the recursion: a 32-bit value has at most 32 digits. *)
Fixpoint serial_print_uint (depth : nat) (value base width : Z) (pad_zero uppercase : bool) : SM unit :=
  match depth with
  | O => out_of_fuel
  | S d =>
      (if base <=? value then serial_print_uint d (value / base) base (if 0 <? width then width - 1 else 0) pad_zero uppercase
       else pad_loop (Z.to_nat (width - 1)) (if pad_zero then 48 else 32)) ;;
      write_serial (digit_char uppercase (value mod base))
  end.

Definition serial_print_int (value base width : Z) (pad_zero uppercase : bool) : SM unit :=
  if (base =? 10) && (value <? 0)
  then write_serial 45 ;; serial_print_uint 32 (u32 (- value)) base width pad_zero uppercase
  else serial_print_uint 32 (u32 value) base width pad_zero uppercase.

(** The loop over [i < precision]. *)
Fixpoint fraction_loop (n : nat) (frac_part : F) : SM unit :=
  match n with
  | O => mret tt
  | S n' =>
      let frac_part := f_mul10 frac_part in
      let digit := i32 (f_to_int frac_part) in
      write_serial (48 + digit) ;; fraction_loop n' (f_sub_int frac_part digit)
  end.

Definition serial_print_float (f : F) (width precision : Z) (pad_zero : bool) : SM unit :=
  (if f_is_neg f then write_serial 45 else mret tt) ;;
  let f := if f_is_neg f then f_neg f else f in
  let int_part := i32 (f_to_int f) in
  let frac_part := f_sub_int f int_part in
  serial_print_int int_part 10 width pad_zero false ;;
  write_serial 46 ;;
  fraction_loop (Z.to_nat precision) frac_part.

Definition message_preamble (module : list Z) (level : log_level_t) : SM unit :=
  serial_print_str (level_col level) ;;
  write_serial 91 ;;
  serial_print_str (level_str level) ;;
  write_serial 58 ;; write_serial 58 ;;
  serial_print_str module ;;
  write_serial 93 ;;
  serial_print_str ANSI_RESET ;;
  write_serial 32.

(** [while ( *p >= '0' && *p <= '9')], accumulating; what is left of the format. *)
Fixpoint digits_field (p : list Z) (acc : Z) : Z * list Z :=
  match p with
  | c :: p' => if (48 <=? c) && (c <=? 57) then digits_field p' (i32 (acc * 10 + (c - 48))) else (acc, p)
  | [] => (acc, [])
  end.

(** The flag, width and precision after a [%]. *)
Definition parse_directive (p : list Z) : bool * Z * Z * list Z :=
  let '(pad_zero, p) := match p with c :: p' => if c =? 48 then (true, p') else (false, p) | [] => (false, p) end in
  let '(width, p) := digits_field p 0 in
  let '(precision, p) := match p with c :: p' => if c =? 46 then digits_field p' 0 else (6, p) | [] => (6, p) end in
  (pad_zero, width, precision, p).

(** One conversion: the rest of the arguments. *)
Definition convert_arg (c : Z) (pad_zero : bool) (width precision : Z) (args : list varg) : SM (list varg) :=
  if c =? 99 then match args with AInt v :: r => write_serial v ;; mret r | _ => halt end
  else if c =? 115 then
    match args with AStr s :: r => serial_print_str (default [40; 110; 117; 108; 108; 41] s) ;; mret r | _ => halt end
  else if (c =? 100) || (c =? 105) then match args with AInt v :: r => serial_print_int (i32 v) 10 width pad_zero false ;; mret r | _ => halt end
  else if c =? 117 then match args with AInt v :: r => serial_print_uint 32 (u32 v) 10 width pad_zero false ;; mret r | _ => halt end
  else if c =? 120 then match args with AInt v :: r => serial_print_uint 32 (u32 v) 16 width pad_zero false ;; mret r | _ => halt end
  else if c =? 88 then match args with AInt v :: r => serial_print_uint 32 (u32 v) 16 width pad_zero true ;; mret r | _ => halt end
  else if c =? 102 then match args with ADouble v :: r => serial_print_float (f_of_double v) width precision pad_zero ;; mret r | _ => halt end
  else if c =? 37 then write_serial 37 ;; mret args
  else write_serial 37 ;; write_serial c ;; mret args.

(** The format is the string [fmt] with its terminator at the end of the list. A
    format that ends inside a directive makes the code step over the terminator;
    the model stops there, having printed the [%] and the terminator. *)
Fixpoint printf_loop (n : nat) (p : list Z) (args : list varg) : SM unit :=
  match n with
  | O => out_of_fuel
  | S n' =>
      match p with
      | [] => mret tt
      | c :: p' =>
          if negb (c =? 37) then write_serial c ;; printf_loop n' p' args
          else
            let '(pad_zero, width, precision, rest) := parse_directive p' in
            match rest with
            | [] => write_serial 37 ;; write_serial 0 ;; halt
            | conv :: rest' => args' ← convert_arg conv pad_zero width precision args; printf_loop n' rest' args'
            end
      end
  end.
Definition serial_printf (fmt : list Z) (args : list varg) : SM unit := printf_loop (S (length fmt)) fmt args.

(** [INFO], [WARN], [ERROR], [DEBUG]. *)
Definition log_line (level : log_level_t) (module fmt : list Z) (args : list varg) : SM unit :=
  message_preamble module level ;; serial_printf fmt args ;; write_serial 10.
End Serial.

(** * What reaches the line *)

(** A UART in normal operation: the transmitter is ready after at most [delay]
    looks at the line status, and then takes a byte. *)
Class Uart (P : Type) `{Ports P} (delay : nat) := {
  sent : P -> list Z;
  busy : P -> nat;
  busy_bound : forall p, (busy p <= delay)%nat;
  lsr_sent : forall p, sent (port_inb (SERIAL_PORT + 5) p).2 = sent p;
  lsr_busy : forall p, busy (port_inb (SERIAL_PORT + 5) p).2 = pred (busy p);
  lsr_ready : forall p, busy p = 0%nat -> Z.land (u8 (port_inb (SERIAL_PORT + 5) p).1) 32 <> 0;
  lsr_ready_only : forall p, Z.land (u8 (port_inb (SERIAL_PORT + 5) p).1) 32 <> 0 -> busy p = 0%nat;
  thr_sent : forall p v, busy p = 0%nat -> sent (port_outb SERIAL_PORT v p) = sent p ++ [v]
}.

Section Line.
Context {P : Type} `{Ports P} (delay fuel : nat) `{!Uart P delay} (Hfuel : (delay < fuel)%nat).
Context {F : Type} `{FloatEval F}.

Definition sends {A} (c : M P A) (Q : A -> list Z -> Prop) : Prop :=
  forall p, runs c p (fun a p' => exists t, Q a t /\ sent p' = sent p ++ t).
Abbreviation prints c t := (sends c (fun _ x => x = t)).

Lemma sends_bind {A B} (c : M P A) (f : A -> M P B) (R : A -> list Z -> Prop) (Q : B -> list Z -> Prop) : sends c R ->
  (forall a t1, R a t1 -> sends (f a) (fun b t2 => Q b (t1 ++ t2))) -> sends (c ≫= f) Q.
Proof.
  intros Hc Hf p. apply runs_bind. eapply runs_mono; [apply Hc|]. intros a p1 (t1 & R1 & E1). eapply runs_mono; [apply (Hf a t1 R1)|].
  intros b p2 (t2 & Q2 & E2). exists (t1 ++ t2). split; [done|]. by rewrite E2, E1, app_assoc.
Qed.
Lemma sends_ret {A} (a : A) (Q : A -> list Z -> Prop) : Q a [] -> sends (mret a) Q.
Proof. intros HQ p. apply runs_ret. exists []. by rewrite app_nil_r. Qed.
Lemma prints_seq {A B} (c : M P A) (c' : M P B) t1 t2 : prints c t1 -> prints c' t2 -> prints (c ≫= fun _ => c') (t1 ++ t2).
Proof. intros H1 H2. eapply sends_bind; [exact H1|]. intros a ? ->. intros p. eapply runs_mono; [apply H2|]. intros b p' (? & -> & E). eexists. split; [reflexivity|exact E]. Qed.
Lemma prints_eq {A} (c : M P A) t1 t2 : prints c t1 -> t1 = t2 -> prints c t2.
Proof. by intros ? <-. Qed.
(** A printer followed by a value. *)
Lemma prints_then {A} (c : M P unit) t (a : A) : prints c t -> sends (c ;; mret a) (fun x y => x = a /\ y = t).
Proof. intros Hc. eapply sends_bind; [exact Hc|]. intros _ ? ->. apply sends_ret. by rewrite app_nil_r. Qed.

Lemma wait_transmitter n : forall p, (busy p < n)%nat -> runs (wait_for n is_transmit_empty) p (fun _ p' => busy p' = 0%nat /\ sent p' = sent p).
Proof.
  induction n as [|n IH]; intros p Hn; [lia|]. cbn [wait_for]. apply runs_bind. unfold is_transmit_empty, inb. change (u16 (SERIAL_PORT + 5)) with (SERIAL_PORT + 5).
  pose proof (lsr_sent p) as E1. pose proof (lsr_busy p) as E2. pose proof (lsr_ready p) as E3. pose proof (lsr_ready_only p) as E4.
  destruct (port_inb (SERIAL_PORT + 5) p) as [v p1] eqn:Ep. simpl in *. apply runs_bind. exists (u8 v), p1. split; [by rewrite Ep|]. apply runs_ret.
  destruct (Z.eqb_spec (Z.land (u8 v) 32) 0) as [Ez|Ez]; cbn [negb].
  - destruct (busy p) as [|k]; [by destruct E3|]. eapply runs_mono; [apply IH; lia|]. intros _ p2 [? ?]. split; [done|congruence].
  - apply runs_ret. rewrite (E4 Ez) in E2. done.
Qed.

Lemma prints_byte c : prints (write_serial fuel c) [u8 c].
Proof.
  intros p. pose proof (busy_bound p). apply runs_bind. eapply runs_mono; [apply wait_transmitter; lia|]. intros [] p1 [B1 S1].
  apply runs_modify. change (u16 SERIAL_PORT) with SERIAL_PORT. exists [u8 c]. split; [done|]. by rewrite thr_sent, S1 by done.
Qed.
Lemma prints_char c : in_u8 c -> prints (write_serial fuel c) [c].
Proof. intros Hc. eapply prints_eq; [apply prints_byte|]. by rewrite u8_small. Qed.

(** Up to the terminator. *)
Fixpoint text_of (s : list Z) : list Z := match s with [] => [] | c :: s' => if c =? 0 then [] else c :: text_of s' end.
Lemma prints_str s : Forall (fun c => in_u8 c) s -> prints (serial_print_str fuel s) (text_of s).
Proof.
  induction 1 as [|c s Hc Hs IH]; cbn [serial_print_str text_of]; [by apply sends_ret|]. case_z; [by apply sends_ret|].
  apply (prints_seq _ _ [c]); [by apply prints_char|exact IH].
Qed.
Lemma prints_pad n c : in_u8 c -> prints (pad_loop fuel n c) (replicate n c).
Proof. intros Hc. induction n as [|n IH]; cbn [pad_loop replicate]; [by apply sends_ret|]. apply (prints_seq _ _ [c]); [by apply prints_char|exact IH]. Qed.

Lemma digits_of_step base v : 2 <= base -> in_u32 v -> base <= v -> digits_of base v = digits_of base (v / base) ++ [v mod base].
Proof.
  intros Hb Hv Hle. unfold digits_of. assert (1 <= v / base) by (apply Z.div_le_lower_bound; lia).
  rewrite (proj2 (Z.eqb_neq v 0)), (proj2 (Z.eqb_neq (v / base) 0)) by lia. change (low_digits 32 base v) with (if v <=? 0 then [] else v mod base :: low_digits 31 base (v / base)).
  case_z; [lia|]. cbn [rev]. rewrite (low_digits_more base 31 32); [done|done| |lia]. pose proof (pow32_bound base Hb) as Hp.
  rewrite (Nat2Z.inj_succ 31), Z.pow_succ_r in Hp by lia. split; [lia|]. apply Z.div_lt_upper_bound; lia.
Qed.
Lemma digits_of_small base v : 2 <= base -> 0 <= v < base -> digits_of base v = [v].
Proof.
  intros Hb Hv. unfold digits_of. destruct (Z.eqb_spec v 0) as [->|Hn]; [done|]. cbn [low_digits]. case_z; [lia|].
  rewrite Z.div_small, Z.mod_small by lia. reflexivity.
Qed.

Lemma digits_of_nonempty base v : 2 <= base -> in_u32 v -> (1 <= length (digits_of base v))%nat.
Proof. intros Hb Hv. destruct (digits_of_numeral base v Hb Hv) as [_ _ (d & ds & -> & _)]. simpl. lia. Qed.

(** A number, filled up on the left to [w] characters. *)
Definition padded (zero : bool) (w : Z) (t : list Z) : list Z := replicate (Z.to_nat (w - Z.of_nat (length t))) (if zero then 48 else 32) ++ t.

Lemma prints_uint base zero up : 2 <= base <= 16 -> forall d v w, 0 <= v < base ^ Z.of_nat d -> in_u32 v -> (0 < d)%nat ->
  prints (serial_print_uint fuel d v base w zero up) (padded zero w (unsigned_text base up v)).
Proof.
  intros Hb d. induction d as [|d IH]; intros v w Hd Hv Hpos; [lia|]. cbn [serial_print_uint].
  assert (in_u8 (digit_char up (v mod base))) as Hc by (pose proof (digit_char_range up (v mod base) ltac:(zlia)); lia).
  assert (in_u8 (if zero then 48 else 32)) as Hz by (destruct zero; lia).
  destruct (Z.leb_spec base v).
  - rewrite Nat2Z.inj_succ, Z.pow_succ_r in Hd by lia. assert (0 <= v / base < base ^ Z.of_nat d) as Hd' by (split; [apply Z.div_pos; lia|apply Z.div_lt_upper_bound; lia]).
    assert (1 <= v / base) by (apply Z.div_le_lower_bound; lia). assert (0 < d)%nat by (destruct d; [change (base ^ Z.of_nat 0) with 1 in Hd'; lia|lia]).
    assert (in_u32 (v / base)) as Hu by (split; [lia|]; apply Z.div_lt_upper_bound; nia).
    eapply prints_eq; [apply prints_seq; [by apply IH|by apply prints_char]|]. unfold padded, unsigned_text. rewrite (digits_of_step base v), map_app, length_app by lia.
    rewrite app_assoc. f_equal. f_equal. f_equal. cbn [map length]. rewrite !length_map. pose proof (digits_of_nonempty base (v / base) ltac:(lia) Hu). destruct (Z.ltb_spec 0 w); lia.
  - eapply prints_eq; [apply prints_seq; [by apply prints_pad|by apply prints_char]|]. unfold padded, unsigned_text. rewrite digits_of_small by lia.
    cbn [map length]. rewrite Z.mod_small by lia. done.
Qed.

Lemma prints_int zero v w : -2147483648 < v < 2147483648 ->
  prints (serial_print_int fuel v 10 w zero false) (if v <? 0 then 45 :: padded zero w (unsigned_text 10 false (- v)) else padded zero w (unsigned_text 10 false v)).
Proof.
  intros Hv. unfold serial_print_int. pose proof (pow32_bound 10 ltac:(lia)). cbn [andb]. change (10 =? 10) with true. cbn [andb]. case_z.
  - rewrite u32_small by lia. apply (prints_seq _ _ [45]); [by apply prints_char|apply prints_uint; lia].
  - rewrite u32_small by lia. apply prints_uint; lia.
Qed.
End Line.

(** * Formats *)

(** A format as the sequence of what it asks for. *)
Inductive conv := Conv_d | Conv_i | Conv_u | Conv_x | Conv_X.
Inductive item :=
  | Lit (c : Z)
  | Num (zero : bool) (width : Z) (k : conv) (v : Z)
  | Str (s : option (list Z))
  | Chr (c : Z)
  | Percent.

Definition conv_char (k : conv) : Z := match k with Conv_d => 100 | Conv_i => 105 | Conv_u => 117 | Conv_x => 120 | Conv_X => 88 end.
Definition item_format (i : item) : list Z :=
  match i with
  | Lit c => [c]
  | Num zero w k _ => 37 :: (if zero then [48] else []) ++ (if 0 <? w then unsigned_text 10 false w else []) ++ [conv_char k]
  | Str _ => [37; 115]
  | Chr _ => [37; 99]
  | Percent => [37; 37]
  end.
Definition item_args (i : item) : list varg :=
  match i with Num _ _ _ v => [AInt v] | Str s => [AStr s] | Chr c => [AInt c] | Lit _ | Percent => [] end.
Definition item_text (i : item) : list Z :=
  match i with
  | Lit c => [c]
  | Num zero w (Conv_d | Conv_i) v =>
      if v <? 0 then 45 :: padded zero w (unsigned_text 10 false (- v)) else padded zero w (unsigned_text 10 false v)
  | Num zero w Conv_u v => padded zero w (unsigned_text 10 false v)
  | Num zero w Conv_x v => padded zero w (unsigned_text 16 false v)
  | Num zero w Conv_X v => padded zero w (unsigned_text 16 true v)
  | Str s => text_of (default [40; 110; 117; 108; 108; 41] s)
  | Chr c => [u8 c]
  | Percent => [37]
  end.
Definition item_ok (i : item) : Prop :=
  match i with
  | Lit c => in_u8 c /\ c <> 0 /\ c <> 37
  | Num _ w k v => 0 <= w < 2147483648 /\ match k with Conv_d | Conv_i => -2147483648 < v < 2147483648 | _ => in_u32 v end
  | Str s => Forall (fun c => in_u8 c) (default [] s)
  | Chr _ | Percent => True
  end.
Definition format_of (l : list item) : list Z := flat_map item_format l.
Definition args_of (l : list item) : list varg := flat_map item_args l.
Definition items_text (l : list item) : list Z := flat_map item_text l.

Lemma digits_field_ok ds c rest : ~ (48 <= c <= 57) -> Forall (fun d => 0 <= d < 10) ds -> forall acc, 0 <= acc -> num_value 10 ds acc < 2147483648 ->
  digits_field (map (digit_char false) ds ++ c :: rest) acc = (num_value 10 ds acc, c :: rest).
Proof.
  intros Hc Hd. induction Hd as [|d ds Hd Hds IH]; intros acc Ha Hv; cbn [map app digits_field].
  - destruct ((48 <=? c) && (c <=? 57)) eqn:E; [|done]. apply andb_prop in E as [E1%Z.leb_le E2%Z.leb_le]. lia.
  - change (num_value 10 (d :: ds) acc) with (num_value 10 ds (acc * 10 + d)) in *.
    pose proof (num_value_mono 10 ds (acc * 10 + d) ltac:(lia) ltac:(lia) Hds).
    assert (digit_char false d = 48 + d) as -> by (unfold digit_char; case_z; lia).
    rewrite (proj2 (Z.leb_le 48 (48 + d))), (proj2 (Z.leb_le (48 + d) 57)) by lia. cbn [andb].
    replace (48 + d - 48) with d by lia. rewrite i32_small by lia. by apply IH; [lia|].
Qed.

Lemma width_field w c rest : 0 <= w < 2147483648 -> ~ (48 <= c <= 57) ->
  digits_field ((if 0 <? w then unsigned_text 10 false w else []) ++ c :: rest) 0 = (w, c :: rest).
Proof.
  intros Hw Hc. destruct (Z.ltb_spec 0 w).
  - destruct (digits_of_numeral 10 w) as [Hd Hval _]; [lia..|]. unfold unsigned_text. rewrite digits_field_ok by (done || lia). by rewrite Hval.
  - replace w with 0 by lia. by apply (digits_field_ok [] c rest).
Qed.

(** A width has no leading zero, so it is not taken for the flag. *)
Lemma width_lead w c rest : 0 <= w < 2147483648 -> ~ (48 <= c <= 57) ->
  exists d ds, (if 0 <? w then unsigned_text 10 false w else []) ++ c :: rest = d :: ds /\ d <> 48.
Proof.
  intros Hw Hc. destruct (Z.ltb_spec 0 w); [|exists c, rest; split; [done|lia]].
  pose proof (pow32_bound 10 ltac:(lia)). destruct (low_digits_lead 10 32 w ltac:(lia) ltac:(lia)) as (d & ds & E & Hd).
  unfold unsigned_text, digits_of. rewrite (proj2 (Z.eqb_neq w 0)), E by lia. exists (digit_char false d), (map (digit_char false) ds ++ c :: rest).
  split; [done|]. unfold digit_char. pose proof (low_digits_range 10 32 w ltac:(lia)) as Hr. apply Forall_rev in Hr. rewrite E in Hr. inversion Hr; subst. case_z; lia.
Qed.

Lemma parse_directive_ok (zero : bool) w c rest : 0 <= w < 2147483648 -> ~ (48 <= c <= 57) -> c <> 46 ->
  parse_directive ((if zero then [48] else []) ++ (if 0 <? w then unsigned_text 10 false w else []) ++ c :: rest) = (zero, w, 6, c :: rest).
Proof.
  intros Hw Hc H46. unfold parse_directive. destruct zero; cbn [app].
  - change (48 =? 48) with true. cbn iota. rewrite width_field by done. by rewrite (proj2 (Z.eqb_neq c 46)).
  - destruct (width_lead w c rest Hw Hc) as (d & ds & E & Hd). pose proof (width_field w c rest Hw Hc) as Hf. rewrite E in *.
    rewrite (proj2 (Z.eqb_neq d 48)) by done. rewrite Hf. by rewrite (proj2 (Z.eqb_neq c 46)).
Qed.

Section Render.
Context {P : Type} `{Ports P} {F : Type} `{FloatEval F} (delay fuel : nat) `{!Uart P delay} (Hfuel : (delay < fuel)%nat).
Abbreviation prints c t := (sends delay c (fun _ x => x = t)).

(** One conversion prints the text of its item and takes its arguments. *)
Lemma convert_num zero w k v args : item_ok (Num zero w k v) ->
  sends delay (convert_arg fuel (conv_char k) zero w 6 (AInt v :: args)) (fun r t => r = args /\ t = item_text (Num zero w k v)).
Proof.
  intros [Hw Hv]. unfold convert_arg. pose proof (pow32_bound 10 ltac:(lia)). pose proof (pow32_bound 16 ltac:(lia)).
  destruct k; cbn [conv_char item_text]; cbn -[serial_print_int serial_print_uint Z.mul]; apply prints_then; try rewrite i32_small by lia; try rewrite u32_small by lia;
    (by apply prints_int) || (apply prints_uint; (done || lia)).
Qed.

Lemma printf_directive n zero w c args args' rest t t' : 0 <= w < 2147483648 -> ~ (48 <= c <= 57) -> c <> 46 ->
  sends delay (convert_arg fuel c zero w 6 args) (fun r x => r = args' /\ x = t) -> prints (printf_loop fuel n rest args') t' ->
  prints (printf_loop fuel (S n) (37 :: (if zero then [48] else []) ++ (if 0 <? w then unsigned_text 10 false w else []) ++ c :: rest) args) (t ++ t').
Proof.
  intros Hw Hc H46 Hconv Hrest. cbn [printf_loop]. change (negb (37 =? 37)) with false. cbn iota. rewrite parse_directive_ok by done.
  eapply sends_bind; [exact Hconv|]. intros r x [-> ->]. intros p. eapply runs_mono; [apply Hrest|]. intros b p' (? & -> & E). eexists. split; [reflexivity|exact E].
Qed.
(** A directive without flag and width. *)
Lemma printf_plain n c args args' rest t t' : ~ (48 <= c <= 57) -> c <> 46 ->
  sends delay (convert_arg fuel c false 0 6 args) (fun r x => r = args' /\ x = t) -> prints (printf_loop fuel n rest args') t' ->
  prints (printf_loop fuel (S n) (37 :: c :: rest) args) (t ++ t').
Proof. intros. by apply (printf_directive n false 0 c args args' rest). Qed.

Lemma text_default s : Forall (fun c => in_u8 c) (default [] s) -> Forall (fun c => in_u8 c) (default [40; 110; 117; 108; 108; 41] s).
Proof. destruct s; [done|]. intros _. repeat constructor; lia. Qed.

Lemma printf_items l : forall n, (length (format_of l) < n)%nat -> Forall item_ok l ->
  prints (printf_loop fuel n (format_of l) (args_of l)) (items_text l).
Proof.
  induction l as [|i l IH]; intros n Hn Hok; (destruct n as [|n]; [simpl in Hn; lia|]); [by apply sends_ret|].
  apply Forall_cons in Hok as [Hi Hl]. unfold format_of, args_of, items_text in *. cbn [flat_map] in *. rewrite length_app in Hn.
  assert (0 < length (item_format i))%nat as Hpos by (destruct i; simpl; lia). specialize (IH n ltac:(lia) Hl).
  destruct i as [c|zero w k v|s|c|]; cbn [item_format item_args] in *.
  - destruct Hi as (Hc & _ & H37). cbn [printf_loop app]. rewrite (proj2 (Z.eqb_neq c 37)) by done. cbn [negb]. apply (prints_seq delay _ _ [c]); [by apply (prints_char delay)|exact IH].
  - cbn [app]. rewrite <- !app_assoc. cbn [app]. apply (printf_directive _ _ _ _ _ (flat_map item_args l)); [apply Hi|destruct k; simpl; lia|destruct k; simpl; lia| |done]. by apply convert_num.
  - apply (printf_plain _ 115 _ (flat_map item_args l)); [lia..| |done]. apply prints_then, prints_str; [done|by apply text_default].
  - apply (printf_plain _ 99 _ (flat_map item_args l)); [lia..| |done]. by apply prints_then, prints_byte.
  - apply (printf_plain _ 37 _ (flat_map item_args l)); [lia..| |done]. by apply prints_then, prints_char.
Qed.

Lemma preamble_prints module level : Forall (fun c => in_u8 c) module ->
  prints (message_preamble fuel module level) (level_col level ++ [91] ++ level_str level ++ [58; 58] ++ text_of module ++ [93] ++ ANSI_RESET ++ [32]).
Proof.
  intros Hm. unfold message_preamble.
  assert (forall c, in_u8 c -> prints (write_serial fuel c) [c]) as Hch by (intros; by apply (prints_char delay)).
  assert (prints (serial_print_str fuel (level_col level)) (level_col level)) as Hcol.
  { eapply prints_eq; [apply prints_str; [done|destruct level; repeat constructor; lia]|by destruct level]. }
  assert (prints (serial_print_str fuel (level_str level)) (level_str level)) as Hstr.
  { eapply prints_eq; [apply prints_str; [done|destruct level; repeat constructor; lia]|by destruct level]. }
  assert (prints (serial_print_str fuel ANSI_RESET) ANSI_RESET) as Hres.
  { eapply prints_eq; [apply prints_str; [done|repeat constructor; lia]|done]. }
  apply prints_seq; [done|]. apply prints_seq; [by apply Hch|]. apply prints_seq; [done|].
  change [58; 58] with ([58] ++ [58]). rewrite <- !app_assoc. do 2 (apply prints_seq; [by apply Hch|]).
  apply prints_seq; [by apply prints_str|]. apply prints_seq; [by apply Hch|]. apply prints_seq; [done|by apply Hch].
Qed.

(** C37: On a UART that is ready after at most [delay] looks at its status, a line of
    the kernel log is sent whole, and is the coloured prefix with the level and the
    module, the text the format and its arguments denote (literal characters, [%d],
    [%i], [%u], [%x], [%X] with a width filled with blanks or zeros, [%s], [%c] and
    [%%]), and a line feed. *)
Theorem log_line_renders level module l p : Forall (fun c => in_u8 c) module -> Forall item_ok l ->
  exists p', log_line fuel level module (format_of l) (args_of l) p = Ret tt p' /\
    sent p' = sent p ++ (level_col level ++ [91] ++ level_str level ++ [58; 58] ++ text_of module ++ [93] ++ ANSI_RESET ++ [32]) ++ items_text l ++ [10].
Proof.
  intros Hm Hl.
  assert (prints (log_line fuel level module (format_of l) (args_of l))
    ((level_col level ++ [91] ++ level_str level ++ [58; 58] ++ text_of module ++ [93] ++ ANSI_RESET ++ [32]) ++ items_text l ++ [10])) as Hp.
  { unfold log_line, serial_printf. apply prints_seq; [by apply preamble_prints|]. apply prints_seq; [apply printf_items; [lia|done]|by apply (prints_char delay)]. }
  destruct (Hp p) as ([] & p' & E & ? & -> & Hs). by exists p'.
Qed.
End Render.

(** ** A UART that needs two looks at its status after each byte *)
Record demo_uart := mkDemo { dline : list Z; dwait : nat }.
Definition demo_look (p : demo_uart) : demo_uart := mkDemo (dline p) (pred (Nat.min (dwait p) 2)).
#[export] Instance demo_ports : Ports demo_uart := {|
  port_outb a v p := if (a =? SERIAL_PORT) && (dwait p =? 0)%nat then mkDemo (dline p ++ [v]) 2 else p;
  port_inb a p := if a =? SERIAL_PORT + 5 then (if (dwait p =? 0)%nat then 96 else 0, demo_look p) else (0, p);
  port_outl _ _ p := p;
  port_inl _ p := (0, p)
|}.
#[export, program] Instance demo_uart_ok : Uart demo_uart 2 := {| sent := dline; busy p := Nat.min (dwait p) 2 |}.
Next Obligation. intros p. simpl. lia. Qed.
Next Obligation. done. Qed.
Next Obligation. intros [l w]. unfold demo_look. change (Nat.min (pred (Nat.min w 2)) 2 = pred (Nat.min w 2)). lia. Qed.
Next Obligation. intros [l [|w]]; simpl; [done|lia]. Qed.
Next Obligation. intros [l [|w]]; simpl; [done|]. by intros []. Qed.
Next Obligation. intros [l [|w]] v; simpl; [done|lia]. Qed.

(** The integers, for a format without [%f]. *)
#[export] Instance int_floats : FloatEval Z := {|
  f_of_double b := b; f_is_neg v := v <? 0; f_neg := Z.opp; f_to_int v := v; f_sub_int := Z.sub; f_mul10 v := 10 * v
|}.

(** The [eth] module reports [irq=-5 p=00a4 (null)%]. *)
Definition demo_items : list item :=
  map Lit [105; 114; 113; 61] ++ [Num false 0 Conv_d (-5)] ++ map Lit [32; 112; 61] ++ [Num true 4 Conv_x 164; Lit 32; Str None; Percent].
Example demo_format : format_of demo_items = [105; 114; 113; 61; 37; 100; 32; 112; 61; 37; 48; 52; 120; 32; 37; 115; 37; 37].
Proof. reflexivity. Qed.

Lemma log_line_renders_witness : exists p', log_line 3 LOG_WARN [101; 116; 104] (format_of demo_items) (args_of demo_items) (mkDemo [] 0) = Ret tt p' /\
  dline p' = [27; 91; 51; 51; 109; 91; 87; 65; 82; 78; 58; 58; 101; 116; 104; 93; 27; 91; 48; 109; 32;
              105; 114; 113; 61; 45; 53; 32; 112; 61; 48; 48; 97; 52; 32; 40; 110; 117; 108; 108; 41; 37; 10].
Proof.
  destruct (log_line_renders 2 3 ltac:(lia) LOG_WARN [101; 116; 104] demo_items (mkDemo [] 0)) as (p' & E & Hs).
  - repeat constructor; lia.
  - repeat constructor; cbn; lia.
  - exists p'. split; [exact E|exact Hs].
Defined.
(** It holds of the transmitter above by running it, too. *)
Example demo_log : match log_line 3 LOG_WARN [101; 116; 104] (format_of demo_items) (args_of demo_items) (mkDemo [] 0) with
  | Ret _ p' => length (dline p') = 43%nat | _ => False end.
Proof. vm_compute. reflexivity. Qed.

(** A conversion the interpreter does not know is printed as it stands and takes no
    argument: ["0x%lx"], as the system calls use it, prints [0x%lx]. *)
Example unknown_conversion_printed : match serial_printf 3 [48; 120; 37; 108; 120] [AInt 21505] (mkDemo [] 0) with
  | Ret _ p' => dline p' = [48; 120; 37; 108; 120] | _ => False end.
Proof. vm_compute. reflexivity. Qed.
