(* ===== verification/Diagnostics.v ===== *)
(** What the kernel says over the serial line: the exception handler of
    stage2/cpu/interrupts/isr.c and [hexdump] of stage2/utils.c, on the serial log
    (Serial). *)
From S2P Require Import Prelude LibcString LibcNum Ports Serial.

(** The codes of a string literal. *)
Definition chars (s : string) : list Z := map (fun a => Z.of_nat (Ascii.nat_of_ascii a)) (String.list_ascii_of_string s).

Definition exceptions : list (list Z) :=
  map chars ["Divide by zero"; "Debug"; "NMI"; "Breakpoint"; "Overflow"; "OOB"; "Invalid opcode"; "No coprocessor"; "Double fault";
             "Coprocessor segment overrun"; "Bad TSS"; "Segment not present"; "Stack fault"; "General protection fault"; "Page fault";
             "Unrecognized interrupt"; "Coprocessor fault"; "Alignment check"; "Machine check"]%string
  ++ replicate 13 (chars "RESERVED").

(** The fields of [registers_t] that are printed. *)
Record registers_t := mkRegisters { int_no : Z; err_code : Z; eip : Z; cs : Z }.

Section Diagnostics.
Context {P : Type} `{Ports P} {F : Type} `{FloatEval F} (fuel : nat).

(** The lines printed, and then [HALT()]. *)
Definition isr_report (r : registers_t) : M P unit :=
  log_line fuel LOG_ERROR (chars "EXCEPTION") (chars "exception: %i" ++ [10]) [AInt (i32 (int_no r))] ;;
  serial_printf fuel (chars " CS=%i" ++ [10]) [AInt (i32 (cs r))] ;;
  serial_printf fuel (chars " EIP=%i" ++ [10]) [AInt (i32 (eip r))] ;;
  serial_printf fuel (chars " Error code=%i" ++ [10]) [AInt (i32 (err_code r))] ;;
  match exceptions !! Z.to_nat (int_no r) with
  | Some msg => serial_printf fuel (chars " Exception message: %s" ++ [10]) [AStr (Some msg)]
  | None => halt
  end.
Definition isr_handler (r : registers_t) : M P unit := isr_report r ;; halt.

Fixpoint hexdump_loop (data : list Z) : M P unit :=
  match data with
  | [] => mret tt
  | b :: data' => serial_printf fuel (chars "%u ") [AInt b] ;; hexdump_loop data'
  end.
Definition hexdump (data : list Z) : M P unit := hexdump_loop data ;; serial_printf fuel [10] [].
End Diagnostics.

Section Reports.
Context {P : Type} `{Ports P} {F : Type} `{FloatEval F} (delay fuel : nat) `{!Uart P delay} (Hfuel : (delay < fuel)%nat).
Abbreviation prints c t := (sends delay c (fun _ x => x = t)).

Lemma printf_prints l fmt args t : Forall item_ok l -> fmt = format_of l -> args = args_of l -> t = items_text l -> prints (serial_printf fuel fmt args) t.
Proof. intros Hl -> -> ->. unfold serial_printf. apply printf_items; [done|lia|done]. Qed.

(** A literal text with one directive. *)
Definition labelled (label : list Z) (i : item) : list item := map Lit label ++ [i; Lit 10].
Definition plain (c : Z) : bool := (0 <? c) && (c <? 256) && negb (c =? 37).
Lemma labelled_ok label i : forallb plain label = true -> item_ok i -> Forall item_ok (labelled label i).
Proof.
  intros Hl Hi. unfold labelled. apply Forall_app. split; [|constructor; [done|constructor; [simpl; lia|done]]].
  apply Forall_map, Forall_forall. intros c Hc. apply list_elem_of_In in Hc. rewrite forallb_forall in Hl. apply Hl in Hc. unfold plain in Hc.
  apply andb_prop in Hc as [[H1%Z.ltb_lt H2%Z.ltb_lt]%andb_prop H3]. apply negb_true_iff, Z.eqb_neq in H3. simpl. lia.
Qed.

Lemma num_text v : item_text (Num false 0 Conv_i v) = int_text v.
Proof.
  cbn [item_text]. unfold padded, int_text. rewrite !Z.sub_0_l. assert (forall n : nat, Z.to_nat (- Z.of_nat n) = 0%nat) as E by lia. rewrite !E. done.
Qed.
Lemma labelled_text label i : items_text (labelled label i) = label ++ item_text i ++ [10].
Proof.
  unfold items_text, labelled. rewrite flat_map_app. cbn [flat_map item_text app]. f_equal. induction label as [|c l IH]; cbn; [done|]. by rewrite IH.
Qed.
Lemma labelled_format label i : format_of (labelled label i) = label ++ item_format i ++ [10].
Proof.
  unfold format_of, labelled. rewrite flat_map_app. cbn [flat_map item_format app]. f_equal. induction label as [|c l IH]; cbn; [done|]. by rewrite IH.
Qed.
Lemma labelled_args label i : args_of (labelled label i) = item_args i.
Proof.
  unfold args_of, labelled. rewrite flat_map_app. cbn [flat_map item_args app]. rewrite app_nil_r. induction label as [|c l IH]; cbn; [done|]. done.
Qed.

(** [serial_printf("label%i\n", v)]. *)
Lemma prints_labelled label v : forallb plain label = true -> -2147483648 < v < 2147483648 ->
  prints (serial_printf fuel (label ++ [37; 105; 10]) [AInt v]) (label ++ int_text v ++ [10]).
Proof.
  intros Hl Hv. apply (printf_prints (labelled label (Num false 0 Conv_i v))).
  - apply labelled_ok; [done|]. simpl. lia.
  - by rewrite labelled_format.
  - by rewrite labelled_args.
  - by rewrite labelled_text, num_text.
Qed.
Lemma prints_message label msg : forallb plain label = true -> forallb plain msg = true ->
  prints (serial_printf fuel (label ++ [37; 115; 10]) [AStr (Some msg)]) (label ++ msg ++ [10]).
Proof.
  intros Hl Hm. assert (Forall (fun c => 0 < c < 256) msg) as Hc.
  { apply Forall_forall. intros c Hc. apply list_elem_of_In in Hc. rewrite forallb_forall in Hm. apply Hm in Hc. unfold plain in Hc.
    by apply andb_prop in Hc as [[H1%Z.ltb_lt H2%Z.ltb_lt]%andb_prop _]. }
  apply (printf_prints (labelled label (Str (Some msg)))).
  - apply labelled_ok; [done|]. simpl. eapply Forall_impl; [exact Hc|]. simpl. lia.
  - by rewrite labelled_format.
  - by rewrite labelled_args.
  - assert (text_of msg = msg) as E by (clear Hm; induction Hc as [|c l Hc Hl' IH]; [done|]; cbn; rewrite (proj2 (Z.eqb_neq c 0)), IH by lia; done).
    rewrite labelled_text. cbn [item_text]. change (default _ (Some msg)) with msg. by rewrite E.
Qed.

Lemma exceptions_plain i msg : exceptions !! i = Some msg -> forallb plain msg = true.
Proof.
  intros E. apply list_elem_of_lookup_2 in E. assert (forallb (forallb plain) exceptions = true) as Ha by (vm_compute; reflexivity).
  rewrite forallb_forall in Ha. apply Ha. by apply list_elem_of_In.
Qed.

Definition report_text (r : registers_t) (msg : list Z) : list Z :=
  ((level_col LOG_ERROR ++ [91] ++ level_str LOG_ERROR ++ [58; 58] ++ chars "EXCEPTION" ++ [93] ++ ANSI_RESET ++ [32]) ++
    (chars "exception: " ++ int_text (int_no r) ++ [10]) ++ [10]) ++ (chars " CS=" ++ int_text (i32 (cs r)) ++ [10]) ++
  (chars " EIP=" ++ int_text (i32 (eip r)) ++ [10]) ++ (chars " Error code=" ++ int_text (i32 (err_code r)) ++ [10]) ++
  (chars " Exception message: " ++ msg ++ [10]).

(** An exception is reported whole, with its number, the code segment, the
    instruction pointer and the error code as signed decimals and the message of its
    vector, and stops the machine. *)
Theorem isr_handler_reports r p : 0 <= int_no r < 32 -> Forall (fun v => i32 v <> -2147483648) [cs r; eip r; err_code r] ->
  exists msg p', exceptions !! Z.to_nat (int_no r) = Some msg /\ isr_handler fuel r p = Halted p' /\ sent p' = sent p ++ report_text r msg.
Proof.
  intros Hn Hv. destruct (exceptions !! Z.to_nat (int_no r)) as [msg|] eqn:Em; [|apply lookup_ge_None in Em; change (length exceptions) with 32%nat in Em; lia].
  assert (forall v, i32 v <> -2147483648 -> -2147483648 < i32 v < 2147483648) as Hi.
  { intros v Hne. unfold i32 in *. pose proof (u32_range v). case_z; lia. }
  apply Forall_cons in Hv as [Hcs Hv]. apply Forall_cons in Hv as [Heip Hv]. apply Forall_cons in Hv as [Herr _].
  pose proof (i32_small (int_no r) ltac:(lia)) as Ei.
  assert (prints (isr_report fuel r) (report_text r msg)) as Hp.
  { unfold isr_report, report_text. rewrite Em, Ei. apply prints_seq; [unfold log_line|].
    - apply prints_seq; [apply (preamble_prints delay fuel Hfuel (chars "EXCEPTION") LOG_ERROR); vm_compute; repeat constructor; discriminate|].
      apply prints_seq; [apply (prints_labelled (chars "exception: ")); [done|lia]|by apply (prints_char delay)].
    - apply prints_seq; [apply (prints_labelled (chars " CS=")); [done|by apply Hi]|].
      apply prints_seq; [apply (prints_labelled (chars " EIP=")); [done|by apply Hi]|]. apply prints_seq; [apply (prints_labelled (chars " Error code=")); [done|by apply Hi]|].
      apply (prints_message (chars " Exception message: ")); [done|by eapply exceptions_plain]. }
  destruct (Hp p) as ([] & p' & E & ? & -> & Hs). exists msg, p'. split; [done|]. split; [|exact Hs]. unfold isr_handler. by rewrite (bind_ret _ _ _ _ _ E).
Qed.

(** Each byte in decimal, followed by a blank; the lines end with a line feed. *)
Theorem hexdump_decimal data p : Forall (fun b => in_u8 b) data ->
  exists p', hexdump fuel data p = Ret tt p' /\ sent p' = sent p ++ flat_map (fun b => unsigned_text 10 false b ++ [32]) data ++ [10].
Proof.
  intros Hd. assert (prints (hexdump fuel data) (flat_map (fun b => unsigned_text 10 false b ++ [32]) data ++ [10])) as Hp.
  { unfold hexdump. apply prints_seq; [|apply (printf_prints [Lit 10]); [constructor; [simpl; lia|done]|done..]].
    induction Hd as [|b data Hb Hd IH]; cbn [hexdump_loop flat_map]; [by apply sends_ret|]. apply prints_seq; [|exact IH].
    apply (printf_prints [Num false 0 Conv_u b; Lit 32]); [repeat constructor; simpl; lia|done|done|].
    cbn [items_text flat_map item_text]. unfold padded. replace (Z.to_nat (0 - _)) with 0%nat by lia. done. }
  destruct (Hp p) as ([] & p' & E & ? & -> & Hs). by exists p'.
Qed.
End Reports.
