(* ===== verification/Cpuid.v ===== *)
(** CPU identification: stage2/cpu/cpuid.c with inc/cpu/cpuid.h. The CPUID
    instruction and the test for it are parameters; the text of /dev/cpuinfo is built
    in a buffer of 2048 bytes that silently drops what does not fit. *)
From S2P Require Import Prelude LibcString LibcNum.

Definition CPUINFO_BUF_SIZE : Z := 2048.

(** The codes of a string literal. *)
Definition lit (s : string) : list Z := map (fun a => Z.of_nat (Ascii.nat_of_ascii a)) (String.list_ascii_of_string s).

Record cpu_info_t := mkInfo {
  supported : bool; vendor : list Z; brand : list Z; family : Z; model : Z; stepping : Z; type : Z;
  ext_family : Z; ext_model : Z; features_ecx : Z; features_edx : Z; ext_features_ecx : Z; ext_features_edx : Z;
  max_leaf : Z; max_ext_leaf : Z; clflush_size : Z; logical_cpus : Z; apic_id : Z; phys_addr_bits : Z; virt_addr_bits : Z
}.

Record cpuid_state := mkCpuid { info : cpu_info_t; cpuinfo_buf : list Z; cpuinfo_len : Z; initialized : bool }.
Abbreviation CM := (M cpuid_state).

Definition set_text (b : list Z) (n : Z) (s : cpuid_state) : cpuid_state := mkCpuid (info s) b n (initialized s).

(** * The text *)

Definition append_char (c : Z) : CM unit := modify (fun s =>
  if CPUINFO_BUF_SIZE <=? cpuinfo_len s + 1 then s
  else set_text (<[Z.to_nat (cpuinfo_len s + 1) := 0]> (<[Z.to_nat (cpuinfo_len s) := u8 c]> (cpuinfo_buf s))) (cpuinfo_len s + 1) s).

(** A string literal, or an array that holds one: up to its terminator. *)
Fixpoint append_str (s : list Z) : CM unit :=
  match s with
  | [] => mret tt
  | c :: s' => if c =? 0 then mret tt else append_char c ;; append_str s'
  end.

(** [tmp] has room for ten digits; the last one filled is the first one printed. *)
Fixpoint digits_tmp (room : nat) (value : Z) : list Z :=
  match room with
  | O => []
  | S r => if 0 <? value then 48 + value mod 10 :: digits_tmp r (value / 10) else []
  end.
Definition append_uint (value : Z) : CM unit :=
  if value =? 0 then append_char 48 else append_str (rev (digits_tmp 10 value)).

Definition append_field_str (name value : list Z) : CM unit :=
  append_str name ;; append_str [9; 58; 32] ;; append_str value ;; append_char 10.
Definition append_field_uint (name : list Z) (value : Z) : CM unit :=
  append_str name ;; append_str [9; 58; 32] ;; append_uint value ;; append_char 10.

(** The result is the new value of [first]. *)
Definition append_flag (bits mask : Z) (name : list Z) (first : bool) : CM bool :=
  if Z.land bits mask =? 0 then mret first
  else (if first then mret tt else append_char 32) ;; append_str name ;; mret false.

(** The calls of [append_flag], in order: register, bit and name. *)
Inductive flag_reg := Edx | Ecx | ExtEdx.
Definition flag_table : list (flag_reg * Z * string) :=
  [(Edx, 0, "fpu"); (Edx, 1, "vme"); (Edx, 2, "de"); (Edx, 3, "pse"); (Edx, 4, "tsc"); (Edx, 5, "msr"); (Edx, 6, "pae");
   (Edx, 7, "mce"); (Edx, 8, "cx8"); (Edx, 9, "apic"); (Edx, 11, "sep"); (Edx, 12, "mtrr"); (Edx, 13, "pge"); (Edx, 14, "mca");
   (Edx, 15, "cmov"); (Edx, 16, "pat"); (Edx, 17, "pse36"); (Edx, 19, "clflush"); (Edx, 23, "mmx"); (Edx, 24, "fxsr");
   (Edx, 25, "sse"); (Edx, 26, "sse2"); (Ecx, 0, "sse3"); (Ecx, 9, "ssse3"); (Ecx, 19, "sse4_1"); (Ecx, 20, "sse4_2");
   (Ecx, 22, "movbe"); (Ecx, 23, "popcnt"); (Ecx, 25, "aes"); (Ecx, 26, "xsave"); (Ecx, 28, "avx"); (ExtEdx, 20, "nx"); (ExtEdx, 29, "lm")]%string.
Definition flag_bits (i : cpu_info_t) (r : flag_reg) : Z :=
  match r with Edx => features_edx i | Ecx => features_ecx i | ExtEdx => ext_features_edx i end.
Fixpoint append_flags (l : list (flag_reg * Z * string)) (first : bool) : CM unit :=
  match l with
  | [] => mret tt
  | (r, b, name) :: l' =>
      i ← gets info;
      first ← append_flag (flag_bits i r) (Z.shiftl 1 b) (lit name) first;
      append_flags l' first
  end.

Definition build_cpuinfo_text : CM unit :=
  modify (fun s => set_text (<[0%nat := 0]> (cpuinfo_buf s)) 0 s) ;;
  append_field_uint (lit "processor") 0 ;;
  cpu ← gets info;
  if negb (supported cpu) then
    append_field_str (lit "vendor_id") (lit "unknown") ;;
    append_field_str (lit "model name") (lit "CPUID unsupported")
  else
    append_field_str (lit "vendor_id") (vendor cpu) ;;
    append_field_uint (lit "cpu family") (family cpu) ;;
    append_field_uint (lit "model") (model cpu) ;;
    append_field_str (lit "model name") (if nth 0 (brand cpu) 0 =? 0 then lit "unknown" else brand cpu) ;;
    append_field_uint (lit "stepping") (stepping cpu) ;;
    append_field_uint (lit "cpu type") (type cpu) ;;
    append_field_uint (lit "clflush size") (clflush_size cpu) ;;
    append_field_uint (lit "cache_alignment") (clflush_size cpu) ;;
    append_str (lit "address sizes" ++ [9; 58; 32]) ;;
    append_uint (phys_addr_bits cpu) ;;
    append_str (lit " bits physical, ") ;;
    append_uint (virt_addr_bits cpu) ;;
    append_str (lit " bits virtual" ++ [10]) ;;
    append_str (lit "flags" ++ [9; 9; 58; 32]) ;;
    append_flags flag_table true ;;
    append_char 10.

(** * Identification *)

Section Hardware.
(** The four result registers of CPUID for a leaf, and whether it exists. *)
Context (cpuid_leaf : Z -> Z * Z * Z * Z) (cpuid_supported : bool).

(** A register as four characters. *)
Definition word_bytes (w : Z) : list Z := [w mod 256; w / 256 mod 256; w / 65536 mod 256; w / 16777216 mod 256].
Definition leaf_bytes (leaf : Z) : list Z :=
  let '(a, b, c, d) := cpuid_leaf leaf in word_bytes a ++ word_bytes b ++ word_bytes c ++ word_bytes d.

Definition blank_info : cpu_info_t := mkInfo false (replicate 13 0) (replicate 49 0) 0 0 0 0 0 0 0 0 0 0 0 0 0 0 0 32 32.

(** Leaf 0, and leaf 1 when there is one. *)
Definition basic_leaves : cpu_info_t :=
  let '(a, b, c, d) := cpuid_leaf 0 in
  let v := word_bytes b ++ word_bytes d ++ word_bytes c ++ [0] in
  if 1 <=? a then
    let '(a1, b1, c1, d1) := cpuid_leaf 1 in
    let base_family := Z.land (Z.shiftr a1 8) 15 in
    let base_model := Z.land (Z.shiftr a1 4) 15 in
    let ext_model := Z.land (Z.shiftr a1 16) 15 in
    let ext_family := Z.land (Z.shiftr a1 20) 255 in
    mkInfo true v (replicate 49 0)
      (if base_family =? 15 then base_family + ext_family else base_family)
      (if (base_family =? 6) || (base_family =? 15) then base_model + Z.shiftl ext_model 4 else base_model)
      (Z.land a1 15) (Z.land (Z.shiftr a1 12) 3) ext_family ext_model c1 d1 0 0 a 0
      (Z.land (Z.shiftr b1 8) 255 * 8) (Z.land (Z.shiftr b1 16) 255) (Z.land (Z.shiftr b1 24) 255) 32 32
  else mkInfo true v (replicate 49 0) 0 0 0 0 0 0 0 0 0 0 a 0 0 0 0 32 32.

(** The extended leaves. *)
Definition extended_leaves (i : cpu_info_t) : cpu_info_t :=
  let max := (cpuid_leaf 2147483648).1.1.1 in
  let br := if 2147483652 <=? max then leaf_bytes 2147483650 ++ leaf_bytes 2147483651 ++ leaf_bytes 2147483652 ++ [0] else brand i in
  let '(ec, ed) := if 2147483649 <=? max then let '(_, _, c, d) := cpuid_leaf 2147483649 in (c, d) else (0, 0) in
  let '(pb, vb) := if 2147483656 <=? max then let '(a, _, _, _) := cpuid_leaf 2147483656 in (Z.land a 255, Z.land (Z.shiftr a 8) 255) else (32, 32) in
  mkInfo (supported i) (vendor i) br (family i) (model i) (stepping i) (type i) (ext_family i) (ext_model i) (features_ecx i) (features_edx i)
    ec ed (max_leaf i) max (clflush_size i) (logical_cpus i) (apic_id i) pb vb.

Definition identify : cpu_info_t := if cpuid_supported then extended_leaves basic_leaves else blank_info.

Definition cpuid_init : CM unit :=
  init ← gets initialized;
  if init : bool then mret tt
  else
    modify (fun s => mkCpuid identify (cpuinfo_buf s) (cpuinfo_len s) (initialized s)) ;;
    build_cpuinfo_text ;;
    modify (fun s => mkCpuid (info s) (cpuinfo_buf s) (cpuinfo_len s) true).

Definition cpuid_info : CM cpu_info_t := cpuid_init ;; gets info.
Definition cpuid_cpuinfo_text : CM (list Z) := cpuid_init ;; gets cpuinfo_buf.
Definition cpuid_cpuinfo_size : CM Z := cpuid_init ;; gets cpuinfo_len.
End Hardware.

(** * What the text is *)

(** Up to the terminator. *)
Fixpoint cstr (s : list Z) : list Z :=
  match s with [] => [] | c :: s' => if c =? 0 then [] else c :: cstr s' end.
Fixpoint join (l : list (list Z)) : list Z :=
  match l with [] => [] | [x] => x | x :: l' => x ++ [32] ++ join l' end.

Definition field (name : string) (value : list Z) : list Z := lit name ++ [9; 58; 32] ++ value ++ [10].
Definition numeral_text (v : Z) : list Z := unsigned_text 10 false v.
Definition flags_present (i : cpu_info_t) (l : list (flag_reg * Z * string)) : list (list Z) :=
  omap (fun x => if Z.land (flag_bits i x.1.1) (Z.shiftl 1 x.1.2) =? 0 then None else Some (lit x.2)) l.

(** The report on a processor. *)
Definition report (i : cpu_info_t) : list Z :=
  field "processor" (numeral_text 0) ++
  if negb (supported i) then field "vendor_id" (lit "unknown") ++ field "model name" (lit "CPUID unsupported")
  else
    field "vendor_id" (cstr (vendor i)) ++ field "cpu family" (numeral_text (family i)) ++ field "model" (numeral_text (model i)) ++
    field "model name" (if nth 0 (brand i) 0 =? 0 then lit "unknown" else cstr (brand i)) ++ field "stepping" (numeral_text (stepping i)) ++
    field "cpu type" (numeral_text (type i)) ++ field "clflush size" (numeral_text (clflush_size i)) ++
    field "cache_alignment" (numeral_text (clflush_size i)) ++
    field "address sizes" (numeral_text (phys_addr_bits i) ++ lit " bits physical, " ++ numeral_text (virt_addr_bits i) ++ lit " bits virtual") ++
    lit "flags" ++ [9; 9; 58; 32] ++ join (flags_present i flag_table) ++ [10].

(** The buffer holds what fits of [t], terminated. *)
Definition clip (t : list Z) : list Z := take 2047 t.
Record holds (t : list Z) (s : cpuid_state) : Prop := {
  h_size : length (cpuinfo_buf s) = 2048%nat;
  h_len : cpuinfo_len s = Z.of_nat (length (clip t));
  h_text : take (length (clip t)) (cpuinfo_buf s) = clip t;
  h_end : cpuinfo_buf s !! length (clip t) = Some 0
}.

(** [c] appends [t'] to any text. *)
Definition emits (i : cpu_info_t) {A} (c : CM A) (Q : A -> list Z -> Prop) : Prop := forall s t, info s = i -> holds t s ->
  runs c s (fun a s' => exists t', Q a t' /\ holds (t ++ t') s' /\ info s' = i /\ initialized s' = initialized s).
Abbreviation writes i c t' := (emits i c (fun _ x => x = t')).

Section Emits.
Context (i : cpu_info_t).

Lemma emits_bind {A B} (c : CM A) (f : A -> CM B) (P : A -> list Z -> Prop) (Q : B -> list Z -> Prop) : emits i c P ->
  (forall a t1, P a t1 -> emits i (f a) (fun b t2 => Q b (t1 ++ t2))) -> emits i (c ≫= f) Q.
Proof.
  intros Hc Hf s t Hi Ht. apply runs_bind. eapply runs_mono; [by apply Hc|]. intros a s1 (t1 & P1 & H1 & I1 & N1).
  eapply runs_mono; [apply (Hf a t1 P1 s1 _ I1 H1)|]. intros b s2 (t2 & P2 & H2 & I2 & N2). exists (t1 ++ t2).
  rewrite app_assoc. split; [done|]. split; [done|]. split; [done|congruence].
Qed.
Lemma writes_seq {A B} (c : CM A) (c' : CM B) t1 t2 : writes i c t1 -> writes i c' t2 -> writes i (c ≫= fun _ => c') (t1 ++ t2).
Proof. intros H1 H2. eapply emits_bind; [exact H1|]. intros a ? ->. intros s t Hi Ht. eapply runs_mono; [by apply H2|]. intros b s' (? & -> & Hr). exists t2. split; [done|exact Hr]. Qed.
Lemma writes_eq {A} (c : CM A) t1 t2 : writes i c t1 -> t1 = t2 -> writes i c t2.
Proof. by intros ? <-. Qed.
Lemma emits_ret {A} (a : A) (Q : A -> list Z -> Prop) : Q a [] -> emits i (mret a) Q.
Proof. intros HQ s t Hi Ht. apply runs_ret. exists []. by rewrite app_nil_r. Qed.

Lemma holds_clip t t' s : clip t = clip t' -> holds t s -> holds t' s.
Proof. intros E [Sz L T N]. rewrite E in *. by split. Qed.

Lemma writes_char c : in_u8 c -> writes i (append_char c) [c].
Proof.
  intros Hc s t Hi Ht. apply runs_modify. exists [c]. split; [done|]. unfold CPUINFO_BUF_SIZE. pose proof Ht as [Sz L T N].
  assert (length (clip t) = 2047 `min` length t)%nat as El by (unfold clip; apply length_take). rewrite L, El. rewrite El in L, T, N. case_z.
  - split; [|done]. eapply holds_clip; [|exact Ht]. unfold clip. symmetry. apply take_app_le. lia.
  - assert (length t < 2047)%nat as Hl by lia. split; [|done]. assert (clip t = t) as Et by (apply take_ge; lia). rewrite Et in *. replace (2047 `min` length t)%nat with (length t) in * by lia.
    assert (clip (t ++ [c]) = t ++ [c]) as Ec by (unfold clip; apply take_ge; rewrite length_app; simpl; lia).
    replace (Z.to_nat (Z.of_nat (length t) + 1)) with (S (length t)) by lia. rewrite Nat2Z.id, u8_small by done.
    split; cbn [set_text cpuinfo_buf cpuinfo_len]; rewrite ?Ec, ?length_app, ?length_insert; simpl; try lia.
    + replace (length t + 1)%nat with (S (length t)) by lia. rewrite take_insert_ge by lia.
      rewrite (take_S_r _ _ c) by (apply list_lookup_insert_eq; lia). rewrite take_insert_ge by lia. by rewrite T.
    + replace (length t + 1)%nat with (S (length t)) by lia. apply list_lookup_insert_eq. rewrite length_insert. lia.
Qed.

Lemma writes_str t : Forall (fun c => in_u8 c) t -> writes i (append_str t) (cstr t).
Proof.
  induction t as [|c t IH]; intros F; cbn [append_str cstr]; [by apply emits_ret|]. inversion F as [|? ? Hc Ft]; subst.
  case_z; [by apply emits_ret|]. apply (writes_seq _ _ [c]); [by apply writes_char|by apply IH].
Qed.

Lemma lit_bytes s : Forall (fun c => in_u8 c) (lit s).
Proof.
  unfold lit. apply Forall_map, Forall_forall. intros a _. simpl. pose proof (Ascii.nat_ascii_bounded a). lia.
Qed.
Lemma cstr_id t : Forall (fun c => c <> 0) t -> cstr t = t.
Proof. induction 1 as [|c t Hc Ht IH]; cbn [cstr]; [done|]. rewrite (proj2 (Z.eqb_neq c 0) Hc). by f_equal. Qed.

(** Text without terminators. *)
Lemma writes_text t : Forall (fun c => 0 < c < 256) t -> writes i (append_str t) t.
Proof.
  intros F. eapply writes_eq; [apply writes_str; eapply Forall_impl; [exact F|]; simpl; lia|].
  apply cstr_id. eapply Forall_impl; [exact F|]. simpl. lia.
Qed.

Lemma digits_tmp_eq room : forall v, digits_tmp room v = map (digit_char false) (low_digits room 10 v).
Proof.
  induction room as [|room IH]; intros v; cbn [digits_tmp low_digits map]; [done|]. destruct (Z.leb_spec v 0), (Z.ltb_spec 0 v); try lia; [done|].
  cbn [map]. rewrite IH. f_equal. unfold digit_char. by rewrite (proj2 (Z.ltb_lt _ _)) by (apply Z.mod_pos_bound; lia).
Qed.

Lemma numeral_chars v : in_u32 v -> Forall (fun c => 0 < c < 256) (numeral_text v).
Proof.
  intros Hv. destruct (digits_of_numeral 10 v ltac:(lia) Hv) as [Hd _ _]. apply Forall_map. eapply Forall_impl; [exact Hd|].
  intros d Hr. simpl in *. pose proof (digit_char_range false d ltac:(lia)). lia.
Qed.

Lemma writes_uint v : in_u32 v -> writes i (append_uint v) (numeral_text v).
Proof.
  intros Hv. unfold append_uint. destruct (Z.eqb_spec v 0) as [->|Hn]; [by apply writes_char|].
  replace (rev (digits_tmp 10 v)) with (numeral_text v); [by apply writes_text, numeral_chars|].
  unfold numeral_text, unsigned_text, digits_of. rewrite (proj2 (Z.eqb_neq v 0) Hn), digits_tmp_eq, <- map_rev.
  by rewrite (low_digits_more 10 10 32) by (lia || (change (10 ^ Z.of_nat 10) with 10000000000; lia)).
Qed.

Lemma writes_field_str name v : Forall (fun c => 0 < c < 256) (lit name) -> Forall (fun c => in_u8 c) v ->
  writes i (append_field_str (lit name) v) (field name (cstr v)).
Proof.
  intros Hn Hv. unfold append_field_str, field. apply writes_seq; [by apply writes_text|]. apply writes_seq; [apply writes_text; repeat constructor; lia|].
  apply writes_seq; [by apply writes_str|by apply writes_char].
Qed.
Lemma writes_field_uint name v : Forall (fun c => 0 < c < 256) (lit name) -> in_u32 v ->
  writes i (append_field_uint (lit name) v) (field name (numeral_text v)).
Proof.
  intros Hn Hv. unfold append_field_uint, field. apply writes_seq; [by apply writes_text|]. apply writes_seq; [apply writes_text; repeat constructor; lia|].
  apply writes_seq; [by apply writes_uint|by apply writes_char].
Qed.

(** The flags that are present, separated by blanks. *)
Definition flags_text (first : bool) (l : list (list Z)) : list Z :=
  if first then join l else concat (map (fun x => 32 :: x) l).
Lemma join_cons x l : join (x :: l) = x ++ concat (map (fun x => 32 :: x) l).
Proof. revert x. induction l as [|y l IH]; intros x; [by rewrite app_nil_r|]. change (join (x :: y :: l)) with (x ++ [32] ++ join (y :: l)). by rewrite IH. Qed.

Lemma writes_flags l : Forall (fun x => Forall (fun c => 0 < c < 256) (lit x.2)) l -> forall first,
  writes i (append_flags l first) (flags_text first (flags_present i l)).
Proof.
  induction 1 as [|[[r b] name] l Hn Hl IH]; intros first; cbn [append_flags]; [apply emits_ret; by destruct first|].
  intros s t Hi Ht. apply runs_bind, runs_gets. rewrite Hi. revert s t Hi Ht.
  change (writes i (append_flag (flag_bits i r) (Z.shiftl 1 b) (lit name) first ≫= append_flags l) (flags_text first (flags_present i ((r, b, name) :: l)))).
  unfold append_flag, flags_present. cbn [omap list_omap]. simpl fst. simpl snd. destruct (Z.land _ _ =? 0).
  - eapply emits_bind; [by apply (emits_ret first (fun a t => a = first /\ t = []))|]. intros a ? [-> ->]. apply IH.
  - eapply emits_bind with (P := fun a t => a = false /\ t = (if first then [] else [32]) ++ lit name).
    + eapply emits_bind with (P := fun _ t => t = if first then [] else [32]); [destruct first; [by apply emits_ret|by apply writes_char]|].
      intros _ ? ->. eapply emits_bind; [by apply writes_text|]. intros _ ? ->. apply emits_ret. by rewrite app_nil_r.
    + intros a ? [-> ->]. intros s t Hi Ht. eapply runs_mono; [by apply (IH false)|]. intros [] s' (? & -> & Hr). eexists. split; [|exact Hr].
      unfold flags_text. destruct first; [by rewrite join_cons|]. cbn [map concat app]. done.
Qed.
End Emits.

(** Fields a processor can report. *)
Record info_ok (i : cpu_info_t) : Prop := {
  io_vendor : Forall (fun c => in_u8 c) (vendor i) /\ (length (vendor i) <= 13)%nat;
  io_brand : Forall (fun c => in_u8 c) (brand i) /\ (length (brand i) <= 49)%nat;
  io_numbers : in_u32 (family i) /\ in_u32 (model i) /\ in_u32 (stepping i) /\ in_u32 (type i) /\ in_u32 (clflush_size i)
    /\ in_u32 (phys_addr_bits i) /\ in_u32 (virt_addr_bits i)
}.

Lemma cstr_bytes t : Forall (fun c => in_u8 c) t -> Forall (fun c => in_u8 c) (cstr t) /\ (length (cstr t) <= length t)%nat.
Proof. induction 1 as [|c t Hc Ht [IH1 IH2]]; cbn [cstr]; [done|]. destruct (c =? 0); [simpl; split; [done|lia]|]. split; [by constructor|simpl; lia]. Qed.
Lemma numeral_length v : in_u32 v -> (length (numeral_text v) <= 10)%nat.
Proof.
  intros Hv. unfold numeral_text, unsigned_text, digits_of. rewrite length_map. case_z; [simpl; lia|]. rewrite length_rev.
  apply low_digits_length; [lia|]. change (10 ^ Z.of_nat 10) with 10000000000. lia.
Qed.
Lemma flags_present_cons i r b name l : flags_present i ((r, b, name) :: l) =
  if Z.land (flag_bits i r) (Z.shiftl 1 b) =? 0 then flags_present i l else lit name :: flags_present i l.
Proof. unfold flags_present. simpl. by destruct (_ =? 0). Qed.

Lemma flags_length i l : (length (join (flags_present i l)) <= list_sum (map (fun x => S (length (lit x.2))) l))%nat.
Proof.
  assert (length (concat (map (fun x : list Z => 32%Z :: x) (flags_present i l))) <= list_sum (map (fun x => S (length (lit x.2))) l))%nat as B.
  { induction l as [|[[r b] name] l IH]; [done|]. rewrite flags_present_cons. cbn [map snd list_sum fold_right].
    change (fold_right Nat.add 0%nat ?m) with (list_sum m).
    destruct (Z.land _ _ =? 0); [lia|]. cbn [map concat]. rewrite length_app. cbn [length]. lia. }
  destruct (flags_present i l) as [|x m]; [simpl; lia|]. rewrite join_cons. cbn [map concat] in B. rewrite length_app in *. simpl in B. lia.
Qed.

Lemma report_fits i : info_ok i -> (length (report i) <= 2047)%nat.
Proof.
  intros [[Hv Lv] [Hb Lb] (N1 & N2 & N3 & N4 & N5 & N6 & N7)]. pose proof (cstr_bytes _ Hv) as [_ Cv]. pose proof (cstr_bytes _ Hb) as [_ Cb].
  apply numeral_length in N1, N2, N3, N4, N5, N6, N7. pose proof (flags_length i flag_table) as Lf.
  set (fl := length (join (flags_present i flag_table))) in *. assert (fl <= 300)%nat as Lf' by (etrans; [exact Lf|]; vm_compute; lia). clear Lf.
  assert (length (if (nth 0 (brand i) 0 =? 0)%Z then lit "unknown" else cstr (brand i)) <= 49)%nat as Lm by (destruct (_ =? 0); [simpl; lia|lia]).
  unfold report, field. destruct (supported i); cbn [negb]; [|vm_compute; lia]. rewrite !length_app. fold fl.
  change (length (numeral_text 0)) with 1%nat. simpl length. lia.
Qed.

#[local] Ltac lits := repeat match goal with |- Forall _ (lit _) => unfold lit; cbn; repeat constructor; lia end.

Lemma writes_run i {A} (c : CM A) t s : writes i c t -> info s = i -> holds [] s ->
  runs c s (fun _ s' => holds t s' /\ info s' = i /\ initialized s' = initialized s).
Proof. intros Hw Hi H0. destruct (Hw s [] Hi H0) as (a & s' & E' & t' & -> & Ht & Hr). by exists a, s'. Qed.

Lemma build_writes i s : info_ok i -> info s = i -> length (cpuinfo_buf s) = 2048%nat ->
  runs build_cpuinfo_text s (fun _ s' => holds (report i) s' /\ info s' = i /\ initialized s' = initialized s).
Proof.
  intros [[Hv _] [Hb _] (N1 & N2 & N3 & N4 & N5 & N6 & N7)] Hi Hs. unfold build_cpuinfo_text. apply runs_bind, runs_modify.
  set (s0 := set_text _ _ s). assert (holds [] s0) as H0.
  { split; cbn; rewrite ?length_insert; try done. rewrite list_lookup_insert_eq by lia. done. }
  apply (writes_run i _ (report i) s0); [|done|done].
  apply writes_seq; [apply writes_field_uint; [lits|lia]|]. intros s1 t1 I1 H1. apply runs_bind, runs_gets. rewrite I1. revert s1 t1 I1 H1.
  destruct (supported i); cbn [negb].
  - apply writes_seq; [by apply writes_field_str; [lits|]|]. apply writes_seq; [by apply writes_field_uint; [lits|]|].
    apply writes_seq; [by apply writes_field_uint; [lits|]|]. apply writes_seq.
    { destruct (_ =? 0); [eapply writes_eq; [apply writes_field_str; [lits|apply lit_bytes]|reflexivity]|by apply writes_field_str; [lits|]]. }
    do 4 (apply writes_seq; [by apply writes_field_uint; [lits|]|]).
    eapply writes_eq.
    + apply writes_seq; [apply writes_text; cbn; repeat constructor; lia|]. apply writes_seq; [by apply writes_uint|].
      apply writes_seq; [apply writes_text; lits|]. apply writes_seq; [by apply writes_uint|].
      apply writes_seq; [apply writes_text; cbn; repeat constructor; lia|]. apply writes_seq; [apply writes_text; cbn; repeat constructor; lia|].
      apply writes_seq; [apply (writes_flags i flag_table) with (first := true); repeat constructor; lits|by apply writes_char].
    + unfold field, flags_text. rewrite <- !app_assoc. reflexivity.
  - apply writes_seq; eapply writes_eq; try (apply writes_field_str; [lits|apply lit_bytes]); reflexivity.
Qed.

Section Hw.
Context (cpuid_leaf : Z -> Z * Z * Z * Z) (cpuid_supported : bool).
(** Registers have 32 bits. *)
Definition words : Prop := forall leaf, let '(a, b, c, d) := cpuid_leaf leaf in in_u32 a /\ in_u32 b /\ in_u32 c /\ in_u32 d.

Lemma word_bytes_ok w : Forall (fun c => in_u8 c) (word_bytes w).
Proof. unfold word_bytes. repeat constructor; apply Z.mod_pos_bound; lia. Qed.
Lemma leaf_bytes_ok leaf : Forall (fun c => in_u8 c) (leaf_bytes cpuid_leaf leaf) /\ length (leaf_bytes cpuid_leaf leaf) = 16%nat.
Proof. unfold leaf_bytes. destruct (cpuid_leaf leaf) as [[[a b] c] d]. split; [|done]. repeat apply Forall_app_2; apply word_bytes_ok. Qed.
Lemma land_bound a m : 0 <= a -> 0 <= m -> 0 <= Z.land a m <= m.
Proof.
  intros Ha Hm. split; [apply Z.land_nonneg; by left|]. destruct (Z.eq_dec (Z.land a m) 0) as [->|]; [done|].
  rewrite Z.land_comm. apply Z.ldiff_le; [done|]. rewrite Z.ldiff_land, <- Z.land_assoc, (Z.land_comm a), Z.land_assoc, Z.land_lnot_diag. by rewrite Z.land_0_l.
Qed.

Lemma basic_ok : words -> info_ok (basic_leaves cpuid_leaf).
Proof.
  intros Hw. unfold basic_leaves. destruct (cpuid_leaf 0) as [[[a b] c] d] eqn:E0.
  assert (Forall (fun c => in_u8 c) (word_bytes b ++ word_bytes d ++ word_bytes c ++ [0]) /\ (length (word_bytes b ++ word_bytes d ++ word_bytes c ++ [0%Z]) <= 13)%nat) as Hv.
  { split; [|done]. repeat apply Forall_app_2; try apply word_bytes_ok. repeat constructor; lia. }
  assert (Forall (fun c => in_u8 c) (replicate 49 0) /\ (length (replicate 49 0%Z) <= 49)%nat) as Hb by (split; [repeat constructor; lia|done]).
  destruct (1 <=? a); [|split; [exact Hv|exact Hb|simpl; lia]].
  destruct (cpuid_leaf 1) as [[[a1 b1] c1] d1] eqn:E1. pose proof (Hw 1) as Hw1. rewrite E1 in Hw1. destruct Hw1 as (Ha & Hb1 & _).
  split; [exact Hv|exact Hb|]. cbn [family model stepping type clflush_size phys_addr_bits virt_addr_bits].
  assert (forall k m, 0 <= m -> 0 <= Z.land (Z.shiftr a1 k) m <= m) as La by (intros; apply land_bound; [apply Z.shiftr_nonneg; lia|done]).
  pose proof (La 8 15 ltac:(lia)). pose proof (La 4 15 ltac:(lia)). pose proof (La 16 15 ltac:(lia)) as L16. pose proof (La 20 255 ltac:(lia)).
  pose proof (La 12 3 ltac:(lia)). pose proof (land_bound a1 15 ltac:(lia) ltac:(lia)).
  pose proof (land_bound (Z.shiftr b1 8) 255 ltac:(apply Z.shiftr_nonneg; lia) ltac:(lia)).
  rewrite Z.shiftl_mul_pow2 by lia. change (2 ^ 4) with 16. repeat split; try lia; repeat case_z; simpl; lia.
Qed.

Lemma identify_ok : words -> info_ok (identify cpuid_leaf cpuid_supported).
Proof.
  intros Hw. unfold identify. destruct cpuid_supported; [|split; simpl; [split; [repeat constructor; lia|lia]|split; [repeat constructor; lia|lia]|lia]].
  pose proof (basic_ok Hw) as [Hv Hb (N1 & N2 & N3 & N4 & N5 & _)]. unfold extended_leaves.
  set (mx := (cpuid_leaf 2147483648).1.1.1). destruct (if 2147483649 <=? mx then _ else _) as [ec ed].
  destruct (if 2147483656 <=? mx then _ else _) as [pb vb] eqn:Ep. split; cbn; [exact Hv| |].
  - case_z; [|exact Hb]. destruct (leaf_bytes_ok 2147483650) as [F1 L1], (leaf_bytes_ok 2147483651) as [F2 L2], (leaf_bytes_ok 2147483652) as [F3 L3].
    split; [repeat apply Forall_app_2; try done; repeat constructor; lia|rewrite !length_app, L1, L2, L3; simpl; lia].
  - assert (0 <= pb <= 255 /\ 0 <= vb <= 255) as [? ?]; [|repeat split; lia]. destruct (2147483656 <=? mx); [|injection Ep as <- <-; lia].
    pose proof (Hw 2147483656) as Hw8. destruct (cpuid_leaf 2147483656) as [[[a b] c] d]. injection Ep as <- <-. destruct Hw8 as (Ha & _).
    split; apply land_bound; try lia. apply Z.shiftr_nonneg. lia.
Qed.

(** C38: the text of /dev/cpuinfo is always complete. Whatever the processor reports,
    initialisation leaves in the buffer the whole report on it (the fields and the
    names of the features that are present), terminated and inside the 2048 bytes,
    and doing it again changes nothing. *)
Theorem cpuinfo_text_complete s : words -> initialized s = false -> length (cpuinfo_buf s) = 2048%nat ->
  let i := identify cpuid_leaf cpuid_supported in
  exists s', cpuid_init cpuid_leaf cpuid_supported s = Ret tt s' /\ initialized s' = true /\ info s' = i
    /\ cpuinfo_len s' = Z.of_nat (length (report i)) /\ take (length (report i)) (cpuinfo_buf s') = report i
    /\ cpuinfo_buf s' !! length (report i) = Some 0 /\ cpuinfo_len s' < CPUINFO_BUF_SIZE
    /\ cpuid_init cpuid_leaf cpuid_supported s' = Ret tt s'.
Proof.
  intros Hw Hi Hl i. pose proof (identify_ok Hw) as Hok. pose proof (report_fits _ Hok) as Hfit.
  destruct (build_writes i (mkCpuid i (cpuinfo_buf s) (cpuinfo_len s) (initialized s)) Hok eq_refl Hl) as ([] & s1 & E1 & [_ H2 H3 H4] & I1 & _).
  assert (clip (report i) = report i) as Ec by (by apply take_ge). rewrite Ec in *.
  exists (mkCpuid (info s1) (cpuinfo_buf s1) (cpuinfo_len s1) true). split.
  2: { refine (conj eq_refl (conj I1 (conj H2 (conj H3 (conj H4 (conj _ eq_refl)))))). cbn [cpuinfo_len]. rewrite H2. unfold CPUINFO_BUF_SIZE. fold i in Hfit. lia. }
  unfold cpuid_init. erewrite bind_ret by reflexivity. rewrite Hi. erewrite bind_ret by reflexivity. by erewrite bind_ret by exact E1.
Qed.
End Hw.

(** A processor with a brand string and a few features. *)
Definition demo_leaf (leaf : Z) : Z * Z * Z * Z :=
  if leaf =? 0 then (1, 1970169159, 1818588270, 1231384169) else if leaf =? 1 then (1683, 2048, 1, 33) else (0, 0, 0, 0).
Lemma demo_words : words demo_leaf.
Proof. intros leaf. unfold demo_leaf. repeat case_z; lia. Qed.
Definition demo_cpuid : cpuid_state := mkCpuid blank_info (replicate 2048 0) 0 false.

Lemma cpuinfo_text_complete_witness : exists s', cpuid_init demo_leaf true demo_cpuid = Ret tt s' /\ initialized s' = true
  /\ info s' = identify demo_leaf true /\ cpuinfo_len s' = Z.of_nat (length (report (identify demo_leaf true)))
  /\ take (length (report (identify demo_leaf true))) (cpuinfo_buf s') = report (identify demo_leaf true)
  /\ cpuinfo_buf s' !! length (report (identify demo_leaf true)) = Some 0 /\ cpuinfo_len s' < CPUINFO_BUF_SIZE
  /\ cpuid_init demo_leaf true s' = Ret tt s'.
Proof. exact (cpuinfo_text_complete demo_leaf true demo_cpuid demo_words eq_refl eq_refl). Defined.

Example demo_flags : join (flags_present (identify demo_leaf true) flag_table) = lit "fpu msr sse3" /\ cstr (vendor (identify demo_leaf true)) = lit "GenuineIntel".
Proof. vm_compute. split; reflexivity. Qed.
