(* ===== verification/LibcFmt.v ===== *)
(** The formatted printers of the user C library (user/src/libc.c): [vsnprintf],
    [snprintf] and [sprintf] on byte memory.

    The format, the strings it names and the variable arguments lie in memory
    ([ap] is the address of the next argument word, as on the i386 stack), so
    that a buffer overlapping them is represented.  The two floating-point
    printers are parameters: they get the bits of the [double] and return the
    new position. *)
From S2P Require Import Prelude LibcString LibcNum.

Section format.
Context (__print_double_f __print_double_g : Z -> Z -> Z -> Z -> Z -> M ram Z).

(** [while ( *format >= '0' && *format <= '9')], accumulating a number. *)
Fixpoint number_field (fuel : nat) (format acc : Z) : M ram (Z * Z) :=
  match fuel with
  | O => out_of_fuel
  | S fuel' =>
      c ← gets (fun m => char_of m format);
      if (48 <=? c) && (c <=? 57) then number_field fuel' (u32 (format + 1)) (i32 (i32 (acc * 10) + (c - 48)))
      else mret (format, acc)
  end.

(** Skip one character if it is there. *)
Definition accept (c : Z) (format : Z) : M ram (Z * bool) :=
  gets (fun m => if char_of m format =? c then (u32 (format + 1), true) else (format, false)).

(** The flags, width, precision and length of a directive: where the conversion
    character is, the precision and whether there was an [l]. *)
Definition parse_spec (fuel : nat) (format : Z) : M ram (Z * Z * bool) :=
  '(format, _) ← accept 45 format;
  '(format, _) ← accept 48 format;
  '(format, _) ← number_field fuel format 0;
  '(format, dot) ← accept 46 format;
  '(format, precision) ← (if (dot : bool) then number_field fuel format 0 else mret (format, -1));
  '(format, long_flag) ← accept 108 format;
  '(format, _) ← accept 122 format;
  mret (format, precision, long_flag).

Definition va_arg (ap : Z) : M ram Z := gets (fun m => ld32 m ap).

(** The switch over the conversion character; the new position and argument
    pointer.  [int], [long] and pointers are all one argument word. *)
Definition convert (fuel : nat) (str pos size ap conv precision : Z) : M ram (Z * Z) :=
  let next := u32 (ap + 4) in
  if (conv =? 100) || (conv =? 105) then
    val ← va_arg ap;
    pos ← __print_int str pos size (i32 val) 10 false; mret (pos, next)
  else if conv =? 117 then
    val ← va_arg ap;
    pos ← __print_unsigned str pos size val 10 false; mret (pos, next)
  else if conv =? 120 then
    val ← va_arg ap;
    pos ← __print_unsigned str pos size val 16 false; mret (pos, next)
  else if conv =? 88 then
    val ← va_arg ap;
    pos ← __print_unsigned str pos size val 16 true; mret (pos, next)
  else if conv =? 112 then
    val ← va_arg ap;
    pos ← print_chars str pos size [48; 120];
    pos ← __print_unsigned str pos size val 16 false; mret (pos, next)
  else if conv =? 115 then
    s ← va_arg ap;
    pos ← (if s =? 0 then print_chars str pos size [40; 110; 117; 108; 108; 41]
           else __print_str fuel str pos size s);
    mret (pos, next)
  else if conv =? 99 then
    c ← va_arg ap;
    pos ← __print_char str pos size c; mret (pos, next)
  else if conv =? 102 then
    lo ← va_arg ap; hi ← va_arg (u32 (ap + 4));
    pos ← __print_double_f str pos size (hi * 4294967296 + lo) precision; mret (pos, u32 (ap + 8))
  else if (conv =? 101) || (conv =? 69) || (conv =? 103) || (conv =? 71) then
    lo ← va_arg ap; hi ← va_arg (u32 (ap + 4));
    pos ← __print_double_g str pos size (hi * 4294967296 + lo) precision; mret (pos, u32 (ap + 8))
  else if conv =? 37 then
    pos ← __print_char str pos size 37; mret (pos, ap)
  else mret (pos, ap).

(** The loop over the format.  A directive cut short by the end of the format
    moves past the terminator, as the code does. *)
Fixpoint format_loop (fuel : nat) (str size format pos ap : Z) : M ram Z :=
  match fuel with
  | O => out_of_fuel
  | S fuel' =>
      c ← gets (fun m => char_of m format);
      if c =? 0 then mret pos
      else if negb (c =? 37) then
        pos ← __print_char str pos size c;
        format_loop fuel' str size (u32 (format + 1)) pos ap
      else
        '(format, precision, _) ← parse_spec fuel' (u32 (format + 1));
        conv ← gets (fun m => char_of m format);
        '(pos, ap) ← convert fuel' str pos size ap conv precision;
        format_loop fuel' str size (u32 (format + 1)) pos ap
  end.

Definition vsnprintf (fuel : nat) (str size format ap : Z) : M ram Z :=
  pos ← format_loop fuel str size format 0 ap;
  (if negb (str =? 0) && (pos <? size) then modify (st8 (u32 (str + pos)) 0)
   else if negb (str =? 0) && (0 <? size) then modify (st8 (u32 (str + (size - 1))) 0)
   else mret tt) ;;
  mret (i32 pos).

(** The variadic wrappers: [ap] is where their variable arguments start. *)
Definition snprintf (fuel : nat) (str size format ap : Z) : M ram Z := vsnprintf fuel str size format ap.
Definition sprintf (fuel : nat) (str format ap : Z) : M ram Z := vsnprintf fuel str 4294967295 format ap.

(** * What a format means

    A format is a list of items: literal characters and the directives with the
    values they print. *)
Inductive item :=
| ILit (c : Z)
| IInt (v : Z)
| IUns (v : Z)
| IHex (up : bool) (v : Z)
| IPtr (v : Z)
| IStr (a : Z) (s : list Z)
| INull
| IChr (c : Z)
| IPct.

(** How it is written in the format, which argument words it takes and what it
    prints. *)
Definition conv_of (it : item) : option Z :=
  match it with
  | ILit _ => None
  | IInt _ => Some 100
  | IUns _ => Some 117
  | IHex up _ => Some (if up then 88 else 120)
  | IPtr _ => Some 112
  | IStr _ _ | INull => Some 115
  | IChr _ => Some 99
  | IPct => Some 37
  end.
Definition fmt_of (it : item) : list Z :=
  match it, conv_of it with
  | ILit c, _ => [c]
  | _, Some k => [37; k]
  | _, None => []
  end.
Definition args_of (it : item) : list Z :=
  match it with
  | ILit _ | IPct => []
  | IInt v => [u32 v]
  | IUns v | IHex _ v | IPtr v => [v]
  | IStr a _ => [a]
  | INull => [0]
  | IChr c => [c]
  end.
Definition text_of (it : item) : list Z :=
  match it with
  | ILit c => [c]
  | IInt v => int_text v
  | IUns v => unsigned_text 10 false v
  | IHex up v => unsigned_text 16 up v
  | IPtr v => [48; 120] ++ unsigned_text 16 false v
  | IStr _ s => s
  | INull => [40; 110; 117; 108; 108; 41]
  | IChr c => [u8 c]
  | IPct => [37]
  end.

Definition all_fmt (its : list item) : list Z := concat (map fmt_of its).
Definition all_args (its : list item) : list Z := concat (map args_of its).
Definition all_text (its : list item) : list Z := concat (map text_of its).

(** Fuel for one item: a turn of the loop, and the string it copies. *)
Definition item_fuel (it : item) : nat := match it with IStr _ s => S (length s) | _ => 1%nat end.
Definition all_fuel (its : list item) : nat := S (sum_list_with item_fuel its).

Fixpoint words_at (m : ram) (a : Z) (ws : list Z) : Prop :=
  match ws with
  | [] => True
  | w :: ws' => ld32 m a = w /\ words_at m (a + 4) ws'
  end.

Section rendering.
Context (str size : Z) (Hstr : 0 < str) (Hsize : 0 <= size) (Hend : str + size <= 4294967296).

(** The values are in range and the strings lie in memory, apart from the buffer. *)
Definition item_ok (m : ram) (it : item) : Prop :=
  match it with
  | ILit c => 0 < c < 256 /\ c <> 37
  | IInt v => -2147483648 < v < 2147483648
  | IUns v | IHex _ v | IPtr v | IChr v => in_u32 v
  | IStr a s => text s /\ str_at m a s /\ 0 < a /\ a + Z.of_nat (length s) < 4294967296 /\
      apart a (Z.of_nat (length s) + 1) str size
  | INull | IPct => True
  end.

(** The format and its arguments lie in memory, apart from the buffer. *)
Record call_ok (m : ram) (format ap : Z) (its : list item) : Prop := {
  co_items : Forall (item_ok m) its;
  co_format : str_at m format (all_fmt its);
  co_format_range : 0 <= format /\ format + Z.of_nat (length (all_fmt its)) < 4294967296;
  co_format_apart : apart format (Z.of_nat (length (all_fmt its)) + 1) str size;
  co_args : words_at m ap (all_args its);
  co_args_range : 0 <= ap /\ ap + 4 * Z.of_nat (length (all_args its)) < 4294967296;
  co_args_apart : apart ap (4 * Z.of_nat (length (all_args its))) str size;
}.

Lemma words_at_ext m m' ws : forall a,
  (forall x, a <= x < a + 4 * Z.of_nat (length ws) -> ld8 m' x = ld8 m x) -> words_at m a ws -> words_at m' a ws.
Proof.
  induction ws as [|w ws IH]; intros a H; cbn [words_at length] in *; [done|]. intros [E Hw]. split.
  - rewrite <- E. apply ld32_ext. intros b Hb. apply H. lia.
  - apply IH; [|done]. intros x Hx. apply H. lia.
Qed.

Lemma words_at_app_l m ws1 : forall a ws2, words_at m a (ws1 ++ ws2) -> words_at m a ws1.
Proof. induction ws1 as [|w ws1 IH]; intros a ws2; cbn [app words_at]; [done|]. intros [E H]. eauto. Qed.

Lemma item_ok_ext m m' it :
  (forall x, x < str \/ str + size <= x -> ld8 m' x = ld8 m x) -> item_ok m it -> item_ok m' it.
Proof.
  intros H. destruct it; cbn [item_ok]; try done. intros (Ht & Hat & Ha & He & Hap). repeat split; try done.
  eapply str_at_ext; [|exact Hat]. intros x Hx. apply H. unfold apart in Hap. lia.
Qed.

(** What is left of the call after its first item, in a memory in which only
    the buffer has changed. *)
Lemma call_ok_tail m m' format ap it its :
  (forall x, x < str \/ str + size <= x -> ld8 m' x = ld8 m x) ->
  call_ok m format ap (it :: its) ->
  call_ok m' (format + Z.of_nat (length (fmt_of it))) (ap + 4 * Z.of_nat (length (args_of it))) its.
Proof.
  intros H [H1 H2 H3 H4 H5 H6 H7]. unfold apart in *.
  change (all_fmt (it :: its)) with (fmt_of it ++ all_fmt its) in *.
  change (all_args (it :: its)) with (args_of it ++ all_args its) in *. rewrite !length_app in *.
  assert (Hf : str_at m (format + Z.of_nat (length (fmt_of it))) (all_fmt its)).
  { clear -H2. revert format H2. induction (fmt_of it) as [|c l IH]; intros format H2; cbn [app length str_at] in *.
    - by rewrite Z.add_0_r.
    - destruct H2 as [_ H2]. apply IH in H2. by replace (format + Z.of_nat (S (length l))) with (format + 1 + Z.of_nat (length l)) by lia. }
  assert (Hw : words_at m (ap + 4 * Z.of_nat (length (args_of it))) (all_args its)).
  { clear -H5. revert ap H5. induction (args_of it) as [|c l IH]; intros ap H5; cbn [app length words_at] in *.
    - by rewrite Z.add_0_r.
    - destruct H5 as [_ H5]. apply IH in H5. by replace (ap + 4 * Z.of_nat (S (length l))) with (ap + 4 + 4 * Z.of_nat (length l)) by lia. }
  inversion H1; subst. split; unfold apart; try lia.
  - eapply Forall_impl; [done|]. intros i. by apply item_ok_ext.
  - eapply str_at_ext; [|exact Hf]. intros x Hx. apply H. lia.
  - eapply words_at_ext; [|exact Hw]. intros x Hx. apply H. lia.
Qed.

Lemma printed_u8 pos c c' m : u8 c = u8 c' -> printed str pos size [c] m = printed str pos size [c'] m.
Proof.
  intros E. unfold printed. destruct (Z.to_nat (size - pos)); [done|]. cbn [take]. rewrite firstn_nil.
  cbn [write_bytes]. unfold st8. by rewrite E.
Qed.

Lemma accept_no c format m k :
  char_of m format = k -> k <> c -> accept c format m = Ret (format, false) m.
Proof. intros E H. unfold accept, gets. rewrite E. by destruct (Z.eqb_spec k c). Qed.

(** A conversion character directly after the percent sign. *)
Lemma parse_spec_plain fuel format m k :
  (0 < fuel)%nat -> char_of m format = k ->
  negb (existsb (Z.eqb k) [45; 46; 108; 122]) && negb ((48 <=? k) && (k <=? 57)) = true ->
  parse_spec fuel format m = Ret (format, -1, false) m.
Proof.
  intros Hf E Hk. destruct fuel as [|fuel]; [lia|].
  assert (Hno : k <> 45 /\ k <> 46 /\ k <> 108 /\ k <> 122 /\ k <> 48 /\ (48 <=? k) && (k <=? 57) = false).
  { cbn [existsb] in Hk. revert Hk. repeat (case_z; simpl; try done); intros _; repeat split; lia || done. }
  destruct Hno as (N1 & N2 & N3 & N4 & N5 & N6). unfold parse_spec.
  rewrite (bind_ret _ _ _ _ _ (accept_no 45 format m k E N1)).
  rewrite (bind_ret _ _ _ _ _ (accept_no 48 format m k E N5)).
  rewrite (bind_ret _ _ m (format, 0) m).
  2: { cbn [number_field]. rewrite (bind_ret _ _ m k m) by (unfold gets; by rewrite E). by rewrite N6. }
  rewrite (bind_ret _ _ _ _ _ (accept_no 46 format m k E N2)).
  rewrite (bind_ret _ _ m (format, -1) m) by done.
  rewrite (bind_ret _ _ _ _ _ (accept_no 108 format m k E N3)).
  by rewrite (bind_ret _ _ _ _ _ (accept_no 122 format m k E N4)).
Qed.

(** One directive prints its text and takes its arguments. *)
Lemma convert_ok fuel pos ap m it k :
  0 <= pos <= size -> conv_of it = Some k -> item_ok m it -> (item_fuel it <= fuel)%nat ->
  words_at m ap (args_of it) -> 0 <= ap -> ap + 4 * Z.of_nat (length (args_of it)) < 4294967296 ->
  convert fuel str pos size ap k (-1) m
  = Ret (printed_pos pos size (text_of it), ap + 4 * Z.of_nat (length (args_of it)))
        (printed str pos size (text_of it) m).
Proof.
  intros Hp Hk Hok Hf Hw Ha He. unfold convert.
  assert (Hva : forall w, words_at m ap [w] -> va_arg ap m = Ret w m).
  { intros w [E _]. unfold va_arg, gets. by rewrite E. }
  destruct it as [c|v|v|up v|v|a s| |c|]; cbn in Hk; simplify_eq/=;
    try (rewrite (u32_small (ap + 4)) by lia); try (rewrite (bind_ret _ _ _ _ _ (Hva _ Hw))).
  - assert (E : i32 (u32 v) = v).
    { pose proof (i32_small v ltac:(lia)) as E. unfold i32 in *. by rewrite (u32_small (u32 v)) by apply u32_range. }
    rewrite E. by rewrite (bind_ret _ _ _ _ _ (print_int_ok str pos size v m Hstr Hend Hp Hok)).
  - by rewrite (bind_ret _ _ _ _ _ (print_unsigned_ok str pos size v 10 false m Hstr Hend Hp ltac:(lia) Hok)).
  - destruct up; simpl; rewrite (bind_ret _ _ _ _ _ (Hva _ Hw));
      by rewrite (bind_ret _ _ _ _ _ (print_unsigned_ok str pos size v 16 _ m Hstr Hend Hp ltac:(lia) Hok)).
  - rewrite (bind_ret _ _ _ _ _ (print_chars_ok str size [48; 120] pos m Hstr Hend Hp)).
    pose proof (printed_pos_bounds pos size [48; 120] Hp) as Hp'.
    rewrite (bind_ret _ _ _ _ _ (print_unsigned_ok str _ size v 16 false _ Hstr Hend Hp' ltac:(lia) Hok)).
    change (48 :: 120 :: unsigned_text 16 false v) with ([48; 120] ++ unsigned_text 16 false v).
    rewrite printed_app by done. unfold mret, M_ret. do 2 f_equal. unfold printed_pos. rewrite length_app. lia.
  - destruct Hok as (Ht & Hat & Ha0 & Hae & Hap). destruct (Z.eqb_spec a 0); [lia|].
    by rewrite (bind_ret _ _ _ _ _ (print_str_ok s fuel str pos size a m Hstr Hend Hp Ht Hat ltac:(lia) Hae Hap ltac:(lia))).
  - by rewrite (bind_ret _ _ _ _ _ (print_chars_ok str size [40; 110; 117; 108; 108; 41] pos m Hstr Hend Hp)).
  - rewrite (bind_ret _ _ _ _ _ (print_char_ok str pos size c m Hstr Hend Hp)).
    unfold mret, M_ret. f_equal. apply printed_u8. unfold u8. by rewrite Zmod_mod.
  - rewrite (bind_ret _ _ _ _ _ (print_char_ok str pos size 37 m Hstr Hend Hp)). by rewrite Z.add_0_r.
Qed.

Lemma u8_i8 c : u8 (i8 c) = u8 c.
Proof.
  unfold i8. case_z; [unfold u8; by rewrite Zmod_mod|]. unfold u8.
  replace (c mod 256 - 256) with (c mod 256 + (-1) * 256) by lia. by rewrite Z_mod_plus_full, Zmod_mod.
Qed.

Lemma i8_ne c k : 0 <= k < 128 -> in_u8 c -> c <> k -> i8 c <> k.
Proof. intros Hk Hc H. unfold i8. rewrite u8_small by lia. case_z; lia. Qed.

Lemma conv_plain it k :
  conv_of it = Some k ->
  0 < k < 128 /\ negb (existsb (Z.eqb k) [45; 46; 108; 122]) && negb ((48 <=? k) && (k <=? 57)) = true.
Proof. destruct it as [|?|?|[]|?|?| |?|]; intros [= <-]; (split; [lia|reflexivity]). Qed.

Lemma fmt_of_conv it k : conv_of it = Some k -> fmt_of it = [37; k].
Proof. destruct it; cbn; congruence. Qed.

Lemma printed_pos_app pos s1 s2 :
  0 <= pos <= size -> printed_pos (printed_pos pos size s1) size s2 = printed_pos pos size (s1 ++ s2).
Proof. unfold printed_pos. rewrite length_app. lia. Qed.

Lemma format_loop_ok its : forall fuel format pos ap m,
  0 <= pos <= size -> call_ok m format ap its -> (all_fuel its <= fuel)%nat ->
  format_loop fuel str size format pos ap m
  = Ret (printed_pos pos size (all_text its)) (printed str pos size (all_text its) m).
Proof.
  induction its as [|it its IH]; intros fuel format pos ap m Hp Hc Hf;
    (destruct fuel as [|fuel]; [unfold all_fuel in Hf; lia|]); cbn [format_loop].
  - pose proof (co_format _ _ _ _ Hc) as E. cbn in E.
    rewrite (bind_ret _ _ m 0 m) by (unfold gets, char_of; by rewrite E).
    unfold printed_pos, printed. rewrite firstn_nil. simpl length. by rewrite Z.add_0_r, Z.min_l by lia.
  - assert (Hfuel : (item_fuel it <= fuel /\ all_fuel its <= fuel)%nat).
    { unfold all_fuel in *. cbn in Hf. destruct it; simpl in *; lia. }
    pose proof (co_items _ _ _ _ Hc) as Hits. inversion Hits as [|? ? Hit _]; subst.
    pose proof (fun m' H => call_ok_tail m m' format ap it its H Hc) as Htl.
    destruct Hc as [_ Hfm Hfr _ Hw Har _].
    change (all_fmt (it :: its)) with (fmt_of it ++ all_fmt its) in *.
    change (all_args (it :: its)) with (args_of it ++ all_args its) in *.
    change (all_text (it :: its)) with (text_of it ++ all_text its). rewrite !length_app in *.
    pose proof (printed_pos_bounds pos size (text_of it) Hp) as Hp'.
    specialize (Htl (printed str pos size (text_of it) m)
      (fun x Hx => printed_outside str pos size (text_of it) m x Hp ltac:(lia))).
    rewrite printed_app, <- printed_pos_app by done.
    destruct (conv_of it) as [k|] eqn:Ek.
    + rewrite (fmt_of_conv it k Ek) in *. cbn [app str_at length] in *. destruct Hfm as (F0 & F1 & _).
      destruct (conv_plain it k Ek) as [Hk Hplain].
      assert (C0 : char_of m format = 37) by (rewrite char_of_small; lia).
      rewrite (bind_ret _ _ m 37 m) by (unfold gets; by rewrite C0). rewrite (u32_small (format + 1)) by lia.
      assert (C1 : char_of m (format + 1) = k) by (rewrite char_of_small; lia).
      change (37 =? 0) with false. change (37 =? 37) with true. cbn [negb].
      rewrite (bind_ret _ _ _ _ _ (parse_spec_plain fuel (format + 1) m k ltac:(destruct it; simpl in *; lia) C1 Hplain)).
      rewrite (bind_ret _ _ m k m) by (unfold gets; by rewrite C1).
      assert (Hw' : words_at m ap (args_of it)) by by eapply words_at_app_l.
      rewrite (bind_ret _ _ _ _ _ (convert_ok fuel pos ap m it k Hp Ek Hit (proj1 Hfuel) Hw' ltac:(lia) ltac:(lia))).
      rewrite u32_small by lia. replace (format + 1 + 1) with (format + Z.of_nat 2) by lia.
      apply IH; [done|exact Htl|apply Hfuel].
    + destruct it as [c|?|?|?|?|?| |?|]; try done. cbn [fmt_of app str_at args_of text_of length] in *.
      destruct Hfm as [F0 _]. destruct Hit as [Hc Hne].
      rewrite (bind_ret _ _ m (i8 c) m) by (unfold gets, char_of; by rewrite F0).
      pose proof (i8_ne c 0 ltac:(lia) ltac:(lia) ltac:(lia)). pose proof (i8_ne c 37 ltac:(lia) ltac:(lia) Hne).
      destruct (Z.eqb_spec (i8 c) 0); [lia|]. destruct (Z.eqb_spec (i8 c) 37); [lia|]. cbn [negb].
      rewrite (bind_ret _ _ _ _ _ (print_char_ok str pos size (i8 c) m Hstr Hend Hp)).
      rewrite (printed_u8 pos (i8 c) c) by apply u8_i8. rewrite u32_small by lia.
      rewrite Z.add_0_r in Htl. apply IH; [done|exact Htl|apply Hfuel].
Qed.

(** The end of [vsnprintf]: the terminator goes after the text, or over its last
    byte when the text fills the buffer. *)
Lemma terminate_ok (t : list Z) m :
  0 < size ->
  let pos := printed_pos 0 size t in
  (if pos <? size then st8 (u32 (str + pos)) 0 (printed str 0 size t m)
   else st8 (u32 (str + (size - 1))) 0 (printed str 0 size t m))
  = write_bytes str (take (Z.to_nat (size - 1)) t ++ [0]) m.
Proof.
  intros Hs pos. unfold pos, printed_pos, printed. rewrite write_bytes_app, !Z.add_0_l, Z.add_0_r, Z.sub_0_r.
  cbn [write_bytes]. case_z.
  - rewrite !take_ge by lia. rewrite u32_small by lia. f_equal. lia.
  - rewrite u32_small by lia.
    replace (Z.to_nat size) with (Z.to_nat (size - 1) + 1)%nat by lia.
    rewrite <- take_take_drop, write_bytes_app, length_take.
    replace (str + Z.of_nat (Z.to_nat (size - 1) `min` length t)) with (str + (size - 1)) by lia.
    destruct (drop (Z.to_nat (size - 1)) t) as [|x r] eqn:E; [done|].
    cbn [take firstn write_bytes]. unfold st8. apply insert_insert_eq.
Qed.
End rendering.
End format.

(** C31: [vsnprintf] prints what the format means, and nothing else.  For any list
    of literal characters and directives (%d %u %x %X %p %s %c %%) with its
    arguments in memory, it returns, the buffer holds the text cut to
    [size - 1] bytes with its terminator, every other byte of memory is
    unchanged, and the result is the length of the text, at most [size]. *)
Theorem libc_vsnprintf_renders pf pg fuel str size format ap its m :
  0 < str -> 0 < size < 2147483648 -> str + size <= 4294967296 ->
  call_ok str size m format ap its -> (all_fuel its <= fuel)%nat ->
  vsnprintf pf pg fuel str size format ap m
  = Ret (Z.min (Z.of_nat (length (all_text its))) size)
        (write_bytes str (take (Z.to_nat (size - 1)) (all_text its) ++ [0]) m).
Proof.
  intros Hs Hz He Hc Hf. unfold vsnprintf.
  rewrite (bind_ret _ _ _ _ _ (format_loop_ok pf pg str size Hs ltac:(lia) He its fuel format 0 ap m ltac:(lia) Hc Hf)).
  rewrite <- (terminate_ok str size Hs He (all_text its) m) by lia.
  destruct (Z.eqb_spec str 0); [lia|]. cbn [negb andb]. destruct (Z.ltb_spec 0 size); [|lia].
  assert (Hpos : i32 (printed_pos 0 size (all_text its)) = Z.min (Z.of_nat (length (all_text its))) size).
  { unfold printed_pos. rewrite Z.add_0_l. apply i32_small. lia. }
  rewrite <- Hpos. by destruct (printed_pos 0 size (all_text its) <? size).
Qed.

(** A format with a literal, a number and a string, its arguments, and a string,
    in a memory that is zero elsewhere. *)
Definition hello_call : ram :=
  write_bytes 100 [118; 61; 37; 100; 32; 37; 115; 0]
    (st32 200 (u32 (-42)) (st32 204 300 (write_bytes 300 [111; 107; 0] ∅))).
Definition hello_items : list item := [ILit 118; ILit 61; IInt (-42); ILit 32; IStr 300 [111; 107]].

Lemma hello_call_ok size : 0 <= size -> call_ok 1000 size hello_call 100 200 hello_items.
Proof.
  intros Hs. split; unfold apart.
  - repeat constructor; cbn [item_ok]; unfold apart; try done; try lia.
  - by vm_compute.
  - vm_compute. done.
  - left. change (Z.of_nat (length (all_fmt hello_items))) with 7. lia.
  - by vm_compute.
  - vm_compute. done.
  - left. change (Z.of_nat (length (all_args hello_items))) with 2. lia.
Qed.

Lemma libc_vsnprintf_renders_witness :
  vsnprintf (fun _ pos _ _ _ => mret pos) (fun _ pos _ _ _ => mret pos) 20 1000 6 100 200 hello_call
  = Ret 6 (write_bytes 1000 [118; 61; 45; 52; 50; 0] hello_call).
Proof.
  rewrite (libc_vsnprintf_renders _ _ 20 1000 6 100 200 hello_items hello_call ltac:(lia) ltac:(lia) ltac:(lia)
             (hello_call_ok 6 ltac:(lia)) ltac:(vm_compute; lia)).
  reflexivity.
Defined.

(** Printing an [int] and reading it back.  For every [int] above the least
    one, [snprintf(str, size, "%d", v)] into a buffer of at least 12 bytes, and
    then [strtol(str, NULL, 10)] or [atoi(str)], returns [v]. *)
Theorem libc_int_roundtrip pf pg fuel str size format ap v m :
  0 < str -> 12 <= size < 2147483648 -> str + size < 4294967296 -> (12 <= fuel)%nat ->
  -2147483648 < v < 2147483648 ->
  call_ok str size m format ap [IInt v] ->
  exists m', snprintf pf pg fuel str size format ap m = Ret (Z.of_nat (length (int_text v))) m' /\
    strtol fuel str 0 10 m' = Ret v m' /\ atoi fuel str m' = Ret v m'.
Proof.
  intros Hs Hz He Hf Hv Hc. pose proof (int_text_length v Hv) as Hl.
  exists (write_bytes str (int_text v ++ [0]) m).
  assert (Ht : all_text [IInt v] = int_text v) by apply app_nil_r.
  split; [|cut (strtol fuel str 0 10 (write_bytes str (int_text v ++ [0]) m)
                = Ret v (write_bytes str (int_text v ++ [0]) m)); [done|]].
  - unfold snprintf, vsnprintf.
    rewrite (bind_ret _ _ _ _ _ (format_loop_ok pf pg str size Hs ltac:(lia) ltac:(lia) [IInt v] fuel format 0 ap m
              ltac:(lia) Hc ltac:(unfold all_fuel; simpl; lia))).
    rewrite Ht. unfold printed_pos. rewrite Z.add_0_l, Z.min_l by lia.
    destruct (Z.eqb_spec str 0); [lia|]. cbn [negb andb].
    pose proof (terminate_ok str size Hs ltac:(lia) (int_text v) m ltac:(lia)) as Hm. cbn zeta in Hm.
    unfold printed_pos in Hm. rewrite Z.add_0_l, Z.min_l in Hm by lia. rewrite take_ge in Hm by lia.
    destruct (Z.ltb_spec (Z.of_nat (length (int_text v))) size); [|lia].
    unfold mbind, M_bind, modify, mret, M_ret. by rewrite Hm, i32_small by lia.
  - apply strtol_int_text; [done|by apply str_at_write, int_text_bytes|lia|lia|lia].
Qed.

Lemma libc_int_roundtrip_witness :
  exists m', snprintf (fun _ pos _ _ _ => mret pos) (fun _ pos _ _ _ => mret pos) 12 1000 12 100 200
      (write_bytes 100 [37; 100; 0] (st32 200 (u32 (-7)) ∅)) = Ret 2 m' /\
    atoi 12 1000 m' = Ret (-7) m'.
Proof.
  destruct (libc_int_roundtrip (fun _ pos _ _ _ => mret pos) (fun _ pos _ _ _ => mret pos) 12 1000 12 100 200 (-7)
    (write_bytes 100 [37; 100; 0] (st32 200 (u32 (-7)) ∅))) as (m' & E & _ & H); try lia.
  - split; unfold apart.
    + constructor; [simpl; lia|constructor].
    + by vm_compute.
    + vm_compute. done.
    + left. change (Z.of_nat (length (all_fmt [IInt (-7)]))) with 2. lia.
    + by vm_compute.
    + vm_compute. done.
    + left. change (Z.of_nat (length (all_args [IInt (-7)]))) with 1. lia.
  - exists m'. split; [exact E|exact H].
Defined.
