(* ===== verification/LibcHeap.v ===== *)
(** The user heap of the C library (user/src/libc.c): a bump allocator over a
    static array that is never reused, with the test for space at 32 bits; and
    the random number generator. *)
From S2P Require Import Prelude LibcString.

Definition HEAP_SIZE : Z := 65536.

(** [heap] (its address), [heap_used] and memory. *)
Record uheap := UHeap { heap : Z; heap_used : Z; hmem : ram }.
Definition set_used (u : Z) (h : uheap) : uheap := UHeap (heap h) u (hmem h).
Definition set_hmem (h : uheap) (m : ram) : uheap := UHeap (heap h) (heap_used h) m.
Definition on_mem {A} (c : M ram A) : M uheap A := zoom hmem (fun m h => set_hmem h m) c.

Definition malloc (size : Z) : M uheap Z :=
  used ← gets heap_used;
  if HEAP_SIZE <=? u32 (used + size) then mret 0
  else
    ptr ← gets (fun h => heap h + used);
    modify (set_used (u32 (used + size))) ;;
    mret ptr.

Definition calloc (num size : Z) : M uheap Z :=
  let total := u32 (num * size) in
  ptr ← malloc total;
  (if negb (ptr =? 0) then on_mem (memset ptr 0 total) ;; mret tt else mret tt) ;;
  mret ptr.

Definition realloc (ptr size : Z) : M uheap Z :=
  if ptr =? 0 then malloc size
  else
    new_ptr ← malloc size;
    used ← gets heap_used;
    (if negb (new_ptr =? 0)
     then on_mem (memcpy new_ptr ptr (if size <? used then size else used)) ;; mret tt
     else mret tt) ;;
    mret new_ptr.

Definition free (ptr : Z) : M uheap unit := mret tt.

(** [rand] and [srand]: the seed is threaded. *)
Definition rand (seed : Z) : Z * Z :=
  let seed := u32 (u32 (seed * 1103515245) + 12345) in (Z.land (Z.shiftr seed 16) 32767, seed).
Definition srand (s : Z) : Z := s.

(** Blocks handed out while no request wraps are inside the array, one after the
    other. *)
Lemma malloc_fresh h size :
  0 < heap h -> heap h + HEAP_SIZE <= 4294967296 -> 0 <= heap_used h -> 0 <= size ->
  heap_used h + size < HEAP_SIZE ->
  malloc size h = Ret (heap h + heap_used h) (set_used (heap_used h + size) h).
Proof.
  unfold HEAP_SIZE. intros Hh He Hu Hs Hr. unfold malloc, HEAP_SIZE, mbind, M_bind, gets, modify, mret, M_ret.
  rewrite !u32_small by lia. by destruct (Z.leb_spec 65536 (heap_used h + size)); [lia|].
Qed.

(** The array is never filled: a request for exactly the rest is refused. *)
Lemma malloc_refuses h size :
  0 <= heap_used h < HEAP_SIZE -> 0 <= size < 4294901760 -> HEAP_SIZE <= heap_used h + size ->
  malloc size h = Ret 0 h.
Proof.
  unfold HEAP_SIZE. intros Hu Hs Hr. unfold malloc, HEAP_SIZE, mbind, M_bind, gets, modify, mret, M_ret.
  rewrite u32_small by lia. by destruct (Z.leb_spec 65536 (heap_used h + size)); [|lia].
Qed.

(** A request close to 4 GiB wraps the test: it succeeds, and the next block
    overlaps one handed out before. *)
Lemma malloc_size_wraps h k :
  0 < k <= heap_used h -> heap_used h < HEAP_SIZE -> 0 < heap h ->
  malloc (4294967296 - k) h = Ret (heap h + heap_used h) (set_used (heap_used h - k) h).
Proof.
  unfold HEAP_SIZE. intros Hk Hu Hh. unfold malloc, HEAP_SIZE, mbind, M_bind, gets, modify, mret, M_ret.
  replace (u32 (heap_used h + (4294967296 - k))) with (heap_used h - k).
  - by destruct (Z.leb_spec 65536 (heap_used h - k)); [lia|].
  - unfold u32. apply Z.mod_unique with 1; lia.
Qed.

(** A block from [calloc] reads as zeros. *)
Lemma calloc_zeroed h num size :
  0 < heap h -> heap h + HEAP_SIZE <= 4294967296 -> 0 <= heap_used h -> 0 <= num -> 0 <= size ->
  heap_used h + num * size < HEAP_SIZE ->
  exists h', calloc num size h = Ret (heap h + heap_used h) h' /\
    heap_used h' = heap_used h + num * size /\
    forall x, heap h + heap_used h <= x < heap h + heap_used h + num * size -> ld8 (hmem h') x = 0.
Proof.
  unfold HEAP_SIZE. intros Hh He Hu Hn Hs Hr. assert (0 <= num * size) by nia. unfold calloc.
  rewrite (u32_small (num * size)) by lia.
  rewrite (bind_ret _ _ _ _ _ (malloc_fresh h (num * size) Hh He Hu ltac:(lia) Hr)).
  destruct (Z.eqb_spec (heap h + heap_used h) 0); [lia|]. cbn [negb].
  eexists. split; [reflexivity|]. split; [done|]. intros x Hx. cbn.
  rewrite ld8_set_bytes, Z2Nat.id by lia. repeat case_z; simpl; try lia; done.
Qed.
