(* ===== verification/LibcStream.v ===== *)
(** System-call wrappers and streams of the user C library (user/src/libc.c).

    A process is its memory, the kernel behind [int 0x80] and the library's own
    variables.  The kernel is the class [Sys]: the trap takes the registers eax,
    ebx, ecx, edx, esi, edi, may write the process's memory and returns eax; a call
    that does not return (exit, a successful exec) stops the computation.  [FILE *]
    is an index into the list of streams: stdin, stdout, stderr and then the sixteen
    entries of [__files].  Arrays a function keeps in its frame have their address
    as an argument. *)
From S2P Require Import Prelude LibcString LibcNum LibcFmt.

Class Sys (K : Type) := { int80 : Z -> Z -> Z -> Z -> Z -> Z -> M (ram * K) Z }.

Definition __NR_exit : Z := 1.
Definition __NR_fork : Z := 2.
Definition __NR_read : Z := 3.
Definition __NR_write : Z := 4.
Definition __NR_open : Z := 5.
Definition __NR_close : Z := 6.
Definition __NR_waitpid : Z := 7.
Definition __NR_exec : Z := 11.
Definition __NR_ioctl : Z := 54.
Definition __NR_dup2 : Z := 63.
Definition __NR_socket : Z := 300.
Definition __NR_bind : Z := 301.
Definition __NR_sendto : Z := 302.
Definition __NR_recvfrom : Z := 303.

Definition ENOENT : Z := 2.
Definition EBADF : Z := 9.
Definition EINVAL : Z := 22.
Definition EOF : Z := -1.
Definition FOPEN_MAX : nat := 16.
Definition _IONBF : Z := 2.

Record FILE := mkFILE {
  f_fd : Z; f_eof : Z; f_error : Z; f_bufmode : Z; f_buf : Z; f_bufsize : Z; f_bufpos : Z; f_buflen : Z; f_ungetc : Z; f_flags : Z
}.
Definition stdin : nat := 0.
Definition stdout : nat := 1.
Definition stderr : nat := 2.
Definition std_stream (fd : Z) : FILE := mkFILE fd 0 0 _IONBF 0 0 0 0 (-1) 0.
Definition free_stream : FILE := mkFILE 0 0 0 0 0 0 0 0 0 0.
Definition initial_streams : list FILE := [std_stream 0; std_stream 1; std_stream 2] ++ replicate FOPEN_MAX free_stream.

Record proc (K : Type) := mkProc { p_ram : ram; p_kern : K; errno : Z; streams : list FILE }.
Arguments mkProc {K}. Arguments p_ram {K}. Arguments p_kern {K}. Arguments errno {K}. Arguments streams {K}.

(** * System calls *)

Section Wrappers.
Context {K : Type} `{Sys K}.
Abbreviation PM := (M (proc K)).
(** What a register holds that a wrapper does not set. *)
Context (unset : Z).

Definition trap (eax ebx ecx edx esi edi : Z) : PM Z := fun s =>
  match int80 (u32 eax) (u32 ebx) (u32 ecx) (u32 edx) (u32 esi) (u32 edi) (p_ram s, p_kern s) with
  | Ret v (m, k) => Ret (i32 v) (mkProc m k (errno s) (streams s))
  | Halted (m, k) => Halted (mkProc m k (errno s) (streams s))
  | NoFuel => NoFuel
  end.
Definition set_errno (e : Z) : PM unit := modify (fun s => mkProc (p_ram s) (p_kern s) e (streams s)).
Definition on_ram {A} (c : M ram A) : PM A := zoom p_ram (fun m s => mkProc m (p_kern s) (errno s) (streams s)) c.
(** [if (ret < 0) errno = e]. *)
Definition fails_with (e ret : Z) : PM unit := if ret <? 0 then set_errno e else mret tt.

Definition fork : PM Z := trap __NR_fork unset unset unset unset unset.
Definition read (fd buf count : Z) : PM Z := trap __NR_read fd buf count unset unset.
Definition write (fd buf count : Z) : PM Z := trap __NR_write fd buf count unset unset.
(** [for (;;) hlt] after the call, should it return. *)
Definition exit (code : Z) : PM unit := trap __NR_exit code unset unset unset unset ;; halt.
Definition open (pathname flags : Z) : PM Z := ret ← trap __NR_open pathname flags 0 unset unset; fails_with ENOENT ret ;; mret ret.
Definition close (fd : Z) : PM Z := trap __NR_close fd unset unset unset unset.
Definition waitpid (pid : Z) : PM Z := trap __NR_waitpid pid unset unset unset unset.
Definition ioctl (fd request arg : Z) : PM Z := trap __NR_ioctl fd request arg unset unset.

(** [while (argv && argv[argc]) argc++]. *)
Fixpoint argc_loop (fuel : nat) (argv argc : Z) : M ram Z :=
  match fuel with
  | O => out_of_fuel
  | S fuel' =>
      p ← gets (fun m => ld32 m (u32 (argv + 4 * argc)));
      if negb (argv =? 0) && negb (p =? 0) then argc_loop fuel' argv (argc + 1) else mret argc
  end.
(** A call that returns has failed, whatever it returned. *)
Definition execv (fuel : nat) (pathname argv : Z) : PM Z :=
  argc ← on_ram (argc_loop fuel argv 0);
  trap __NR_exec pathname argv argc (-1) unset ;;
  set_errno ENOENT ;; mret (-1).

Definition dup2 (oldfd newfd : Z) : PM Z := ret ← trap __NR_dup2 oldfd newfd unset unset unset; fails_with EBADF ret ;; mret ret.
Definition socket (domain type protocol : Z) : PM Z :=
  ret ← trap __NR_socket domain type protocol unset unset; fails_with EINVAL ret ;; mret ret.
Definition bind (sockfd addr addrlen : Z) : PM Z :=
  ret ← trap __NR_bind sockfd addr addrlen unset unset; fails_with EINVAL ret ;; mret ret.
Definition sendto (sockfd buf len flags dest addrlen : Z) : PM Z :=
  ret ← trap __NR_sendto sockfd buf len dest addrlen; fails_with EINVAL ret ;; mret ret.
Definition recvfrom (sockfd buf len flags src addrlen : Z) : PM Z :=
  ret ← trap __NR_recvfrom sockfd buf len src addrlen; fails_with EINVAL ret ;; mret ret.

Definition abort : PM unit := exit 1 ;; halt.
(** [argv] is the address of the two pointers of the child's argument vector. *)
Definition system (fuel : nat) (argv command : Z) : PM Z :=
  if command =? 0 then mret 1
  else
    pid ← fork;
    if pid <? 0 then mret (-1)
    else
      (if pid =? 0 then on_ram (modify (fun m => st32 (u32 (argv + 4)) 0 (st32 argv command m))) ;; execv fuel command argv ;; exit 127
       else mret tt) ;;
      st ← waitpid pid;
      if st <? 0 then mret (-1) else mret st.

(** * Streams *)

Definition file (st : nat) : PM FILE := fun s => match streams s !! st with Some f => Ret f s | None => Halted s end.
Definition set_file (st : nat) (f : FILE) : PM unit := modify (fun s => mkProc (p_ram s) (p_kern s) (errno s) (<[st := f]> (streams s))).
Definition upd_file (st : nat) (g : FILE -> FILE) : PM unit := f ← file st; set_file st (g f).

Definition set_fd (v : Z) (f : FILE) : FILE := mkFILE v (f_eof f) (f_error f) (f_bufmode f) (f_buf f) (f_bufsize f) (f_bufpos f) (f_buflen f) (f_ungetc f) (f_flags f).
Definition set_eof (v : Z) (f : FILE) : FILE := mkFILE (f_fd f) v (f_error f) (f_bufmode f) (f_buf f) (f_bufsize f) (f_bufpos f) (f_buflen f) (f_ungetc f) (f_flags f).
Definition set_error (v : Z) (f : FILE) : FILE := mkFILE (f_fd f) (f_eof f) v (f_bufmode f) (f_buf f) (f_bufsize f) (f_bufpos f) (f_buflen f) (f_ungetc f) (f_flags f).
Definition set_ungetc (v : Z) (f : FILE) : FILE := mkFILE (f_fd f) (f_eof f) (f_error f) (f_bufmode f) (f_buf f) (f_bufsize f) (f_bufpos f) (f_buflen f) v (f_flags f).
Definition set_flags (v : Z) (f : FILE) : FILE := mkFILE (f_fd f) (f_eof f) (f_error f) (f_bufmode f) (f_buf f) (f_bufsize f) (f_bufpos f) (f_buflen f) (f_ungetc f) v.

(** [strchr(mode, '+')], on memory. *)
Fixpoint has_plus (fuel : nat) (mode : Z) : M ram bool :=
  match fuel with
  | O => out_of_fuel
  | S fuel' =>
      c ← gets (fun m => ld8 m mode);
      if c =? 43 then mret true else if c =? 0 then mret false else has_plus fuel' (u32 (mode + 1))
  end.
Definition __filemode_to_flags (fuel : nat) (mode : Z) : M ram Z :=
  c ← gets (fun m => ld8 m mode);
  if c =? 114 then plus ← has_plus fuel mode; mret (if plus : bool then 2 else 0)
  else if (c =? 119) || (c =? 97) then plus ← has_plus fuel mode; mret (if plus : bool then 2 else 1)
  else mret 0.

(** The first entry of [__files] with no descriptor and no flags. *)
Fixpoint free_entry (l : list FILE) (i : nat) : option nat :=
  match l with
  | [] => None
  | f :: l' => if (f_fd f =? 0) && (f_flags f =? 0) then Some i else free_entry l' (S i)
  end.

Definition fopen (fuel : nat) (path mode : Z) : PM (option nat) :=
  flags ← on_ram (__filemode_to_flags fuel mode);
  fd ← open path flags;
  if fd <? 0 then mret None
  else
    l ← gets streams;
    match free_entry (drop 3 l) 3 with
    | Some st => set_file st (mkFILE fd 0 0 _IONBF 0 0 0 0 (-1) 1) ;; mret (Some st)
    | None => mret None
    end.

Definition freopen (fuel : nat) (path mode : Z) (st : nat) : PM (option nat) :=
  f ← file st;
  (if 2 <? f_fd f then close (f_fd f) ;; mret tt else mret tt) ;;
  fd ← (if negb (path =? 0) then flags ← on_ram (__filemode_to_flags fuel mode); open path flags else mret (f_fd f));
  if negb (path =? 0) && (fd <? 0) then mret None
  else upd_file st (fun f => set_ungetc (-1) (set_error 0 (set_eof 0 (set_fd fd f)))) ;; mret (Some st).

Definition fclose (st : nat) : PM Z :=
  f ← file st;
  (if 2 <? f_fd f then close (f_fd f) ;; mret tt else mret tt) ;;
  upd_file st (fun f => set_flags 0 (set_fd 0 f)) ;; mret 0.

(** [count / size]: the processor faults when [size] is zero. *)
Definition elements (count size : Z) : PM Z := if size =? 0 then halt else mret (count / size).

Definition fread (ptr size nmemb : Z) (st : nat) : PM Z :=
  let total := u32 (size * nmemb) in
  f ← file st;
  let back := 0 <=? f_ungetc f in
  (if back then on_ram (modify (st8 ptr (f_ungetc f))) ;; upd_file st (set_ungetc (-1)) else mret tt) ;;
  let count := if back then 1 else 0 in
  if back && (total <=? count) then elements count size
  else
    ret ← read (f_fd f) (u32 (ptr + count)) (u32 (total - count));
    if ret <? 0 then upd_file st (set_error 1) ;; elements count size
    else (if ret =? 0 then upd_file st (set_eof 1) else mret tt) ;; elements (u32 (count + ret)) size.

Definition fwrite (ptr size nmemb : Z) (st : nat) : PM Z :=
  let total := u32 (size * nmemb) in
  f ← file st;
  ret ← write (f_fd f) ptr total;
  if ret <? 0 then upd_file st (set_error 1) ;; mret 0
  else elements ret size.

Definition fflush (st : nat) : PM Z := mret 0.
Definition fseek (st : nat) (offset whence : Z) : PM Z := mret (-1).
Definition ftell (st : nat) : PM Z := mret (-1).
Definition feof (st : nat) : PM Z := f ← file st; mret (f_eof f).
Definition ferror (st : nat) : PM Z := f ← file st; mret (f_error f).
Definition clearerr (st : nat) : PM unit := upd_file st (fun f => set_error 0 (set_eof 0 f)).

Definition fputs (fuel : nat) (s : Z) (st : nat) : PM Z :=
  e ← on_ram (str_end fuel s);
  let len := u32 (e - s) in
  n ← fwrite s 1 len st;
  if n =? len then mret 0 else mret EOF.

(** [ch] is the byte of the frame the kernel reads into. *)
Definition getc (ch : Z) (st : nat) : PM Z :=
  f ← file st;
  if 0 <=? f_ungetc f then upd_file st (set_ungetc (-1)) ;; mret (f_ungetc f)
  else
    ret ← read (f_fd f) ch 1;
    if ret <=? 0 then (if ret =? 0 then upd_file st (set_eof 1) else mret tt) ;; mret EOF
    else on_ram (gets (fun m => ld8 m ch)).

(** [while (i < size - 1)]: how many characters were stored, and whether the loop
    met the end of the stream. *)
Fixpoint fgets_loop (n : nat) (ch s i : Z) (st : nat) : PM (Z * bool) :=
  match n with
  | O => mret (i, false)
  | S n' =>
      c ← getc ch st;
      if c =? EOF then mret (i, true)
      else
        on_ram (modify (st8 (u32 (s + i)) c)) ;;
        if c =? 10 then mret (i + 1, false) else fgets_loop n' ch s (i + 1) st
  end.
Definition fgets (ch s size : Z) (st : nat) : PM Z :=
  '(i, ended) ← fgets_loop (Z.to_nat (size - 1)) ch s 0 st;
  if (ended : bool) && (i =? 0) then mret 0
  else on_ram (modify (st8 (u32 (s + i)) 0)) ;; mret s.

Definition ungetc (c : Z) (st : nat) : PM Z :=
  f ← file st;
  if 0 <=? f_ungetc f then mret EOF
  else upd_file st (fun f => set_eof 0 (set_ungetc c f)) ;; mret c.

Definition setvbuf (st : nat) (buf mode size : Z) : PM Z :=
  upd_file st (fun f => mkFILE (f_fd f) (f_eof f) (f_error f) mode buf (i32 size) (f_bufpos f) (f_buflen f) (f_ungetc f) (f_flags f)) ;; mret 0.

(** * Formatted output *)

Context (__print_double_f __print_double_g : Z -> Z -> Z -> Z -> Z -> M ram Z).
Definition BUF_SIZE : Z := 4096.

(** The switch is that of [vsnprintf] without its cases [e] and [E]. *)
Definition convert_f (fuel : nat) (buf pos ap conv precision : Z) : M ram (Z * Z) :=
  if (conv =? 101) || (conv =? 69) then mret (pos, ap)
  else convert __print_double_f __print_double_g fuel buf pos BUF_SIZE ap conv precision.

(** A literal character is stored without a test of [pos]; the test comes after. *)
Fixpoint vfprintf_loop (fuel : nat) (buf : Z) (st : nat) (format pos ap : Z) : PM Z :=
  match fuel with
  | O => out_of_fuel
  | S fuel' =>
      c ← on_ram (gets (fun m => char_of m format));
      if c =? 0 then mret pos
      else if negb (c =? 37) then
        on_ram (modify (st8 (u32 (buf + pos)) c)) ;;
        if BUF_SIZE - 8 <=? pos + 1 then
          fwrite buf 1 (pos + 1) st ;; vfprintf_loop fuel' buf st (u32 (format + 1)) 0 ap
        else vfprintf_loop fuel' buf st (u32 (format + 1)) (pos + 1) ap
      else
        '(format, precision, _) ← on_ram (parse_spec fuel' (u32 (format + 1)));
        conv ← on_ram (gets (fun m => char_of m format));
        '(pos, ap) ← on_ram (convert_f fuel' buf pos ap conv precision);
        vfprintf_loop fuel' buf st (u32 (format + 1)) pos ap
  end.
Definition __vfprintf (fuel : nat) (buf : Z) (st : nat) (format ap : Z) : PM Z :=
  pos ← vfprintf_loop fuel buf st format 0 ap;
  (if 0 <? pos then fwrite buf 1 pos st ;; mret tt else mret tt) ;; mret 0.
Definition vfprintf (fuel : nat) (buf : Z) (st : nat) (format ap : Z) : PM Z := __vfprintf fuel buf st format ap.
(** The variadic wrappers: [ap] is where their variable arguments start. *)
Definition fprintf (fuel : nat) (buf : Z) (st : nat) (format ap : Z) : PM Z := __vfprintf fuel buf st format ap.
Definition printf (fuel : nat) (buf format ap : Z) : PM Z := __vfprintf fuel buf stdout format ap.

(** [format] is the address of the message, and [ap] of the three arguments it gets. *)
Definition __assert_fail (fuel : nat) (buf format ap expr file line : Z) : PM unit :=
  on_ram (modify (fun m => st32 (ap + 8) (u32 line) (st32 (ap + 4) file (st32 ap expr m)))) ;;
  fprintf fuel buf stderr format ap ;;
  abort.
End Wrappers.
