(* ===== verification/LibcStreamProofs.v ===== *)
(** What the streams of the user C library do (LibcStream): reading refines a byte
    stream with one character of pushback, formatted output sends the text its
    format means. The kernel is behind the class [FileSys]. *)
From S2P Require Import Prelude LibcString LibcNum LibcFmt LibcStream.

(** What the library relies on of the calls read and write: a read of an open
    descriptor takes bytes from the front of what is left of it, fewer than asked for
    if it likes, but none only at the end; a write adds the bytes to what the
    descriptor was given. *)
Class FileSys (K : Type) `{Sys K} := {
  input : K -> Z -> option (list Z);
  output : K -> Z -> option (list Z);
  input_bytes : forall k fd l, input k fd = Some l -> Forall (fun b => in_u8 b) l;
  read_law : forall m k fd buf n l esi edi, input k fd = Some l -> 0 <= buf -> 0 <= n < 2147483648 -> buf + n <= 4294967296 ->
    exists r k', int80 __NR_read fd buf n esi edi (m, k) = Ret (Z.of_nat r) (write_bytes buf (take r l) m, k')
      /\ (r <= length l)%nat /\ Z.of_nat r <= n /\ (r = 0%nat -> n = 0 \/ l = [])
      /\ input k' fd = Some (drop r l) /\ (forall g, g <> fd -> input k' g = input k g) /\ (forall g, output k' g = output k g);
  write_law : forall m k fd buf n o esi edi, output k fd = Some o -> 0 <= buf -> 0 <= n < 2147483648 -> buf + n <= 4294967296 ->
    exists k', int80 __NR_write fd buf n esi edi (m, k) = Ret n (m, k')
      /\ output k' fd = Some (o ++ read_bytes_at (Z.to_nat n) buf m) /\ (forall g, g <> fd -> output k' g = output k g) /\ (forall g, input k' g = input k g)
}.

(** * Reading *)

Section Reading.
Context {K : Type} `{FileSys K} (unset : Z).
Abbreviation P := (proc K).

(** A stream as its client sees it. *)
Record stream := mkStream { back : option Z; rest : list Z; ended : bool }.
Definition contents (a : stream) : list Z := match back a with Some c => [c] | None => [] end ++ rest a.

Definition stream_at (s : P) (st : nat) (a : stream) : Prop :=
  exists f, streams s !! st = Some f /\ 0 <= f_fd f < 2147483648 /\ input (p_kern s) (f_fd f) = Some (rest a)
    /\ f_ungetc f = default (-1) (back a) /\ f_eof f = Z.b2z (ended a) /\ match back a with Some c => in_u8 c | None => True end.

(** A line of at most [n] characters. *)
Fixpoint line (n : nat) (l : list Z) : list Z :=
  match n, l with
  | S n', c :: l' => if c =? 10 then [c] else c :: line n' l'
  | _, _ => []
  end.

(** Whether the end of the stream cut a line short. *)
Definition met_end (n : nat) (t : list Z) : bool := (length t <? n)%nat && negb (bool_decide (last t = Some 10)).

Inductive sop := Getc | Ungetc (c : Z) | Fread (ptr n : Z) | Fgets (ptr size : Z).
Definition exec (ch : Z) (st : nat) (o : sop) : M P Z :=
  match o with
  | Getc => getc unset ch st
  | Ungetc c => ungetc c st
  | Fread ptr n => fread unset ptr 1 n st
  | Fgets ptr size => fgets unset ch ptr size st
  end.
(** The bytes the call may write. *)
Definition area (o : sop) : Z * Z := match o with Fread ptr n => (ptr, n) | Fgets ptr size => (ptr, size) | _ => (0, 0) end.
Definition sop_ok (ch : Z) (o : sop) : Prop :=
  0 <= ch < 4294967296 /\
  match o with
  | Getc => True
  | Ungetc c => in_u8 c
  | Fread ptr n => 0 <= ptr /\ 1 <= n < 2147483648 /\ ptr + n <= 4294967296
  | Fgets ptr size => 0 <= ptr /\ 2 <= size < 2147483648 /\ ptr + size <= 4294967296 /\ (ch < ptr \/ ptr + size <= ch)
  end.

(** What the call returns, what it leaves of the stream and what is in its buffer. *)
Definition effect (o : sop) (a : stream) (r : Z) (a' : stream) (m' : ram) : Prop :=
  match o with
  | Getc => r = hd (-1) (contents a) /\ a' = mkStream None (tl (contents a)) (ended a || bool_decide (contents a = []))
  | Ungetc c => match back a with
                | Some _ => r = -1 /\ a' = a
                | None => r = c /\ a' = mkStream (Some c) (rest a) false
                end
  | Fread ptr n => exists k, r = Z.of_nat k /\ Z.of_nat k <= n /\ (k <= length (contents a))%nat /\ (k = 0%nat -> contents a = [])
      /\ read_bytes_at k ptr m' = take k (contents a)
      /\ a' = mkStream None (drop k (contents a)) (ended a || bool_decide (rest a = []) && negb (bool_decide (is_Some (back a)) && (n =? 1)))
  | Fgets ptr size =>
      let t := line (Z.to_nat (size - 1)) (contents a) in
      a' = mkStream None (drop (length t) (contents a)) (ended a || met_end (Z.to_nat (size - 1)) t)
      /\ if bool_decide (t = []) then r = 0 else r = ptr /\ read_bytes_at (S (length t)) ptr m' = t ++ [0]
  end.

Lemma sys_read_runs fd buf n l s Q : input (p_kern s) fd = Some l -> 0 <= fd < 2147483648 -> 0 <= buf < 4294967296 -> 0 <= n < 2147483648 -> buf + n <= 4294967296 ->
  (forall r k', (r <= length l)%nat -> Z.of_nat r <= n -> (r = 0%nat -> n = 0 \/ l = []) -> input k' fd = Some (drop r l) ->
    Q (Z.of_nat r) (mkProc (write_bytes buf (take r l) (p_ram s)) k' (errno s) (streams s))) ->
  runs (read unset fd buf n) s Q.
Proof.
  intros Hi Hf Hb Hn He HQ. unfold read, trap.
  destruct (read_law (p_ram s) (p_kern s) fd buf n l (u32 unset) (u32 unset) Hi ltac:(lia) Hn He) as (r & k' & E & H1 & H2 & H3 & H4 & _).
  unfold runs. rewrite (u32_small fd), (u32_small buf), (u32_small n) by lia. change (u32 __NR_read) with __NR_read. rewrite E.
  rewrite i32_small by lia. eexists _, _. split; [reflexivity|]. by apply HQ.
Qed.

Lemma file_runs st f (s : P) Q : streams s !! st = Some f -> Q f s -> runs (file st) s Q.
Proof. intros E HQ. exists f, s. unfold file. by rewrite E. Qed.
Lemma upd_runs st f g (s : P) Q : streams s !! st = Some f -> Q tt (mkProc (p_ram s) (p_kern s) (errno s) (<[st := g f]> (streams s))) -> runs (upd_file st g) s Q.
Proof. intros E HQ. apply runs_bind. eapply file_runs; [exact E|]. by apply runs_modify. Qed.
Lemma ram_runs {A} (c : M ram A) (s : P) Q : runs c (p_ram s) (fun a m => Q a (mkProc m (p_kern s) (errno s) (streams s))) -> runs (on_ram c) s Q.
Proof. intros (a & m & E & HQ). eexists a, _. split; [|exact HQ]. unfold on_ram, zoom. by rewrite E. Qed.

(** What a character costs: the next one of the stream, in the byte [ch] at most. *)
Lemma getc_runs ch st a s Q : stream_at s st a -> 0 <= ch < 4294967296 ->
  (forall s', stream_at s' st (mkStream None (tl (contents a)) (ended a || bool_decide (contents a = []))) ->
    (forall x, x <> ch -> ld8 (p_ram s') x = ld8 (p_ram s) x) -> errno s' = errno s -> Q (hd (-1) (contents a)) s') ->
  runs (getc unset ch st) s Q.
Proof.
  intros (f & Ef & Hfd & Hin & Hu & He & Hb) Hc HQ. pose proof (lookup_lt_Some _ _ _ Ef) as Hlt. apply runs_bind. eapply file_runs; [exact Ef|].
  unfold contents in *. destruct (back a) as [c|]; simpl in Hu.
  - rewrite Hu, (proj2 (Z.leb_le 0 c)) by lia. apply runs_bind. eapply upd_runs; [exact Ef|]. apply runs_ret. apply HQ; [|done|done].
    exists (set_ungetc (-1) f). cbn. rewrite list_lookup_insert_eq by done. rewrite orb_false_r. auto 10.
  - rewrite Hu. change (0 <=? -1) with false. apply runs_bind. eapply sys_read_runs; [exact Hin|done|done|lia|lia|].
    intros r k' Hr1 Hr2 Hr3 Hk. cbn [app] in *. destruct (rest a) as [|c l] eqn:El.
    + assert (r = 0%nat) as -> by (simpl in Hr1; lia). simpl. apply runs_bind. eapply upd_runs; [exact Ef|]. apply runs_ret.
      apply HQ; [|done|done]. exists (set_eof 1 f). cbn. rewrite list_lookup_insert_eq by done. rewrite orb_true_r. auto 10.
    + assert (r = 1%nat) as -> by (destruct r as [|[|r]]; [by destruct Hr3|done|lia]). simpl. apply ram_runs, runs_gets. cbn [p_ram].
      pose proof (input_bytes _ _ _ Hin) as Hby. inversion Hby; subst. rewrite ld8_st8, Z.eqb_refl, u8_small by done. rewrite orb_false_r in HQ.
      apply HQ; [|intros x Hx; cbn; rewrite ld8_st8; by destruct (Z.eqb_spec x ch)|done]. exists f. simpl. auto 10.
Qed.
Lemma met_end_cons n c t : c <> 10 -> met_end (S n) (c :: t) = met_end n t.
Proof.
  intros Hc. unfold met_end. rewrite last_cons. change (length (c :: t) <? S n)%nat with (length t <? n)%nat. f_equal. f_equal.
  destruct (last t); [done|]. rewrite !bool_decide_eq_false_2; congruence.
Qed.
Lemma line_length n : forall l, (length (line n l) <= n)%nat.
Proof. induction n as [|n IH]; intros [|c l]; simpl; try lia. case_z; simpl; [lia|]. specialize (IH l). lia. Qed.

Lemma stream_at_bytes s st a : stream_at s st a -> Forall (fun b => in_u8 b) (contents a).
Proof.
  intros (f & _ & _ & Hin & _ & _ & Hb). apply input_bytes in Hin. unfold contents. destruct (back a); [by constructor|done].
Qed.

Lemma fgets_loop_runs ch ptr size st n : forall i a s, stream_at s st a -> 0 <= ch < 4294967296 -> 0 <= ptr -> 0 <= i ->
  i + Z.of_nat n < size -> ptr + size <= 4294967296 -> (ch < ptr \/ ptr + size <= ch) ->
  runs (fgets_loop unset n ch ptr i st) s (fun '(j, e) s' =>
    let t := line n (contents a) in
    j = i + Z.of_nat (length t) /\ e = met_end n t
    /\ (exists a', stream_at s' st a' /\ contents a' = drop (length t) (contents a) /\ ended a' = ended a || e /\ (n <> 0%nat \/ back a = None -> back a' = None))
    /\ read_bytes_at (length t) (ptr + i) (p_ram s') = t
    /\ (forall x, x <> ch -> x < ptr + i \/ ptr + i + Z.of_nat (length t) <= x -> ld8 (p_ram s') x = ld8 (p_ram s) x)).
Proof.
  induction n as [|n IH]; intros i a s Hs Hch Hp Hi Hn He Hap.
  - apply runs_ret. cbn [line length]. split; [lia|]. split; [done|]. split; [|done]. exists a. rewrite orb_false_r. split; [done|]. split; [done|]. split; [done|]. by intros [? | ?].
  - cbn [fgets_loop]. pose proof (stream_at_bytes _ _ _ Hs) as Hby. apply runs_bind. eapply getc_runs; [exact Hs|done|]. intros s1 Hs1 Hm1 _.
    destruct (contents a) as [|c l] eqn:Ec; cbn [hd tl] in *.
    + apply runs_ret. cbn [line length]. split; [lia|]. split; [done|]. split; [|split; [done|auto]]. eexists. split; [exact Hs1|]. auto.
    + apply Forall_cons in Hby as [Hc Hby]. unfold EOF. rewrite (proj2 (Z.eqb_neq c (-1))) by lia.
      apply runs_bind, ram_runs, runs_modify. rewrite u32_small by lia. cbn [line].
      rewrite bool_decide_eq_false_2, orb_false_r in Hs1 by done.
      assert (forall m', stream_at (mkProc m' (p_kern s1) (errno s1) (streams s1)) st (mkStream None l (ended a))) as Hs2 by (intros; exact Hs1).
      destruct (Z.eqb_spec c 10) as [->|H10].
      * apply runs_ret. cbn [length p_ram]. split; [lia|]. split; [by unfold met_end; rewrite (bool_decide_eq_true_2 (last [10] = Some 10)), andb_false_r|]. split; [|split].
        -- eexists. split; [apply Hs2|]. cbn. rewrite orb_false_r. auto.
        -- cbn. by rewrite ld8_st8, Z.eqb_refl.
        -- intros x Hx Ho. rewrite ld8_st8. destruct (Z.eqb_spec x (ptr + i)); [lia|]. auto.
      * eapply runs_mono; [apply (IH (i + 1) _ _ (Hs2 _)); (done || lia)|]. intros [j e] s3. cbn [contents back rest app ended p_ram].
        intros (-> & -> & (a' & Ha' & Hc' & He' & Hb') & Hr & Hm). cbn [length]. split; [lia|]. split; [by rewrite met_end_cons|]. split; [|split].
        -- exists a'. split; [done|]. split; [done|]. split; [done|]. intros _. apply Hb'. by right.
        -- cbn [read_bytes_at]. f_equal.
           ++ rewrite Hm by lia. rewrite ld8_st8, Z.eqb_refl. by apply u8_small.
           ++ by replace (ptr + i + 1) with (ptr + (i + 1)) by lia.
        -- intros x Hx Ho. rewrite Hm by lia. rewrite ld8_st8. destruct (Z.eqb_spec x (ptr + i)); [lia|]. auto.
Qed.
Lemma ungetc_effect c st a s : stream_at s st a -> in_u8 c ->
  runs (ungetc c st) s (fun r s' => exists a', effect (Ungetc c) a r a' (p_ram s') /\ stream_at s' st a' /\ p_ram s' = p_ram s).
Proof.
  intros Hs Hc. pose proof Hs as (f & Ef & Hfd & Hin & Hu & He & Hb). apply runs_bind. eapply file_runs; [exact Ef|]. cbn [effect].
  pose proof (lookup_lt_Some _ _ _ Ef) as Hlt. destruct (back a) as [b|] eqn:Eb; simpl in Hu; rewrite Hu.
  - rewrite (proj2 (Z.leb_le 0 b)) by lia. apply runs_ret. by exists a.
  - change (0 <=? -1) with false. apply runs_bind. eapply upd_runs; [exact Ef|]. apply runs_ret. eexists. split; [split; reflexivity|]. split; [|done].
    exists (set_eof 0 (set_ungetc c f)). cbn. rewrite list_lookup_insert_eq by done. auto 10.
Qed.

Lemma elements_one v (s : P) : runs (elements v 1) s (fun r s' => r = v /\ s' = s).
Proof. apply runs_ret. by rewrite Z.div_1_r. Qed.

Lemma read_take (k : nat) ptr l m : Forall (fun b => in_u8 b) l -> (k <= length l)%nat -> read_bytes_at k ptr (write_bytes ptr (take k l) m) = take k l.
Proof.
  intros Hl Hk. rewrite <- (length_take_le l k) at 1 by done. apply read_write_bytes. by apply Forall_take.
Qed.

(** The part of [fread] after the pushback slot. *)
Lemma fread_tail f st l e s count ptr n : streams s !! st = Some f -> stream_at s st (mkStream None l e) -> 0 <= count -> 0 <= ptr -> count < n < 2147483648 -> ptr + n <= 4294967296 ->
  runs (ret ← read unset (f_fd f) (u32 (ptr + count)) (u32 (n - count));
        if ret <? 0 then upd_file st (set_error 1) ;; elements count 1
        else (if ret =? 0 then upd_file st (set_eof 1) else mret tt) ;; elements (u32 (count + ret)) 1) s
    (fun r s' => exists k, r = count + Z.of_nat k /\ r <= n /\ (k <= length l)%nat /\ (k = 0%nat -> l = [])
       /\ p_ram s' = write_bytes (ptr + count) (take k l) (p_ram s) /\ stream_at s' st (mkStream None (drop k l) (e || bool_decide (l = [])))).
Proof.
  intros Ef (f' & Ef' & Hfd & Hin & Hu & Hee & Hb) Hc Hp Hn He. rewrite Ef in Ef'. injection Ef' as <-. cbn in *.
  pose proof (lookup_lt_Some _ _ _ Ef) as Hlt. rewrite !u32_small by lia. apply runs_bind. eapply sys_read_runs; [exact Hin|lia..|].
  intros k k' Hk1 Hk2 Hk3 Hk. rewrite (proj2 (Z.ltb_ge (Z.of_nat k) 0)) by lia. apply runs_bind. destruct (Z.eqb_spec (Z.of_nat k) 0) as [E0|E0].
  - assert (k = 0%nat) as -> by lia. destruct (Hk3 eq_refl) as [? | ->]; [lia|]. eapply upd_runs; [exact Ef|]. eapply runs_mono; [apply elements_one|].
    intros r s' [-> ->]. exists 0%nat. rewrite u32_small by lia. split; [lia|]. split; [lia|]. split; [simpl; lia|]. split; [done|]. split; [done|].
    exists (set_eof 1 f). cbn. rewrite list_lookup_insert_eq by done. rewrite orb_true_r. auto 10.
  - apply runs_ret. eapply runs_mono; [apply elements_one|]. intros r s' [-> ->]. exists k. rewrite u32_small by lia. split; [lia|]. split; [lia|]. split; [done|].
    split; [lia|]. split; [done|]. destruct l as [|x l]; [simpl in Hk1; lia|]. rewrite bool_decide_eq_false_2, orb_false_r by done. exists f. cbn. auto 10.
Qed.

Lemma read_bytes_terminated n : forall a m, read_bytes_at (S n) a (st8 (a + Z.of_nat n) 0 m) = read_bytes_at n a m ++ [0].
Proof.
  induction n as [|n IH]; intros a m.
  - cbn. by rewrite Z.add_0_r, ld8_st8, Z.eqb_refl.
  - change (read_bytes_at (S (S n)) a (st8 (a + Z.of_nat (S n)) 0 m)) with (ld8 (st8 (a + Z.of_nat (S n)) 0 m) a :: read_bytes_at (S n) (a + 1) (st8 (a + Z.of_nat (S n)) 0 m)).
    replace (a + Z.of_nat (S n)) with (a + 1 + Z.of_nat n) by lia. rewrite IH, ld8_st8. case_z; [lia|]. done.
Qed.

Lemma fread_effect ptr n st a s : stream_at s st a -> 0 <= ptr -> 1 <= n < 2147483648 -> ptr + n <= 4294967296 ->
  runs (fread unset ptr 1 n st) s (fun r s' => exists a', effect (Fread ptr n) a r a' (p_ram s') /\ stream_at s' st a'
    /\ forall x, x < ptr \/ ptr + n <= x -> ld8 (p_ram s') x = ld8 (p_ram s) x).
Proof.
  intros Hs Hp Hn He. pose proof (stream_at_bytes _ _ _ Hs) as Hby. destruct Hs as (f & Ef & Hfd & Hin & Hu & Hee & Hb).
  pose proof (lookup_lt_Some _ _ _ Ef) as Hlt. unfold fread. rewrite Z.mul_1_l, u32_small by lia. apply runs_bind. eapply file_runs; [exact Ef|].
  unfold effect, contents in *. destruct (back a) as [c|] eqn:Eb; simpl in Hu; rewrite Hu.
  - rewrite (proj2 (Z.leb_le 0 c)) by lia. cbn [andb]. apply runs_bind, runs_bind, ram_runs, runs_modify. eapply upd_runs; [exact Ef|]. cbn [streams p_kern errno p_ram].
    set (s1 := mkProc _ _ _ _). assert (Es1 : streams s1 !! st = Some (set_ungetc (-1) f)) by (cbn; by rewrite list_lookup_insert_eq).
    assert (Hs1 : stream_at s1 st (mkStream None (rest a) (ended a))) by (exists (set_ungetc (-1) f); cbn in *; auto 10).
    assert (Hm1 : forall x, x <> ptr -> ld8 (p_ram s1) x = ld8 (p_ram s) x) by (intros x Hx; cbn; rewrite ld8_st8; by destruct (Z.eqb_spec x ptr)).
    assert (Hm0 : ld8 (p_ram s1) ptr = c) by (cbn; by rewrite ld8_st8, Z.eqb_refl, u8_small).
    destruct (Z.leb_spec n 1).
    + assert (n = 1) as -> by lia. eapply runs_mono; [apply elements_one|]. intros r s' [-> ->].
      eexists. split; [exists 1%nat; repeat split; try (simpl; lia)|split; [|intros x Hx; apply Hm1; lia]].
      * cbn [read_bytes_at]. by rewrite Hm0.
      * cbn. rewrite andb_false_r, orb_false_r. exact Hs1.
    + eapply runs_mono; [apply (fread_tail (set_ungetc (-1) f) st _ _ s1 1 ptr n Es1 Hs1); lia|].
      intros r s' (k & -> & Hr & Hk & Hk0 & Em & Hs'). eexists. split; [exists (S k); repeat split|split].
      * lia.
      * lia.
      * simpl. lia.
      * done.
      * cbn [read_bytes_at app take]. f_equal.
        -- rewrite Em, ld8_write_bytes_other by lia. exact Hm0.
        -- apply Forall_cons in Hby as [_ Hby]. rewrite Em. by apply read_take.
      * rewrite (proj2 (Z.eqb_neq n 1)), andb_false_r, andb_true_r by lia. exact Hs'.
      * intros x Hx. rewrite Em, ld8_write_bytes_other by (rewrite length_take; lia). apply Hm1. lia.
  - change (0 <=? -1) with false. cbn [andb]. apply runs_bind, runs_ret.
    assert (Hs1 : stream_at s st (mkStream None (rest a) (ended a))) by (exists f; cbn in *; auto 10).
    eapply runs_mono; [apply (fread_tail f st _ _ s 0 ptr n Ef Hs1); lia|]. rewrite Z.add_0_r.
    intros r s' (k & -> & Hr & Hk & Hk0 & Em & Hs'). eexists. split; [exists k; repeat split|split].
    + lia.
    + done.
    + done.
    + rewrite Em. by apply read_take.
    + cbn. rewrite andb_true_r. exact Hs'.
    + intros x Hx. rewrite Em, ld8_write_bytes_other by (rewrite length_take; lia). done.
Qed.

Lemma fgets_effect ch ptr size st a s : stream_at s st a -> 0 <= ch < 4294967296 -> 0 <= ptr -> 2 <= size < 2147483648 -> ptr + size <= 4294967296 -> (ch < ptr \/ ptr + size <= ch) ->
  runs (fgets unset ch ptr size st) s (fun r s' => exists a', effect (Fgets ptr size) a r a' (p_ram s') /\ stream_at s' st a'
    /\ forall x, x <> ch -> x < ptr \/ ptr + size <= x -> ld8 (p_ram s') x = ld8 (p_ram s) x).
Proof.
  intros Hs Hch Hp Hz He Hap. unfold fgets. apply runs_bind. eapply runs_mono; [apply (fgets_loop_runs ch ptr size st _ 0 a s Hs); lia|].
  intros [j e] s1. cbn zeta. rewrite !Z.add_0_l, Z.add_0_r. set (t := line (Z.to_nat (size - 1)) (contents a)).
  intros (-> & -> & (a' & Ha' & Hc' & He' & Hb') & Hr & Hm). pose proof (line_length (Z.to_nat (size - 1)) (contents a)) as Hlen. fold t in Hlen.
  assert (a' = mkStream None (drop (length t) (contents a)) (ended a || met_end (Z.to_nat (size - 1)) t)) as Ea'.
  { rewrite <- Hc', <- He'. unfold contents. rewrite (Hb' ltac:(left; lia)). destruct a'. cbn in *. f_equal. apply Hb'. left. lia. }
  destruct (bool_decide (t = [])) eqn:Et.
  - apply bool_decide_eq_true in Et. rewrite Et in *. unfold met_end at 1. rewrite (proj2 (Nat.ltb_lt _ _)) by (simpl; lia). cbn [last negb andb].
    apply runs_ret. exists a'. split; [|split; [done|intros; apply Hm; lia]]. cbn [effect]. fold t. rewrite Et. done.
  - apply bool_decide_eq_false in Et. assert (0 < length t)%nat by (destruct t; [done|simpl; lia]).
    rewrite (proj2 (Z.eqb_neq (Z.of_nat (length t)) 0)), andb_false_r by lia. apply runs_bind, ram_runs, runs_modify, runs_ret. rewrite u32_small by lia.
    exists a'. split; [|split; [exact Ha'|]].
    + cbn [effect p_ram]. fold t. rewrite bool_decide_eq_false_2 by done. split; [done|]. split; [done|]. rewrite read_bytes_terminated by lia. by rewrite Hr.
    + intros x Hx Ho. cbn [p_ram]. rewrite ld8_st8. destruct (Z.eqb_spec x (ptr + Z.of_nat (length t))); [lia|]. apply Hm; lia.
Qed.
(** C35: reading a stream of the user library refines a byte stream with one
    character of pushback.  Whatever the kernel returns of a descriptor, [getc],
    [ungetc], [fread] (of characters) and [fgets] return, deliver consecutive bytes
    of what was pushed back followed by what is left of the descriptor, [fgets]
    up to a newline and at most [size - 1] of them with a terminator, report the end
    only when nothing is left, and write nothing but their buffer and the byte of
    [getc]'s frame. *)
Theorem stream_refines ch st o a s : stream_at s st a -> sop_ok ch o ->
  exists r s' a', exec ch st o s = Ret r s' /\ effect o a r a' (p_ram s') /\ stream_at s' st a'
    /\ forall x, x <> ch -> x < (area o).1 \/ (area o).1 + (area o).2 <= x -> ld8 (p_ram s') x = ld8 (p_ram s) x.
Proof.
  intros Hs [Hch Ho]. destruct o as [|c|ptr n|ptr size]; cbn [exec area fst snd].
  - destruct (getc_runs ch st a s (fun r s' => r = hd (-1) (contents a) /\ stream_at s' st (mkStream None (tl (contents a)) (ended a || bool_decide (contents a = [])))
      /\ forall x, x <> ch -> ld8 (p_ram s') x = ld8 (p_ram s) x) Hs Hch) as (r & s' & E & -> & Hs' & Hm); [auto|].
    eexists _, s', _. split; [exact E|]. split; [split; reflexivity|]. auto.
  - destruct (ungetc_effect c st a s Hs Ho) as (r & s' & E & a' & He & Hs' & Em). exists r, s', a'. split; [exact E|]. split; [exact He|]. split; [done|]. intros x _ _. by rewrite Em.
  - destruct (fread_effect ptr n st a s Hs) as (r & s' & E & a' & He & Hs' & Hm); [lia..|]. exists r, s', a'. auto.
  - destruct (fgets_effect ch ptr size st a s Hs Hch) as (r & s' & E & a' & He & Hs' & Hm); [lia..|]. by exists r, s', a'.
Qed.
End Reading.

(** * Formatted output *)

Section Writing.
Context {K : Type} `{FileSys K} (unset : Z) (pf pg : Z -> Z -> Z -> Z -> Z -> M ram Z).
Abbreviation P := (proc K).
Context (buf : Z) (Hbuf : 0 < buf) (Hend : buf + 4096 <= 4294967296).

(** No literal is stored past the buffer and no directive is cut off: [pos] bytes
    wait in the buffer.  A literal that leaves fewer than eight free empties it. *)
Fixpoint fits (pos : Z) (its : list item) : Prop :=
  match its with
  | [] => True
  | it :: its' =>
      match conv_of it with
      | None => pos < 4096 /\ fits (if 4088 <=? pos + 1 then 0 else pos + 1) its'
      | Some _ => pos + Z.of_nat (length (text_of it)) <= 4096 /\ fits (pos + Z.of_nat (length (text_of it))) its'
      end
  end.

(** The most bytes that directives with no literal character between them print;
    [acc] is what those just before print. *)
Fixpoint longest_run (acc : nat) (its : list item) : nat :=
  match its with
  | [] => acc
  | it :: its' =>
      match conv_of it with
      | None => Nat.max acc (longest_run 0 its')
      | Some _ => longest_run (acc + length (text_of it)) its'
      end
  end.

Lemma longest_run_ge its : forall acc, (acc <= longest_run acc its)%nat.
Proof.
  induction its as [|it its IH]; intros acc; cbn [longest_run]; [lia|]. destruct (conv_of it); [|lia].
  specialize (IH (acc + length (text_of it))%nat). lia.
Qed.

(** A text that the buffer can hold fits. *)
Lemma short_fits its : forall pos, 0 <= pos -> pos + Z.of_nat (length (all_text its)) <= 4096 -> fits pos its.
Proof.
  induction its as [|it its IH]; intros pos Hp Hl; [done|]. cbn [fits].
  change (all_text (it :: its)) with (text_of it ++ all_text its) in Hl. rewrite length_app in Hl.
  destruct (conv_of it) eqn:E.
  - split; [lia|]. apply IH; lia.
  - destruct it; try done. cbn [text_of length] in Hl. split; [lia|]. apply IH; case_z; lia.
Qed.

(** So does a text of any length whose directives print little between literals:
    a literal leaves at most 4087 bytes waiting. *)
Lemma runs_fit its : forall acc pos, 0 <= pos <= 4087 + Z.of_nat acc -> (longest_run acc its <= 8)%nat -> fits pos its.
Proof.
  induction its as [|it its IH]; intros acc pos Hp Hl; [done|]. cbn [fits longest_run] in *. destruct (conv_of it).
  - pose proof (longest_run_ge its (acc + length (text_of it))). split; [lia|]. apply (IH (acc + length (text_of it))%nat); lia.
  - split; [lia|]. apply (IH 0%nat); [|lia]. case_z; lia.
Qed.

Lemma text_of_bytes size m it : item_ok buf size m it -> Forall (fun b => in_u8 b) (text_of it).
Proof.
  destruct it as [c|v|v|up v|v|a s| |c|]; cbn [item_ok text_of]; intros Hit.
  - constructor; [lia|done].
  - by apply int_text_bytes.
  - apply unsigned_text_bytes; [lia|done].
  - apply unsigned_text_bytes; [lia|done].
  - apply Forall_app; split; [repeat constructor; lia|]. apply unsigned_text_bytes; [lia|done].
  - destruct Hit as [Ht _]. eapply Forall_impl; [exact Ht|]. simpl. lia.
  - repeat constructor; lia.
  - constructor; [apply u8_range|done].
  - repeat constructor; lia.
Qed.

(** Appending to what waits in the buffer. *)
Lemma read_bytes_appended t u m : read_bytes_at (length t) buf m = t -> Forall (fun b => in_u8 b) u ->
  read_bytes_at (length (t ++ u)) buf (write_bytes (buf + Z.of_nat (length t)) u m) = t ++ u.
Proof.
  intros Ht Hu. rewrite length_app, read_bytes_split. f_equal; [|by apply read_write_bytes].
  rewrite <- Ht at 3. apply read_bytes_ext. intros x Hx. apply ld8_write_bytes_other. lia.
Qed.

(** A state that differs from [s] in the buffer and in what the descriptor got. *)
Record sent (fd : Z) (o : list Z) (s s' : P) : Prop := {
  sn_out : output (p_kern s') fd = Some o;
  sn_others : forall g, g <> fd -> output (p_kern s') g = output (p_kern s) g;
  sn_streams : streams s' = streams s;
  sn_ram : forall x, x < buf \/ buf + 4096 <= x -> ld8 (p_ram s') x = ld8 (p_ram s) x
}.
Lemma sent_trans fd o1 o2 s1 s2 s3 : sent fd o1 s1 s2 -> sent fd o2 s2 s3 -> sent fd o2 s1 s3.
Proof. intros [A1 A2 A3 A4] [B1 B2 B3 B4]. split; [done| |congruence|]; intros; [by rewrite B2, A2|by rewrite B4, A4]. Qed.

Lemma fwrite_runs f st o n s : streams s !! st = Some f -> 0 <= f_fd f < 2147483648 -> output (p_kern s) (f_fd f) = Some o -> 0 <= n <= 4096 ->
  runs (fwrite unset buf 1 n st) s (fun _ s' => sent (f_fd f) (o ++ read_bytes_at (Z.to_nat n) buf (p_ram s)) s s' /\ p_ram s' = p_ram s).
Proof.
  intros Ef Hfd Ho Hn. unfold fwrite. rewrite Z.mul_1_l. apply runs_bind. eapply file_runs; [exact Ef|]. apply runs_bind.
  destruct (write_law (p_ram s) (p_kern s) (f_fd f) buf n o (u32 unset) (u32 unset) Ho ltac:(lia) ltac:(lia) ltac:(lia)) as (k' & E & H1 & H2 & _).
  exists n, (mkProc (p_ram s) k' (errno s) (streams s)). split.
  { unfold write, trap. rewrite (u32_small (f_fd f)), (u32_small buf), !(u32_small n) by lia. change (u32 __NR_write) with __NR_write. rewrite E. by rewrite i32_small by lia. }
  rewrite (proj2 (Z.ltb_ge n 0)) by lia. apply runs_ret. split; [|done]. by split.
Qed.

Lemma sent_ram fd o s m : output (p_kern s) fd = Some o -> (forall x, x < buf \/ buf + 4096 <= x -> ld8 m x = ld8 (p_ram s) x) ->
  sent fd o s (mkProc m (p_kern s) (errno s) (streams s)).
Proof. intros Ho Hm. by split. Qed.

Lemma conv_not_e it k : conv_of it = Some k -> (k =? 101) || (k =? 69) = false.
Proof. destruct it as [|?|?|[]|?|?| |?|]; intros [= <-]; reflexivity. Qed.

Lemma store_literal a c m : st8 a (i8 c) m = write_bytes a [c] m.
Proof. cbn [write_bytes]. unfold st8. by rewrite u8_i8. Qed.

(** One directive. *)
Lemma convert_f_runs fuel it k t ap m : conv_of it = Some k -> item_ok buf 4096 m it -> (item_fuel it <= fuel)%nat -> words_at m ap (args_of it) ->
  0 <= ap -> ap + 4 * Z.of_nat (length (args_of it)) < 4294967296 -> Z.of_nat (length t) + Z.of_nat (length (text_of it)) <= 4096 ->
  convert_f pf pg fuel buf (Z.of_nat (length t)) ap k (-1) m
  = Ret (Z.of_nat (length (t ++ text_of it)), ap + 4 * Z.of_nat (length (args_of it))) (write_bytes (buf + Z.of_nat (length t)) (text_of it) m).
Proof.
  intros Hk Hok Hf Hw H0' He Hl. unfold convert_f. rewrite (conv_not_e it k Hk). unfold BUF_SIZE.
  rewrite (convert_ok pf pg buf 4096 Hbuf Hend fuel (Z.of_nat (length t)) ap m it k) by (done || lia).
  unfold printed_pos, printed. rewrite take_ge by lia. rewrite Z.min_l, length_app by lia. do 2 f_equal. lia.
Qed.

Lemma vfprintf_loop_runs f st its : forall fuel format t o ap s, streams s !! st = Some f -> 0 <= f_fd f < 2147483648 ->
  output (p_kern s) (f_fd f) = Some o -> read_bytes_at (length t) buf (p_ram s) = t -> Z.of_nat (length t) <= 4096 ->
  call_ok buf 4096 (p_ram s) format ap its -> fits (Z.of_nat (length t)) its -> (all_fuel its <= fuel)%nat ->
  runs (vfprintf_loop unset pf pg fuel buf st format (Z.of_nat (length t)) ap) s (fun pos s' => exists t' o', pos = Z.of_nat (length t') /\ pos <= 4096
    /\ read_bytes_at (length t') buf (p_ram s') = t' /\ sent (f_fd f) o' s s' /\ o' ++ t' = o ++ t ++ all_text its).
Proof.
  induction its as [|it its IH]; intros fuel format t o ap s Ef Hfd Ho Ht Hl Hc Hfit Hf; (destruct fuel as [|fuel]; [unfold all_fuel in Hf; lia|]); cbn [vfprintf_loop].
  - pose proof (co_format _ _ _ _ _ _ Hc) as E. cbn in E. apply runs_bind, ram_runs, runs_gets. unfold char_of. rewrite E. apply runs_ret.
    exists t, o. split; [done|]. split; [done|]. split; [done|]. split; [by apply sent_ram|]. cbn. by rewrite app_nil_r.
  - assert (Hfuel : (item_fuel it <= fuel /\ all_fuel its <= fuel)%nat) by (unfold all_fuel in *; cbn in Hf; destruct it; simpl in *; lia).
    pose proof (co_items _ _ _ _ _ _ Hc) as Hits. apply Forall_cons in Hits as [Hit _].
    pose proof (fun m' Hm => call_ok_tail buf 4096 Hbuf ltac:(lia) (p_ram s) m' format ap it its Hm Hc) as Htl.
    destruct Hc as [_ Hfm Hfr _ Hw Har _].
    change (all_fmt (it :: its)) with (fmt_of it ++ all_fmt its) in *. change (all_args (it :: its)) with (args_of it ++ all_args its) in *.
    change (all_text (it :: its)) with (text_of it ++ all_text its). rewrite !length_app in *. cbn [fits] in Hfit.
    pose proof (text_of_bytes _ _ _ Hit) as Hby.
    destruct (conv_of it) as [k|] eqn:Ek.
    + rewrite (fmt_of_conv it k Ek) in *. cbn [app str_at length] in *. destruct Hfm as (F0 & F1 & _). destruct (conv_plain it k Ek) as [Hk Hplain].
      assert (C0 : char_of (p_ram s) format = 37) by (rewrite char_of_small; lia).
      apply runs_bind, ram_runs, runs_gets. rewrite C0. change (37 =? 0) with false. change (37 =? 37) with true. cbn [negb]. rewrite (u32_small (format + 1)) by lia.
      assert (C1 : char_of (p_ram s) (format + 1) = k) by (rewrite char_of_small; lia).
      apply runs_bind, ram_runs. cbn [p_ram].
      eexists _, _. split; [exact (parse_spec_plain fuel (format + 1) (p_ram s) k ltac:(destruct it; simpl in *; lia) C1 Hplain)|].
      apply runs_bind, ram_runs, runs_gets. cbn [p_ram]. rewrite C1. apply runs_bind, ram_runs. cbn [p_ram p_kern errno streams].
      eexists _, _. split; [apply (convert_f_runs fuel it k t ap); try done; [lia|by eapply words_at_app_l|lia|lia|lia]|]. cbv beta iota.
      rewrite u32_small by lia. set (m1 := write_bytes _ (text_of it) _).
      assert (Hm1 : forall x, x < buf \/ buf + 4096 <= x -> ld8 m1 x = ld8 (p_ram s) x) by (intros x Hx; apply ld8_write_bytes_other; lia).
      eapply runs_mono; [apply (IH fuel (format + 1 + 1) (t ++ text_of it) o); cbn [p_ram p_kern streams]; try done|].
      * by apply read_bytes_appended.
      * rewrite length_app. lia.
      * replace (format + 1 + 1) with (format + Z.of_nat 2) by lia. by apply Htl.
      * rewrite length_app, Nat2Z.inj_add. apply Hfit.
      * apply Hfuel.
      * intros pos s' (t' & o' & -> & Hp & Hr & Hs & E). exists t', o'. split; [done|]. split; [done|]. split; [done|].
        split; [exact (sent_trans _ _ _ _ _ _ (sent_ram _ _ s m1 Ho Hm1) Hs)|]. by rewrite E, <- !app_assoc.
    + destruct it as [c|?|?|?|?|?| |?|]; try done. cbn [fmt_of app str_at args_of text_of length] in *. destruct Hfm as [F0 _]. destruct Hit as [Hc Hne].
      apply runs_bind, ram_runs, runs_gets. unfold char_of. rewrite F0.
      pose proof (i8_ne c 0 ltac:(lia) ltac:(lia) ltac:(lia)). pose proof (i8_ne c 37 ltac:(lia) ltac:(lia) Hne).
      destruct (Z.eqb_spec (i8 c) 0); [lia|]. destruct (Z.eqb_spec (i8 c) 37); [lia|]. cbn [negb].
      apply runs_bind, ram_runs, runs_modify. cbn [p_ram p_kern errno streams]. rewrite !u32_small by lia. rewrite store_literal. set (m1 := write_bytes _ [c] _).
      assert (Hm1 : forall x, x < buf \/ buf + 4096 <= x -> ld8 m1 x = ld8 (p_ram s) x) by (intros x Hx; apply ld8_write_bytes_other; simpl; lia).
      assert (Ht1 : read_bytes_at (length (t ++ [c])) buf m1 = t ++ [c]) by (by apply read_bytes_appended).
      specialize (Htl m1 Hm1). rewrite Z.add_0_r in Htl. change (format + Z.of_nat 1) with (format + 1) in Htl.
      set (s1 := mkProc m1 (p_kern s) (errno s) (streams s)). pose proof (sent_ram _ _ s m1 Ho Hm1) as Hs1. fold s1 in Hs1.
      destruct Hfit as [Hpos Hfit]. unfold BUF_SIZE. destruct (Z.leb_spec (4096 - 8) (Z.of_nat (length t) + 1)).
      * rewrite (proj2 (Z.leb_le 4088 _)) in Hfit by lia. apply runs_bind. eapply runs_mono; [apply (fwrite_runs f st o _ s1 Ef Hfd Ho); lia|].
        intros _ s2 [Hs2 Em]. replace (Z.to_nat (Z.of_nat (length t) + 1)) with (length (t ++ [c])) in Hs2 by (rewrite length_app; simpl; lia).
        cbn [p_ram s1] in Hs2. rewrite Ht1 in Hs2. pose proof (sent_trans _ _ _ _ _ _ Hs1 Hs2) as Hs12.
        eapply runs_mono; [apply (IH fuel (format + 1) [] (o ++ t ++ [c]) ap s2)|]; try done.
        -- by rewrite (sn_streams _ _ _ _ Hs12).
        -- apply Hs12.
        -- by rewrite Em.
        -- apply Hfuel.
        -- intros pos s' (t' & o' & -> & Hp & Hr & Hs & E). exists t', o'. split; [done|]. split; [done|]. split; [done|].
           split; [exact (sent_trans _ _ _ _ _ _ Hs12 Hs)|]. rewrite E. cbn. by rewrite <- !app_assoc.
      * rewrite (proj2 (Z.leb_gt 4088 _)) in Hfit by lia. assert (El : Z.of_nat (length t) + 1 = Z.of_nat (length (t ++ [c]))) by (rewrite length_app; simpl; lia).
        rewrite El in *. eapply runs_mono; [apply (IH fuel (format + 1) (t ++ [c]) o ap s1)|]; try done.
        -- lia.
        -- apply Hfuel.
        -- intros pos s' (t' & o' & -> & Hp & Hr & Hs & E). exists t', o'. split; [done|]. split; [done|]. split; [done|].
           split; [exact (sent_trans _ _ _ _ _ _ Hs1 Hs)|]. by rewrite E, <- !app_assoc.
Qed.

(** C36: formatted output of the user library reaches its descriptor.  For any list of
    literal characters and directives (%d %u %x %X %p %s %c %%) with its arguments in
    memory, whose text has at most 4096 bytes, or is of any length but has no more
    than 8 bytes of directives between two literal characters, [fprintf] returns 0, the bytes added to the stream's descriptor are exactly the
    text, in order, whatever it was flushed in, no other descriptor gets anything,
    and no memory outside the buffer changes. *)
Theorem fprintf_sends f st its fuel format ap o s : streams s !! st = Some f -> 0 <= f_fd f < 2147483648 -> output (p_kern s) (f_fd f) = Some o ->
  call_ok buf 4096 (p_ram s) format ap its ->
  (length (all_text its) <= 4096 \/ longest_run 0 its <= 8)%nat -> (all_fuel its <= fuel)%nat ->
  exists s', fprintf unset pf pg fuel buf st format ap s = Ret 0 s' /\ sent (f_fd f) (o ++ all_text its) s s'.
Proof.
  intros Ef Hfd Ho Hc Hshort Hf.
  assert (Hfit : fits 0 its) by (destruct Hshort; [apply short_fits|apply (runs_fit its 0)]; lia). cut (runs (fprintf unset pf pg fuel buf st format ap) s (fun r s' => r = 0 /\ sent (f_fd f) (o ++ all_text its) s s')).
  { intros (r & s' & E & -> & Hs). by exists s'. }
  unfold fprintf, __vfprintf. apply runs_bind. eapply runs_mono; [apply (vfprintf_loop_runs f st its fuel format [] o ap s); done|].
  intros pos s1 (t & o' & -> & Hp & Hr & Hs & E). cbn in E. apply runs_bind. destruct (Z.ltb_spec 0 (Z.of_nat (length t))).
  - apply runs_bind. eapply runs_mono; [apply (fwrite_runs f st o' _ s1); [by rewrite (sn_streams _ _ _ _ Hs)|done|apply Hs|lia]|].
    intros _ s2 [Hs2 _]. rewrite Nat2Z.id, Hr, E in Hs2. apply runs_ret, runs_ret. split; [done|]. exact (sent_trans _ _ _ _ _ _ Hs Hs2).
  - destruct t; [|simpl in *; lia]. rewrite app_nil_r in E. apply runs_ret, runs_ret. split; [done|]. by rewrite <- E.
Qed.
End Writing.

(** * A kernel with files in memory *)

(** It hands out at most two bytes per read, and notes the calls it gets. *)
Record demo_kernel := mkKernel { d_in : gmap Z (list Z); d_out : gmap Z (list Z); d_log : list (Z * Z) }.
Definition demo_trap (eax ebx ecx edx : Z) (m : ram) (k : demo_kernel) : Z * (ram * demo_kernel) :=
  let log := d_log k ++ [(eax, ebx)] in
  if eax =? __NR_read then
    match d_in k !! ebx with
    | Some l => let r := Nat.min (Nat.min (Z.to_nat edx) 2) (length l) in
                (Z.of_nat r, (write_bytes ecx (take r (map u8 l)) m, mkKernel (<[ebx := drop r l]> (d_in k)) (d_out k) log))
    | None => (4294967295, (m, k))
    end
  else if eax =? __NR_write then
    match d_out k !! ebx with
    | Some o => (edx, (m, mkKernel (d_in k) (<[ebx := o ++ read_bytes_at (Z.to_nat edx) ecx m]> (d_out k)) log))
    | None => (4294967295, (m, k))
    end
  else if eax =? __NR_open then (9, (m, mkKernel (d_in k) (d_out k) log))
  else (4294967295, (m, mkKernel (d_in k) (d_out k) log)).
#[export] Instance demo_sys : Sys demo_kernel := {|
  int80 eax ebx ecx edx _ _ '(m, k) := let '(v, s) := demo_trap eax ebx ecx edx m k in Ret v s
|}.
#[export, program] Instance demo_files : FileSys demo_kernel := {|
  input k fd := map u8 <$> d_in k !! fd; output k fd := d_out k !! fd
|}.
Next Obligation.
  intros k fd l Hi. simpl in Hi. destruct (d_in k !! fd) as [l0|]; [|discriminate Hi]. injection Hi as <-. apply Forall_forall. intros x [y [<- _]]%list_elem_of_In%in_map_iff. apply u8_range.
Qed.
Next Obligation.
  intros m k fd buf n l esi edi Hi Hb Hn He. simpl in Hi. destruct (d_in k !! fd) as [l0|] eqn:E; [|discriminate Hi]. injection Hi as <-.
  exists (Nat.min (Nat.min (Z.to_nat n) 2) (length l0)). eexists. split; [unfold int80, demo_sys, demo_trap; simpl; rewrite E; reflexivity|].
  rewrite length_map. split; [lia|]. split; [lia|]. split; [|split; [|split]].
  - intros Hr. destruct l0; [by right|]. left. simpl in Hr. lia.
  - simpl. rewrite lookup_insert_eq. simpl. by rewrite skipn_map.
  - intros g Hg. simpl. by rewrite lookup_insert_ne.
  - done.
Qed.
Next Obligation.
  intros m k fd buf n o esi edi Ho Hb Hn He. eexists. split; [unfold int80, demo_sys, demo_trap; simpl; rewrite Ho; reflexivity|].
  split; [simpl; by rewrite lookup_insert_eq|]. split; [intros g Hg; simpl; by rewrite lookup_insert_ne|done].
Qed.

(** Standard input holds two lines; standard output is open. *)
Definition demo_proc (m : ram) : proc demo_kernel :=
  mkProc m (mkKernel {[0 := [97; 98; 10; 99]]} {[1 := []]} []) 0 initial_streams.

Lemma stream_refines_witness : exists s', fgets 0 50 100 10 stdin (demo_proc ∅) = Ret 100 s' /\ read_bytes_at 4 100 (p_ram s') = [97; 98; 10; 0]
  /\ stream_at s' stdin (mkStream None [99] false).
Proof.
  destruct (stream_refines 0 50 stdin (Fgets 100 10) (mkStream None [97; 98; 10; 99] false) (demo_proc ∅)) as (r & s' & a' & E & He & Hs & _).
  - exists (std_stream 0). split; [reflexivity|]. split; [cbn; lia|]. repeat split.
  - split; [lia|]. cbn. lia.
  - destruct He as (-> & -> & Hr). exists s'. split; [exact E|]. split; [exact Hr|exact Hs].
Defined.

Lemma fprintf_sends_witness : exists s', fprintf 0 (fun _ pos _ _ _ => mret pos) (fun _ pos _ _ _ => mret pos) 20 1000 stdout 100 200 (demo_proc hello_call) = Ret 0 s'
  /\ d_out (p_kern s') !! 1 = Some [118; 61; 45; 52; 50; 32; 111; 107].
Proof.
  destruct (fprintf_sends 0 (fun _ pos _ _ _ => mret pos) (fun _ pos _ _ _ => mret pos) 1000 ltac:(lia) ltac:(lia) (std_stream 1) stdout hello_items 20 100 200 []
    (demo_proc hello_call) eq_refl ltac:(cbn; lia)) as (s' & E & Hs).
  - reflexivity.
  - apply hello_call_ok. lia.
  - left. vm_compute. lia.
  - vm_compute. lia.
  - exists s'. split; [exact E|]. exact (sn_out _ _ _ _ _ Hs).
Defined.

(** A text longer than the buffer goes out in two writes. *)
Example fprintf_long :
  match fprintf 0 (fun _ pos _ _ _ => mret pos) (fun _ pos _ _ _ => mret pos) 5001 1000 stdout 20000 200
          (demo_proc (write_bytes 20000 (replicate 5000 65 ++ [0]) ∅)) with
  | Ret _ s' => (bool_decide (d_out (p_kern s') !! 1 = Some (replicate 5000 65)), length (d_log (p_kern s')))
  | _ => (false, 0%nat) end = (true, 2%nat).
Proof. vm_compute. reflexivity. Qed.

(** ** What goes wrong outside these conditions *)

(** A literal after a directive that fills the buffer is stored behind it. *)
Example vfprintf_overruns :
  let m := write_bytes 100 [37; 115; 33; 0] (st32 200 10000 (write_bytes 10000 (replicate 4096 65 ++ [0]) ∅)) in
  match fprintf 0 (fun _ pos _ _ _ => mret pos) (fun _ pos _ _ _ => mret pos) 5000 1000 stdout 100 200 (demo_proc m) with
  | Ret _ s' => (ld8 m (1000 + 4096), ld8 (p_ram s') (1000 + 4096)) | _ => (0, 0) end = (0, 33).
Proof. vm_compute. reflexivity. Qed.

(** With no free stream, [fopen] opens a descriptor, returns a null pointer and
    never closes the descriptor. *)
Example fopen_full_leaks :
  let full := [std_stream 0; std_stream 1; std_stream 2] ++ replicate 16 (mkFILE 5 0 0 2 0 0 0 0 (-1) 1) in
  match fopen 0 10 300 400 (mkProc (write_bytes 400 [114; 0] ∅) (mkKernel ∅ ∅ []) 0 full) with
  | Ret r s' => (r, d_log (p_kern s')) | _ => (None, []) end = (None, [(__NR_open, 300)]).
Proof. vm_compute. reflexivity. Qed.

(** Reading no elements stores the character that was pushed back, loses it and
    counts it; an element size of zero divides by zero. *)
Example fread_of_nothing :
  let s := mkProc ∅ (mkKernel ∅ ∅ []) 0 [mkFILE 0 0 0 2 0 0 0 0 65 0] in
  match fread 0 500 1 0 0 s with Ret r s' => (r, ld8 (p_ram s') 500, f_ungetc <$> streams s' !! 0%nat) | _ => (0, 0, None) end = (1, 65, Some (-1))
  /\ match fread 0 500 0 1 0 s with Halted _ => true | _ => false end = true.
Proof. split; vm_compute; reflexivity. Qed.
