(* ===== verification/LibcMisc.v ===== *)
(** The small parts of the user C library (user/src/libc.c): non-local jumps, time
    and its text, error messages, locale and signals.

    [setjmp] and [longjmp] are machine code: registers are a record, the stack and
    the jump buffer are memory. *)
From S2P Require Import Prelude LibcString LibcNum LibcFmt.

(** * setjmp.h *)

Record regs := mkRegs { eax : Z; ebx : Z; edx : Z; esi : Z; edi : Z; ebp : Z; esp : Z; eip : Z }.
Abbreviation JM := (M (regs * ram)).

(** At entry [esp] holds the return address and [esp + 4] the argument; [ret] pops
    the return address. *)
Definition setjmp : JM unit := modify (fun '(r, m) =>
  let env := ld32 m (u32 (esp r + 4)) in
  let m := st32 env (ebx r) m in
  let m := st32 (u32 (env + 4)) (esi r) m in
  let m := st32 (u32 (env + 8)) (edi r) m in
  let m := st32 (u32 (env + 12)) (ebp r) m in
  let m := st32 (u32 (env + 16)) (u32 (esp r + 4)) m in
  let ret := ld32 m (esp r) in
  let m := st32 (u32 (env + 20)) ret m in
  (mkRegs 0 (ebx r) ret (esi r) (edi r) (ebp r) (u32 (esp r + 4)) (ld32 m (esp r)), m)).

Definition longjmp : JM unit := modify (fun '(r, m) =>
  let env := ld32 m (u32 (esp r + 4)) in
  let val := ld32 m (u32 (esp r + 8)) in
  (mkRegs (if val =? 0 then 1 else val) (ld32 m env) env (ld32 m (u32 (env + 4))) (ld32 m (u32 (env + 8))) (ld32 m (u32 (env + 12)))
     (ld32 m (u32 (env + 16))) (ld32 m (u32 (env + 20))), m)).

(** [longjmp] comes back from [setjmp]: if the jump buffer is as [setjmp] left it,
    execution goes on where [setjmp] returned to, with the registers a callee must
    save and the stack pointer of then, and [eax] is the value given, or 1 for 0. *)
Theorem longjmp_returns r m r1 m1 r2 m2 :
  let env := ld32 m (u32 (esp r + 4)) in
  in_u32 (ebx r) -> in_u32 (esi r) -> in_u32 (edi r) -> in_u32 (ebp r) -> 0 <= esp r -> esp r + 8 <= 4294967296 -> 0 <= env -> env + 24 <= 4294967296 ->
  (env + 24 <= esp r \/ esp r + 4 <= env) -> ram_ok m ->
  setjmp (r, m) = Ret tt (r1, m1) ->
  (forall x, env <= x < env + 24 -> ld8 m2 x = ld8 m1 x) -> ld32 m2 (u32 (esp r2 + 4)) = env ->
  exists r3, longjmp (r2, m2) = Ret tt (r3, m2) /\ eip r3 = eip r1 /\ esp r3 = esp r1 /\ eip r1 = ld32 m (esp r)
    /\ ebx r3 = ebx r1 /\ esi r3 = esi r1 /\ edi r3 = edi r1 /\ ebp r3 = ebp r1
    /\ eax r1 = 0 /\ eax r3 = (if ld32 m2 (u32 (esp r2 + 8)) =? 0 then 1 else ld32 m2 (u32 (esp r2 + 8))).
Proof.
  intros env Hb Hs Hd Hp He1 He2 Hv1 Hv2 Hap Hm Hset Hkeep Henv. unfold setjmp, modify in Hset. fold env in Hset. injection Hset as Hr1 Hm1.
  repeat (rewrite (u32_small (env + _)) in * by lia). rewrite (u32_small (esp r + 4)) in Hr1, Hm1 by lia.
  set (m0 := st32 (env + 16) _ _) in *.
  assert (E0 : ld32 m0 (esp r) = ld32 m (esp r)) by (unfold m0; repeat rewrite ld32_st32_other by lia; done). rewrite !E0 in *.
  rewrite ld32_st32_other, E0 in Hr1 by lia.
  assert (Hret : in_u32 (ld32 m (esp r))) by by apply ld32_range.
  assert (Hl : forall k v, 0 <= k <= 20 -> ld32 m1 (env + k) = v -> ld32 m2 (env + k) = v).
  { intros k v Hk <-. apply ld32_ext. intros x Hx. apply Hkeep. lia. }
  unfold longjmp, modify. rewrite Henv. eexists. split; [reflexivity|]. cbn [eip esp ebx esi edi ebp eax]. rewrite <- (Z.add_0_r env) at 3.
  repeat (rewrite (u32_small (env + _)) by lia). subst r1. cbn [eip esp ebx esi edi ebp eax].
  repeat split; try (apply Hl; [lia|rewrite <- Hm1; unfold m0]); rewrite ?Z.add_0_r; repeat first [rewrite ld32_st32_eq by (done || lia) | rewrite ld32_st32_other by lia]; done.
Qed.

Lemma longjmp_returns_witness : exists r1 m1 r3, setjmp (mkRegs 7 1 2 3 4 5 1000 9000, st32 1004 2000 (st32 1000 555 ∅)) = Ret tt (r1, m1)
  /\ longjmp (mkRegs 0 0 0 0 0 0 800 0, st32 808 0 (st32 804 2000 m1)) = Ret tt (r3, st32 808 0 (st32 804 2000 m1))
  /\ eip r3 = 555 /\ esp r3 = 1004 /\ eax r3 = 1 /\ ebx r3 = 1.
Proof.
  set (r := mkRegs 7 1 2 3 4 5 1000 9000). set (m := st32 1004 2000 (st32 1000 555 ∅)).
  destruct (setjmp (r, m)) as [[] [r1 m1]| |] eqn:E; [|discriminate E..].
  assert (Henv : ld32 m (u32 (esp r + 4)) = 2000) by reflexivity.
  destruct (longjmp_returns r m r1 m1 (mkRegs 0 0 0 0 0 0 800 0) (st32 808 0 (st32 804 2000 m1))) as (r3 & E3 & H1 & H2 & H3 & H4 & _ & _ & _ & _ & H5);
    rewrite ?Henv; [cbn; lia..| | | | |].
  - unfold m. apply ram_ok_st32, ram_ok_st32. intros a. vm_compute. by split.
  - exact E.
  - intros x Hx. rewrite !ld8_st32_other by lia. done.
  - change (u32 (esp _ + 4)) with 804. rewrite ld32_st32_other, ld32_st32_eq by lia. done.
  - change (u32 (esp _ + 8)) with 808 in H5. rewrite ld32_st32_eq in H5 by lia. exists r1, m1, r3. split; [done|]. split; [exact E3|]. rewrite H1, H2, H5, H4. injection E as <- _. repeat split.
Defined.

(** * time.h *)

Record tm := mkTm { tm_sec : Z; tm_min : Z; tm_hour : Z; tm_mday : Z; tm_mon : Z; tm_year : Z; tm_wday : Z; tm_yday : Z; tm_isdst : Z }.

(** There is no clock: the time is always the epoch. *)
Definition time (tloc : Z) : M ram Z := (if tloc =? 0 then mret tt else modify (st32 tloc 0)) ;; mret 0.
Definition clock : Z := -1.
Definition gmtime (t : Z) : tm := mkTm 0 0 0 1 0 70 4 0 0.
Definition localtime (t : Z) : tm := gmtime t.
Definition mktime (t : tm) : Z := 0.

(** [for (p = buf; *p && pos < max - 1; p++) s[pos++] = *p], with the text of [buf]. *)
Fixpoint put_text (text : list Z) (s pos room : Z) : M ram Z :=
  match text with
  | [] => mret pos
  | c :: text' => if pos <? room then modify (st8 (u32 (s + pos)) c) ;; put_text text' s (pos + 1) room else mret pos
  end.
(** The first digit is stored without a test. *)
Definition put_two (v s pos room : Z) : M ram Z :=
  modify (st8 (u32 (s + pos)) (48 + Z.quot v 10)) ;;
  let pos := pos + 1 in
  if pos <? room then modify (st8 (u32 (s + pos)) (48 + Z.rem v 10)) ;; mret (pos + 1) else mret pos.

(** The switch; [snprintf] into eight bytes leaves at most seven characters. *)
Definition time_field (c : Z) (t : tm) (s pos room : Z) : M ram Z :=
  if c =? 89 then put_text (take 7 (int_text (i32 (tm_year t + 1900)))) s pos room
  else if c =? 109 then put_two (i32 (tm_mon t + 1)) s pos room
  else if c =? 100 then put_two (tm_mday t) s pos room
  else if c =? 72 then put_two (tm_hour t) s pos room
  else if c =? 77 then put_two (tm_min t) s pos room
  else if c =? 83 then put_two (tm_sec t) s pos room
  else if c =? 115 then put_text [48] s pos room
  else modify (st8 (u32 (s + pos)) c) ;; mret (pos + 1).

(** [room] is [max - 1], which wraps when [max] is zero. *)
Fixpoint strftime_loop (fuel : nat) (s room format pos : Z) (t : tm) : M ram Z :=
  match fuel with
  | O => out_of_fuel
  | S fuel' =>
      c ← gets (fun m => char_of m format);
      if negb (negb (c =? 0) && (pos <? room)) then mret pos
      else if negb (c =? 37) then modify (st8 (u32 (s + pos)) c) ;; strftime_loop fuel' s room (u32 (format + 1)) (pos + 1) t
      else
        conv ← gets (fun m => char_of m (u32 (format + 1)));
        pos ← time_field conv t s pos room;
        strftime_loop fuel' s room (u32 (format + 2)) pos t
  end.
Definition strftime (fuel : nat) (s max format : Z) (t : tm) : M ram Z :=
  pos ← strftime_loop fuel s (u32 (max - 1)) format 0 t;
  modify (st8 (u32 (s + pos)) 0) ;; mret pos.

(** * Messages, locale, signals, files that are never there *)

Definition codes_of (s : string) : list Z := map (fun a => Z.of_nat (Ascii.nat_of_ascii a)) (String.list_ascii_of_string s).
Definition strerror (errnum : Z) : list Z :=
  codes_of (if errnum =? 33 then "Domain error" else if errnum =? 34 then "Range error" else if errnum =? 22 then "Invalid argument"
            else if errnum =? 2 then "No such file or directory" else if errnum =? 13 then "Permission denied" else if errnum =? 12 then "Out of memory"
            else "Unknown error").
Definition setlocale (category locale : Z) : list Z := codes_of "C".
Definition signal (sig func : Z) : Z := 0.
Definition raise (sig : Z) : Z := -1.
Definition remove (path : Z) : Z := -1.
Definition rename (oldPath newPath : Z) : Z := -1.
Definition getenv (name : Z) : Z := 0.
Definition tmpfile : Z := 0.
(** [name] is the address of the static array, which holds "/tmpXXXXXX". *)
Definition tmpnam (fuel : nat) (name s : Z) : M ram Z := if s =? 0 then mret name else strcpy fuel s name ;; mret s.

(** ** The text of a time stays in its buffer *)

Section Strftime.
Context (s max : Z) (Hs : 0 <= s) (Hmax : 1 <= max < 2147483648) (Hend : s + max <= 4294967296) (t : tm).
Abbreviation room := (max - 1).

(** [c] stores only in the buffer and ends with a position that leaves room for the
    terminator. *)
Definition stays_in (c : M ram Z) : Prop := forall m, runs c m (fun pos m' => 0 <= pos <= room /\ forall x, x < s \/ s + max <= x -> ld8 m' x = ld8 m x).

Lemma put_ok c pos m x : 0 <= pos <= room -> x < s \/ s + max <= x -> ld8 (st8 (u32 (s + pos)) c m) x = ld8 m x.
Proof. intros Hp Hx. rewrite u32_small by lia. rewrite ld8_st8. by destruct (Z.eqb_spec x (s + pos)); [lia|]. Qed.
Lemma stay_ret pos : 0 <= pos <= room -> stays_in (mret pos).
Proof. intros Hp m. by apply runs_ret. Qed.
Lemma stay_put c pos k : 0 <= pos <= room -> stays_in k -> stays_in (modify (st8 (u32 (s + pos)) c) ;; k).
Proof.
  intros Hp Hk m. apply runs_bind, runs_modify. eapply runs_mono; [apply Hk|]. intros p m' [Hp' Hm]. split; [done|]. intros x Hx. by rewrite Hm, put_ok.
Qed.
Lemma stay_text l : forall pos, 0 <= pos <= room -> stays_in (put_text l s pos room).
Proof. induction l as [|c l IH]; intros pos Hp; cbn [put_text]; [by apply stay_ret|]. destruct (Z.ltb_spec pos room); [|by apply stay_ret]. apply stay_put; [done|]. apply IH. lia. Qed.
Lemma stay_two v pos : 0 <= pos < room -> stays_in (put_two v s pos room).
Proof. intros Hp. apply stay_put; [lia|]. cbv zeta. destruct (Z.ltb_spec (pos + 1) room); [apply stay_put; [lia|]|]; apply stay_ret; lia. Qed.
Lemma stay_field c pos : 0 <= pos < room -> stays_in (time_field c t s pos room).
Proof.
  intros Hp. unfold time_field.
  repeat first [apply stay_text; lia | apply stay_two; done | apply stay_put; [lia|apply stay_ret; lia] | match goal with |- stays_in (if ?b then _ else _) => destruct b end].
Qed.

(** A format with no directive cut off by its end. *)
Inductive time_format : list Z -> Prop :=
  | tf_nil : time_format []
  | tf_lit c l : 0 < c < 256 -> c <> 37 -> time_format l -> time_format (c :: l)
  | tf_conv c l : 0 < c < 256 -> time_format l -> time_format (37 :: c :: l).

Lemma strftime_loop_stays fs : time_format fs -> forall fuel format pos m, (length fs < fuel)%nat -> str_at m format fs -> 0 <= format ->
  format + Z.of_nat (length fs) < 4294967296 -> apart format (Z.of_nat (length fs) + 1) s max -> 0 <= pos <= room ->
  runs (strftime_loop fuel s room format pos t) m (fun pos' m' => 0 <= pos' <= room /\ forall x, x < s \/ s + max <= x -> ld8 m' x = ld8 m x).
Proof.
  unfold apart. induction 1 as [|c l Hc H37 Hl IH|c l Hc Hl IH]; intros fuel format pos m Hf Hat H0 He Hap Hp; (destruct fuel as [|fuel]; [simpl in Hf; lia|]);
    cbn [strftime_loop str_at length] in *; apply runs_bind, runs_gets.
  - unfold char_of. rewrite Hat. by apply runs_ret.
  - destruct Hat as [Hh Ht]. unfold char_of. rewrite Hh. pose proof (i8_ne c 0 ltac:(lia) ltac:(lia) ltac:(lia)). pose proof (i8_ne c 37 ltac:(lia) ltac:(lia) H37).
    rewrite (proj2 (Z.eqb_neq (i8 c) 0)), (proj2 (Z.eqb_neq (i8 c) 37)) by done. cbn [negb andb].
    destruct (Z.ltb_spec pos room); cbn [negb]; [|by apply runs_ret]. apply runs_bind, runs_modify. rewrite (u32_small (format + 1)) by lia.
    eapply runs_mono; [apply (IH fuel (format + 1)); try lia|].
    + eapply str_at_ext; [|exact Ht]. intros x Hx. apply put_ok; lia.
    + intros p m' [Hp' Hm]. split; [done|]. intros x Hx. rewrite Hm by done. apply put_ok; lia.
  - destruct Hat as (Hh & Hh1 & Ht). assert (char_of m format = 37) as -> by (unfold char_of; by rewrite Hh). change (negb (37 =? 0)) with true. change (37 =? 37) with true. cbn [andb].
    destruct (Z.ltb_spec pos room); cbn [negb]; [|by apply runs_ret]. apply runs_bind, runs_gets, runs_bind. rewrite (u32_small (format + 2)) by lia.
    eapply runs_mono; [apply stay_field; lia|]. intros p m1 [Hp1 Hm1]. eapply runs_mono; [apply (IH fuel (format + 2)); try lia|].
    + replace (format + 2) with (format + 1 + 1) by lia. eapply str_at_ext; [|exact Ht]. intros x Hx. apply Hm1. lia.
    + intros p' m' [Hp' Hm]. split; [done|]. intros x Hx. by rewrite Hm, Hm1.
Qed.

(** [strftime] returns on every format with no directive cut off, reports a length
    below [max], and writes only the buffer. *)
Theorem strftime_in_buffer fuel format fs m : time_format fs -> (length fs < fuel)%nat -> str_at m format fs -> 0 <= format ->
  format + Z.of_nat (length fs) < 4294967296 -> apart format (Z.of_nat (length fs) + 1) s max ->
  exists pos m', strftime fuel s max format t m = Ret pos m' /\ 0 <= pos < max /\ ld8 m' (s + pos) = 0 /\ forall x, x < s \/ s + max <= x -> ld8 m' x = ld8 m x.
Proof.
  intros Hfs Hf Hat H0 He Hap. unfold strftime. rewrite u32_small by lia.
  destruct (strftime_loop_stays fs Hfs fuel format 0 m Hf Hat H0 He Hap ltac:(lia)) as (pos & m1 & E & Hp & Hm).
  rewrite (bind_ret _ _ _ _ _ E). erewrite bind_ret by reflexivity. eexists _, _. split; [reflexivity|]. split; [lia|].
  rewrite (u32_small (s + pos)) by lia. split; [by rewrite ld8_st8, Z.eqb_refl|]. intros x Hx. rewrite ld8_st8. destruct (Z.eqb_spec x (s + pos)); [lia|]. by apply Hm.
Qed.
End Strftime.

Example strftime_epoch : (match strftime 30 1000 32 100 (gmtime 0) (write_bytes 100 (codes_of "%Y-%m-%d %H:%M" ++ [0]) ∅) with
  | Ret n m' => Some (n, read_bytes_at 17 1000 m') | _ => None end) = Some (16, codes_of "1970-01-01 00:00" ++ [0]).
Proof. vm_compute. reflexivity. Qed.
(** A buffer of size zero is not respected. *)
Example strftime_size_zero : (match strftime 30 1000 0 100 (gmtime 0) (write_bytes 100 [65; 66; 0] ∅) with
  | Ret n m' => Some (n, read_bytes_at 3 1000 m') | _ => None end) = Some (2, [65; 66; 0]).
Proof. vm_compute. reflexivity. Qed.
