(* ===== verification/Programs.v ===== *)
(** The first two user programs: user/src/init.c and user/src/getty.c, on the C
    library (LibcStream).  Their string literals and arrays lie at fixed addresses of
    the image; the endless loop at the end of init stops the computation. *)
From S2P Require Import Prelude LibcString LibcNum LibcFmt LibcStream.

Definition TIOCSCTTY : Z := 21518.

(** * The images *)

(** The codes of a literal. *)
Definition codes (s : string) : list Z := map (fun a => Z.of_nat (Ascii.nat_of_ascii a)) (String.list_ascii_of_string s).

(** Literals of init: the first message, the second one, the path, the numbers. *)
Definition s_booting : Z := 65536.
Definition s_launching : Z := 65568.
Definition s_getty : Z := 65632.
Definition s_num (i : nat) : Z := 65648 + 2 * Z.of_nat i.
(** Its frame: [getty_argv], the arguments and the buffer of [printf]. *)
Definition getty_argv : Z := 131072.
Definition printf_args : Z := 131088.
Definition printf_buf : Z := 131104.
Definition init_image : ram :=
  write_bytes s_booting (codes "init: booting" ++ [10; 0]) (write_bytes s_launching (codes "init: launching getty on tty%d" ++ [10; 0])
    (write_bytes s_getty (codes "/getty.elf" ++ [0]) (write_bytes (s_num 0) [48; 0; 49; 0; 50; 0; 51; 0] ∅))).

(** Literals of getty. *)
Definition s_login : Z := 65536.
Definition s_lua : Z := 65568.
Definition lua_argv : Z := 131072.
Definition getty_image : ram := write_bytes s_login (codes "tty%d login: " ++ [10; 0]) (write_bytes s_lua (codes "/lua.elf" ++ [0]) ∅).

Section Programs.
Context {K : Type} `{Sys K} (unset : Z) (pf pg : Z -> Z -> Z -> Z -> Z -> M ram Z) (fuel : nat).
Abbreviation PM := (M (proc K)).

(** * init.c *)

Definition spawn_background (path tty argv : Z) : PM unit :=
  pid ← fork unset;
  if negb (pid =? 0) then mret tt
  else
    (if 0 <=? tty then ioctl unset 0 TIOCSCTTY (u32 tty) ;; mret tt else mret tt) ;;
    child ← execv unset fuel path argv;
    exit unset (if 0 <=? child then 0 else 1).

(** One turn of the loop in [main], which makes [TTY_COUNT] of them. *)
Definition launch (i : nat) : PM unit :=
  on_ram (modify (fun m => st32 (getty_argv + 8) 0 (st32 (getty_argv + 4) (s_num i) (st32 getty_argv s_getty m)))) ;;
  on_ram (modify (st32 printf_args (Z.of_nat i + 1))) ;;
  printf unset pf pg fuel printf_buf s_launching printf_args ;;
  spawn_background s_getty (Z.of_nat i) getty_argv.
Definition init_main : PM unit :=
  printf unset pf pg fuel printf_buf s_booting printf_args ;;
  launch 0 ;; launch 1 ;; launch 2 ;; launch 3 ;;
  halt.

(** * getty.c *)

(** [argv] is the argument vector the kernel made. *)
Definition getty_main (argc argv : Z) : PM Z :=
  tty ← (if 1 <? argc then on_ram (a ← gets (fun m => ld32 m (u32 (argv + 4))); atoi fuel a) else mret 0);
  on_ram (modify (st32 printf_args (u32 (tty + 1)))) ;;
  printf unset pf pg fuel printf_buf s_login printf_args ;;
  on_ram (modify (fun m => st32 (lua_argv + 4) 0 (st32 lua_argv s_lua m))) ;;
  ioctl unset 0 TIOCSCTTY (u32 tty) ;;
  execv unset fuel s_lua lua_argv ;;
  mret 0.
End Programs.

(** * What they ask the kernel for *)

(** A kernel that notes the calls, and on which fork answers as it is told: [true]
    for the child.  A successful exec and exit do not return. *)
Inductive event := EWrite (fd : Z) (text : list Z) | EFork (pid : Z) | EIoctl (fd request arg : Z) | EExec (path : list Z) (argv : list (list Z)) | EExit (code : Z).
Record watched := mkWatched { forks : list bool; next_pid : Z; can_exec : bool; trace : list event }.

Fixpoint string_at (n : nat) (a : Z) (m : ram) : list Z :=
  match n with O => [] | S n' => if ld8 m a =? 0 then [] else ld8 m a :: string_at n' (a + 1) m end.
Fixpoint strings_at (n : nat) (a : Z) (m : ram) : list (list Z) :=
  match n with O => [] | S n' => string_at 64 (ld32 m a) m :: strings_at n' (a + 4) m end.
Definition note (e : event) (w : watched) : watched := mkWatched (forks w) (next_pid w) (can_exec w) (trace w ++ [e]).

#[export] Instance watched_sys : Sys watched := {|
  int80 eax ebx ecx edx _ _ '(m, w) :=
    if eax =? __NR_fork then
      match forks w with
      | child :: l => let pid := if child then 0 else next_pid w in Ret pid (m, note (EFork pid) (mkWatched l (next_pid w + 1) (can_exec w) (trace w)))
      | [] => Ret 4294967295 (m, w)
      end
    else if eax =? __NR_write then Ret edx (m, note (EWrite ebx (read_bytes_at (Z.to_nat edx) ecx m)) w)
    else if eax =? __NR_ioctl then Ret 0 (m, note (EIoctl ebx ecx edx) w)
    else if eax =? __NR_exec then
      if can_exec w then Halted (m, note (EExec (string_at 64 ebx m) (strings_at (Z.to_nat edx) ecx m)) w) else Ret 4294967295 (m, w)
    else if eax =? __NR_exit then Halted (m, note (EExit ebx) w)
    else Ret 4294967295 (m, w)
|}.
Definition boots (image : ram) (l : list bool) (ok : bool) : proc watched := mkProc image (mkWatched l 2 ok []) 0 initial_streams.
Definition events {A} (r : res (proc watched) A) : option (list event) := match r with Ret _ s | Halted s => Some (trace (p_kern s)) | NoFuel => None end.

Abbreviation no_float := (fun _ pos _ _ _ => mret pos).
Definition started (i : nat) : list event := [EWrite 1 (codes "init: launching getty on tty" ++ [49 + Z.of_nat i; 10]); EFork (2 + Z.of_nat i)].
Definition child_of (i : nat) : list event :=
  [EWrite 1 (codes "init: launching getty on tty" ++ [49 + Z.of_nat i; 10]); EFork 0; EIoctl 0 TIOCSCTTY (Z.of_nat i); EExec (codes "/getty.elf") [codes "/getty.elf"; [48 + Z.of_nat i]]].
Definition booting : event := EWrite 1 (codes "init: booting" ++ [10]).

(** Init starts one child for each of the four terminals and executes nothing itself;
    the child for terminal [i] takes that terminal and becomes getty with [i] as its
    argument. *)
Theorem init_launches : events (init_main 0 no_float no_float 64 (boots init_image [false; false; false; false] true)) = Some (booting :: flat_map started [0; 1; 2; 3]%nat)
  /\ forall i, (i < 4)%nat -> events (init_main 0 no_float no_float 64 (boots init_image (replicate i false ++ [true]) true)) = Some (booting :: flat_map started (seq 0 i) ++ child_of i).
Proof. split; [vm_compute; reflexivity|]. intros i Hi. do 4 (destruct i as [|i]; [vm_compute; reflexivity|]). lia. Qed.

(** A child whose exec fails exits with 1 and starts no terminals of its own. *)
Example init_child_fails : events (init_main 0 no_float no_float 64 (boots init_image [true] false))
  = Some [booting; EWrite 1 (codes "init: launching getty on tty" ++ [49; 10]); EFork 0; EIoctl 0 TIOCSCTTY 0; EExit 1].
Proof. vm_compute. reflexivity. Qed.

(** Getty prints its label, takes the terminal it was given and becomes Lua. *)
Theorem getty_becomes_lua i : (i < 4)%nat ->
  events (getty_main 0 no_float no_float 64 2 200 (boots (st32 204 300 (write_bytes 300 [48 + Z.of_nat i; 0] getty_image)) [] true))
  = Some [EWrite 1 (codes "tty" ++ [49 + Z.of_nat i] ++ codes " login: " ++ [10]); EIoctl 0 TIOCSCTTY (Z.of_nat i); EExec (codes "/lua.elf") [codes "/lua.elf"]].
Proof. intros Hi. do 4 (destruct i as [|i]; [vm_compute; reflexivity|]). lia. Qed.
